(* ===== verification/_CoqProject ===== *)
-Q . S2P
Prelude.v
Bitbase.v
BasefuncStd.v
Compression.v
BTree.v
JIndex.v
JIndexFacts.v
LockedFiles.v
Base64.v
NetworkStd.v
MapTime.v
Caches.v
CManager.v
DateTime.v
Streamer.v
Json.v
JsonReader.v
JsonReaderFacts.v
StreamerJson.v
BSearch.v
EManager.v
ClientPool.v
DiskHelper.v
Framing.v
Md5.v
Gost.v
DhDigits.v
Dh.v
DhFacts.v
DhPow.v
Session.v
SessionFacts.v
SessionRun.v
Hstf.v
WType.v
JdbInterface.v
JManager.v
JManagerFacts.v
DiskServer.v
DiskServerFacts.v
ServerJdb.v
Crc32.v
TtlRemover.v
Settings.v
CSearch.v
TcpHandler.v
PoolClient.v
CdbClient.v
ClientWrites.v
ClientRequests.v
ClientCommand.v
ClientReads.v
Main.v
ClientEvents.v
