(* ===== verification/Prelude.v ===== *)
(** * A verification of rssdisk

    rssdisk is a server that stores files, json databases, a key-value store and events, and a
    client library for it.  This development translates the program into Rocq functions and
    proves what its parts promise to each other.  The sources are under src/.

    ** The program and its model

    A client ([rssdisk/client/rssdisk_pool.cpp]) connects to several servers.  A server
    ([rssdisk/rssdisk]) takes requests over TCP ([clienttcphandler.hpp]) and answers them from
    the files of its directories ([disk_server.cpp] on [disk_helper.hpp]), from the json
    databases among them ([extentions/j_manager.cpp], [b_tree.cpp]), from a key-value store
    ([c_manager.cpp] on [libs/map_time.h]) or from an event store ([e_manager.cpp]).  Every
    write is logged ([hstf.cpp]); other servers poll the log and remove their older versions.
    Once an hour the server removes the files whose time to live has passed.  The connection
    between a client ([libs/network/tcp_client.cpp]) and a server ([libs/network/epoll_v2.cpp])
    carries delimited messages and may be encrypted: the two sides agree on a key with the big
    numbers of [libs/DH], and its text is the key of AES or of GOST 28147-89.

    Every file models one part; definitions have the names of the code.
    - [Bitbase] (libs/bitbase.h), [BasefuncStd] (libs/basefunc_std.h and .cpp), [DateTime]
      (libs/date_time.h), [Base64] (libs/base64.cpp), [Crc32] (libs/crc32.h), [Caches]
      (libs/time_cache.h, libs/cache/sized_vector.h), [NetworkStd] (libs/network/network_std.cpp),
      [Compression] (libs/commpression_zlib.cpp): the library code.
    - [Json], [JsonReader], [JsonReaderFacts] (libs/json/jsoncpp.cpp): json values with their
      conversions and the fast writer; the reader, from the scanning of tokens to the recovery
      from errors; that reading undoes writing.
    - [Streamer], [StreamerJson] (libs/streamer.h): typed values on a stream of bytes.
    - [Settings]: how the settings files are read by the server (disk_server.cpp), the
      replication (hstf.cpp) and the client (rssdisk_pool.cpp, tcp_client.cpp).
    - [BTree], [BSearch] (extentions/b_tree.h and .cpp): search conditions, made from a json
      query and matched against a record.
    - [JIndex], [JIndexFacts] ([IndexUtility] of j_manager.cpp): the sorted index as a byte
      string, with its searches and insertions.
    - [JdbInterface], [JManager], [JManagerFacts] ([JDatabaseManager] of j_manager.cpp): creating,
      extending and querying a json database.  [JdbEngine] is the class against which the
      server is written; [JManager] has its instance.
    - [MapTime] (libs/map_time.h), [CManager], [CSearch] (extentions/c_manager.cpp), [EManager]
      (extentions/e_manager.cpp): the key-value store and the event store.
    - [DiskHelper] (disk_helper.hpp), [WType] (client/rssdisk_w_type.hpp), [LockedFiles]
      ([locked_files] of disk_server.hpp), [DiskServer], [DiskServerFacts], [TtlRemover]
      (disk_server.cpp), [ServerJdb]: the file server, alone and with its json database.
    - [Hstf] (hstf.cpp, hstf.h): the replication log and the client that polls it.
    - [TcpHandler] (clienttcphandler.hpp): the requests of clients.
    - [Main] (main.cpp): the parts put together, the store over a restart, the checker thread.
    - [PoolClient], [CdbClient], [ClientEvents] (client/rssdisk_pool.cpp), [ClientPool]
      ([ClientMutex] of rssdisk_pool.hpp): the client library, its events, its composition with
      the server, and the pool that lends clients to threads.
    - [ClientWrites], [ClientRequests], [ClientCommand], [ClientReads] (client/rssdisk_pool.cpp):
      the calls of the client that talk to several servers, with the callbacks that other
      threads run while they wait: [write_file], the questions for statuses, [command] and
      [command_seq], [read_file].  A callback is one step; which ones run, and when, is an
      argument, so the theorems hold for all of them.
    - [Framing] (network/epoll_v2.cpp, network/tcp_client.cpp): messages on a stream of bytes,
      the reads that cut it anywhere and the queue of what is to be written.
    - [Md5] (libs/md5.cpp), [Gost] (gost_28147_89/gost_89.cpp): the digest and the cipher.
    - [DhDigits], [Dh], [DhFacts], [DhPow] (DH/dh.cpp, DH/dh.h): digit strings and long division;
      the class [DH] of signed big numbers; what every operator computes; powers modulo a number
      and the text of a number.
    - [Session], [SessionFacts], [SessionRun] (epoll_v2.cpp, tcp_client.cpp, cryptopp_.h): the two
      sides of an encrypted connection as a step relation, from the connection to messages in
      both directions.

    The state of a server is a [node]: the [server] (its configuration with the running size of
    every directory, and its files, a finite map from paths to contents), the key-value store
    and the event store.  A handler is a function from a request and the state to an answer
    and the new state.  Where the code throws, reads outside of a string or does not return,
    the function has no result ([None]); the theorems say when there is one.  Threads exclude
    each other by the lock of [LockedFiles], whose threads are a step relation; the handlers
    run under the lock and take what it answered as an argument.

    Integers of the code are [Z] with the conversions of their C++ type written out ([wrap],
    [in_range]); bytes are [Byte.byte] and strings are lists of them.

    ** What is proved

    - End to end: what a client writes a client reads ([PoolClient], [CdbClient]); a json database
      that is sent is queried exactly by equality and [$in] on integers ([ServerJdb]); a stored
      file expires on its date ([TtlRemover]); a poll of the log removes exactly the
      older versions ([Hstf], [DiskServerFacts]); an event reaches the programs that listen, once ([ClientEvents]).
    - The handlers of the server: requests are read as they were encoded, a client that
      did not send the key is not served, answers carry the type and identifier of
      their request, the size of every directory is accounted for in whole blocks.
    - The json database: indexed queries are equivalent to filtering the records; the index
      functions refine operations on sorted lists; the search loop ends far below its bound.
    - The stores: requests are applied record by record, expiry is exact, saving and loading
      gives the store back, also over a restart of the program ([Main]), searches are exact,
      the answers of several servers are merged to the newest.
    - The client with several servers: a write asks each server once, spreads the copies over
      the networks, ends with enough copies or when every server was asked, and a delayed write
      leaves no server with old values ([ClientWrites]); a read returns what the first server
      gave that has the file ([ClientReads]); every server gets exactly one status
      ([ClientRequests]); a command returns exactly the answers that came in time, and a server
      that stays silent is left out for a while ([ClientCommand]).
    - The lock: a writer is alone in its file, and gets in.  The pool: no client is lent twice.
    - Json: for every text the reader ends, with a value or with an error, and what was read is
      printed and read back as the same value ([JsonReaderFacts]).  The theorems on databases,
      searches and replication use this reader.
    - Settings: the server, the clients and the replication that read one file agree on the
      ports, the key and the encryption; a restart counts for a directory what the running server
      has counted ([Settings]).
    - The connection: however the stream is cut, the messages read are the messages sent, and
      what the server queues is written in order, each byte once ([Framing]); in every
      reachable state of an encrypted connection the two sides agree on the key and a received
      message is one that was sent, and the exchange comes to its end ([SessionRun]).  Below it,
      the powers of [DhPow] are powers modulo the prime, numbers are printed and read back,
      decryption is the inverse of encryption ([Gost]), and the digest is MD5 as RFC 1321
      defines it ([Md5]).
    - The library: dates are calendar arithmetic, printing and parsing are inverse, base64
      decodes what it encodes, values written to a stream are read back and reading stays inside
      the data, the table-driven checksum is CRC-32 and notices every change within four bytes.
    - Where the code does not do what it means to, the behaviour is a theorem too:
      [fetch_gap_returns_neighbour], [fetch_range_end_overruns], [locked_files_counter_wraps],
      [c_insert_hangs], [map_time_deserialize_hangs], [time_operators_disagree],
      [enough_storage_not_answered], [item_without_slash], [rewritten_file_expires_early],
      [string_length_wraps], [get_pattern_short_length], [ips_by_mask_zero],
      [acquire_unreadable], [checker_schedule], [reader_past_end], [reader_comment_comma],
      [unreadable_settings_accepted], [size_without_unit], [section_by_prefix],
      [status_other_message], [read_other_message], [crypt_endless], [slow_dispatch_drops].

    ** Fuel and bounds

    Loops of the code that are not structural take fuel and have no result without enough of
    it.  The theorems give the fuel that suffices: one step per record for the stores and for
    [parse_cdb_all]; the length of the index for its walks; 10000, the code's own bound, for
    the galloping search; for the json reader three calls for each byte of the text and one
    more, as every value, member or element takes at least one byte; in the client one step for
    each server of the pool, and one more than the milliseconds of the timeout for the rounds
    of ten milliseconds of a wait.  In [Dh] the correction of
    a guessed quotient digit takes at most three rounds (Knuth, algorithm D), a power one round
    for each bit of the exponent, 32 for a digit; the loops of [Md5] and [Gost] take one step
    per block.  Sizes are bounded where the code would overflow: a request or a record below
    2 GB, files below 2 GB with the blocks they take.

    ** What is outside

    Parameters stand for code that is not in the repository: zlib ([deflate], [inflate],
    [JEnv]; the program's functions over them are in [Compression]), [std::hash], [mktime], the order of [unordered_map], AES (Crypto++), the prime
    numbers and random bytes of OpenSSL, the CRC of a file (Boost), Boost.Filesystem
    ([Filesystem]), the block size of a file system, which paths can be opened, the clocks and
    random numbers.  What is assumed of them is in the classes [JEnvLaws] and [FilesystemLaws]
    and in the hypotheses of the theorems; the witnesses instantiate them.  The decimal text of a
    double is computed in [JsonReader] as the C library does ([nearest_double],
    [valueToString_real]).

    Not modelled: the system calls on sockets, accepting and kicking clients in [epoll_v2],
    reconnection in [tcp_client], [wait_for_init_connections] of the client, locks and condition
    variables as such, thread pools, signals and the process table, the creation of
    folders, logging, the HTTP server and client, the square root of [DH] (nothing calls it),
    the operators of [streamer] for [double], the parts of jsoncpp that nothing here uses
    ([OurReader], styled writers, comments), the json compressor, and string tables, which use a
    type that the repository does not define.  Third-party code (SimpleWeb, nlohmann json, curl)
    is left out.

    This file holds what the others share: bytes and literals, machine integers, substrings,
    searching in strings, and the tactics and rewriting database [rssdisk]. *)

From Stdlib Require Import ZArith Lia Strings.Byte.
From stdpp Require Import base gmap strings numbers sorting list.

Open Scope Z_scope.

(** ** Bytes *)

Abbreviation byte := Byte.byte.
Abbreviation bytes := (list byte).

#[export] Instance byte_eq_dec : EqDecision byte := Byte.byte_eq_dec.

#[export] Program Instance byte_countable : Countable byte :=
  inj_countable Byte.to_N Byte.of_N _.
Next Obligation. intros b. apply Byte.of_to_N. Qed.

#[export] Instance byte_inhabited : Inhabited byte := populate x00.

(** The unsigned value of a byte, and the byte an integer truncates to. *)
Definition b2z (b : byte) : Z := Z.of_N (Byte.to_N b).
Definition z2b (z : Z) : byte := default x00 (Byte.of_N (Z.to_N (z mod 256))).

(** A string literal of the source as its bytes. *)
Definition lit (s : string) : bytes := String.list_byte_of_string s.
Arguments lit _%_string_scope.

Lemma b2z_range b : 0 <= b2z b < 256.
Proof. unfold b2z. pose proof (Byte.to_N_bounded b). lia. Qed.

Lemma b2z_inj b1 b2 : b2z b1 = b2z b2 -> b1 = b2.
Proof.
  unfold b2z. intros H%N2Z.inj.
  pose proof (Byte.of_to_N b1) as E1. pose proof (Byte.of_to_N b2) as E2.
  rewrite H in E1. congruence.
Qed.

Lemma b2z_z2b z : b2z (z2b z) = z mod 256.
Proof.
  unfold z2b, b2z. pose proof (Z.mod_pos_bound z 256).
  destruct (Byte.of_N (Z.to_N (z mod 256))) as [b|] eqn:E; simpl.
  - apply Byte.to_of_N in E. rewrite E. lia.
  - apply Byte.of_N_None_iff in E. lia.
Qed.

Lemma z2b_b2z b : z2b (b2z b) = b.
Proof. apply b2z_inj. rewrite b2z_z2b. apply Z.mod_small, b2z_range. Qed.

Lemma z2b_mod z : z2b (z mod 256) = z2b z.
Proof. apply b2z_inj. rewrite !b2z_z2b. apply Z.mod_mod. lia. Qed.

(** ** Machine integers *)

(** The integer types of the source that occur in it with a fixed width. *)
Inductive ctype := U8 | I16 | I32 | U32 | I64 | U64.

#[export] Instance ctype_eq_dec : EqDecision ctype.
Proof. solve_decision. Defined.

Definition sizeof (T : ctype) : nat :=
  match T with U8 => 1 | I16 => 2 | I32 | U32 => 4 | I64 | U64 => 8 end%nat.

Definition is_signed (T : ctype) : bool :=
  match T with I16 | I32 | I64 => true | _ => false end.

Definition bits (T : ctype) : Z := 8 * Z.of_nat (sizeof T).

Definition min_val (T : ctype) : Z := if is_signed T then - 2 ^ (bits T - 1) else 0.
Definition max_val (T : ctype) : Z :=
  if is_signed T then 2 ^ (bits T - 1) - 1 else 2 ^ bits T - 1.

(** Conversion of a mathematical integer to the type: modulo [2^bits]. *)
Definition wrap (T : ctype) (z : Z) : Z := (z - min_val T) mod 2 ^ bits T + min_val T.

Definition in_range (T : ctype) (z : Z) : Prop := min_val T <= z <= max_val T.

#[export] Instance in_range_dec T z : Decision (in_range T z).
Proof. unfold in_range. apply _. Defined.

Lemma in_range_U8 z : in_range U8 z <-> 0 <= z <= 255.
Proof. reflexivity. Qed.
Lemma in_range_I16 z : in_range I16 z <-> -32768 <= z <= 32767.
Proof. reflexivity. Qed.
Lemma in_range_I32 z : in_range I32 z <-> -2147483648 <= z <= 2147483647.
Proof. reflexivity. Qed.
Lemma in_range_U32 z : in_range U32 z <-> 0 <= z <= 4294967295.
Proof. reflexivity. Qed.
Lemma in_range_I64 z : in_range I64 z <-> -9223372036854775808 <= z <= 9223372036854775807.
Proof. reflexivity. Qed.
Lemma in_range_U64 z : in_range U64 z <-> 0 <= z <= 18446744073709551615.
Proof. reflexivity. Qed.

(** Linear arithmetic with quotients and remainders. *)
Ltac dlia := Z.to_euclidean_division_equations; lia.

(** Linear arithmetic with the bounds of the machine types as numbers. *)
Ltac range_lia :=
  rewrite ?in_range_U8, ?in_range_I16, ?in_range_I32, ?in_range_U32, ?in_range_I64, ?in_range_U64 in *;
  first [lia | dlia].

Lemma max_min_val T : max_val T = min_val T + 2 ^ bits T - 1.
Proof. destruct T; reflexivity. Qed.

Lemma bits_pos T : 0 < 2 ^ bits T.
Proof. destruct T; reflexivity. Qed.

Lemma wrap_in_range T z : in_range T (wrap T z).
Proof.
  unfold in_range, wrap. rewrite max_min_val.
  pose proof (Z.mod_pos_bound (z - min_val T) (2 ^ bits T) (bits_pos T)). lia.
Qed.

Lemma wrap_id T z : in_range T z -> wrap T z = z.
Proof.
  unfold in_range, wrap. rewrite max_min_val. intros.
  rewrite Z.mod_small by lia. lia.
Qed.

Lemma wrap_congr T a b : a mod 2 ^ bits T = b mod 2 ^ bits T -> wrap T a = wrap T b.
Proof. intros H. unfold wrap. f_equal. rewrite Zminus_mod, H, <- Zminus_mod. done. Qed.

Lemma wrap_mod T z : wrap T z mod 2 ^ bits T = z mod 2 ^ bits T.
Proof.
  unfold wrap. rewrite Zplus_mod_idemp_l. f_equal. lia.
Qed.

Lemma wrap_add_l T a b : wrap T (wrap T a + b) = wrap T (a + b).
Proof. apply wrap_congr. rewrite Zplus_mod, wrap_mod, <- Zplus_mod. done. Qed.

Lemma wrap_add_r T a b : wrap T (a + wrap T b) = wrap T (a + b).
Proof. rewrite !(Z.add_comm a). apply wrap_add_l. Qed.

Lemma wrap_wrap T a : wrap T (wrap T a) = wrap T a.
Proof. apply wrap_id, wrap_in_range. Qed.

(** ** [std::string] *)

(** [s.substr(pos, n)]: throws [std::out_of_range] (here [None]) when [pos > s.size()]. *)
Definition substr (s : bytes) (pos n : nat) : option bytes :=
  if (length s <? pos)%nat then None else Some (take n (drop pos s)).

(** [s.substr(pos)]. *)
Definition substr_from (s : bytes) (pos : nat) : option bytes :=
  if (length s <? pos)%nat then None else Some (drop pos s).

Fixpoint is_prefix (p s : bytes) : bool :=
  match p, s with
  | [], _ => true
  | a :: p', b :: s' => bool_decide (a = b) && is_prefix p' s'
  | _, [] => false
  end.

(** [s.find(p)], [None] for [npos]. *)
Fixpoint str_find (p s : bytes) : option nat :=
  if is_prefix p s then Some O
  else match s with [] => None | _ :: s' => S <$> str_find p s' end.

(** [s.find(p, pos)]. *)
Definition str_find_at (p s : bytes) (pos : nat) : option nat :=
  if (length s <? pos)%nat then None else (fun i => pos + i)%nat <$> str_find p (drop pos s).

Lemma substr_Some s pos n : (pos <= length s)%nat -> substr s pos n = Some (take n (drop pos s)).
Proof. intros. unfold substr. destruct (Nat.ltb_spec (length s) pos); [lia|done]. Qed.

Lemma substr_from_Some s pos : (pos <= length s)%nat -> substr_from s pos = Some (drop pos s).
Proof. intros. unfold substr_from. destruct (Nat.ltb_spec (length s) pos); [lia|done]. Qed.

(** A field of a record laid out as consecutive byte strings. *)
Lemma substr_app u v w n :
  n = length v -> substr (u ++ v ++ w) (length u) n = Some v.
Proof.
  intros ->. rewrite substr_Some by (rewrite length_app; lia).
  by rewrite drop_app_length, take_app_length.
Qed.

(** [s.substr(pos, n)] at machine integers, for a [pos] that the code has checked. *)
Abbreviation zlen s := (Z.of_nat (length s)).
Definition zsub (s : bytes) (pos n : Z) : bytes :=
  take (Z.to_nat (Z.min n (zlen s))) (drop (Z.to_nat (Z.min pos (zlen s))) s).

Lemma zsub_take_drop s pos n : zsub s pos n = take (Z.to_nat n) (drop (Z.to_nat pos) s).
Proof.
  unfold zsub. destruct (Z.leb_spec pos (zlen s)).
  - rewrite (Z.min_l pos) by lia. destruct (Z.leb_spec n (zlen s)); [by rewrite Z.min_l|].
    rewrite !take_ge; [done|rewrite length_drop; lia|rewrite length_drop; lia].
  - rewrite !drop_ge by lia. by rewrite !take_nil.
Qed.

Lemma zsub_skip u r pos n : zlen u <= pos -> zsub (u ++ r) pos n = zsub r (pos - zlen u) n.
Proof.
  intros. rewrite !zsub_take_drop, drop_app_ge by lia. do 2 f_equal. lia.
Qed.

Lemma zsub_head v r n : n = zlen v -> zsub (v ++ r) 0 n = v.
Proof. intros ->. rewrite zsub_take_drop, Nat2Z.id. apply take_app_length. Qed.

Lemma zsub_all v n : zlen v <= n -> zsub v 0 n = v.
Proof. intros. rewrite zsub_take_drop. apply take_ge. simpl. lia. Qed.

Lemma length_zsub s pos n : zlen (zsub s pos n) = Z.max 0 (Z.min n (zlen s - Z.max 0 pos)).
Proof. rewrite zsub_take_drop, length_take, length_drop. lia. Qed.

Lemma drop_app_cons {A} (u v : list A) x : drop (length u + 1) (u ++ x :: v) = v.
Proof.
  replace (length u + 1)%nat with (length (u ++ [x])) by (rewrite length_app; simpl; lia).
  replace (u ++ x :: v) with ((u ++ [x]) ++ v) by (by rewrite <- app_assoc). apply drop_app_length.
Qed.

Lemma is_prefix_spec p s : is_prefix p s = true <-> exists t, s = p ++ t.
Proof.
  revert s; induction p as [|a p IH]; intros [|b s]; simpl.
  - split; [by exists []|done].
  - split; [by exists (b :: s)|done].
  - split; [done|by intros [t ?]].
  - rewrite andb_true_iff, bool_decide_eq_true, IH. split.
    + intros [-> [t ->]]. by exists t.
    + intros [t [= -> ->]]. eauto.
Qed.

Lemma is_prefix_app p t : is_prefix p (p ++ t) = true.
Proof. apply is_prefix_spec. eauto. Qed.

Lemma str_find_Some p s i :
  str_find p s = Some i -> exists u v, s = u ++ p ++ v /\ length u = i.
Proof.
  revert i; induction s as [|b s IH]; intros i; simpl;
    (destruct (is_prefix p _) eqn:E; [apply is_prefix_spec in E as [t Ht]; intros [= <-]; by exists [], t|]);
    [done|].
  destruct (str_find p s) as [j|]; [|done]. intros [= <-].
  destruct (IH j eq_refl) as (u & v & -> & <-). by exists (b :: u), v.
Qed.

Lemma str_find_bound p s i : str_find p s = Some i -> (i + length p <= length s)%nat.
Proof. intros (u & v & -> & <-)%str_find_Some. rewrite !length_app. lia. Qed.

Lemma str_find_is_Some p s : is_Some (str_find p s) <-> exists u v, s = u ++ p ++ v.
Proof.
  split.
  - intros [i Hi]. apply str_find_Some in Hi as (u & v & -> & _). eauto.
  - intros (u & v & ->). induction u as [|c u IH].
    + destruct p as [|c p]; [by destruct v; eexists|]. pose proof (is_prefix_app (c :: p) v) as E.
      cbn [app str_find] in *. rewrite E. by eexists.
    + cbn [app str_find]. destruct (is_prefix p _); [by eexists|]. destruct IH as [i ->]. by eexists.
Qed.

Lemma str_find_None p s : str_find p s = None <-> forall u v, s <> u ++ p ++ v.
Proof.
  split.
  - intros E u v ->. assert (H : is_Some (str_find p (u ++ p ++ v))) by (apply str_find_is_Some; eauto).
    rewrite E in H. by destruct H.
  - intros H. destruct (str_find p s) as [i|] eqn:E; [|done]. apply str_find_Some in E as (u & v & -> & _). by destruct (H u v).
Qed.

(** The first occurrence stays where it is when more text follows. *)
Lemma str_find_more p s t i : str_find p s = Some i -> str_find p (s ++ t) = Some i.
Proof.
  revert i; induction s as [|b s IH]; intros i E.
  - destruct p; [|done]. injection E as <-. by destruct t.
  - pose proof (str_find_bound _ _ _ E) as Hb. cbn [str_find app] in *. destruct (is_prefix p (b :: s)) eqn:Ep.
    + injection E as <-. apply is_prefix_spec in Ep as [u Hu]. change (b :: s ++ t) with ((b :: s) ++ t). rewrite Hu, <- app_assoc.
      by rewrite is_prefix_app.
    + destruct (str_find p s) as [j|]; [|done]. injection E as <-. destruct (is_prefix p (b :: s ++ t)) eqn:Eq.
      * exfalso. apply is_prefix_spec in Eq as [u Hu]. cbn [length] in Hb.
        assert (Hp : p = take (length p) (b :: s)).
        { change (b :: s ++ t) with ((b :: s) ++ t) in Hu. rewrite <- (take_app_le (b :: s) t) by (cbn [length]; lia).
          rewrite Hu. by rewrite take_app_length. }
        assert (Ep' : is_prefix p (b :: s) = true); [|congruence]. apply is_prefix_spec. exists (drop (length p) (b :: s)).
        rewrite Hp at 1. by rewrite take_drop.
      * by rewrite (IH j eq_refl).
Qed.

(** An occurrence at the end of a text with no other one is the first. *)
Lemma str_find_last p u : p <> [] -> str_find p (u ++ take (length p - 1) p) = None -> str_find p (u ++ p) = Some (length u).
Proof.
  intros Hp Hn. destruct (str_find p (u ++ p)) as [i|] eqn:E.
  - pose proof (str_find_bound _ _ _ E) as Hb. apply str_find_Some in E as (a & b & Hab & <-). f_equal.
    rewrite length_app in Hb. destruct b as [|c b].
    + rewrite app_nil_r in Hab. apply (f_equal length) in Hab. rewrite !length_app in Hab. lia.
    + exfalso. apply (proj1 (str_find_None _ _) Hn a (take (length (c :: b) - 1) (c :: b))).
      assert (Hl : (0 < length p)%nat) by (destruct p; [done|simpl; lia]).
      apply (f_equal (take (length (u ++ p) - 1))) in Hab as Ht. rewrite length_app in Ht.
      rewrite (take_app_ge u) in Ht by lia. replace (length u + length p - 1 - length u)%nat with (length p - 1)%nat in Ht by lia.
      rewrite Ht. apply (f_equal length) in Hab. rewrite !length_app in Hab. cbn [length] in Hab.
      rewrite (take_app_ge a), (take_app_ge p) by (cbn [length]; lia). do 3 f_equal. cbn [length]. lia.
  - exfalso. apply (proj1 (str_find_None _ _) E u []). by rewrite app_nil_r.
Qed.

(** A one-character search finds the first occurrence. *)
Lemma str_find_char_app (c : byte) u v : c ∉ u -> str_find [c] (u ++ c :: v) = Some (length u).
Proof.
  induction u as [|b u IH]; intros H; simpl.
  - by rewrite bool_decide_true.
  - rewrite bool_decide_false by set_solver. simpl. rewrite IH by set_solver. done.
Qed.

Lemma str_find_char_None (c : byte) s : c ∉ s -> str_find [c] s = None.
Proof.
  induction s as [|b s IH]; intros H; simpl; [done|].
  rewrite bool_decide_false by set_solver. simpl. rewrite IH by set_solver. done.
Qed.

Lemma join_cons {A} (x : list A) l : mjoin (x :: l) = x ++ mjoin l.
Proof. done. Qed.

Lemma join_fmap_cons {A B} (f : A -> list B) x l :
  mjoin (f <$> x :: l) = f x ++ mjoin (f <$> l).
Proof. done. Qed.

(** ** Bits, options and lists *)

Lemma NoDup_fmap_eq {A B} (f : A -> B) (l : list A) x y : NoDup (f <$> l) -> x ∈ l -> y ∈ l -> f x = f y -> x = y.
Proof.
  induction l as [|z l IH]; intros Hn Hx Hy E; [by apply not_elem_of_nil in Hx|].
  rewrite fmap_cons in Hn. apply NoDup_cons in Hn as [Hz Hn].
  apply elem_of_cons in Hx as [->|Hx], Hy as [->|Hy]; [done| | |by apply IH].
  - destruct Hz. rewrite E. by apply list_elem_of_fmap_2.
  - destruct Hz. rewrite <- E. by apply list_elem_of_fmap_2.
Qed.

Lemma land_lxor_distr a b c : Z.land (Z.lxor a b) c = Z.lxor (Z.land a c) (Z.land b c).
Proof. apply Z.bits_inj'. intros n _. rewrite Z.land_spec, !Z.lxor_spec, !Z.land_spec. by destruct (Z.testbit a n), (Z.testbit b n), (Z.testbit c n). Qed.

Lemma bind_Some_eq {A B} (x : A) (f : A -> option B) : Some x ≫= f = f x.
Proof. done. Qed.

Lemma last_drop {A} (l : list A) n : (n < length l)%nat -> last (drop n l) = last l.
Proof.
  revert n. induction l as [|x l IH]; intros n Hn; [simpl in Hn; lia|]. destruct n as [|n]; [done|]. cbn [drop length] in *.
  rewrite IH by lia. destruct l; [simpl in Hn; lia|]. by rewrite last_cons_cons.
Qed.

(** ** Sorted lists *)

Lemma StronglySorted_lookup {A} (R : relation A) (l : list A) i j x y :
  StronglySorted R l -> l !! i = Some x -> l !! j = Some y -> (i < j)%nat -> R x y.
Proof.
  intros Hs. revert i j. induction Hs as [|a l Hs IH Ha]; intros [|i] [|j] Hi Hj Hij; simpl in *;
    simplify_eq; try lia; [|eapply IH; eauto; lia].
  eapply Forall_lookup_1; eauto.
Qed.

(** ** Automation *)

Create HintDb rssdisk.
Create Rewrite HintDb rssdisk.
#[export] Hint Rewrite @length_app @length_take @length_drop @length_replicate : rssdisk.
#[export] Hint Resolve wrap_in_range b2z_range : rssdisk.

(** Case analysis on the boolean comparisons of a goal. *)
Ltac cmp :=
  repeat match goal with
  | |- context [(?a <? ?b)%nat] => destruct (Nat.ltb_spec a b)
  | |- context [(?a <=? ?b)%nat] => destruct (Nat.leb_spec a b)
  | |- context [(?a =? ?b)%nat] => destruct (Nat.eqb_spec a b)
  | |- context [(?a <? ?b)%Z] => destruct (Z.ltb_spec a b)
  | |- context [(?a <=? ?b)%Z] => destruct (Z.leb_spec a b)
  | |- context [(?a =? ?b)%Z] => destruct (Z.eqb_spec a b)
  end.

(** List lengths. *)
Ltac len := autorewrite with rssdisk; simpl; try lia.

(** A field of a record laid out as consecutive byte strings, [zsub (f1 ++ f2 ++ ...) pos n = fi]. *)
Ltac zfield :=
  repeat (rewrite zsub_skip by len); autorewrite with rssdisk;
  first [apply zsub_head; len | rewrite zsub_head by len; reflexivity
        | match goal with |- zsub _ ?p _ = _ => replace p with 0 by (len) end;
          first [apply zsub_head; len | apply zsub_all; len] ].
