(* ===== verification/Bitbase.v ===== *)
(** * Integers as byte strings ([libs/bitbase.h])

    [numeric_to_chars] writes an integer big-endian, [chars_to_numeric] reads it
    back; every binary header of the server (oplog segments, write requests, the
    index entries of a jdb file, the key-value store) is built from them.  Also
    the single-bit operations and the packed integer lists. *)

From S2P Require Import Prelude.
From Stdlib Require Import ZArith Lia.
From stdpp Require Import base list gmap numbers.
Open Scope Z_scope.

(** ** Operations *)

(** The loop [for (s = (sz - 1) * 8; s >= 0; s -= 8) ret += u_char((n >> s) & 0xff)],
    [k] iterations before the end. *)
Fixpoint to_chars_loop (n : Z) (k : nat) : bytes :=
  match k with
  | O => []
  | S k' => z2b (Z.land (Z.shiftr n (8 * Z.of_nat k')) 255) :: to_chars_loop n k'
  end.

Definition numeric_to_chars_sz (n : Z) (sz : nat) : bytes := to_chars_loop n sz.

(** The default argument [sz = sizeof(T)]. *)
Definition numeric_to_chars (T : ctype) (n : Z) : bytes := numeric_to_chars_sz n (sizeof T).

(** The overload that appends to its first argument. *)
Definition numeric_to_chars_app (app : bytes) (T : ctype) (n : Z) : bytes :=
  app ++ numeric_to_chars_sz n (sizeof T).

(** The loop [for (i = s - 1; i >= 0; --i, ++j) n += T(c) << (8 * j)] over the
    reversed string. *)
Fixpoint from_chars_loop (T : ctype) (l : bytes) (j : Z) (n : Z) : Z :=
  match l with
  | [] => n
  | c :: l' => from_chars_loop T l' (j + 1) (wrap T (n + wrap T (Z.shiftl (b2z c) (8 * j))))
  end.

Definition chars_to_numeric (T : ctype) (t : bytes) : Z := from_chars_loop T (reverse t) 0 0.

Definition unsetBit (T : ctype) (num : Z) (bit : Z) : Z :=
  wrap T (Z.land num (Z.lnot (wrap T (Z.shiftl 1 bit)))).
Definition setBit (T : ctype) (num : Z) (bit : Z) : Z :=
  wrap T (Z.lor num (wrap T (Z.shiftl 1 bit))).
Definition isBitSetted (T : ctype) (num : Z) (bit : Z) : bool :=
  negb (Z.land num (wrap T (Z.shiftl 1 bit)) =? 0).
Definition isBitSettedByNumber (num bit_num : Z) : bool := negb (Z.land num bit_num =? 0).

Arguments numeric_to_chars : simpl never.
Arguments chars_to_numeric : simpl never.

(** The loop [for (i = sz * 8 - 1; i >= 0; --i)]: [i = k - 1] at fuel [k]. *)
Fixpoint max_bits_loop (T : ctype) (n : Z) (k : nat) : Z :=
  match k with
  | O => 0
  | S k' => if isBitSetted T n (Z.of_nat k') then Z.of_nat k' + 1 else max_bits_loop T n k'
  end.

Definition max_bits_used (T : ctype) (n : Z) : Z := max_bits_loop T n (sizeof T * 8).

Definition comress_list (T : ctype) (data : list Z) : bytes :=
  foldl (fun ret it => ret ++ numeric_to_chars T it) [] data.

(** The loop [for (i = 0; i <= size - size_bytes; i += size_bytes)]; each iteration
    moves at least one byte forward, so the length of the string bounds them. *)
Fixpoint uncomress_loop (T : ctype) (data : bytes) (fuel i : nat) (ret : gset Z) : gset Z :=
  match fuel with
  | O => ret
  | S fuel' =>
      if (i + sizeof T <=? length data)%nat then
        let r := chars_to_numeric T (default [] (substr data i (sizeof T))) in
        uncomress_loop T data fuel' (i + sizeof T) ({[r]} ∪ ret)
      else ret
  end.

Definition uncomress_list (T : ctype) (data : bytes) : gset Z :=
  if (sizeof T <=? length data)%nat then uncomress_loop T data (length data) 0 ∅ else ∅.

(** ** The value of a byte string *)

(** Little-endian value of the reversed string, so the big-endian value of the string. *)
Fixpoint le_value (l : bytes) : Z :=
  match l with [] => 0 | c :: l' => b2z c + 256 * le_value l' end.

Lemma le_value_app l1 l2 :
  le_value (l1 ++ l2) = le_value l1 + 256 ^ Z.of_nat (length l1) * le_value l2.
Proof.
  induction l1 as [|c l1 IH]; simpl; [lia|].
  rewrite IH, Nat2Z.inj_succ, Z.pow_succ_r by lia. ring.
Qed.

Lemma le_value_range l : 0 <= le_value l < 256 ^ Z.of_nat (length l).
Proof.
  induction l as [|c l IH]; simpl; [lia|].
  rewrite Nat2Z.inj_succ, Z.pow_succ_r by lia. pose proof (b2z_range c). lia.
Qed.

Lemma le_value_inj l1 l2 :
  length l1 = length l2 -> le_value l1 = le_value l2 -> l1 = l2.
Proof.
  revert l2; induction l1 as [|c l1 IH]; intros [|d l2]; simpl; try done.
  intros [= Hl] Hv. pose proof (b2z_range c). pose proof (b2z_range d).
  f_equal; [apply b2z_inj; lia|apply IH; lia].
Qed.

Lemma from_chars_loop_value T l j n :
  0 <= j -> in_range T n ->
  from_chars_loop T l j n = wrap T (n + 256 ^ j * le_value l).
Proof.
  revert j n; induction l as [|c l IH]; intros j n Hj Hn; simpl.
  - rewrite wrap_id; [lia|]. by replace (n + 256 ^ j * 0) with n by lia.
  - rewrite IH by (lia || apply wrap_in_range).
    rewrite wrap_add_l, <- Z.add_assoc, (Z.add_comm (wrap T _) _), Z.add_assoc, wrap_add_r.
    f_equal. rewrite Z.shiftl_mul_pow2, Z.pow_mul_r by lia.
    rewrite Z.pow_add_r by lia. change (2 ^ 8) with 256. ring.
Qed.

Lemma chars_to_numeric_value T t : chars_to_numeric T t = wrap T (le_value (reverse t)).
Proof.
  unfold chars_to_numeric. rewrite from_chars_loop_value; [f_equal; lia|lia|].
  destruct T; vm_compute; split; discriminate.
Qed.

Lemma length_to_chars_loop n k : length (to_chars_loop n k) = k.
Proof. induction k; simpl; congruence. Qed.

Lemma length_numeric_to_chars T n : length (numeric_to_chars T n) = sizeof T.
Proof. apply length_to_chars_loop. Qed.
#[export] Hint Rewrite length_numeric_to_chars : rssdisk.

Lemma to_chars_loop_value n k :
  le_value (reverse (to_chars_loop n k)) = n mod 256 ^ Z.of_nat k.
Proof.
  induction k as [|k IH]; [by rewrite Z.mod_1_r|].
  cbn [to_chars_loop]. rewrite reverse_cons, le_value_app, length_reverse, length_to_chars_loop, IH.
  cbn [le_value]. rewrite b2z_z2b. change 255 with (Z.ones 8). rewrite Z.land_ones by lia.
  change (2 ^ 8) with 256. rewrite Z.mod_mod, Z.shiftr_div_pow2, Z.pow_mul_r by lia.
  change (2 ^ 8) with 256. rewrite Nat2Z.inj_succ, Z.pow_succ_r, (Z.mul_comm 256 (256 ^ _)) by lia.
  assert (0 < 256 ^ Z.of_nat k) by (apply Z.pow_pos_nonneg; lia).
  rewrite Z.rem_mul_r by lia. lia.
Qed.

Lemma bits_pow256 T : 256 ^ Z.of_nat (sizeof T) = 2 ^ bits T.
Proof. destruct T; reflexivity. Qed.

(** ** Round trips *)

(** Reading back what was written gives the integer. *)
Lemma chars_to_numeric_to_chars T n :
  in_range T n -> chars_to_numeric T (numeric_to_chars T n) = n.
Proof.
  intros Hn. rewrite chars_to_numeric_value.
  unfold numeric_to_chars, numeric_to_chars_sz. rewrite to_chars_loop_value, bits_pow256.
  rewrite <- (wrap_id T n) at 2 by done. apply wrap_congr, Z.mod_mod. pose proof (bits_pos T). lia.
Qed.

(** Writing back what was read gives the bytes. *)
Lemma numeric_to_chars_to_numeric T t :
  length t = sizeof T -> numeric_to_chars T (chars_to_numeric T t) = t.
Proof.
  intros Ht. apply (inj reverse), le_value_inj.
  - rewrite !length_reverse, length_numeric_to_chars. done.
  - unfold numeric_to_chars, numeric_to_chars_sz.
    rewrite to_chars_loop_value, bits_pow256, chars_to_numeric_value, wrap_mod.
    apply Z.mod_small. rewrite <- bits_pow256, <- Ht, <- (length_reverse t). apply le_value_range.
Qed.

Lemma chars_to_numeric_in_range T t : in_range T (chars_to_numeric T t).
Proof. rewrite chars_to_numeric_value. apply wrap_in_range. Qed.
#[export] Hint Resolve chars_to_numeric_in_range : rssdisk.

(** Unsigned big-endian strings compare as their values: the first differing byte decides. *)
Lemma numeric_to_chars_inj T m n :
  in_range T m -> in_range T n -> numeric_to_chars T m = numeric_to_chars T n -> m = n.
Proof.
  intros Hm Hn E. rewrite <- (chars_to_numeric_to_chars T m), E by done.
  by apply chars_to_numeric_to_chars.
Qed.

(** ** Packed lists *)

Lemma comress_list_foldl T l acc :
  foldl (fun ret it => ret ++ numeric_to_chars T it) acc l = acc ++ mjoin (numeric_to_chars T <$> l).
Proof.
  revert acc; induction l as [|x l IH]; intros acc; simpl; [by rewrite app_nil_r|].
  rewrite IH. by rewrite <- app_assoc.
Qed.

Lemma comress_list_join T l : comress_list T l = mjoin (numeric_to_chars T <$> l).
Proof. apply (comress_list_foldl T l []). Qed.

Lemma uncomress_loop_app T pre l fuel ret :
  Forall (in_range T) l -> (length (mjoin (numeric_to_chars T <$> l)) <= fuel)%nat ->
  uncomress_loop T (pre ++ mjoin (numeric_to_chars T <$> l)) fuel (length pre) ret =
    list_to_set l ∪ ret.
Proof.
  revert pre fuel ret; induction l as [|x l IH]; intros pre fuel ret Hl Hf.
  - simpl. rewrite app_nil_r. assert (0 < sizeof T)%nat by (destruct T; simpl; lia).
    destruct fuel; simpl; [set_solver|].
    destruct (Nat.leb_spec (length pre + sizeof T) (length pre)); [lia|]. set_solver.
  - apply Forall_cons_1 in Hl as [Hx Hl]. simpl in Hf |- *.
    rewrite length_app, length_numeric_to_chars in Hf.
    assert (0 < sizeof T)%nat by (destruct T; simpl; lia).
    destruct fuel as [|fuel]; [lia|]. cbn [uncomress_loop].
    rewrite substr_app by (by rewrite length_numeric_to_chars). cbn [from_option id].
    rewrite chars_to_numeric_to_chars by done.
    rewrite (proj2 (Nat.leb_le _ _)) by (rewrite !length_app, length_numeric_to_chars; lia).
    replace (length pre + sizeof T)%nat with (length (pre ++ numeric_to_chars T x)) by (len).
    rewrite app_assoc. change (list_fmap Z bytes (numeric_to_chars T) l) with (numeric_to_chars T <$> l) in *.
    rewrite IH by (done || lia). set_solver.
Qed.

(** A packed list unpacks to the set of its elements. *)
Lemma uncomress_comress T l :
  Forall (in_range T) l -> uncomress_list T (comress_list T l) = list_to_set l.
Proof.
  intros Hl. rewrite comress_list_join. unfold uncomress_list.
  destruct (Nat.leb_spec (sizeof T) (length (mjoin (numeric_to_chars T <$> l)))) as [?|Hlt].
  - pose proof (uncomress_loop_app T [] l (length (mjoin (numeric_to_chars T <$> l))) ∅ Hl) as E.
    simpl in E. rewrite E by lia. set_solver.
  - destruct l as [|x l]; [done|]. simpl in Hlt.
    rewrite length_app, length_numeric_to_chars in Hlt. lia.
Qed.
