(* ===== verification/BasefuncStd.v ===== *)
(** * String helpers ([libs/basefunc_std.h], [libs/basefunc_std.cpp])

    The number parsers [stoi] (one overload per integer type, over the C library's
    [strtol] and [strtoul]), [std::to_string], [split], [get_vector_from_string],
    [replaceAll], [removeAll], [trim] and the prefix and suffix tests, with the
    round trips the server's text headers rely on. *)

From S2P Require Import Prelude.
From Stdlib Require Import ZArith Lia Strings.Byte.
From stdpp Require Import base gmap strings numbers list.
Open Scope Z_scope.

(** ** Characters *)

Definition is_space (c : byte) : bool := (b2z c =? 32) || ((9 <=? b2z c) && (b2z c <=? 13)).
Definition is_digit (c : byte) : bool := (48 <=? b2z c) && (b2z c <=? 57).
Definition digit_val (c : byte) : Z := b2z c - 48.
Definition digit_char (d : Z) : byte := z2b (48 + d).

(** ** [strtol] and the exceptions of [std::stoi], [std::stol], [std::stoul] *)

Fixpoint skip_space (s : bytes) : bytes :=
  match s with c :: s' => if is_space c then skip_space s' else s | [] => [] end.

(** The value of the longest digit prefix; [None] when there is none. *)
Fixpoint digits (s : bytes) (acc : Z) (any : bool) : option Z :=
  match s with
  | c :: s' => if is_digit c then digits s' (10 * acc + digit_val c) true
               else if any then Some acc else None
  | [] => if any then Some acc else None
  end.

(** Sign and magnitude of the subject sequence, [None] for [std::invalid_argument]. *)
Definition strto (s : bytes) : option (bool * Z) :=
  match skip_space s with
  | x2d :: s' => m ← digits s' 0 false; Some (true, m)
  | x2b :: s' => m ← digits s' 0 false; Some (false, m)
  | s' => m ← digits s' 0 false; Some (false, m)
  end.

(** A signed parse with the range check of type [T] ([std::out_of_range] is [None]). *)
Definition sto_signed (T : ctype) (s : bytes) : option Z :=
  '(neg, m) ← strto s;
  let v := if (neg : bool) then - m else m in
  if bool_decide (in_range T v) then Some v else None.

(** [std::stoul]: a minus sign negates modulo [2^64]. *)
Definition sto_unsigned (s : bytes) : option Z :=
  '(neg, m) ← strto s;
  if m <=? max_val U64 then Some (wrap U64 (if (neg : bool) then - m else m)) else None.

(** [basefunc_std::stoi]: the overload of the target's type.  [None] is the [false] that
    leaves the target as it was. *)
Definition stoi (T : ctype) (s : bytes) : option Z :=
  match T with
  | U64 => sto_unsigned s
  | I64 => sto_signed I64 s
  | I16 => wrap I16 <$> sto_signed I32 s
  | U32 => wrap U32 <$> sto_signed I32 s
  | I32 => sto_signed I32 s
  | U8 => None
  end.

(** ** [std::to_string] *)

Fixpoint dec_loop (fuel : nat) (n : Z) (acc : bytes) : bytes :=
  match fuel with
  | O => acc
  | S fuel' =>
      let acc := digit_char (n mod 10) :: acc in
      if n <? 10 then acc else dec_loop fuel' (n / 10) acc
  end.

(** Twenty digits hold every 64-bit value. *)
Definition to_string (n : Z) : bytes :=
  if n <? 0 then x2d :: dec_loop 20 (- n) [] else dec_loop 20 n [].

(** ** Splitting *)

(** [std::getline] until end of file: an empty last piece is not delivered. *)
Fixpoint split_loop (delim : byte) (s cur : bytes) : list bytes :=
  match s with
  | [] => match cur with [] => [] | _ => [cur] end
  | c :: s' => if bool_decide (c = delim) then cur :: split_loop delim s' []
               else split_loop delim s' (cur ++ [c])
  end.

Definition split (s : bytes) (delim : byte) : list bytes := split_loop delim s [].

Definition get_vector_from_string (T : ctype) (s : bytes) : list Z :=
  omap (stoi T) (split s x2c).

(** ** Editing *)

(** [for (pos = 0; ; pos += replace.length())]: each round consumes an occurrence of
    [search], so the length of the string bounds the rounds when [search] is not empty. *)
Fixpoint replaceAll_loop (fuel : nat) (s search rep : bytes) (pos : nat) : bytes :=
  match fuel with
  | O => s
  | S fuel' =>
      match str_find_at search s pos with
      | None => s
      | Some p => replaceAll_loop fuel'
          (take p s ++ rep ++ drop (p + length search) s) search rep (p + length rep)
      end
  end.

Definition replaceAll (s search rep : bytes) : bytes :=
  replaceAll_loop (S (length s)) s search rep 0.

(** [for (pos = 0; ; pos += 1)]: after an erase the scan resumes one past the erased
    position. *)
Fixpoint removeAll_loop (fuel : nat) (s : bytes) (search : byte) (pos : nat) : bytes :=
  match fuel with
  | O => s
  | S fuel' =>
      match str_find_at [search] s pos with
      | None => s
      | Some p => removeAll_loop fuel' (take p s ++ drop (p + 1) s) search (p + 1)
      end
  end.

Definition removeAll (s : bytes) (search : byte) : bytes := removeAll_loop (S (length s)) s search 0.

Definition ltrim (s : bytes) : bytes := skip_space s.
Definition rtrim (s : bytes) : bytes := reverse (skip_space (reverse s)).
Definition trim (s : bytes) : bytes := ltrim (rtrim s).

Definition ends_with (str suffix : bytes) : bool :=
  (length suffix <=? length str)%nat &&
  bool_decide (drop (length str - length suffix) str = suffix).
Definition starts_with (str prefix : bytes) : bool :=
  (length prefix <=? length str)%nat && bool_decide (take (length prefix) str = prefix).

(** ** Decimal round trip *)

Lemma b2z_digit_char d : 0 <= d < 10 -> b2z (digit_char d) = 48 + d.
Proof. intros. unfold digit_char. rewrite b2z_z2b, Z.mod_small by lia. done. Qed.

Lemma is_digit_digit_char d : 0 <= d < 10 -> is_digit (digit_char d) = true.
Proof. intros. unfold is_digit. rewrite b2z_digit_char by done. cmp; simpl; lia. Qed.

Lemma digit_val_digit_char d : 0 <= d < 10 -> digit_val (digit_char d) = d.
Proof. intros. unfold digit_val. rewrite b2z_digit_char by done. lia. Qed.

Lemma dec_loop_app fuel n acc : dec_loop fuel n acc = dec_loop fuel n [] ++ acc.
Proof.
  revert n acc; induction fuel as [|fuel IH]; intros n acc; simpl; [done|].
  destruct (n <? 10); [done|]. rewrite IH, (IH _ [_]). by rewrite <- app_assoc.
Qed.

Lemma dec_loop_digits fuel n : 0 <= n -> Forall (fun c => is_digit c = true) (dec_loop fuel n []).
Proof.
  revert n; induction fuel as [|fuel IH]; intros n Hn; simpl; [constructor|].
  pose proof (Z.mod_pos_bound n 10).
  destruct (n <? 10); [repeat constructor; apply is_digit_digit_char; lia|].
  rewrite dec_loop_app. apply Forall_app. split; [apply IH; apply Z.div_pos; lia|].
  repeat constructor. apply is_digit_digit_char. lia.
Qed.

Lemma digits_cons_digit c s acc any :
  is_digit c = true -> digits (c :: s) acc any = digits s (10 * acc + digit_val c) true.
Proof. intros E. simpl. by rewrite E. Qed.

(** [dec_loop] with enough fuel reads back as the number it printed. *)
Lemma digits_dec_loop fuel n t any :
  0 <= n < 10 ^ Z.of_nat fuel -> (0 < fuel)%nat ->
  digits (dec_loop fuel n [] ++ t) 0 any = digits t n true.
Proof.
  revert n t any; induction fuel as [|fuel IH]; intros n t any Hn Hf; [lia|].
  pose proof (Z.mod_pos_bound n 10 ltac:(lia)) as Hm. pose proof (Z.div_mod n 10 ltac:(lia)) as Hd.
  cbn [dec_loop]. destruct (Z.ltb_spec n 10) as [Hlt|Hge].
  - cbn [app]. rewrite digits_cons_digit by (apply is_digit_digit_char; lia).
    rewrite digit_val_digit_char by lia. by rewrite Z.mod_small by lia.
  - rewrite dec_loop_app, <- app_assoc. rewrite Nat2Z.inj_succ, Z.pow_succ_r in Hn by lia.
    assert (fuel <> O) by (intros ->; simpl in Hn; lia).
    rewrite IH by lia. cbn [app].
    rewrite digits_cons_digit by (apply is_digit_digit_char; lia).
    rewrite digit_val_digit_char by lia. f_equal. lia.
Qed.

(** A string that does not continue a number. *)
Definition not_digit_first (t : bytes) : Prop :=
  match t with [] => True | c :: _ => is_digit c = false end.

Lemma digits_stop t n : not_digit_first t -> digits t n true = Some n.
Proof. destruct t as [|c t]; simpl; [done|]. by intros ->. Qed.

Lemma dec_loop_head fuel n :
  0 <= n -> (0 < fuel)%nat -> exists c l, dec_loop fuel n [] = c :: l /\ is_digit c = true.
Proof.
  intros Hn Hf. pose proof (dec_loop_digits fuel n Hn) as Hd.
  destruct (dec_loop fuel n []) as [|c l] eqn:E; [|apply Forall_cons_1 in Hd as [? _]; eauto].
  exfalso. destruct fuel as [|fuel]; [lia|]. simpl in E.
  destruct (n <? 10); [done|]. rewrite dec_loop_app in E. by destruct (dec_loop fuel (n / 10) []).
Qed.

Lemma strto_digit_head c l :
  is_digit c = true -> strto (c :: l) = (m ← digits (c :: l) 0 false; Some (false, m)).
Proof.
  intros Hc. unfold strto. assert (is_space c = false) as Hs.
  { revert Hc. unfold is_digit, is_space. cmp; simpl; lia || done. }
  cbn [skip_space]. rewrite Hs. destruct c; try done; by vm_compute in Hc.
Qed.

Lemma strto_to_string n t :
  - 10 ^ 20 < n < 10 ^ 20 -> not_digit_first t ->
  strto (to_string n ++ t) = Some (n <? 0, Z.abs n).
Proof.
  intros Hn Ht. unfold to_string. destruct (Z.ltb_spec n 0).
  - cbn [app]. unfold strto. cbn [skip_space].
    change (is_space x2d) with false. cbn iota.
    rewrite digits_dec_loop, digits_stop by (done || lia). simpl. do 2 f_equal. lia.
  - destruct (dec_loop_head 20 n) as (c & l & E & Hc); [lia..|].
    assert (E2 : digits (dec_loop 20 n [] ++ t) 0 false = Some n).
    { rewrite digits_dec_loop, digits_stop by (done || lia). done. }
    rewrite E in E2 |- *. cbn [app] in *. rewrite strto_digit_head by done. rewrite E2. simpl.
    do 2 f_equal. lia.
Qed.

(** The types whose parser covers the whole type. *)
Definition stoi_full (T : ctype) : bool :=
  match T with I16 | I32 | I64 | U64 => true | _ => false end.

Lemma in_range_to_string T n : in_range T n -> - 10 ^ 20 < n < 10 ^ 20.
Proof. change (10 ^ 20) with 100000000000000000000. destruct T; intros; range_lia. Qed.

(** Parsing a printed number, whatever follows it, gives the number back. *)
Lemma stoi_to_string_app T n t :
  stoi_full T = true -> in_range T n -> not_digit_first t ->
  stoi T (to_string n ++ t) = Some n.
Proof.
  intros HT Hn Ht. pose proof (in_range_to_string T n Hn) as Hb.
  pose proof (strto_to_string n t Hb Ht) as E.
  assert (Hv : (if n <? 0 then - Z.abs n else Z.abs n) = n) by (cmp; lia).
  assert (Hs : forall T', in_range T' n -> sto_signed T' (to_string n ++ t) = Some n).
  { intros T' ?. unfold sto_signed. rewrite E. simpl. rewrite Hv. by rewrite bool_decide_true. }
  destruct T; try done; simpl.
  - rewrite Hs; [simpl; by rewrite wrap_id|range_lia].
  - by apply Hs.
  - by apply Hs.
  - unfold sto_unsigned. rewrite E. simpl. rewrite Hv.
    change (max_val U64) with 18446744073709551615.
    rewrite (proj2 (Z.leb_le _ _)) by range_lia.
    by rewrite wrap_id.
Qed.

Lemma stoi_to_string T n :
  stoi_full T = true -> in_range T n -> stoi T (to_string n) = Some n.
Proof. intros. rewrite <- (app_nil_r (to_string n)). by apply stoi_to_string_app. Qed.

(** What [to_string] writes. *)
Lemma to_string_chars n : Forall (fun c => is_digit c = true \/ c = x2d) (to_string n).
Proof.
  unfold to_string. destruct (Z.ltb_spec n 0).
  - constructor; [by right|]. eapply Forall_impl; [apply dec_loop_digits; lia|]. by left.
  - eapply Forall_impl; [apply dec_loop_digits; lia|]. by left.
Qed.

Lemma to_string_not_elem c n : is_digit c = false -> c <> x2d -> c ∉ to_string n.
Proof.
  intros Hd Hm Hin. pose proof (to_string_chars n) as Hf. rewrite Forall_forall in Hf.
  destruct (Hf c Hin); congruence.
Qed.

(** ** Splitting *)

Lemma split_loop_app delim u s cur :
  delim ∉ u -> split_loop delim (u ++ delim :: s) cur = (cur ++ u) :: split_loop delim s [].
Proof.
  revert cur; induction u as [|c u IH]; intros cur Hu; simpl.
  - rewrite bool_decide_true by done. by rewrite app_nil_r.
  - rewrite bool_decide_false by set_solver. rewrite IH by set_solver. by rewrite <- app_assoc.
Qed.

Lemma split_loop_last delim u cur :
  delim ∉ u -> cur ++ u <> [] -> split_loop delim u cur = [cur ++ u].
Proof.
  revert cur; induction u as [|c u IH]; intros cur Hu Hne; simpl.
  - rewrite app_nil_r in *. by destruct cur.
  - rewrite bool_decide_false by set_solver.
    rewrite IH by (set_solver || (rewrite <- app_assoc; by destruct cur)). by rewrite <- app_assoc.
Qed.

(** [implode]: the inverse direction of [split]. *)
Fixpoint join (delim : byte) (l : list bytes) : bytes :=
  match l with [] => [] | [x] => x | x :: l' => x ++ delim :: join delim l' end.

(** Splitting what was joined returns the pieces, when no piece holds the delimiter and
    the last one is not empty (empty pieces in the middle survive). *)
Lemma split_join delim l :
  Forall (fun x => delim ∉ x) l -> last l <> Some [] -> split (join delim l) delim = l.
Proof.
  unfold split. induction l as [|x l IH]; intros Hl Hlast; [done|].
  apply Forall_cons_1 in Hl as [Hx Hl]. destruct l as [|y l].
  - simpl. rewrite split_loop_last; [done|done|]. simpl in *. congruence.
  - change (join delim (x :: y :: l)) with (x ++ delim :: join delim (y :: l)).
    rewrite split_loop_app by done. f_equal. by apply IH.
Qed.

(** ** [removeAll] *)

(** What the loop computes: the character after a removed one is kept unexamined. *)
Fixpoint remove_skip (c : byte) (s : bytes) : bytes :=
  match s with
  | [] => []
  | d :: s' =>
      if bool_decide (d = c) then match s' with [] => [] | e :: s'' => e :: remove_skip c s'' end
      else d :: remove_skip c s'
  end.

Lemma remove_skip_notin c u s : c ∉ u -> remove_skip c (u ++ s) = u ++ remove_skip c s.
Proof.
  induction u as [|d u IH]; intros H; [done|]. simpl.
  rewrite bool_decide_false by set_solver. by rewrite IH by set_solver.
Qed.

Lemma str_find_at_pre p pre s : str_find_at p (pre ++ s) (length pre) = (fun i => length pre + i)%nat <$> str_find p s.
Proof.
  unfold str_find_at. rewrite length_app, drop_app_length.
  destruct (Nat.ltb_spec (length pre + length s) (length pre)); [lia|done].
Qed.

Lemma removeAll_loop_skip fuel pre s c :
  (length s < fuel)%nat ->
  removeAll_loop fuel (pre ++ s) c (length pre) = pre ++ remove_skip c s.
Proof.
  revert pre s; induction fuel as [|fuel IH]; intros pre s Hf; [lia|]. cbn [removeAll_loop].
  rewrite str_find_at_pre. destruct (decide (c ∈ s)) as [Hin|Hin].
  - apply list_elem_of_split_l in Hin as (u & v & -> & Hu).
    rewrite str_find_char_app by done. cbn [fmap option_fmap option_map].
    rewrite app_assoc, <- length_app, take_app_length, drop_app_cons.
    rewrite <- app_assoc. rewrite remove_skip_notin by done. cbn [remove_skip].
    rewrite bool_decide_true by done. destruct v as [|e v].
    + rewrite app_nil_r. destruct fuel; simpl; [done|]. unfold str_find_at.
      by destruct (Nat.ltb_spec (length (pre ++ u)) (length (pre ++ u) + 1)); [|lia].
    + replace (length (pre ++ u) + 1)%nat with (length ((pre ++ u) ++ [e])) by (len).
      replace (pre ++ u ++ e :: v) with (((pre ++ u) ++ [e]) ++ v) by (by rewrite <- !app_assoc).
      rewrite IH by (rewrite length_app in Hf; simpl in Hf; lia). by rewrite <- !app_assoc.
  - rewrite str_find_char_None by done. simpl. rewrite <- (app_nil_r s) at 2.
    rewrite remove_skip_notin by done. simpl. by rewrite app_nil_r.
Qed.

Lemma removeAll_skip s c : removeAll s c = remove_skip c s.
Proof. unfold removeAll. apply (removeAll_loop_skip _ []). lia. Qed.

(** ** [compress_number] and [uncompress_number]

    Two digits that are the code of one of the letters A to Z and a to c are written as that letter. *)

Definition is_letter_code (c : Z) : bool := ((65 <=? c) && (c <=? 90)) || ((97 <=? c) && (c <=? 99)).

Definition uncompress_number (k : bytes) : bytes :=
  mjoin ((fun c => if is_letter_code (b2z c) then to_string (b2z c) else [c]) <$> k).

(** One pass of the loop of [compress_number]. *)
Definition compress_pair (c1 c2 : byte) : bytes :=
  match stoi I32 [c1; c2] with
  | Some c => if is_letter_code c then [z2b c] else [c1; c2]
  | None => [c1; c2]
  end.
Fixpoint compress_number (k : bytes) : bytes :=
  match k with
  | c1 :: c2 :: k' => compress_pair c1 c2 ++ compress_number k'
  | _ => k
  end.

Definition no_letter_codes (k : bytes) : Prop := Forall (fun c => is_letter_code (b2z c) = false) k.

Definition all_bytes : bytes := z2b <$> seqZ 0 256.

Lemma elem_of_all_bytes c : c ∈ all_bytes.
Proof.
  unfold all_bytes. rewrite list_elem_of_fmap. exists (b2z c). split; [by rewrite z2b_b2z|]. pose proof (b2z_range c). apply elem_of_seqZ. lia.
Qed.

(** Two characters are read as a letter's code only when they are its two digits. *)
Lemma compress_pair_code c1 c2 c : stoi I32 [c1; c2] = Some c -> is_letter_code c = true -> to_string c = [c1; c2] /\ 0 <= c < 256.
Proof.
  assert (H : forallb (fun c1 => forallb (fun c2 => match stoi I32 [c1; c2] with
    | Some c => negb (is_letter_code c) || bool_decide (to_string c = [c1; c2]) | None => true end) all_bytes) all_bytes = true) by (vm_compute; reflexivity).
  intros E Hc. rewrite forallb_forall in H. specialize (H c1 (proj1 (list_elem_of_In _ _) (elem_of_all_bytes c1))). rewrite forallb_forall in H.
  specialize (H c2 (proj1 (list_elem_of_In _ _) (elem_of_all_bytes c2))). rewrite E, Hc in H. cbn [negb orb] in H. apply bool_decide_eq_true in H. split; [done|].
  unfold is_letter_code in Hc. lia.
Qed.

(** [uncompress_number] undoes [compress_number] on a text that holds none of these letters. *)
Lemma uncompress_compress_number k : no_letter_codes k -> uncompress_number (compress_number k) = k.
Proof.
  unfold no_letter_codes, uncompress_number. remember (length k) as n eqn:Hn. revert k Hn.
  induction n as [n IH] using lt_wf_ind. intros [|c1 [|c2 k]] Hn Hk; [done|apply Forall_cons in Hk as [Hc _]; by cbn [compress_number fmap list_fmap mjoin list_join]; rewrite Hc|].
  apply Forall_cons in Hk as [H1 Hk]. apply Forall_cons in Hk as [H2 Hk]. cbn [compress_number]. rewrite fmap_app, join_app, (IH (length k)) by (done || (subst n; simpl; lia)).
  assert (E : mjoin ((fun c => if is_letter_code (b2z c) then to_string (b2z c) else [c]) <$> compress_pair c1 c2) = [c1; c2]); [|by rewrite E].
  unfold compress_pair. destruct (stoi I32 [c1; c2]) as [c|] eqn:Es; [destruct (is_letter_code c) eqn:Ec|].
  - destruct (compress_pair_code c1 c2 c Es Ec) as [Et Hr]. cbn [fmap list_fmap]. rewrite b2z_z2b, Z.mod_small, Ec by done. cbn [mjoin list_join]. by rewrite app_nil_r.
  - cbn [fmap list_fmap]. rewrite H1, H2. done.
  - cbn [fmap list_fmap]. rewrite H1, H2. done.
Qed.
