(* ===== verification/Compression.v ===== *)
(** * Compression ([libs/commpression_zlib.cpp])

    The two functions of the program over zlib: an error of zlib is reported and gives the empty
    text.  zlib itself, [deflate] and [inflate] to the end of the stream, is a parameter. *)

From S2P Require Import Prelude.
From stdpp Require Import base list.

(** [compress_string]. *)
Definition compress (deflate : bytes -> option bytes) (str : bytes) : bytes := default [] (deflate str).

(** [decompress_string]. *)
Definition decompress (inflate : bytes -> option bytes) (str : bytes) : bytes :=
  match str with [] => [] | _ :: _ => default [] (inflate str) end.

(** What zlib undoes the two functions undo. *)
Lemma decompress_Some inflate str text : str <> [] -> inflate str = Some text -> decompress inflate str = text.
Proof. intros Hs E. unfold decompress. rewrite E. by destruct str. Qed.

Theorem decompress_compress (deflate inflate : bytes -> option bytes) (text packed : bytes) :
  deflate text = Some packed -> packed <> [] -> inflate packed = Some text -> decompress inflate (compress deflate text) = text.
Proof. intros Hd Hp Hi. unfold compress. rewrite Hd. by apply decompress_Some. Qed.

(** Data that zlib does not accept are lost without an exception. *)
Lemma decompress_error inflate str : inflate str = None -> decompress inflate str = [].
Proof. intros E. unfold decompress. rewrite E. by destruct str. Qed.
