(* ===== verification/BTree.v ===== *)
(** * Index descriptors and search conditions ([rssdisk/rssdisk/extentions/b_tree.h])

    The data types that the json database shares with its index code: the kind of an
    indexed field, the location of a record, the cursor into an index, and one search
    condition. *)

From S2P Require Import Prelude.
From Stdlib Require Import ZArith Lia.
From stdpp Require Import base gmap numbers list.
Open Scope Z_scope.

Module b_base.
(** [b_tree::b_base::type]. *)
Inductive type := none | numeric | date | string.

#[global] Instance type_eq_dec : EqDecision type.
Proof. solve_decision. Defined.

(** [static_cast<std::uint8_t>(type)]. *)
Definition type_code (t : type) : Z :=
  match t with none => 0 | numeric => 1 | date => 2 | string => 3 end.

(** [b_tree::b_base]: where a record or a block lies. *)
Record t := mk { tp : type; offset : Z; size : Z; rebuilded : bool }.

Definition init : t := mk numeric 0 0 false.

(** [b_base::clear] resets the location only. *)
Definition clear (d : t) : t := mk (tp d) 0 0 (rebuilded d).
End b_base.

Module search.
(** [b_tree::search::type_operation]. *)
Inductive type_operation :=
  | op_compare | op_lte | op_gte | op_lt | op_gt
  | op_range_lte_gte | op_range_lt_gte | op_range_lte_gt | op_range_lt_gt.

#[global] Instance type_operation_eq_dec : EqDecision type_operation.
Proof. solve_decision. Defined.

(** [b_tree::search::type_search_index]. *)
Inductive type_search_index := si_compare | si_lte | si_gte | si_lt | si_gt.

#[global] Instance type_search_index_eq_dec : EqDecision type_search_index.
Proof. solve_decision. Defined.

(** [b_tree::search::val_search]; an absent [base] is the empty string. *)
Record val_search := mk_val { indexed : bytes; base : bytes }.

(** [b_tree::search]. *)
Record t := mk {
  op : type_operation;
  tp : b_base.type;
  i : list val_search;
  is_indexed : bool;
  min : Z;
  max : Z }.

Definition init : t := mk op_compare b_base.numeric [] false (min_val I64) (max_val I64).

(** [b_tree::search::index]: a cursor into an index together with the entry it read. *)
Record index := mk_index {
  ix_i : Z;
  dd : b_base.t;
  cursor : Z;
  max_cursor : Z;
  found : bool;
  found_ultima : bool;
  is_lower : bool }.

Definition index_init : index := mk_index 0 b_base.init 0 0 false false false.

(** [index::clear]. *)
Definition index_clear (f : index) : index :=
  mk_index 0 (b_base.clear (dd f)) (cursor f) (max_cursor f) (found f) (found_ultima f) (is_lower f).

(** Assignments to the members. *)
Definition set_i (x : Z) (f : index) : index :=
  mk_index x (dd f) (cursor f) (max_cursor f) (found f) (found_ultima f) (is_lower f).
Definition set_offset (x : Z) (f : index) : index :=
  mk_index (ix_i f) (b_base.mk (b_base.tp (dd f)) x (b_base.size (dd f)) (b_base.rebuilded (dd f)))
    (cursor f) (max_cursor f) (found f) (found_ultima f) (is_lower f).
Definition set_size (x : Z) (f : index) : index :=
  mk_index (ix_i f) (b_base.mk (b_base.tp (dd f)) (b_base.offset (dd f)) x (b_base.rebuilded (dd f)))
    (cursor f) (max_cursor f) (found f) (found_ultima f) (is_lower f).
Definition set_cursor (c : Z) (f : index) : index :=
  mk_index (ix_i f) (dd f) c (max_cursor f) (found f) (found_ultima f) (is_lower f).
Definition set_max_cursor (c : Z) (f : index) : index :=
  mk_index (ix_i f) (dd f) (cursor f) c (found f) (found_ultima f) (is_lower f).
Definition set_found (b : bool) (f : index) : index :=
  mk_index (ix_i f) (dd f) (cursor f) (max_cursor f) b (found_ultima f) (is_lower f).
Definition set_found_ultima (b : bool) (f : index) : index :=
  mk_index (ix_i f) (dd f) (cursor f) (max_cursor f) (found f) b (is_lower f).
Definition set_is_lower (b : bool) (f : index) : index :=
  mk_index (ix_i f) (dd f) (cursor f) (max_cursor f) (found f) (found_ultima f) b.
End search.
