(* ===== verification/JIndex.v ===== *)
(** * The index of a json database ([JDatabaseManager::IndexUtility], j_manager.cpp)

    An index is a byte string of 16-byte entries (a signed 64-bit key, the offset and
    the size of the record), sorted by key.  [retrieveCursor] searches it by a
    galloping binary search that ends in a linear walk, [addToIndex] inserts an entry,
    [fetchIndexedData] collects the records that meet one search condition. *)

From S2P Require Import Prelude Bitbase BasefuncStd BTree.
From Stdlib Require Import ZArith Lia.
From stdpp Require Import base gmap numbers list.
Import search.
Open Scope Z_scope.

Definition indexDataSize : nat := 16.

(** ** Operations *)

(** The byte loop of [extractIndex]: [j] bytes may still be read, [data] holds the bytes
    of the current field, [n] is the field's number. *)
Fixpoint extract_loop (rest : bytes) (j : nat) (data : bytes) (n : nat) (d : index) : index :=
  match rest, j with
  | c :: rest', S j' =>
      let data := data ++ [c] in
      match n with
      | O => if (length data =? sizeof I64)%nat
             then extract_loop rest' j' [] 1 (set_i (chars_to_numeric I64 data) d)
             else extract_loop rest' j' data n d
      | 1%nat => if (length data =? sizeof U32)%nat
             then extract_loop rest' j' [] 2 (set_offset (chars_to_numeric U32 data) d)
             else extract_loop rest' j' data n d
      | _ => if (length data =? sizeof U32)%nat
             then set_size (chars_to_numeric U32 data) d
             else extract_loop rest' j' data n d
      end
  | _, _ => d
  end.

Definition extractIndex (ind : bytes) (cur : Z) (d : index) : index :=
  let d := index_clear d in
  let i := wrap U64 (cur * Z.of_nat indexDataSize) in
  if i <? Z.of_nat (length ind)
  then extract_loop (drop (Z.to_nat i) ind) indexDataSize [] 0 d else d.

(** The search loop of [retrieveCursor], [fuel] iterations before its bound.  The result
    is the cursor, the flag [equal], and whether the loop was left by a [break]. *)
Fixpoint rc_loop (ind : bytes) (val : Z) (op : type_search_index) (max_c : Z) (fuel : nat)
    (f : index) (cur prev : Z) (step_up step_down : bool) : index * bool * bool :=
  match fuel with
  | O => (f, false, false)
  | S fuel' =>
      let f := extractIndex ind cur f in
      if ix_i f =? val then (set_found true (set_cursor cur f), true, true)
      else if ix_i f <? val then
        if step_down then
          match op with
          | si_gte | si_gt => (set_found true (set_cursor (wrap U64 (cur + 1)) f), false, true)
          | si_lte | si_lt => (set_found true (set_cursor cur f), false, true)
          | si_compare => (f, false, true)
          end
        else
          let prev := cur in
          if 5 <? wrap U64 (max_c - cur) then
            rc_loop ind val op max_c fuel' f (wrap U64 (cur + wrap U64 (max_c - cur) / 2)) prev step_up step_down
          else
            let cur := wrap U64 (cur + 1) in
            if cur =? max_c then
              match op with
              | si_lte | si_lt => (set_found true (set_cursor (wrap U64 (cur - 1)) f), false, true)
              | _ => (f, false, true)
              end
            else rc_loop ind val op max_c fuel' f cur prev true step_down
      else
        if step_up then
          match op with
          | si_lte | si_lt => (set_found true (set_cursor (wrap U64 (cur - 1)) f), false, true)
          | si_gte | si_gt => (set_found true (set_cursor cur f), false, true)
          | si_compare => (f, false, true)
          end
        else if 5 <? wrap U64 (cur - prev) then
          rc_loop ind val op max_c fuel' f (wrap U64 (prev + wrap U64 (cur - prev) / 2)) prev step_up step_down
        else if cur =? 0 then
          let f := set_is_lower true f in
          match op with
          | si_gte | si_gt => (set_found true (set_cursor cur f), false, true)
          | _ => (f, false, true)
          end
        else rc_loop ind val op max_c fuel' f (wrap U64 (cur - 1)) prev step_up true
  end.

(** The walk over equal keys upwards: [for (; f.cursor < f.max_cursor; ++f.cursor)]. *)
Fixpoint equal_up (ind : bytes) (val : Z) (op : type_search_index) (fuel : nat) (f : index) : index :=
  match fuel with
  | O => f
  | S fuel' =>
      if cursor f <? max_cursor f then
        let f := extractIndex ind (cursor f) f in
        if negb (ix_i f =? val) then
          let f := if decide (op = si_lte) then set_cursor (wrap U64 (cursor f - 1)) f else f in
          extractIndex ind (cursor f) f
        else equal_up ind val op fuel' (set_cursor (wrap U64 (cursor f + 1)) f)
      else f
  end.

(** The walk downwards: [while (f.cursor > 0)]. *)
Fixpoint equal_down (ind : bytes) (val : Z) (op : type_search_index) (fuel : nat) (f : index) : index :=
  match fuel with
  | O => f
  | S fuel' =>
      if 0 <? cursor f then
        let f := set_cursor (wrap U64 (cursor f - 1)) f in
        let f := extractIndex ind (cursor f) f in
        if negb (ix_i f =? val) then
          let f := if decide (op = si_gte) then set_cursor (wrap U64 (cursor f + 1)) f else f in
          extractIndex ind (cursor f) f
        else equal_down ind val op fuel' f
      else f
  end.

(** [for (auto i = 0u; i < 10000; ++i)]. *)
Definition search_bound : nat := 10000.

Definition max_cursor_of (ind : bytes) : Z := Z.of_nat (length ind) / Z.of_nat indexDataSize.

Definition rc_search (ind : bytes) (val : Z) (op : type_search_index) : index * bool * bool :=
  let max_c := max_cursor_of ind in
  let f := set_max_cursor max_c index_init in
  match ind with
  | [] => (f, false, true)
  | _ => rc_loop ind val op max_c search_bound f (max_c / 2) 0 false false
  end.

Definition retrieveCursor (ind : bytes) (val : Z) (op : type_search_index) : index :=
  let '(f, equal, _) := rc_search ind val op in
  if (equal : bool) then
    match op with
    | si_lte | si_gt =>
        let f := set_cursor (wrap U64 (cursor f + 1)) f in
        let f := if cursor f <? max_cursor f
                 then equal_up ind val op (Z.to_nat (max_cursor f - cursor f)) f
                 else set_cursor (wrap U64 (cursor f - 1)) f in
        if decide (op = si_gt) then
          if ix_i f =? val then set_found false (set_found_ultima true f) else f
        else f
    | si_gte | si_lt =>
        let f := equal_down ind val op (Z.to_nat (cursor f)) f in
        if decide (op = si_lt) then
          if ix_i f =? val then set_found false (set_found_ultima true f) else f
        else f
    | si_compare => f
    end
  else f.

Definition calculateIndexSize (ind : bytes) : Z := max_cursor_of ind.

(** One entry as [addToIndex] and [createDatabaseContent] write it. *)
Definition enc_entry (k o s : Z) : bytes :=
  numeric_to_chars_app (numeric_to_chars_app (numeric_to_chars_app [] I64 k) U32 o) U32 s.

Arguments enc_entry : simpl never.
Arguments extractIndex : simpl never.

(** [None] is the [std::out_of_range] of [std::string::insert]. *)
Definition addToIndex (ind : bytes) (k : Z) (d : b_base.t) : option bytes :=
  let f := retrieveCursor ind k si_lt in
  let pos := if is_lower f then 0 else Z.of_nat (length ind) in
  let pos := if found f || found_ultima f
             then wrap U64 (wrap U64 (cursor f + 1) * Z.of_nat indexDataSize) else pos in
  let app := enc_entry k (b_base.offset d) (b_base.size d) in
  if pos <=? Z.of_nat (length ind)
  then Some (take (Z.to_nat pos) ind ++ app ++ drop (Z.to_nat pos) ind) else None.

Fixpoint fetchAll_loop (ind : bytes) (fuel : nat) (cur max_c : Z) (ret : list index) : list index :=
  match fuel with
  | O => ret
  | S fuel' =>
      if cur <? max_c
      then fetchAll_loop ind fuel' (cur + 1) max_c (ret ++ [extractIndex ind cur index_init])
      else ret
  end.

Definition fetchAllIndexedData (ind : bytes) : list index :=
  fetchAll_loop ind (Z.to_nat (max_cursor_of ind)) 0 (max_cursor_of ind) [].

(** The lambda [f_add]; [unordered_map::insert] keeps an existing entry. *)
Definition f_add (readed : option (gmap Z Z)) (ret : gmap Z Z) (si : index) : gmap Z Z :=
  let o := b_base.offset (dd si) in
  let ok := match readed with None => true | Some r => bool_decide (is_Some (r !! o)) end in
  if (ok : bool) then
    match ret !! o with Some _ => ret | None => <[o := b_base.size (dd si)]> ret end
  else ret.

Section fetch.
Context (ind : bytes) (readed : option (gmap Z Z)).

Fixpoint cmp_up (s : Z) (fuel : nat) (f : index) (ret : gmap Z Z) : index * gmap Z Z :=
  match fuel with
  | O => (f, ret)
  | S fuel' =>
      if cursor f <? max_cursor f then
        let f := extractIndex ind (cursor f) f in
        if ix_i f =? s
        then cmp_up s fuel' (set_cursor (wrap U64 (cursor f + 1)) f) (f_add readed ret f)
        else (f, ret)
      else (f, ret)
  end.

Fixpoint cmp_down (s : Z) (fuel : nat) (down : Z) (f : index) (ret : gmap Z Z) : gmap Z Z :=
  match fuel with
  | O => ret
  | S fuel' =>
      if 0 <? down then
        let down := down - 1 in
        let f := extractIndex ind down f in
        if ix_i f =? s then cmp_down s fuel' down f (f_add readed ret f) else ret
      else ret
  end.

(** The body of the loop over the searched values. *)
Definition cmp_one (ret : gmap Z Z) (it : val_search) : gmap Z Z :=
  let s := default 0 (stoi I64 (indexed it)) in
  let f := retrieveCursor ind s si_compare in
  if found f then
    let down := cursor f in
    let ret := f_add readed ret f in
    let f := set_cursor (wrap U64 (cursor f + 1)) f in
    let '(f, ret) := cmp_up s (Z.to_nat (max_cursor f - cursor f)) f ret in
    cmp_down s (Z.to_nat down) down f ret
  else ret.

Fixpoint ge_loop (fuel : nat) (f : index) (ret : gmap Z Z) : gmap Z Z :=
  match fuel with
  | O => ret
  | S fuel' =>
      if cursor f <? max_cursor f then
        let f := extractIndex ind (cursor f) f in
        ge_loop fuel' (set_cursor (wrap U64 (cursor f + 1)) f) (f_add readed ret f)
      else ret
  end.

Fixpoint le_loop (fuel : nat) (f : index) (ret : gmap Z Z) : gmap Z Z :=
  match fuel with
  | O => ret
  | S fuel' =>
      if 0 <? cursor f then
        let f := set_cursor (cursor f - 1) f in
        let f := extractIndex ind (cursor f) f in
        le_loop fuel' f (f_add readed ret f)
      else ret
  end.

Fixpoint range_loop (fuel : nat) (f : index) (last : Z) (ret : gmap Z Z) : gmap Z Z :=
  match fuel with
  | O => ret
  | S fuel' =>
      if cursor f <=? last then
        let ret := f_add readed ret f in
        let f := set_cursor (wrap U64 (cursor f + 1)) f in
        let f := extractIndex ind (cursor f) f in
        range_loop fuel' f last ret
      else ret
  end.

Definition fetchIndexedData (srch : search.t) : gmap Z Z :=
  match op srch with
  | op_compare => foldl cmp_one ∅ (i srch)
  | op_gt | op_gte =>
      let o := if decide (op srch = op_gt) then si_gt else si_gte in
      let f := retrieveCursor ind (min srch) o in
      if found f then
        let ret := f_add readed ∅ f in
        let f := set_cursor (wrap U64 (cursor f + 1)) f in
        if cursor f <? max_cursor f
        then ge_loop (Z.to_nat (max_cursor f - cursor f)) f ret else ret
      else ∅
  | op_lt | op_lte =>
      let o := if decide (op srch = op_lt) then si_lt else si_lte in
      let f := retrieveCursor ind (max srch) o in
      if found f then le_loop (Z.to_nat (cursor f)) f (f_add readed ∅ f) else ∅
  | _ =>
      let o := if decide (op srch = op_range_lte_gt \/ op srch = op_range_lt_gt) then si_gt else si_gte in
      let o2 := if decide (op srch = op_range_lt_gt \/ op srch = op_range_lt_gte) then si_lt else si_lte in
      let f := retrieveCursor ind (min srch) o in
      let f2 := retrieveCursor ind (max srch) o2 in
      if found f && found f2
      then range_loop (Z.to_nat (cursor f2 - cursor f + 1)) f (cursor f2) ∅ else ∅
  end.
End fetch.

(** [std::find] over the column names, 0 when absent. *)
Definition findIndexColumn (columns : list bytes) (field : bytes) : Z :=
  match list_find (fun c => c = field) columns with
  | Some (n, _) => Z.of_nat n mod 2 ^ 16
  | None => 0
  end.
