(* ===== verification/JIndexFacts.v ===== *)
(** * Correctness of the index search ([IndexUtility])

    An index that encodes a list of entries sorted by key is searched correctly: the
    loop of [retrieveCursor] always ends by itself, far below its bound of 10000
    iterations, and the cursor it returns delimits the searched key; [addToIndex] is
    insertion into a sorted list; an equality search returns exactly the matching
    records.  Where the code goes wrong (a range search for a key that is not in the
    index) the behaviour is stated too. *)

From S2P Require Import Prelude Bitbase BasefuncStd BTree JIndex.
From Stdlib Require Import ZArith Lia.
From stdpp Require Import base gmap strings numbers sorting list.
Import search.
Open Scope Z_scope.

(** ** Entries *)

Record entry := Entry { e_key : Z; e_offset : Z; e_size : Z }.

#[export] Instance entry_eq_dec : EqDecision entry.
Proof. solve_decision. Defined.

#[export] Instance entry_inhabited : Inhabited entry := populate (Entry 0 0 0).

Definition entry_wf (e : entry) : Prop :=
  in_range I64 (e_key e) /\ in_range U32 (e_offset e) /\ in_range U32 (e_size e).

#[export] Instance entry_wf_dec e : Decision (entry_wf e).
Proof. unfold entry_wf. apply _. Defined.

Definition enc (e : entry) : bytes := enc_entry (e_key e) (e_offset e) (e_size e).

(** The byte string of an index. *)
Definition enc_index (es : list entry) : bytes := mjoin (enc <$> es).

Definition key_le (e1 e2 : entry) : Prop := e_key e1 <= e_key e2.

#[export] Instance key_le_trans : Transitive key_le.
Proof. intros a b c. unfold key_le. lia. Qed.

(** What an index of the database is: well-formed entries, sorted by key, few enough for
    the byte positions to fit 64 bits. *)
Definition index_ok (es : list entry) : Prop :=
  Forall entry_wf es /\ StronglySorted key_le es /\ Z.of_nat (length es) < 2 ^ 59.

Lemma enc_parts e :
  enc e = numeric_to_chars I64 (e_key e) ++ numeric_to_chars U32 (e_offset e) ++
          numeric_to_chars U32 (e_size e).
Proof. reflexivity. Qed.

Lemma length_enc e : length (enc e) = indexDataSize.
Proof. rewrite enc_parts. len. done. Qed.

Lemma enc_index_cons e es : enc_index (e :: es) = enc e ++ enc_index es.
Proof. done. Qed.

Lemma enc_index_app es1 es2 : enc_index (es1 ++ es2) = enc_index es1 ++ enc_index es2.
Proof. unfold enc_index. by rewrite fmap_app, join_app. Qed.

Lemma length_enc_index es : length (enc_index es) = (indexDataSize * length es)%nat.
Proof.
  induction es as [|e es IH]; [done|]. rewrite enc_index_cons, length_app, length_enc, IH.
  simpl length. lia.
Qed.

Lemma max_cursor_enc es : max_cursor_of (enc_index es) = Z.of_nat (length es).
Proof.
  unfold max_cursor_of. rewrite length_enc_index, Nat2Z.inj_mul, Z.mul_comm.
  apply Z.div_mul. done.
Qed.

Lemma drop_enc_index es c :
  drop (indexDataSize * c) (enc_index es) = enc_index (drop c es).
Proof.
  revert c; induction es as [|e es IH]; intros [|c]; try done.
  rewrite enc_index_cons. replace (indexDataSize * S c)%nat
    with (length (enc e) + indexDataSize * c)%nat by (rewrite length_enc; lia).
  rewrite drop_app_add. apply IH.
Qed.

Lemma take_enc_index es c :
  take (indexDataSize * c) (enc_index es) = enc_index (take c es).
Proof.
  revert c; induction es as [|e es IH]; intros [|c]; try done.
  rewrite enc_index_cons. replace (indexDataSize * S c)%nat
    with (length (enc e) + indexDataSize * c)%nat by (rewrite length_enc; lia).
  rewrite take_app_add, IH. done.
Qed.

Arguments enc : simpl never.
Arguments enc_index : simpl never.

(** ** Reading an entry *)

(** The effect of reading an entry into a cursor. *)
Definition rd (e : entry) (d : index) : index :=
  set_size (e_size e) (set_offset (e_offset e) (set_i (e_key e) (index_clear d))).

Lemma list_8 (l : bytes) : length l = 8%nat ->
  exists a b c d e f g h, l = [a; b; c; d; e; f; g; h].
Proof. do 9 (destruct l as [|? l]; try done). eauto 10. Qed.

Lemma list_4 (l : bytes) : length l = 4%nat -> exists a b c d, l = [a; b; c; d].
Proof. do 5 (destruct l as [|? l]; try done). eauto. Qed.

Lemma extract_loop_fields l1 l2 l3 rest d :
  length l1 = 8%nat -> length l2 = 4%nat -> length l3 = 4%nat ->
  extract_loop (l1 ++ l2 ++ l3 ++ rest) indexDataSize [] 0 d =
  set_size (chars_to_numeric U32 l3) (set_offset (chars_to_numeric U32 l2)
    (set_i (chars_to_numeric I64 l1) d)).
Proof.
  intros H1 H2 H3. destruct (list_8 l1 H1) as (?&?&?&?&?&?&?&?&->).
  destruct (list_4 l2 H2) as (?&?&?&?&->). destruct (list_4 l3 H3) as (?&?&?&?&->). reflexivity.
Qed.

Lemma extract_loop_enc e rest d :
  entry_wf e -> extract_loop (enc e ++ rest) indexDataSize [] 0 d =
  set_size (e_size e) (set_offset (e_offset e) (set_i (e_key e) d)).
Proof.
  intros (Hk & Ho & Hs). rewrite enc_parts, <- !app_assoc.
  rewrite extract_loop_fields by apply length_numeric_to_chars.
  by rewrite !chars_to_numeric_to_chars.
Qed.

Section index.
Context (es : list entry) (Hok : index_ok es).

Abbreviation sz := (Z.of_nat (length es)).

(** The entry, and its key, at a cursor. *)
Definition ent (c : Z) : entry := default inhabitant (es !! Z.to_nat c).
Definition key (c : Z) : Z := e_key (ent c).

Lemma n_bound : sz < 2 ^ 59.
Proof. apply Hok. Qed.

Lemma ent_lookup c : 0 <= c < sz -> es !! Z.to_nat c = Some (ent c).
Proof.
  intros Hc. unfold ent. destruct (lookup_lt_is_Some_2 es (Z.to_nat c)) as [e ->]; [lia|done].
Qed.

Lemma ent_wf c : 0 <= c < sz -> entry_wf (ent c).
Proof. intros Hc. destruct Hok as [Hf _]. eapply Forall_lookup_1; [done|by apply ent_lookup]. Qed.

Lemma key_mono c1 c2 : 0 <= c1 <= c2 -> c2 < sz -> key c1 <= key c2.
Proof.
  intros H1 H2. destruct Hok as (_ & Hs & _). destruct (decide (c1 = c2)) as [->|?]; [lia|].
  apply (StronglySorted_lookup key_le es (Z.to_nat c1) (Z.to_nat c2));
    [done|apply ent_lookup; lia|apply ent_lookup; lia|lia].
Qed.

Lemma extract_in c d : 0 <= c < sz -> extractIndex (enc_index es) c d = rd (ent c) d.
Proof.
  intros Hc. pose proof n_bound. unfold extractIndex. change (2 ^ 59) with 576460752303423488 in *.
  rewrite wrap_id by (unfold indexDataSize; range_lia).
  rewrite length_enc_index. destruct (Z.ltb_spec (c * Z.of_nat indexDataSize)
    (Z.of_nat (indexDataSize * length es))); [|unfold indexDataSize in *; lia].
  replace (Z.to_nat (c * Z.of_nat indexDataSize)) with (indexDataSize * Z.to_nat c)%nat
    by (unfold indexDataSize; lia).
  rewrite drop_enc_index, (drop_S _ _ _ (ent_lookup c Hc)), enc_index_cons.
  apply extract_loop_enc, ent_wf, Hc.
Qed.

Lemma extract_out c d : sz <= c < 2 ^ 59 + 2 -> extractIndex (enc_index es) c d = index_clear d.
Proof.
  intros Hc. unfold extractIndex. change (2 ^ 59 + 2) with 576460752303423490 in *.
  rewrite wrap_id by (unfold indexDataSize; range_lia).
  rewrite length_enc_index. destruct (Z.ltb_spec (c * Z.of_nat indexDataSize)
    (Z.of_nat (indexDataSize * length es))); [unfold indexDataSize in *; lia|done].
Qed.
(** ** The search loop *)

(** Every cursor the search handles differs from this one only in what it read. *)
Definition base : index := set_max_cursor sz index_init.
Definition at_ (c : Z) : index := rd (ent c) base.
Definition hit (c : Z) (f : index) : index := set_found true (set_cursor c f).

(** How the search loop can end. *)
Inductive outcome (val : Z) (op : type_search_index) : index * bool * bool -> Prop :=
  | out_equal c : 0 <= c < sz -> key c = val ->
      outcome val op (hit c (at_ c), true, true)
  | out_down c : 0 <= c -> c + 1 < sz -> key c < val < key (c + 1) ->
      outcome val op (match op with
               | si_gte | si_gt => hit (c + 1) (at_ c)
               | si_lte | si_lt => hit c (at_ c)
               | si_compare => at_ c
               end, false, true)
  | out_up c : 1 <= c < sz -> key (c - 1) < val < key c ->
      outcome val op (match op with
               | si_lte | si_lt => hit (c - 1) (at_ c)
               | si_gte | si_gt => hit c (at_ c)
               | si_compare => at_ c
               end, false, true)
  | out_top : 1 <= sz -> key (sz - 1) < val ->
      outcome val op (match op with si_lte | si_lt => hit (sz - 1) (at_ (sz - 1)) | _ => at_ (sz - 1) end, false, true)
  | out_bottom : 1 <= sz -> val < key 0 ->
      outcome val op (match op with
               | si_gte | si_gt => hit 0 (set_is_lower true (at_ 0))
               | _ => set_is_lower true (at_ 0)
               end, false, true).

Lemma rd_base c f : index_clear f = index_clear base -> rd (ent c) f = at_ c.
Proof. intros E. unfold at_, rd. by rewrite E. Qed.

Lemma clear_at c : index_clear (at_ c) = index_clear base.
Proof. done. Qed.

Lemma ix_i_at c : ix_i (at_ c) = key c.
Proof. done. Qed.

(** Removes the wrap-around of cursor arithmetic that stays below [2^60]. *)
Ltac unwrap :=
  pose proof n_bound; change (2 ^ 59) with 576460752303423488 in *;
  repeat match goal with |- context [wrap U64 ?x] => rewrite (wrap_id U64 x) by range_lia end.

(** One iteration: read the entry, compare. *)
Ltac visit val f cur Hf :=
  cbn [rc_loop]; rewrite (extract_in cur f), (rd_base cur f Hf), ix_i_at by lia;
  unwrap; destruct (Z.eqb_spec (key cur) val) as [?|Hne]; [constructor; lia|];
  destruct (Z.ltb_spec (key cur) val) as [Hlt|Hgt].

(** Ends a case of the search with the outcome [K] of each operation. *)
Ltac out op K := destruct op; match goal with |- outcome _ ?o _ => apply (K o) end; lia.

Lemma loop_up val op fuel f cur prev :
  index_clear f = index_clear base -> 1 <= cur < sz -> key (cur - 1) < val -> sz - cur <= 5 ->
  sz - cur < Z.of_nat fuel -> outcome val op (rc_loop (enc_index es) val op sz fuel f cur prev true false).
Proof.
  revert f cur prev; induction fuel as [|fuel IH]; intros f cur prev Hf Hc Hk Hn Hfu; [lia|].
  visit val f cur Hf.
  - destruct (Z.ltb_spec 5 (sz - cur)); [lia|]. destruct (Z.eqb_spec (cur + 1) sz) as [E|?].
    + replace (cur + 1 - 1) with cur by lia. replace cur with (sz - 1) in * by lia.
      out op (out_top val).
    + apply IH; [apply clear_at|lia|by replace (cur + 1 - 1) with cur by lia|lia|lia].
  - out op (fun o => out_up val o cur).
Qed.

Lemma loop_down val op fuel f cur prev :
  index_clear f = index_clear base -> 0 <= prev <= cur -> cur + 1 < sz -> val < key (cur + 1) ->
  cur - prev <= 5 -> prev = 0 \/ key prev < val -> cur - prev < Z.of_nat fuel ->
  outcome val op (rc_loop (enc_index es) val op sz fuel f cur prev false true).
Proof.
  revert f cur; induction fuel as [|fuel IH]; intros f cur Hf Hp Hc Hk Hd Hprev Hfu; [lia|].
  visit val f cur Hf.
  - out op (fun o => out_down val o cur).
  - destruct (Z.ltb_spec 5 (cur - prev)); [lia|]. destruct (Z.eqb_spec cur 0) as [->|?].
    + out op (out_bottom val).
    + assert (cur <> prev) by (intros ->; lia). unwrap.
      apply IH; [apply clear_at|lia|lia|replace (cur - 1 + 1) with cur by lia; lia|lia|done|lia].
Qed.
(** The galloping phase.  [t] counts the keys below the searched one; [h] is the upper end
    from which the last step halved.  Each move up at least halves the distance from the
    lower end [prev] to [t], each move down halves [h - prev]. *)
Definition potential (t prev h : Z) : Z := 62 * Z.log2_up (t - prev) + Z.log2 (h - prev).

Lemma log2_up_halve a b : 1 <= b -> 4 <= a -> 2 * b <= a + 1 -> Z.log2_up b <= Z.log2_up a - 1.
Proof.
  intros Hb Ha Hab. pose proof (Z.log2_up_spec a ltac:(lia)) as [_ H].
  assert (1 <= Z.log2_up a) by (apply (Z.log2_up_le_mono 2 a); lia).
  apply Z.log2_up_le_pow2; [lia|].
  assert (2 ^ Z.log2_up a = 2 * 2 ^ (Z.log2_up a - 1)) as E.
  { rewrite <- Z.pow_succ_r by lia. f_equal. lia. }
  lia.
Qed.

Lemma log2_halve a : 2 <= a -> Z.log2 (a / 2) = Z.log2 a - 1.
Proof.
  intros. change 2 with (2 ^ 1) at 1. rewrite <- Z.shiftr_div_pow2, Z.log2_shiftr by lia.
  assert (1 <= Z.log2 a) by (apply (Z.log2_le_mono 2 a); lia). lia.
Qed.

Lemma loop_gallop val op t fuel f cur prev h :
  (forall c, 0 <= c < sz -> key c < val <-> c < t) ->
  index_clear f = index_clear base -> 0 <= prev -> prev = 0 \/ prev < t -> t <= h <= sz ->
  5 < h - prev \/ (prev = 0 /\ h = sz) -> cur = prev + (h - prev) / 2 -> cur < sz ->
  potential t prev h + 8 <= Z.of_nat fuel ->
  outcome val op (rc_loop (enc_index es) val op sz fuel f cur prev false false).
Proof.
  intros Ht. revert f cur prev h.
  induction fuel as [|fuel IH]; intros f cur prev h Hf Hp Hpt Hh Hd Hc Hn Hfu.
  { unfold potential in Hfu. pose proof (Z.log2_up_nonneg (t - prev)). pose proof (Z.log2_nonneg (h - prev)). lia. }
  assert (0 <= prev <= cur) as Hpc by dlia.
  assert (h - prev = 2 * (cur - prev) \/ h - prev = 2 * (cur - prev) + 1) as Hhalf by dlia. pose proof (Ht cur ltac:(lia)) as Hcur.
  assert (8 <= Z.of_nat (S fuel)) as H8.
  { unfold potential in Hfu. pose proof (Z.log2_up_nonneg (t - prev)). pose proof (Z.log2_nonneg (h - prev)). lia. }
  visit val f cur Hf.
  - destruct (Z.ltb_spec 5 (sz - cur)) as [H5|H5].
    + apply IH with (h := sz); [apply clear_at|lia|lia|lia|lia|done|dlia|].
      assert (5 < h - prev) by lia. unfold potential in *.
      assert (Z.log2_up (t - cur) <= Z.log2_up (t - prev) - 1) by (apply log2_up_halve; lia).
      assert (Z.log2 (sz - cur) < 59) by (apply Z.log2_lt_pow2; lia).
      pose proof (Z.log2_nonneg (h - prev)). lia.
    + destruct (Z.eqb_spec (cur + 1) sz) as [E|?].
      * replace (cur + 1 - 1) with cur by lia. replace cur with (sz - 1) in * by lia. out op (out_top val).
      * apply loop_up; [apply clear_at|lia|by replace (cur + 1 - 1) with cur by lia|lia|lia].
  - destruct (Z.ltb_spec 5 (cur - prev)) as [H5|H5].
    + apply IH with (h := cur); [apply clear_at|lia|lia|lia|lia|done|dlia|]. unfold potential in *.
      replace (cur - prev) with ((h - prev) / 2) by dlia. rewrite log2_halve by lia. lia.
    + destruct (Z.eqb_spec cur 0) as [E|?]; [rewrite E in *; out op (out_bottom val)|].
      unwrap. apply loop_down; [apply clear_at|lia|lia|replace (cur - 1 + 1) with cur by lia; lia|lia| |lia].
      destruct (decide (prev = 0)); [by left|right]. apply Ht; lia.
Qed.
(** The keys below a value are a prefix of a sorted index. *)
Lemma threshold val : exists t, 0 <= t <= sz /\ forall c, 0 <= c < sz -> key c < val <-> c < t.
Proof.
  destruct Hok as (_ & Hs & _).
  assert (exists u v, es = u ++ v /\ Forall (fun e => e_key e < val) u /\ Forall (fun e => val <= e_key e) v)
    as (u & v & E & Hu & Hv).
  { clear Hok. induction Hs as [|e l Hs IH He]; [by exists [], []|].
    destruct (decide (e_key e < val)).
    - destruct IH as (u & v & -> & Hu & Hv). exists (e :: u), v. auto.
    - exists [], (e :: l). repeat split; auto. constructor; [lia|].
      eapply Forall_impl; [done|]. unfold key_le. intros; simpl in *. lia. }
  exists (Z.of_nat (length u)). rewrite E, length_app. split; [lia|]. intros c Hc.
  pose proof (ent_lookup c ltac:(rewrite E, length_app; lia)) as Hl. unfold key.
  rewrite E in Hl. destruct (decide (c < Z.of_nat (length u))).
  - rewrite lookup_app_l in Hl by lia. eapply Forall_lookup_1 in Hu; [|done]. simpl in Hu. lia.
  - rewrite lookup_app_r in Hl by lia. eapply Forall_lookup_1 in Hv; [|done]. simpl in Hv. lia.
Qed.

Lemma rc_search_outcome val op : es <> [] -> outcome val op (rc_search (enc_index es) val op).
Proof.
  intros Hne. unfold rc_search. rewrite max_cursor_enc.
  destruct (enc_index es) eqn:E.
  { apply (f_equal length) in E. rewrite length_enc_index in E. destruct es; [done|]. simpl in E. lia. }
  rewrite <- E. destruct (threshold val) as (t & Ht & Hk). pose proof n_bound.
  assert (0 < sz) by (destruct es; [done|simpl; lia]).
  eapply loop_gallop with (t := t) (h := sz); [done|done|lia|by left|lia|by right| |dlia|].
  - rewrite Z.sub_0_r. done.
  - unfold potential. rewrite !Z.sub_0_r. change (Z.of_nat search_bound) with 10000.
    assert (Z.log2_up t <= Z.log2_up sz) by (apply Z.log2_up_le_mono; lia).
    assert (Z.log2_up sz <= 59) by (apply Z.log2_up_le_pow2; lia).
    assert (Z.log2 sz < 59) by (apply Z.log2_lt_pow2; lia). lia.
Qed.
(** ** The walks over equal keys *)

Lemma extract_hit c c' : 0 <= c' < sz ->
  extractIndex (enc_index es) c' (set_cursor c' (hit c (at_ c))) = hit c' (at_ c').
Proof. intros. by rewrite extract_in. Qed.

Lemma extract_hit_same c : 0 <= c < sz ->
  extractIndex (enc_index es) c (hit c (at_ c)) = hit c (at_ c).
Proof. intros. by rewrite extract_in. Qed.

Lemma cursor_hit c f : cursor (hit c f) = c.
Proof. done. Qed.

Lemma set_cursor_hit c c' f : set_cursor c' (hit c f) = hit c' f.
Proof. done. Qed.

(** Downwards: to the entry below the run for [lt], to the first of the run for [gte]. *)
Lemma equal_down_spec val op c :
  0 <= c < sz -> key c = val -> op = si_lt \/ op = si_gte ->
  exists c', 0 <= c' <= c /\
    equal_down (enc_index es) val op (Z.to_nat c) (hit c (at_ c)) = hit c' (at_ c') /\
    ((op = si_gte /\ key c' = val /\ (c' = 0 \/ key (c' - 1) < val)) \/
     (op = si_lt /\ ((c' = 0 /\ key 0 = val) \/ (key c' < val /\ key (c' + 1) = val)))).
Proof.
  intros Hc Hk Hop. remember (Z.to_nat c) as fuel eqn:Hfu.
  revert c Hc Hk Hfu; induction fuel as [|fuel IH]; intros c Hc Hk Hfu.
  - exists 0. replace c with 0 in * by lia. split; [lia|]. split; [done|]. destruct Hop; auto.
  - cbn [equal_down]. rewrite cursor_hit.
    destruct (Z.ltb_spec 0 c) as [_|?]; [|lia]. unwrap.
    rewrite set_cursor_hit, cursor_hit. change (hit (c - 1) (at_ c)) with (set_cursor (c - 1) (hit c (at_ c))).
    rewrite extract_hit by lia. change (ix_i (hit (c - 1) (at_ (c - 1)))) with (key (c - 1)).
    pose proof (key_mono (c - 1) c ltac:(lia) ltac:(lia)).
    destruct (Z.eqb_spec (key (c - 1)) val) as [E|Hne]; simpl negb; cbn iota.
    + destruct (IH (c - 1)) as (c' & ? & -> & ?); [lia|done|lia|]. exists c'. split; [lia|done].
    + destruct Hop as [-> | ->].
      * exists (c - 1). rewrite !decide_False by done. rewrite cursor_hit, extract_hit_same by lia.
        split; [lia|]. split; [done|]. right. split; [done|]. right.
        replace (c - 1 + 1) with c by lia. lia.
      * exists c. rewrite !decide_True by done. rewrite cursor_hit, set_cursor_hit, cursor_hit. unwrap.
        replace (c - 1 + 1) with c by lia.
        change (hit c (at_ (c - 1))) with (set_cursor c (hit (c - 1) (at_ (c - 1)))).
        rewrite extract_hit by lia. split; [lia|]. split; [done|]. left. repeat split; [done|]. right. lia.
Qed.

(** Upwards: to the last of the run for [lte], to the entry above it for [gt]; the walk
    leaves the cursor past the end when the run reaches the end. *)
Lemma equal_up_spec val op c :
  1 <= c < sz -> key (c - 1) = val -> op = si_lte \/ op = si_gt ->
  let f := equal_up (enc_index es) val op (Z.to_nat (sz - c)) (set_cursor c (hit (c - 1) (at_ (c - 1)))) in
  (f = hit sz (at_ (sz - 1)) /\ key (sz - 1) = val) \/
  exists c', c <= c' < sz /\ key (c' - 1) = val /\ val < key c' /\
    f = (if decide (op = si_lte) then hit (c' - 1) (at_ (c' - 1)) else hit c' (at_ c')).
Proof.
  intros Hc Hk Hop. remember (Z.to_nat (sz - c)) as fuel eqn:Hfu. cbn zeta.
  revert c Hc Hk Hfu; induction fuel as [|fuel IH]; intros c Hc Hk Hfu; [lia|].
  cbn [equal_up]. change (max_cursor (set_cursor c (hit (c - 1) (at_ (c - 1))))) with sz.
  change (cursor (set_cursor c (hit (c - 1) (at_ (c - 1))))) with c.
  destruct (Z.ltb_spec c sz) as [_|?]; [|lia]. rewrite extract_hit by lia.
  change (ix_i (hit c (at_ c))) with (key c). pose proof (key_mono (c - 1) c ltac:(lia) ltac:(lia)).
  rewrite cursor_hit. unwrap. destruct (Z.eqb_spec (key c) val) as [E|Hne]; simpl negb; cbn iota.
  - destruct (decide (c + 1 = sz)) as [E2|?].
    + left. replace fuel with O by lia. simpl. rewrite E2. by replace (sz - 1) with c by lia.
    + replace (set_cursor (c + 1) (hit c (at_ c)))
        with (set_cursor (c + 1) (hit (c + 1 - 1) (at_ (c + 1 - 1)))) by (by replace (c + 1 - 1) with c by lia).
      destruct (IH (c + 1)) as [?|(c' & ? & ? & ? & ?)];
        [lia|by replace (c + 1 - 1) with c by lia|lia|by left|right; exists c'; repeat split; auto; lia].
  - right. exists c. repeat split; [lia|lia|done|lia|]. destruct Hop as [-> | ->].
    + rewrite !decide_True by done. by apply extract_hit; lia.
    + rewrite !decide_False by done. rewrite cursor_hit. by apply extract_hit_same; lia.
Qed.
(** ** The returned cursor *)

(** The cursor found the entry at [c]. *)
Definition points (f : index) (c : Z) : Prop :=
  0 <= c < sz /\ found f = true /\ max_cursor f = sz /\
  b_base.offset (dd f) = e_offset (ent c) /\ b_base.size (dd f) = e_size (ent c).

Lemma points_hit c c' : 0 <= c < sz -> points (hit c' (at_ c)) c.
Proof. done. Qed.

Lemma points_hit_lower c : 0 <= c < sz -> points (hit c (set_is_lower true (at_ c))) c.
Proof. done. Qed.

(** [lt], used for insertion: the entry before the first that is not below [val]. *)
Lemma retrieve_lt val :
  let f := retrieveCursor (enc_index es) val si_lt in
  (exists c, found f = true /\ cursor f = c /\ 0 <= c < sz /\ key c < val /\
     (c + 1 < sz -> val <= key (c + 1))) \/
  (found f = false /\ (forall c, 0 <= c < sz -> val <= key c) /\
    ((found_ultima f = true /\ cursor f = 0 /\ 0 < sz /\ key 0 = val) \/
     (found_ultima f = false /\ (is_lower f = true \/ sz = 0)))).
Proof.
  unfold retrieveCursor. destruct (decide (es = [])) as [E|Hne].
  { rewrite E. simpl. right. split; [done|]. split; [lia|]. right. auto. }
  destruct (rc_search_outcome val si_lt Hne) as [c Hc Hk|c H1 H2 H3|c H1 H2|H1 H2|H1 H2]; cbn zeta iota beta.
  - rewrite cursor_hit. destruct (equal_down_spec val si_lt c Hc Hk) as (c' & Hc' & -> & Hs); [by left|].
    rewrite decide_True by done. change (ix_i (hit c' (at_ c'))) with (key c').
    destruct Hs as [[? _]|[_ [[-> Hk0]|[Hlt Hk1]]]]; [done|..].
    + rewrite Hk0, Z.eqb_refl. right. split; [done|]. split; [|by left; repeat split; lia].
      intros x Hx. rewrite <- Hk0. apply key_mono; lia.
    + destruct (Z.eqb_spec (key c') val); [lia|]. left. exists c'. repeat split; try done; lia.
  - left. exists c. repeat split; lia || done.
  - left. exists (c - 1). repeat split; try (lia || done). by replace (c - 1 + 1) with c by lia; lia.
  - left. exists (sz - 1). repeat split; lia || done.
  - right. split; [done|]. split; [|by right; auto].
    intros x Hx. pose proof (key_mono 0 x ltac:(lia) ltac:(lia)). lia.
Qed.
End index.

(** ** Insertion *)

Lemma take_drop_sorted (es : list entry) e k :
  StronglySorted key_le es -> (k <= length es)%nat ->
  Forall (fun x => key_le x e) (take k es) -> Forall (fun x => key_le e x) (drop k es) ->
  StronglySorted key_le (take k es ++ e :: drop k es).
Proof.
  intros Hs Hk Ht Hd. rewrite <- (take_drop k es) in Hs.
  apply StronglySorted_app in Hs as (Hx & H1 & H2). apply StronglySorted_app. split; [|split; [done|by constructor]].
  intros x y Hx1 Hy. apply elem_of_cons in Hy as [->|Hy]; [|by apply Hx].
  rewrite Forall_forall in Ht. by apply Ht.
Qed.

Lemma Forall_take_key es e k :
  (forall c, 0 <= c < Z.of_nat k -> c < Z.of_nat (length es) -> key es c <= e_key e) ->
  Forall (fun x => key_le x e) (take k es).
Proof.
  intros H. apply Forall_lookup. intros j x Hj. apply lookup_take_Some in Hj as [Hj Hlt].
  pose proof (lookup_lt_Some _ _ _ Hj). specialize (H (Z.of_nat j) ltac:(lia) ltac:(lia)).
  unfold key, ent in H. rewrite Nat2Z.id, Hj in H. done.
Qed.

Lemma Forall_drop_key es e k :
  (forall c, Z.of_nat k <= c < Z.of_nat (length es) -> e_key e <= key es c) ->
  Forall (fun x => key_le e x) (drop k es).
Proof.
  intros H. apply Forall_lookup. intros j x Hj. rewrite lookup_drop in Hj.
  pose proof (lookup_lt_Some _ _ _ Hj). specialize (H (Z.of_nat (k + j)) ltac:(lia)).
  unfold key, ent in H. rewrite Nat2Z.id, Hj in H. done.
Qed.

(** Insertion at entry [k] of the bytes is insertion at [k] of the list. *)
Lemma insert_bytes es e k :
  (k <= length es)%nat ->
  take (indexDataSize * k) (enc_index es) ++ enc e ++ drop (indexDataSize * k) (enc_index es)
  = enc_index (take k es ++ e :: drop k es).
Proof. intros. by rewrite take_enc_index, drop_enc_index, enc_index_app, enc_index_cons. Qed.

(** Where [addToIndex] inserts. *)
Lemma addToIndex_at es e tp rb :
  index_ok es ->
  exists k, (k <= length es)%nat /\
    addToIndex (enc_index es) (e_key e) (b_base.mk tp (e_offset e) (e_size e) rb)
      = Some (enc_index (take k es ++ e :: drop k es)) /\
    Forall (fun x => key_le x e) (take k es) /\ Forall (fun x => key_le e x) (drop k es).
Proof.
  intros Hok. pose proof (n_bound es Hok) as Hn. change (2 ^ 59) with 576460752303423488 in Hn.
  assert (Hins : forall k pos, (k <= length es)%nat -> pos = Z.of_nat (indexDataSize * k) ->
    (if pos <=? Z.of_nat (length (enc_index es))
     then Some (take (Z.to_nat pos) (enc_index es) ++ enc e ++ drop (Z.to_nat pos) (enc_index es)) else None)
    = Some (enc_index (take k es ++ e :: drop k es))).
  { intros k pos Hk ->. rewrite length_enc_index, Nat2Z.id, insert_bytes by done.
    destruct (Z.leb_spec (Z.of_nat (indexDataSize * k)) (Z.of_nat (indexDataSize * length es))); [done|nia]. }
  unfold addToIndex. cbn [b_base.offset b_base.size]. fold (enc e).
  pose proof (retrieve_lt es Hok (e_key e)) as Hr. cbn zeta in Hr.
  destruct Hr as [(c & Hf & Hcu & Hc & Hlt & Hnext)|(Hf & Hge & [(Hu & Hcu & Hsz & H0)|(Hu & Hl)])].
  - exists (Z.to_nat (c + 1)). rewrite Hf, Hcu. simpl orb. cbn iota. split; [lia|]. split.
    + apply Hins; [lia|]. rewrite !(wrap_id U64) by (rewrite ?(wrap_id U64); unfold indexDataSize; range_lia).
      unfold indexDataSize. lia.
    + split; [apply Forall_take_key|apply Forall_drop_key].
      * intros x ? ?. pose proof (key_mono es Hok x c ltac:(lia) ltac:(lia)). lia.
      * intros x ?. pose proof (key_mono es Hok (c + 1) x ltac:(lia) ltac:(lia)). specialize (Hnext ltac:(lia)). lia.
  - exists 1%nat. rewrite Hf, Hu, Hcu. simpl orb. cbn iota. split; [lia|]. split.
    + apply Hins; [lia|]. done.
    + split; [apply Forall_take_key|apply Forall_drop_key].
      * intros x ? ?. replace x with 0 by lia. lia.
      * intros x ?. apply Hge. lia.
  - exists O. rewrite Hf, Hu. simpl orb. cbn iota. split; [lia|]. split.
    + apply Hins; [lia|]. destruct Hl as [-> |Hz]; [done|]. destruct (is_lower _); [done|].
      rewrite length_enc_index. lia.
    + split; [done|]. apply Forall_drop_key. intros x ?. apply Hge. lia.
Qed.

(** ** Collecting records *)

Section collect.
Context (es : list entry) (Hok : index_ok es) (readed : option (gmap Z Z)).

Abbreviation sz := (Z.of_nat (length es)).
Abbreviation ind := (enc_index es).

(** A record passes the filter of the indexes evaluated before. *)
Definition allowed (o : Z) : Prop :=
  match readed with None => True | Some r => is_Some (r !! o) end.

(** [ret] holds exactly the records of the cursors in [Q] that pass the filter. *)
Definition covers (ret : gmap Z Z) (Q : Z -> Prop) : Prop :=
  (forall o s, ret !! o = Some s ->
     exists c, 0 <= c < sz /\ Q c /\ allowed o /\ e_offset (ent es c) = o /\ e_size (ent es c) = s) /\
  (forall c, 0 <= c < sz -> Q c -> allowed (e_offset (ent es c)) -> is_Some (ret !! e_offset (ent es c))).

Lemma covers_iff ret Q Q' :
  (forall c, 0 <= c < sz -> Q c <-> Q' c) -> covers ret Q -> covers ret Q'.
Proof.
  intros HQ [H1 H2]. split.
  - intros o s (c & Hc & HQc & ?)%H1. exists c. split; [done|]. split; [by apply HQ|done].
  - intros c Hc HQc. apply H2; [done|by apply HQ].
Qed.

Lemma covers_empty : covers ∅ (fun _ => False).
Proof. split; [intros o s; by rewrite lookup_empty|done]. Qed.

Lemma covers_add ret Q c f :
  covers ret Q -> points es f c -> covers (f_add readed ret f) (fun x => Q x \/ x = c).
Proof.
  intros [H1 H2] (Hc & _ & _ & Ho & Hs). unfold f_add. rewrite Ho, Hs.
  assert (Hal : match readed with None => true | Some r => bool_decide (is_Some (r !! e_offset (ent es c))) end = true
    <-> allowed (e_offset (ent es c))).
  { unfold allowed. destruct readed; [apply bool_decide_eq_true|done]. }
  destruct (match readed with None => true | Some r => _ end).
  2:{ split.
      - intros o s (x & ? & ? & ?)%H1. exists x. tauto.
      - intros x Hx [HQ| ->] Ha; [by apply H2|]. by apply Hal in Ha. }
  assert (allowed (e_offset (ent es c))) as Ha by by apply Hal.
  destruct (ret !! e_offset (ent es c)) as [s0|] eqn:E.
  - split.
    + intros o s (x & ? & ? & ?)%H1. exists x. tauto.
    + intros x Hx [HQ| ->] Hax; [by apply H2|by rewrite E].
  - split.
    + intros o s [[<- <-]|[Hne Hl]]%lookup_insert_Some; [by exists c; auto 6|].
      apply H1 in Hl as (x & ? & ? & ?). exists x. tauto.
    + intros x Hx [HQ| ->] Hax; [|by rewrite lookup_insert_eq].
      rewrite lookup_insert. case_decide; [done|]. by apply H2.
Qed.

Lemma points_rd f c :
  found f = true -> max_cursor f = sz -> 0 <= c < sz -> points es (rd (ent es c) f) c.
Proof. intros Hf Hm Hc. repeat split; try done; lia. Qed.

Ltac unwrap :=
  pose proof (n_bound es Hok); change (2 ^ 59) with 576460752303423488 in *;
  repeat match goal with |- context [wrap U64 ?x] => rewrite (wrap_id U64 x) by range_lia end.

(** The set of visited cursors after one more, and when a loop visits none. *)
Ltac extend c :=
  let x := fresh "x" in let Hx := fresh "Hx" in
  intros x Hx; split;
  [ intros [[?| ->]|?]; [by left|right; lia|right; lia]
  | intros [?|?]; [by left; left|]; destruct (decide (x = c)); [by left; right|right; lia] ].
Ltac stay := intros ? ?; split; [by left|]; intros [?|?]; [done|lia].

Lemma ge_loop_covers fuel f ret Q c :
  covers ret Q -> found f = true -> max_cursor f = sz -> cursor f = c -> 0 <= c <= sz ->
  fuel = Z.to_nat (sz - c) -> covers (ge_loop ind readed fuel f ret) (fun x => Q x \/ c <= x).
Proof.
  revert f ret Q c; induction fuel as [|fuel IH]; intros f ret Q c Hcov Hf Hm Hcu Hc Hfu.
  - eapply covers_iff; [|done]. stay.
  - cbn [ge_loop]. rewrite Hm, Hcu. destruct (Z.ltb_spec c sz); [|lia]. rewrite extract_in by (done || lia).
    change (cursor (rd (ent es c) f)) with (cursor f). rewrite Hcu. unwrap.
    eapply covers_iff; [|eapply (IH _ _ _ (c + 1)); [apply covers_add; [done|apply points_rd; lia || done]|done|done|done|lia|lia]].
    extend (c).
Qed.

Lemma le_loop_covers fuel f ret Q c :
  covers ret Q -> found f = true -> max_cursor f = sz -> cursor f = c -> 0 <= c <= sz ->
  fuel = Z.to_nat c -> covers (le_loop ind readed fuel f ret) (fun x => Q x \/ x < c).
Proof.
  revert f ret Q c; induction fuel as [|fuel IH]; intros f ret Q c Hcov Hf Hm Hcu Hc Hfu.
  - eapply covers_iff; [|done]. stay.
  - cbn [le_loop]. rewrite Hcu. destruct (Z.ltb_spec 0 c); [|lia].
    change (cursor (set_cursor (c - 1) f)) with (c - 1). rewrite extract_in by (done || lia).
    eapply covers_iff; [|eapply (IH _ _ _ (c - 1)); [apply covers_add; [done|apply points_rd; lia || done]|done|done|done|lia|lia]].
    extend (c - 1).
Qed.

Lemma range_loop_covers fuel f ret Q c last :
  covers ret Q -> found f = true -> max_cursor f = sz -> cursor f = c ->
  (c <= last -> points es f c) -> 0 <= c <= last + 1 -> last < sz ->
  fuel = Z.to_nat (last - c + 1) ->
  covers (range_loop ind readed fuel f last ret) (fun x => Q x \/ c <= x <= last).
Proof.
  revert f ret Q c; induction fuel as [|fuel IH]; intros f ret Q c Hcov Hf Hm Hcu Hp Hc Hl Hfu.
  - eapply covers_iff; [|done]. stay.
  - cbn [range_loop]. rewrite Hcu. destruct (Z.leb_spec c last); [|lia]. unwrap.
    change (cursor (set_cursor (c + 1) f)) with (c + 1).
    assert (exists g, extractIndex ind (c + 1) (set_cursor (c + 1) f) = g /\ found g = true /\
      max_cursor g = sz /\ cursor g = c + 1 /\ (c + 1 <= last -> points es g (c + 1))) as (g & -> & ? & ? & ? & ?).
    { destruct (decide (c + 1 < sz)).
      - rewrite extract_in by (done || lia). eexists; repeat split; try done; lia.
      - rewrite extract_out by (done || lia). eexists; repeat split; done || lia. }
    eapply covers_iff; [|eapply (IH _ _ _ (c + 1)); [apply covers_add; [done|by apply Hp]|done|done|done|done|lia|lia|lia]].
    extend (c).
Qed.

Lemma cmp_up_covers s fuel f ret Q c :
  covers ret Q -> found f = true -> max_cursor f = sz -> cursor f = c -> 1 <= c <= sz ->
  key es (c - 1) = s -> fuel = Z.to_nat (sz - c) ->
  let '(f', ret') := cmp_up ind readed s fuel f ret in
  found f' = true /\ max_cursor f' = sz /\ covers ret' (fun x => Q x \/ (c <= x /\ key es x = s)).
Proof.
  revert f ret Q c; induction fuel as [|fuel IH]; intros f ret Q c Hcov Hf Hm Hcu Hc Hk Hfu.
  - split; [done|]. split; [done|]. eapply covers_iff; [|done].
    stay.
  - cbn [cmp_up]. rewrite Hm, Hcu. destruct (Z.ltb_spec c sz); [|lia]. rewrite extract_in by (done || lia).
    change (cursor (rd (ent es c) f)) with (cursor f). change (ix_i (rd (ent es c) f)) with (key es c).
    rewrite Hcu. unwrap. destruct (Z.eqb_spec (key es c) s) as [E|Hne].
    + match goal with |- context [cmp_up _ _ _ _ ?g ?r] =>
        pose proof (IH g r (fun x => Q x \/ x = c) (c + 1)) as IH' end.
      destruct (cmp_up _ _ _ _ _ _) as [f' ret'].
      destruct IH' as (? & ? & Hcov'); [apply covers_add; [done|apply points_rd; lia || done]|done|done|done|lia| |lia|].
      { by replace (c + 1 - 1) with c by lia. }
      split; [done|]. split; [done|]. eapply covers_iff; [|done].
      extend (c).
    + split; [done|]. split; [done|]. eapply covers_iff; [|done].
      intros x Hx. split; [by left|]. intros [?|[? Hx2]]; [done|].
      pose proof (key_mono es Hok (c - 1) c ltac:(lia) ltac:(lia)).
      pose proof (key_mono es Hok c x ltac:(lia) ltac:(lia)). lia.
Qed.

Lemma cmp_down_covers s fuel f ret Q c :
  covers ret Q -> found f = true -> max_cursor f = sz -> 0 <= c < sz ->
  key es c = s -> fuel = Z.to_nat c ->
  covers (cmp_down ind readed s fuel c f ret) (fun x => Q x \/ (x < c /\ key es x = s)).
Proof.
  revert f ret Q c; induction fuel as [|fuel IH]; intros f ret Q c Hcov Hf Hm Hc Hk Hfu.
  - eapply covers_iff; [|done]. stay.
  - cbn [cmp_down]. destruct (Z.ltb_spec 0 c); [|lia]. rewrite extract_in by (done || lia).
    change (ix_i (rd (ent es (c - 1)) f)) with (key es (c - 1)).
    destruct (Z.eqb_spec (key es (c - 1)) s) as [E|Hne].
    + eapply covers_iff; [|eapply (IH _ _ _ (c - 1)); [apply covers_add; [done|apply points_rd; lia || done]|done|done|lia|done|lia]].
      extend (c - 1).
    + eapply covers_iff; [|done]. intros x Hx. split; [by left|]. intros [?|[? Hx2]]; [done|].
      pose proof (key_mono es Hok (c - 1) c ltac:(lia) ltac:(lia)).
      pose proof (key_mono es Hok x (c - 1) ltac:(lia) ltac:(lia)). lia.
Qed.

Lemma retrieve_compare val :
  let f := retrieveCursor ind val si_compare in
  (exists c, f = hit c (at_ es c) /\ 0 <= c < sz /\ key es c = val) \/
  (found f = false /\ forall x, 0 <= x < sz -> key es x <> val).
Proof.
  unfold retrieveCursor. destruct (decide (es = [])) as [E|Hne].
  { rewrite E. right. split; [done|]. intros x Hx. simpl in Hx. lia. }
  destruct (rc_search_outcome es Hok val si_compare Hne) as [c Hc Hk|c H1 H2 H3|c H1 H2|H1 H2|H1 H2]; cbn zeta iota beta.
  - left. by exists c.
  - right. split; [done|]. intros x Hx E. destruct (decide (x <= c)) as [?|?].
    + pose proof (key_mono es Hok x c ltac:(lia) ltac:(lia)). lia.
    + pose proof (key_mono es Hok (c + 1) x ltac:(lia) ltac:(lia)). lia.
  - right. split; [done|]. intros x Hx E. destruct (decide (x <= c - 1)) as [?|?].
    + pose proof (key_mono es Hok x (c - 1) ltac:(lia) ltac:(lia)). lia.
    + pose proof (key_mono es Hok c x ltac:(lia) ltac:(lia)). lia.
  - right. split; [done|]. intros x Hx E. pose proof (key_mono es Hok x (sz - 1) ltac:(lia) ltac:(lia)). lia.
  - right. split; [done|]. intros x Hx E. pose proof (key_mono es Hok 0 x ltac:(lia) ltac:(lia)). lia.
Qed.

(** The value an equality condition compares the keys with. *)
Definition searched (it : val_search) : Z := default 0 (stoi I64 (indexed it)).

Lemma cmp_one_covers ret Q it :
  covers ret Q -> covers (cmp_one ind readed ret it) (fun x => Q x \/ key es x = searched it).
Proof.
  intros Hcov. unfold cmp_one. fold (searched it).
  destruct (retrieve_compare (searched it)) as [(c & -> & Hc & Hk)|[-> Hno]].
  - cbn [found hit set_found set_cursor]. rewrite !cursor_hit. unwrap.
    change (max_cursor (set_cursor (c + 1) (hit c (at_ es c)))) with sz.
    change (cursor (set_cursor (c + 1) (hit c (at_ es c)))) with (c + 1).
    pose proof (cmp_up_covers (searched it) (Z.to_nat (sz - (c + 1))) (set_cursor (c + 1) (hit c (at_ es c)))
      (f_add readed ret (hit c (at_ es c))) (fun x => Q x \/ x = c) (c + 1)) as Hup.
    destruct (cmp_up _ _ _ _ _ _) as [f' ret'].
    destruct Hup as (Hf & Hm & Hcov'); [|done|done|done|lia|by replace (c + 1 - 1) with c by lia|done|].
    { apply covers_add; [done|by apply points_hit]. }
    eapply covers_iff; [|apply cmp_down_covers; [exact Hcov'|done|done|lia|done|done]].
    intros x Hx. split.
    + intros [[[?| ->]|[? ?]]|[? ?]]; [by left|by right|by right|by right].
    + intros [?|?]; [by left; left; left|]. destruct (decide (x = c)); [by left; left; right|].
      destruct (decide (c < x)); [left; right; lia|right; lia].
  - eapply covers_iff; [|done]. intros x Hx. split; [by left|]. intros [?|E]; [done|]. by apply Hno in E.
Qed.

Lemma cmp_all_covers its ret Q :
  covers ret Q ->
  covers (foldl (cmp_one ind readed) ret its) (fun x => Q x \/ exists it, it ∈ its /\ key es x = searched it).
Proof.
  revert ret Q; induction its as [|it its IH]; intros ret Q Hcov; simpl.
  - eapply covers_iff; [|done]. intros x Hx. set_solver.
  - eapply covers_iff; [|apply IH, cmp_one_covers, Hcov]. intros x Hx. set_solver.
Qed.

(** What a search promises: [ret] maps the offset of every entry that satisfies [P] (and
    passes the filter) to the size of an entry with that offset, and nothing else. *)
Definition collects (P : entry -> Prop) (ret : gmap Z Z) : Prop :=
  (forall o s, ret !! o = Some s ->
     exists e, e ∈ es /\ P e /\ allowed o /\ e_offset e = o /\ e_size e = s) /\
  (forall e, e ∈ es -> P e -> allowed (e_offset e) -> is_Some (ret !! e_offset e)).

Lemma covers_collects (P : entry -> Prop) ret Q :
  covers ret Q -> (forall c, 0 <= c < sz -> Q c <-> P (ent es c)) -> collects P ret.
Proof.
  intros [H1 H2] HQ. split.
  - intros o s (c & Hc & HQc & ? & ? & ?)%H1. exists (ent es c). split; [|split; [by apply HQ|done]].
    eapply list_elem_of_lookup_2. by apply ent_lookup.
  - intros e [c Hl]%list_elem_of_lookup Hp Ha. pose proof (lookup_lt_Some _ _ _ Hl).
    assert (ent es (Z.of_nat c) = e) as E by (unfold ent; by rewrite Nat2Z.id, Hl).
    rewrite <- E. apply H2; [lia|apply HQ; [lia|by rewrite E]|by rewrite E].
Qed.

(** ** Inequalities *)

(** The searched value is a key of the index, or lies outside the keys. *)
Definition decided (val : Z) : Prop :=
  (exists e, e ∈ es /\ e_key e = val) \/ Forall (fun e => val < e_key e) es \/ Forall (fun e => e_key e < val) es.

Lemma ent_elem c : 0 <= c < sz -> ent es c ∈ es.
Proof. intros. eapply list_elem_of_lookup_2. by apply ent_lookup. Qed.

Lemma decided_gap val c : decided val -> 0 <= c -> c + 1 < sz -> ~ key es c < val < key es (c + 1).
Proof.
  intros Hd H0 H1 [Hlt Hgt]. destruct Hd as [(e & [j Hj]%list_elem_of_lookup & He)|[Hd|Hd]].
  - pose proof (lookup_lt_Some _ _ _ Hj). assert (key es (Z.of_nat j) = val) as Hk.
    { unfold key, ent. by rewrite Nat2Z.id, Hj. }
    destruct (decide (Z.of_nat j <= c)) as [?|?].
    + pose proof (key_mono es Hok (Z.of_nat j) c ltac:(lia) ltac:(lia)). lia.
    + pose proof (key_mono es Hok (c + 1) (Z.of_nat j) ltac:(lia) ltac:(lia)). lia.
  - rewrite Forall_forall in Hd. specialize (Hd _ (ent_elem c ltac:(lia))). simpl in Hd. unfold key in *. lia.
  - rewrite Forall_forall in Hd. specialize (Hd _ (ent_elem (c + 1) ltac:(lia))). simpl in Hd. unfold key in *. lia.
Qed.

(** The condition of an inequality on a key. *)
Definition meets (op : type_search_index) (val k : Z) : Prop :=
  match op with si_gte => val <= k | si_gt => val < k | si_lte => k <= val | si_lt => k < val | si_compare => k = val end.

Lemma retrieve_ge val op :
  decided val -> op = si_gte \/ op = si_gt ->
  let f := retrieveCursor ind val op in
  (exists c, points es f c /\ cursor f = c /\ meets op val (key es c) /\ (c = 0 \/ ~ meets op val (key es (c - 1)))) \/
  (found f = false /\ forall x, 0 <= x < sz -> ~ meets op val (key es x)).
Proof.
  intros Hd Hop. unfold retrieveCursor. destruct (decide (es = [])) as [E|Hne].
  { rewrite E. right. split; [by destruct Hop as [-> | ->]|]. intros x Hx. simpl in Hx. lia. }
  destruct (rc_search_outcome es Hok val op Hne) as [c Hc Hk|c H1 H2 H3|c H1 H2|H1 H2|H1 H2]; cbn zeta iota beta.
  - destruct Hop as [-> | ->]; cbn [meets].
    + rewrite cursor_hit. destruct (equal_down_spec es Hok val si_gte c Hc Hk) as (c' & Hc' & -> & Hs); [by right|].
      rewrite decide_False by done. destruct Hs as [(_ & Hkc & Hlo)|[? _]]; [|done].
      left. exists c'. split; [apply points_hit; lia|]. split; [done|]. lia.
    + rewrite cursor_hit. unwrap. change (max_cursor (set_cursor (c + 1) (hit c (at_ es c)))) with sz.
      change (cursor (set_cursor (c + 1) (hit c (at_ es c)))) with (c + 1). rewrite decide_True by done.
      destruct (Z.ltb_spec (c + 1) sz).
      * pose proof (equal_up_spec es Hok val si_gt (c + 1) ltac:(lia)) as Hup.
        replace (c + 1 - 1) with c in Hup by lia.
        destruct (Hup Hk (or_intror eq_refl)) as [[-> Hl]|(c' & Hc' & Hk1 & Hk2 & ->)].
        -- change (ix_i (hit sz (at_ es (sz - 1)))) with (key es (sz - 1)). rewrite Hl, Z.eqb_refl.
           right. split; [done|]. intros x Hx. pose proof (key_mono es Hok x (sz - 1) ltac:(lia) ltac:(lia)). lia.
        -- rewrite decide_False by done. change (ix_i (hit c' (at_ es c'))) with (key es c').
           destruct (Z.eqb_spec (key es c') val); [lia|]. left. exists c'.
           split; [apply points_hit; lia|]. split; [done|]. lia.
      * replace (c + 1 - 1) with c by lia. unwrap. change (set_cursor c (set_cursor (c + 1) (hit c (at_ es c)))) with (hit c (at_ es c)).
        change (ix_i (hit c (at_ es c))) with (key es c). rewrite Hk, Z.eqb_refl.
        right. split; [done|]. intros x Hx. pose proof (key_mono es Hok x c ltac:(lia) ltac:(lia)). lia.
  - by apply (decided_gap val c) in H3.
  - exfalso. apply (decided_gap val (c - 1)); [done|lia|lia|]. by replace (c - 1 + 1) with c by lia.
  - right. split; [by destruct Hop as [-> | ->]|]. intros x Hx.
    pose proof (key_mono es Hok x (sz - 1) ltac:(lia) ltac:(lia)). destruct Hop as [-> | ->]; simpl; lia.
  - left. exists 0. split; [destruct Hop as [-> | ->]; apply points_hit_lower; lia|].
    destruct Hop as [-> | ->]; simpl; split; done || lia.
Qed.

Lemma retrieve_le val op :
  decided val -> op = si_lte \/ op = si_lt ->
  let f := retrieveCursor ind val op in
  (exists c, points es f c /\ (cursor f = c \/ (cursor f = sz /\ c = sz - 1 /\ op = si_lte /\ key es c = val)) /\
     meets op val (key es c) /\ (c = sz - 1 \/ ~ meets op val (key es (c + 1)))) \/
  (found f = false /\ forall x, 0 <= x < sz -> ~ meets op val (key es x)).
Proof.
  intros Hd Hop. unfold retrieveCursor. destruct (decide (es = [])) as [E|Hne].
  { rewrite E. right. split; [by destruct Hop as [-> | ->]|]. intros x Hx. simpl in Hx. lia. }
  destruct (rc_search_outcome es Hok val op Hne) as [c Hc Hk|c H1 H2 H3|c H1 H2|H1 H2|H1 H2]; cbn zeta iota beta.
  - destruct Hop as [-> | ->]; cbn [meets].
    + rewrite cursor_hit. unwrap. change (max_cursor (set_cursor (c + 1) (hit c (at_ es c)))) with sz.
      change (cursor (set_cursor (c + 1) (hit c (at_ es c)))) with (c + 1). rewrite decide_False by done.
      left. destruct (Z.ltb_spec (c + 1) sz).
      * pose proof (equal_up_spec es Hok val si_lte (c + 1) ltac:(lia)) as Hup.
        replace (c + 1 - 1) with c in Hup by lia.
        destruct (Hup Hk (or_introl eq_refl)) as [[-> Hl]|(c' & Hc' & Hk1 & Hk2 & ->)].
        -- exists (sz - 1). split; [apply points_hit; lia|]. split; [right; repeat split; done || lia|]. lia.
        -- rewrite decide_True by done. exists (c' - 1). split; [apply points_hit; lia|].
           split; [by left|]. replace (c' - 1 + 1) with c' by lia. lia.
      * replace (c + 1 - 1) with c by lia. unwrap. change (set_cursor c (set_cursor (c + 1) (hit c (at_ es c)))) with (hit c (at_ es c)).
        exists c. split; [by apply points_hit|]. split; [by left|]. lia.
    + rewrite cursor_hit. destruct (equal_down_spec es Hok val si_lt c Hc Hk) as (c' & Hc' & -> & Hs); [by left|].
      rewrite decide_True by done. change (ix_i (hit c' (at_ es c'))) with (key es c').
      destruct Hs as [[? _]|[_ [[-> Hk0]|[Hlt Hk1]]]]; [done|..].
      * rewrite Hk0, Z.eqb_refl. right. split; [done|]. intros x Hx.
        pose proof (key_mono es Hok 0 x ltac:(lia) ltac:(lia)). lia.
      * destruct (Z.eqb_spec (key es c') val); [lia|]. left. exists c'.
        split; [apply points_hit; lia|]. split; [by left|]. lia.
  - by apply (decided_gap val c) in H3.
  - exfalso. apply (decided_gap val (c - 1)); [done|lia|lia|]. by replace (c - 1 + 1) with c by lia.
  - left. exists (sz - 1). split; [destruct Hop as [-> | ->]; apply points_hit; lia|].
    destruct Hop as [-> | ->]; simpl; (split; [by left|]); lia.
  - right. split; [by destruct Hop as [-> | ->]|]. intros x Hx.
    pose proof (key_mono es Hok 0 x ltac:(lia) ltac:(lia)). destruct Hop as [-> | ->]; simpl; lia.
Qed.
End collect.

(** ** Properties *)

Lemma fetchAll_loop_from es fuel cur ret :
  index_ok es -> 0 <= cur <= Z.of_nat (length es) -> fuel = Z.to_nat (Z.of_nat (length es) - cur) ->
  fetchAll_loop (enc_index es) fuel cur (Z.of_nat (length es)) ret =
  ret ++ ((fun e => rd e index_init) <$> drop (Z.to_nat cur) es).
Proof.
  intros Hok. revert cur ret; induction fuel as [|fuel IH]; intros cur ret Hc Hfu.
  - rewrite drop_ge by lia. simpl. by rewrite app_nil_r.
  - cbn [fetchAll_loop]. destruct (Z.ltb_spec cur (Z.of_nat (length es))); [|lia].
    rewrite IH by lia. rewrite extract_in by (done || lia).
    rewrite (drop_S es (ent es cur) (Z.to_nat cur)) by (apply ent_lookup; done || lia).
    rewrite fmap_cons, <- app_assoc. simpl. by replace (Z.to_nat (cur + 1)) with (S (Z.to_nat cur)) by lia.
Qed.

(** The search loop of [retrieveCursor] ends by one of its own [break]s before its
    bound of 10000 iterations, on every sorted index of less than [2^59] entries, for
    every value and operation: the bound never cuts a search short. *)
Theorem retrieveCursor_search_ends es val op :
  index_ok es -> (rc_search (enc_index es) val op).2 = true.
Proof.
  intros Hok. destruct (decide (es = [])) as [->|Hne]; [done|].
  by destruct (rc_search_outcome es Hok val op Hne).
Qed.

(** [addToIndex] implements insertion into a sorted list: the bytes it returns encode
    the old entries with the new one inserted, and they are sorted by key again. *)
Theorem addToIndex_refines_insert es e tp rb :
  index_ok es -> entry_wf e ->
  exists k, addToIndex (enc_index es) (e_key e) (b_base.mk tp (e_offset e) (e_size e) rb)
              = Some (enc_index (take k es ++ e :: drop k es)) /\
    Forall entry_wf (take k es ++ e :: drop k es) /\ StronglySorted key_le (take k es ++ e :: drop k es).
Proof.
  intros Hok He. destruct (addToIndex_at es e tp rb Hok) as (k & Hk & Hadd & Ht & Hd).
  destruct Hok as (Hwf & Hs & _). exists k. split; [done|]. split; [|by apply take_drop_sorted].
  apply Forall_app. split; [by apply Forall_take|]. constructor; [done|by apply Forall_drop].
Qed.

(** An equality search collects the entries with a searched key. *)
Lemma compare_collects es readed srch :
  index_ok es -> op srch = op_compare ->
  collects es readed (fun e => exists it, it ∈ i srch /\ e_key e = searched it)
    (fetchIndexedData (enc_index es) readed srch).
Proof.
  intros Hok Hop. unfold fetchIndexedData. rewrite Hop.
  eapply covers_collects; [apply cmp_all_covers; [done|apply covers_empty]|].
  intros c Hc. unfold key. naive_solver.
Qed.

(** An equality (or [$in]) search returns exactly the records whose key is one of the
    searched values, restricted to the records an earlier index let through. *)
Theorem fetch_compare_exact es readed srch :
  index_ok es -> op srch = op_compare ->
  collects es readed (fun e => exists it, it ∈ i srch /\ e_key e = searched it)
    (fetchIndexedData (enc_index es) readed srch).
Proof. apply compare_collects. Qed.

(** The index condition of a one-sided search. *)
Definition one_sided (o : type_operation) : option type_search_index :=
  match o with op_gt => Some si_gt | op_gte => Some si_gte | op_lt => Some si_lt | op_lte => Some si_lte | _ => None end.

(** The bound a one-sided search compares the keys with. *)
Definition bound (srch : search.t) : Z :=
  match op srch with op_gt | op_gte => min srch | _ => max srch end.

Lemma meets_ge_iff es c val o x :
  index_ok es -> o = si_gte \/ o = si_gt -> 0 <= c < Z.of_nat (length es) -> meets o val (key es c) ->
  c = 0 \/ ~ meets o val (key es (c - 1)) -> 0 <= x < Z.of_nat (length es) ->
  c <= x <-> meets o val (key es x).
Proof.
  intros Hok Hr Hc Hm Hlo Hx. split.
  - intros Hle. pose proof (key_mono es Hok c x ltac:(lia) ltac:(lia)). destruct Hr as [-> | ->]; simpl in *; lia.
  - intros Hmx. destruct (decide (c <= x)); [done|]. destruct Hlo as [?|Hlo]; [lia|]. exfalso. apply Hlo.
    pose proof (key_mono es Hok x (c - 1) ltac:(lia) ltac:(lia)). destruct Hr as [-> | ->]; simpl in *; lia.
Qed.

Lemma meets_le_iff es c val o x :
  index_ok es -> o = si_lte \/ o = si_lt -> 0 <= c < Z.of_nat (length es) -> meets o val (key es c) ->
  c = Z.of_nat (length es) - 1 \/ ~ meets o val (key es (c + 1)) -> 0 <= x < Z.of_nat (length es) ->
  x <= c <-> meets o val (key es x).
Proof.
  intros Hok Hr Hc Hm Hhi Hx. split.
  - intros Hle. pose proof (key_mono es Hok x c ltac:(lia) ltac:(lia)). destruct Hr as [-> | ->]; simpl in *; lia.
  - intros Hmx. destruct (decide (x <= c)); [done|]. destruct Hhi as [?|Hhi]; [lia|]. exfalso. apply Hhi.
    pose proof (key_mono es Hok (c + 1) x ltac:(lia) ltac:(lia)). destruct Hr as [-> | ->]; simpl in *; lia.
Qed.

Lemma fetch_ge_exact es readed srch o :
  index_ok es -> decided es (min srch) ->
  op srch = op_gt /\ o = si_gt \/ op srch = op_gte /\ o = si_gte ->
  collects es readed (fun e => meets o (min srch) (e_key e)) (fetchIndexedData (enc_index es) readed srch).
Proof.
  intros Hok Hd Hop. pose proof (n_bound es Hok) as Hn. change (2 ^ 59) with 576460752303423488 in Hn.
  assert (Hr : o = si_gte \/ o = si_gt) by (destruct Hop as [[_ ->]|[_ ->]]; auto).
  assert (fetchIndexedData (enc_index es) readed srch =
    let f := retrieveCursor (enc_index es) (min srch) o in
    if found f then
      let f' := set_cursor (wrap U64 (cursor f + 1)) f in
      if cursor f' <? max_cursor f'
      then ge_loop (enc_index es) readed (Z.to_nat (max_cursor f' - cursor f')) f' (f_add readed ∅ f)
      else f_add readed ∅ f
    else ∅) as ->.
  { unfold fetchIndexedData. destruct Hop as [[-> ->]|[-> ->]]; reflexivity. }
  cbn zeta. destruct (retrieve_ge es Hok (min srch) o Hd Hr) as [(c & Hp & Hcu & Hm & Hlo)|[-> Hno]].
  2:{ eapply covers_collects; [apply covers_empty|]. intros c Hc. split; [done|]. apply Hno, Hc. }
  pose proof Hp as (Hc & -> & Hmax & _). cbn [cursor max_cursor set_cursor]. rewrite Hmax, Hcu, wrap_id by range_lia.
  assert (Hiff : forall x, 0 <= x < Z.of_nat (length es) -> c <= x <-> meets o (min srch) (key es x))
    by (intros x Hx; by apply meets_ge_iff).
  pose proof (covers_add es readed ∅ _ c _ (covers_empty es readed) Hp) as Hcov.
  destruct (Z.ltb_spec (c + 1) (Z.of_nat (length es))).
  - eapply covers_collects; [eapply (ge_loop_covers _ Hok _ _ _ _ _ (c + 1)); [done|by apply Hp|done|done|lia|done]|].
    intros x Hx. fold (key es x). rewrite <- Hiff by done. lia.
  - eapply covers_collects; [done|]. intros x Hx. fold (key es x). rewrite <- Hiff by done. lia.
Qed.

Lemma fetch_le_exact es readed srch o :
  index_ok es -> decided es (max srch) ->
  op srch = op_lt /\ o = si_lt \/ op srch = op_lte /\ o = si_lte ->
  collects es readed (fun e => meets o (max srch) (e_key e)) (fetchIndexedData (enc_index es) readed srch).
Proof.
  intros Hok Hd Hop.
  assert (Hr : o = si_lte \/ o = si_lt) by (destruct Hop as [[_ ->]|[_ ->]]; auto).
  assert (fetchIndexedData (enc_index es) readed srch =
    let f := retrieveCursor (enc_index es) (max srch) o in
    if found f then le_loop (enc_index es) readed (Z.to_nat (cursor f)) f (f_add readed ∅ f) else ∅) as ->.
  { unfold fetchIndexedData. destruct Hop as [[-> ->]|[-> ->]]; reflexivity. }
  cbn zeta. destruct (retrieve_le es Hok (max srch) o Hd Hr) as [(c & Hp & Hcu & Hm & Hhi)|[-> Hno]].
  2:{ eapply covers_collects; [apply covers_empty|]. intros c Hc. split; [done|]. apply Hno, Hc. }
  pose proof Hp as (Hc & Hf & Hmax & _). rewrite Hf.
  assert (Hiff : forall x, 0 <= x < Z.of_nat (length es) -> x <= c <-> meets o (max srch) (key es x))
    by (intros x Hx; by apply meets_le_iff).
  eapply covers_collects; [eapply (le_loop_covers _ Hok _ _ _ _ _ (cursor (retrieveCursor (enc_index es) (max srch) o)));
    [exact (covers_add es readed ∅ _ c _ (covers_empty es readed) Hp)|done|done|done|lia|done]|].
  intros x Hx. fold (key es x). rewrite <- Hiff by done. lia.
Qed.

(** a one-sided search ([$gt], [$gte], [$lt], [$lte]) returns exactly the records whose
    key satisfies it, when the bound is itself a key or lies outside all keys. *)
Theorem fetch_one_sided_exact es readed srch o :
  index_ok es -> decided es (bound srch) -> one_sided (op srch) = Some o ->
  collects es readed (fun e => meets o (bound srch) (e_key e)) (fetchIndexedData (enc_index es) readed srch).
Proof.
  unfold bound. intros Hok Hd Ho.
  destruct (op srch) eqn:Hop; try discriminate Ho; injection Ho as <-;
    (apply fetch_le_exact || apply fetch_ge_exact); auto.
Qed.

(** The two index conditions of a range search. *)
Definition two_sided (o : type_operation) : option (type_search_index * type_search_index) :=
  match o with
  | op_range_lte_gte => Some (si_gte, si_lte)
  | op_range_lt_gte => Some (si_gte, si_lt)
  | op_range_lte_gt => Some (si_gt, si_lte)
  | op_range_lt_gt => Some (si_gt, si_lt)
  | _ => None
  end.

(** a range search returns exactly the records whose key lies in the range, when both
    bounds are keys or outside all keys and, for an inclusive upper bound, some key lies
    above it. *)
Theorem fetch_range_exact es readed srch o1 o2 :
  index_ok es -> decided es (min srch) -> decided es (max srch) -> two_sided (op srch) = Some (o1, o2) ->
  o2 = si_lt \/ (exists e, e ∈ es /\ max srch < e_key e) ->
  collects es readed (fun e => meets o1 (min srch) (e_key e) /\ meets o2 (max srch) (e_key e))
    (fetchIndexedData (enc_index es) readed srch).
Proof.
  intros Hok Hd1 Hd2 Ho Hup.
  assert (Hr1 : o1 = si_gte \/ o1 = si_gt) by (destruct (op srch); simplify_eq/=; auto).
  assert (Hr2 : o2 = si_lte \/ o2 = si_lt) by (destruct (op srch); simplify_eq/=; auto).
  assert (fetchIndexedData (enc_index es) readed srch =
    let f := retrieveCursor (enc_index es) (min srch) o1 in
    let f2 := retrieveCursor (enc_index es) (max srch) o2 in
    if found f && found f2
    then range_loop (enc_index es) readed (Z.to_nat (cursor f2 - cursor f + 1)) f (cursor f2) ∅ else ∅) as ->.
  { unfold fetchIndexedData. destruct (op srch); simplify_eq/=; reflexivity. }
  cbn zeta. destruct (retrieve_ge es Hok _ o1 Hd1 Hr1) as [(c1 & Hp1 & Hcu1 & Hm1 & Hlo)|[-> Hno]].
  2:{ eapply covers_collects; [apply covers_empty|]. intros c Hc. split; [done|]. intros [? _]. by apply (Hno c). }
  destruct (retrieve_le es Hok _ o2 Hd2 Hr2) as [(c2 & Hp2 & Hcu2 & Hm2 & Hhi)|[-> Hno]].
  2:{ rewrite andb_false_r. eapply covers_collects; [apply covers_empty|].
      intros c Hc. split; [done|]. intros [_ ?]. by apply (Hno c). }
  pose proof Hp1 as (Hc1 & Hf1 & Hx1 & _). pose proof Hp2 as (Hc2 & Hf2 & _ & _). rewrite Hf1, Hf2. simpl andb. cbn iota.
  assert (cursor (retrieveCursor (enc_index es) (max srch) o2) = c2) as Hcur.
  { destruct Hcu2 as [?|(_ & E & -> & Hk)]; [done|]. exfalso. destruct Hup as [?|(e & [j Hj]%list_elem_of_lookup & He)]; [done|].
    pose proof (lookup_lt_Some _ _ _ Hj). pose proof (key_mono es Hok (Z.of_nat j) c2 ltac:(lia) ltac:(lia)) as Hle.
    unfold key at 1, ent in Hle. rewrite Nat2Z.id, Hj in Hle. simpl in Hle. lia. }
  rewrite Hcur, Hcu1. assert (Hin : forall Q : Z -> Prop, (forall x, 0 <= x < Z.of_nat (length es) -> Q x <-> c1 <= x <= c2) ->
    forall x, 0 <= x < Z.of_nat (length es) -> Q x <-> (meets o1 (min srch) (key es x) /\ meets o2 (max srch) (key es x))).
  { intros Q HQ x Hx. rewrite HQ by done. rewrite <- (meets_ge_iff es c1), <- (meets_le_iff es c2) by done. done. }
  destruct (decide (c1 <= c2 + 1)).
  - eapply covers_collects; [eapply (range_loop_covers _ Hok _ _ _ _ _ c1); [apply covers_empty|done|done|done|done|lia|lia|done]|].
    apply Hin. intros x Hx. tauto.
  - replace (Z.to_nat (c2 - c1 + 1)) with O by lia. eapply covers_collects; [apply covers_empty|]. apply Hin. intros x Hx. lia.
Qed.

(** ** Where the search goes wrong *)

(** Three records with keys 10, 20, 30. *)
Definition sample : list entry := [Entry 10 100 1; Entry 20 200 2; Entry 30 300 3].

(** Four records, the last three with the same key. *)
Definition sample_run : list entry := [Entry 10 100 1; Entry 20 200 2; Entry 20 300 3; Entry 20 400 4].

Definition query (o : type_operation) (lo hi : Z) : search.t := search.mk o b_base.numeric [] true lo hi.

Ltac solve_index_ok :=
  split; [apply (bool_decide_unpack _); vm_compute; exact I|];
  split; [apply Sorted_StronglySorted; [apply _|]; repeat constructor; unfold key_le; simpl; lia|done].

Lemma sample_ok : index_ok sample.
Proof. solve_index_ok. Qed.

Lemma sample_run_ok : index_ok sample_run.
Proof. solve_index_ok. Qed.

(** For a bound between two keys the cursor moves to the right entry but keeps the
    location of its neighbour: [$gte 15] over the keys 10, 20, 30 returns the records
    10 and 30, and [$lt 25] returns 10 and 30 too. *)
Theorem fetch_gap_returns_neighbour :
  fetchIndexedData (enc_index sample) None (query op_gte 15 0) = {[100 := 1; 300 := 3]} /\
  fetchIndexedData (enc_index sample) None (query op_lt 0 25) = {[100 := 1; 300 := 3]}.
Proof. split; vm_compute; reflexivity. Qed.

(** When the last keys of the index are equal, an inclusive range that ends there also
    returns a record at offset 0 of size 0 that the index does not hold. *)
Theorem fetch_range_end_overruns :
  fetchIndexedData (enc_index sample_run) None (query op_range_lte_gte 10 20) !! 0 = Some 0 /\
  Forall (fun e => e_offset e <> 0) sample_run.
Proof. split; [vm_compute; reflexivity|repeat constructor; done]. Qed.

(** ** Witnesses *)

Lemma retrieveCursor_search_ends_witness : (rc_search (enc_index sample) 15 si_lt).2 = true.
Proof. apply retrieveCursor_search_ends, sample_ok. Defined.

Lemma addToIndex_refines_insert_witness :
  exists k, addToIndex (enc_index sample) 20 (b_base.mk b_base.numeric 400 4 false)
      = Some (enc_index (take k sample ++ Entry 20 400 4 :: drop k sample)) /\
    Forall entry_wf (take k sample ++ Entry 20 400 4 :: drop k sample) /\
    StronglySorted key_le (take k sample ++ Entry 20 400 4 :: drop k sample).
Proof.
  apply (addToIndex_refines_insert sample (Entry 20 400 4) b_base.numeric false);
    [apply sample_ok|apply (bool_decide_unpack _); vm_compute; exact I].
Defined.

Lemma fetch_compare_exact_witness :
  collects sample None (fun e => exists it, it ∈ [search.mk_val (lit "20") []] /\ e_key e = searched it)
    (fetchIndexedData (enc_index sample) None
       (search.mk op_compare b_base.numeric [search.mk_val (lit "20") []] true 0 0)).
Proof.
  apply (fetch_compare_exact sample None
    (search.mk op_compare b_base.numeric [search.mk_val (lit "20") []] true 0 0)); [apply sample_ok|reflexivity].
Defined.

Lemma fetch_one_sided_exact_witness :
  collects sample None (fun e => meets si_gt 20 (e_key e))
    (fetchIndexedData (enc_index sample) None (query op_gt 20 0)).
Proof.
  apply (fetch_one_sided_exact sample None (query op_gt 20 0) si_gt); [apply sample_ok| |reflexivity].
  left. exists (Entry 20 200 2). split; [right; left|reflexivity].
Defined.

Lemma fetch_range_exact_witness :
  collects sample None (fun e => meets si_gte 10 (e_key e) /\ meets si_lte 20 (e_key e))
    (fetchIndexedData (enc_index sample) None (query op_range_lte_gte 10 20)).
Proof.
  apply (fetch_range_exact sample None (query op_range_lte_gte 10 20) si_gte si_lte).
  - apply sample_ok.
  - left. exists (Entry 10 100 1). split; [left|reflexivity].
  - left. exists (Entry 20 200 2). split; [right; left|reflexivity].
  - reflexivity.
  - right. exists (Entry 30 300 3). split; [right; right; left|simpl; lia].
Defined.
