(* ===== verification/LockedFiles.v ===== *)
(** * The file lock ([rssdisk::server::locked_files], disk_server.hpp)

    A readers-writer lock per file name: [files] counts the threads inside a file (an
    8-bit counter), [pending_update] names the thread that wants to write it.  Each
    critical section of the mutex is one atomic operation; a writer that finds readers
    inside polls until they have left.  The threads that use the lock are a step
    relation over these operations, and the lock gives mutual exclusion as long as at
    most 256 threads use it (the counter wraps at the 257th). *)

From S2P Require Import Prelude.
From Stdlib Require Import ZArith Lia.
From stdpp Require Import base gmap strings numbers relations list.
Open Scope Z_scope.

(** ** The object *)

(** A [std::thread::id]. *)
Abbreviation tid := positive.

Record locked_files := LockedFiles {
  files : gmap bytes Z;
  pending_update : gmap bytes tid }.

Definition locked_files_init : locked_files := LockedFiles ∅ ∅.

(** [++files[file_name_]] on [std::uint8_t] values; a missing key starts at 0. *)
Definition inc_file (f : bytes) (m : gmap bytes Z) : gmap bytes Z :=
  <[f := wrap U8 (default 0 (m !! f) + 1)]> m.

(** [erase]: one critical section. *)
Definition erase (self : tid) (f : bytes) (l : locked_files) : locked_files :=
  let p := match pending_update l !! f with
           | Some t => if decide (t = self) then delete f (pending_update l) else pending_update l
           | None => pending_update l
           end in
  let m := match files l !! f with
           | Some n => let n := wrap U8 (n - 1) in
                       if n =? 0 then delete f (files l) else <[f := n]> (files l)
           | None => files l
           end in
  LockedFiles m p.

(** What the first critical section of [add] decides. *)
Inductive add_result := add_busy | add_done | add_wait.

(** The first critical section of [add]. *)
Definition add_enter (self : tid) (f : bytes) (is_write : bool) (l : locked_files) : locked_files * add_result :=
  match pending_update l !! f with
  | Some _ => (l, add_busy)
  | None =>
      if is_write then
        let p := <[f := self]> (pending_update l) in
        match files l !! f with
        | None => (LockedFiles (inc_file f (files l)) p, add_done)
        | Some _ => (LockedFiles (files l) p, add_wait)
        end
      else (LockedFiles (inc_file f (files l)) (pending_update l), add_done)
  end.

(** One iteration of the waiting loop: [true] when the loop ends. *)
Definition add_poll (f : bytes) (l : locked_files) : locked_files * bool :=
  match files l !! f with
  | None => (LockedFiles (inc_file f (files l)) (pending_update l), true)
  | Some _ => (l, false)
  end.

(** ** The threads *)

(** Where a thread is: outside, inside a file as a reader or a writer, or polling. *)
Inductive status := Idle | Reading (f : bytes) | Waiting (f : bytes) | Writing (f : bytes).

Record system := System { lock : locked_files; threads : gmap tid status }.

(** A client calls [add] when idle and holds a [locker_file] (whose destructor is [erase])
    exactly when [add] returned true. *)
Inductive step : system -> system -> Prop :=
  | step_add l ts t f w l' r :
      ts !! t = Some Idle -> add_enter t f w l = (l', r) ->
      step (System l ts) (System l' (match r with
        | add_busy => ts
        | add_done => <[t := if w then Writing f else Reading f]> ts
        | add_wait => <[t := Waiting f]> ts
        end))
  | step_poll l ts t f l' b :
      ts !! t = Some (Waiting f) -> add_poll f l = (l', b) ->
      step (System l ts) (System l' (if b : bool then <[t := Writing f]> ts else ts))
  | step_leave l ts t f :
      ts !! t = Some (Reading f) \/ ts !! t = Some (Writing f) ->
      step (System l ts) (System (erase t f l) (<[t := Idle]> ts)).

(** All threads outside. *)
Definition initial (s : system) : Prop :=
  lock s = locked_files_init /\ map_Forall (fun _ st => st = Idle) (threads s).

(** ** The invariant *)

(** The thread is inside file [f]. *)
Definition inside (f : bytes) (st : status) : Prop := st = Reading f \/ st = Writing f.

#[export] Instance status_eq_dec : EqDecision status.
Proof. solve_decision. Defined.

#[export] Instance inside_dec f st : Decision (inside f st).
Proof. unfold inside. apply _. Defined.

(** The number of threads inside [f]. *)
Definition holders (f : bytes) (ts : gmap tid status) : nat :=
  size (filter (fun p => inside f p.2) ts).

Record inv (s : system) : Prop := {
  inv_count f : files (lock s) !! f =
    if decide (holders f (threads s) = 0%nat) then None
    else Some (wrap U8 (Z.of_nat (holders f (threads s))));
  inv_pending f t : pending_update (lock s) !! f = Some t <->
    threads s !! t = Some (Waiting f) \/ threads s !! t = Some (Writing f);
  inv_writer f t : threads s !! t = Some (Writing f) -> holders f (threads s) = 1%nat }.

Lemma holders_bound f ts : (holders f ts <= size ts)%nat.
Proof. apply map_size_filter. Qed.

(** How a thread's move changes the count. *)
Lemma holders_insert f ts t st st' :
  ts !! t = Some st ->
  (holders f (<[t := st']> ts) + (if decide (inside f st) then 1 else 0) =
   holders f ts + (if decide (inside f st') then 1 else 0))%nat.
Proof.
  intros Ht. unfold holders.
  assert (size (filter (fun p => inside f p.2) ts) =
    (size (filter (fun p => inside f p.2) (delete t ts)) + (if decide (inside f st) then 1 else 0))%nat) as E1.
  { rewrite <- (insert_delete_id ts t st Ht) at 1. rewrite map_filter_insert, delete_delete_eq. simpl.
    destruct (decide (inside f st)); [|lia].
    rewrite map_size_insert_None; [lia|]. by rewrite map_filter_delete, lookup_delete_eq. }
  assert (size (filter (fun p => inside f p.2) (<[t := st']> ts)) =
    (size (filter (fun p => inside f p.2) (delete t ts)) + (if decide (inside f st') then 1 else 0))%nat) as E2.
  { rewrite <- insert_delete_eq, map_filter_insert, delete_delete_eq. simpl.
    destruct (decide (inside f st')); [|lia].
    rewrite map_size_insert_None; [lia|]. by rewrite map_filter_delete, lookup_delete_eq. }
  lia.
Qed.

Lemma holders_pos f ts t st : ts !! t = Some st -> inside f st -> (0 < holders f ts)%nat.
Proof.
  intros Ht Hi. pose proof (holders_insert f ts t st Idle Ht) as H.
  rewrite (decide_True (P := inside f st)) in H by done. destruct (decide (inside f Idle)) as [[?|?]|?]; [done..|lia].
Qed.

Lemma holders_insert_same f ts t st st' :
  ts !! t = Some st -> (inside f st <-> inside f st') -> holders f (<[t := st']> ts) = holders f ts.
Proof.
  intros Ht Hi. pose proof (holders_insert f ts t st st' Ht).
  destruct (decide (inside f st)), (decide (inside f st')); tauto || lia.
Qed.

Lemma holders_enter f ts t st st' :
  ts !! t = Some st -> ~ inside f st -> inside f st' -> holders f (<[t := st']> ts) = S (holders f ts).
Proof.
  intros Ht Ho Hi. pose proof (holders_insert f ts t st st' Ht) as H.
  rewrite (decide_False (P := inside f st)), (decide_True (P := inside f st')) in H by done. lia.
Qed.

Lemma holders_leave f ts t st st' :
  ts !! t = Some st -> inside f st -> ~ inside f st' -> S (holders f (<[t := st']> ts)) = holders f ts.
Proof.
  intros Ht Hi Ho. pose proof (holders_insert f ts t st st' Ht) as H.
  rewrite (decide_True (P := inside f st)), (decide_False (P := inside f st')) in H by done. lia.
Qed.

(** The counter that stands for [n] threads. *)
Definition counter (n : nat) : option Z :=
  if decide (n = 0%nat) then None else Some (wrap U8 (Z.of_nat n)).

Lemma inc_counter m f n :
  m !! f = counter n -> inc_file f m !! f = counter (S n).
Proof.
  intros E. unfold inc_file. rewrite lookup_insert_eq. unfold counter in *.
  rewrite (decide_False (P := S n = 0%nat)) by lia. f_equal. rewrite E.
  case_decide; [by subst|]. cbn [default from_option id]. rewrite wrap_add_l. f_equal. lia.
Qed.

Lemma dec_counter n :
  (0 < n <= 256)%nat ->
  (if wrap U8 (wrap U8 (Z.of_nat n) - 1) =? 0 then None else Some (wrap U8 (wrap U8 (Z.of_nat n) - 1)))
  = counter (n - 1).
Proof.
  intros Hn. rewrite <- Z.add_opp_r, wrap_add_l. unfold counter.
  rewrite !wrap_id by (rewrite in_range_U8; lia).
  case_decide; cmp; try lia; [done|]. f_equal. lia.
Qed.

(** Cases on the status a thread has after its own or another thread's move. *)
Ltac statuses :=
  repeat match goal with
  | H : context [<[?t := _]> _ !! ?u] |- _ => rewrite (lookup_insert _ t u) in H; case_decide; simplify_eq
  | |- context [<[?t := _]> _ !! ?u] => rewrite (lookup_insert _ t u); case_decide; simplify_eq
  end.

Lemma inv_no_writer l ts f t :
  inv (System l ts) -> pending_update l !! f = None -> ts !! t <> Some (Waiting f) /\ ts !! t <> Some (Writing f).
Proof.
  intros Hi Hp. pose proof (inv_pending _ Hi f t) as H. simpl in H. rewrite Hp in H.
  split; intros E; (assert (None = Some t) by (apply H; auto)); done.
Qed.

Lemma inv_files l ts f : inv (System l ts) -> files l !! f = counter (holders f ts).
Proof. intros Hi. apply (inv_count _ Hi f). Qed.

(** Two files that a status does not involve. *)
Lemma inside_other f g : f <> g ->
  ~ inside g (Reading f) /\ ~ inside g (Writing f) /\ ~ inside g (Waiting f) /\ ~ inside g Idle.
Proof. intros Hne. unfold inside. repeat split; intros [?|?]; simplify_eq. Qed.

Lemma inv_step_read l ts t f :
  inv (System l ts) -> ts !! t = Some Idle -> pending_update l !! f = None ->
  inv (System (LockedFiles (inc_file f (files l)) (pending_update l)) (<[t := Reading f]> ts)).
Proof.
  intros Hi Ht Hp. split; simpl.
  - intros g. fold (counter (holders g (<[t := Reading f]> ts))). destruct (decide (f = g)) as [<-|Hne].
    + rewrite (holders_enter f ts t Idle) by (done || (unfold inside; naive_solver)). by apply inc_counter, inv_files.
    + unfold inc_file. rewrite lookup_insert_ne by done.
      pose proof (inside_other f g Hne). rewrite (holders_insert_same g ts t Idle) by tauto. by apply inv_files.
  - intros g u. rewrite (inv_pending _ Hi g u). simpl. statuses; naive_solver.
  - intros g u Hu. statuses. destruct (decide (f = g)) as [<-|Hne].
    + by destruct (inv_no_writer l ts f u Hi Hp).
    + pose proof (inside_other f g Hne). rewrite (holders_insert_same g ts t Idle) by tauto. by apply (inv_writer _ Hi g u).
Qed.

Lemma inv_step_write l ts t f st :
  inv (System l ts) -> ts !! t = Some st -> files l !! f = None ->
  (st = Idle /\ pending_update l !! f = None) \/ st = Waiting f ->
  inv (System (LockedFiles (inc_file f (files l)) (<[f := t]> (pending_update l))) (<[t := Writing f]> ts)).
Proof.
  intros Hi Ht Hf Hst. pose proof (inv_files l ts f Hi) as Hc. rewrite Hf in Hc.
  assert (holders f ts = 0%nat) as H0 by (unfold counter in Hc; by case_decide).
  assert (Ho : forall g, ~ inside g st) by (intros g [?|?]; destruct Hst as [[-> _]| ->]; done).
  split; simpl.
  - intros g. fold (counter (holders g (<[t := Writing f]> ts))). destruct (decide (f = g)) as [<-|Hne].
    + rewrite (holders_enter f ts t st) by (auto || (right; done)). by apply inc_counter, inv_files.
    + unfold inc_file. rewrite lookup_insert_ne by done. pose proof (inside_other f g Hne).
      rewrite (holders_insert_same g ts t st); [by apply inv_files|done|]. specialize (Ho g). tauto.
  - intros g u. pose proof (inv_pending _ Hi g u) as Hp. pose proof (inv_pending _ Hi g t) as Hpt. simpl in *.
    rewrite (lookup_insert _ f g). case_decide as E; [subst g|].
    + split; [intros [= <-]; statuses; auto|]. intros Hu. statuses; [done|]. exfalso.
      apply Hp in Hu. destruct Hst as [[_ E2]| ->]; [congruence|].
      assert (pending_update l !! f = Some t) by (apply Hpt; auto). congruence.
    + rewrite Hp. statuses; naive_solver.
  - intros g u Hu. destruct (decide (f = g)) as [<-|Hne].
    + rewrite (holders_enter f ts t st) by (auto || (right; done)). lia.
    + pose proof (inside_other f g Hne). specialize (Ho g). rewrite (holders_insert_same g ts t st) by tauto. statuses.
      by apply (inv_writer _ Hi g u).
Qed.

Lemma inv_step_wait l ts t f :
  inv (System l ts) -> ts !! t = Some Idle -> pending_update l !! f = None ->
  inv (System (LockedFiles (files l) (<[f := t]> (pending_update l))) (<[t := Waiting f]> ts)).
Proof.
  intros Hi Ht Hp.
  assert (Hh : forall g, holders g (<[t := Waiting f]> ts) = holders g ts).
  { intros g. apply (holders_insert_same g ts t Idle); [done|]. unfold inside. naive_solver. }
  split; simpl.
  - intros g. rewrite Hh. apply (inv_count _ Hi g).
  - intros g u. pose proof (inv_pending _ Hi g u) as Hpu. simpl in Hpu. rewrite (lookup_insert _ f g).
    case_decide as E; [subst g|].
    + split; [intros [= <-]; statuses; auto|]. intros Hu. statuses; [done|].
      destruct (inv_no_writer l ts f u Hi Hp). naive_solver.
    + rewrite Hpu. statuses; naive_solver.
  - intros g u Hu. rewrite Hh. statuses. by apply (inv_writer _ Hi g u).
Qed.

Lemma inv_step_leave l ts t f :
  inv (System l ts) -> (size ts <= 256)%nat -> ts !! t = Some (Reading f) \/ ts !! t = Some (Writing f) ->
  inv (System (erase t f l) (<[t := Idle]> ts)).
Proof.
  intros Hi Hsz Ht. assert (exists st, ts !! t = Some st /\ inside f st /\ (st = Reading f \/ st = Writing f))
    as (st & Hst & Hin & Hrw) by (unfold inside; naive_solver).
  pose proof (holders_pos f ts t st Hst Hin) as Hpos. pose proof (holders_bound f ts) as Hb.
  assert (~ inside f Idle) as Hidle by (intros [?|?]; done).
  pose proof (holders_leave f ts t st Idle Hst Hin Hidle) as Hh.
  assert (Hoth : forall g, f <> g -> holders g (<[t := Idle]> ts) = holders g ts).
  { intros g Hne. pose proof (inside_other f g Hne). apply (holders_insert_same g ts t st); [done|].
    destruct Hrw as [-> | ->]; tauto. }
  split; simpl.
  - intros g. fold (counter (holders g (<[t := Idle]> ts))). pose proof (inv_files l ts f Hi) as Hc.
    unfold counter in Hc. rewrite decide_False in Hc by lia. rewrite Hc. destruct (decide (f = g)) as [<-|Hne].
    + replace (holders f (<[t := Idle]> ts)) with (holders f ts - 1)%nat by lia. rewrite <- dec_counter by lia.
      destruct (_ =? 0); [apply lookup_delete_eq|apply lookup_insert_eq].
    + rewrite Hoth by done. destruct (_ =? 0);
        [rewrite lookup_delete_ne by done|rewrite lookup_insert_ne by done]; by apply inv_files.
  - intros g u. pose proof (inv_pending _ Hi f t) as Hpt. pose proof (inv_pending _ Hi g u) as Hpu. simpl in *.
    assert ((match pending_update l !! f with
             | Some t0 => if decide (t0 = t) then delete f (pending_update l) else pending_update l
             | None => pending_update l end) !! g = Some u <-> pending_update l !! g = Some u /\ (g = f -> u <> t)) as ->.
    { destruct (pending_update l !! f) as [t0|] eqn:E; [|naive_solver].
      case_decide; [subst t0|naive_solver]. rewrite (lookup_delete _ f g). case_decide; naive_solver. }
    rewrite Hpu. statuses; naive_solver.
  - intros g u Hu. statuses. destruct (decide (f = g)) as [<-|Hne].
    + pose proof (inv_writer _ Hi f u Hu) as Hone. simpl in Hone. exfalso.
      assert (~ (u = t)) by done. pose proof (holders_pos f (<[t := Idle]> ts) u (Writing f)) as H2.
      rewrite lookup_insert_ne in H2 by done. specialize (H2 Hu (or_intror eq_refl)). lia.
    + rewrite Hoth by done. by apply (inv_writer _ Hi g u).
Qed.

Lemma step_size s s' : step s s' -> size (threads s') = size (threads s).
Proof.
  destruct 1 as [l ts t f w l' r Ht _|l ts t f l' b Ht _|l ts t f Ht]; simpl.
  - destruct r; [done|by apply map_size_insert_Some..].
  - destruct b; [by apply map_size_insert_Some|done].
  - apply map_size_insert_Some. naive_solver.
Qed.

Lemma inv_step s s' : inv s -> (size (threads s) <= 256)%nat -> step s s' -> inv s'.
Proof.
  intros Hi Hsz Hst. destruct Hst as [l ts t f w l' r Ht E|l ts t f l' b Ht E|l ts t f Ht]; simpl in Hsz.
  - unfold add_enter in E. destruct (pending_update l !! f) eqn:Hp; [by simplify_eq|]. destruct w.
    + destruct (files l !! f) eqn:Hf; simplify_eq; [by apply inv_step_wait|].
      apply (inv_step_write l ts t f Idle); auto.
    + simplify_eq. by apply inv_step_read.
  - unfold add_poll in E. destruct (files l !! f) eqn:Hf; simplify_eq; [done|].
    pose proof (inv_step_write l ts t f (Waiting f) Hi Ht Hf (or_intror eq_refl)) as H.
    rewrite insert_id in H; [done|]. apply (inv_pending _ Hi). auto.
  - by apply inv_step_leave.
Qed.

Lemma inv_initial s : initial s -> inv s.
Proof.
  intros [El Hf]. assert (Hh : forall f, holders f (threads s) = 0%nat).
  { intros f. unfold holders. apply map_size_empty_iff, map_empty. intros t.
    apply map_lookup_filter_None. right. intros st Ht [?|?]; specialize (Hf t st Ht); simpl in *; congruence. }
  split; rewrite ?El; simpl.
  - intros f. rewrite Hh. by rewrite lookup_empty.
  - intros f t. rewrite lookup_empty. split; [done|]. intros [Ht|Ht]; by specialize (Hf t _ Ht).
  - intros f t Ht. by specialize (Hf t _ Ht).
Qed.

Lemma inv_reachable s s' :
  initial s -> (size (threads s) <= 256)%nat -> rtc step s s' -> inv s'.
Proof.
  intros Hs Hsz Hr. assert (inv s) as Hi by by apply inv_initial. clear Hs.
  induction Hr as [|s s1 s2 Hst _ IH]; [done|].
  apply IH; [by rewrite (step_size s s1)|by eapply inv_step].
Qed.

Lemma holders_two f ts t u st st' :
  ts !! t = Some st -> ts !! u = Some st' -> inside f st -> inside f st' -> t <> u -> (2 <= holders f ts)%nat.
Proof.
  intros Ht Hu Hi Hi' Hne. assert (~ inside f Idle) as Hidle by (intros [?|?]; done).
  pose proof (holders_leave f ts t st Idle Ht Hi Hidle).
  pose proof (holders_pos f (<[t := Idle]> ts) u st') as H2. rewrite lookup_insert_ne in H2 by done.
  specialize (H2 Hu Hi'). lia.
Qed.

Lemma add_reader_counter t f l n :
  files l !! f = counter n -> pending_update l = ∅ ->
  files (add_enter t f false l).1 !! f = counter (S n) /\ pending_update (add_enter t f false l).1 = ∅.
Proof.
  intros Hf Hp. unfold add_enter. rewrite Hp, lookup_empty. simpl. split; [by apply inc_counter|done].
Qed.

(** ** Properties *)

(** C29: mutual exclusion.  In every state that at most 256 threads reach by calls of [add],
    polls of its waiting loop and [erase]s, a thread that holds a file for writing is the
    only one inside that file. *)
Theorem locked_files_exclusion s s' t u f st :
  initial s -> (size (threads s) <= 256)%nat -> rtc step s s' ->
  threads s' !! t = Some (Writing f) -> threads s' !! u = Some st -> inside f st -> u = t.
Proof.
  intros Hs Hsz Hr Ht Hu Hin. pose proof (inv_reachable s s' Hs Hsz Hr) as Hi.
  destruct (decide (u = t)) as [|Hne]; [done|].
  pose proof (holders_two f (threads s') u t st (Writing f) Hu Ht Hin (or_intror eq_refl) Hne).
  rewrite (inv_writer _ Hi f t Ht) in *. lia.
Qed.

(** Progress.  A writer that waits enters at its next poll once no thread is inside the
    file, and until it leaves every other [add] on the file is refused. *)
Theorem locked_files_writer_progress s s' t f :
  initial s -> (size (threads s) <= 256)%nat -> rtc step s s' ->
  threads s' !! t = Some (Waiting f) ->
  (holders f (threads s') = 0%nat -> (add_poll f (lock s')).2 = true) /\
  (forall u w, add_enter u f w (lock s') = (lock s', add_busy)).
Proof.
  intros Hs Hsz Hr Ht. pose proof (inv_reachable s s' Hs Hsz Hr) as Hi. split.
  - intros H0. unfold add_poll. rewrite (inv_count _ Hi f). by rewrite decide_True.
  - intros u w. unfold add_enter. by rewrite (proj2 (inv_pending _ Hi f t)) by auto.
Qed.

(** The bound of 256 threads is needed.  The counter is a [std::uint8_t]: after 257
    readers entered a file and one left, the file counts as free and a writer enters with
    256 readers inside. *)
Theorem locked_files_counter_wraps f :
  let enter l := (add_enter 1%positive f false l).1 in
  let l := erase 1%positive f (Nat.iter 257 enter locked_files_init) in
  files l !! f = None /\ (add_enter 2%positive f true l).2 = add_done.
Proof.
  cbn zeta. assert (Hn : forall n, files (Nat.iter n (fun l => (add_enter 1%positive f false l).1) locked_files_init) !! f = counter n /\
    pending_update (Nat.iter n (fun l => (add_enter 1%positive f false l).1) locked_files_init) = ∅).
  { induction n as [|n [IH1 IH2]]; [done|]. rewrite Nat.iter_succ. by apply add_reader_counter. }
  destruct (Hn 257%nat) as [H1 H2]. set (l := Nat.iter 257 _ _) in *. clearbody l.
  assert (files (erase 1%positive f l) !! f = None /\ pending_update (erase 1%positive f l) = ∅) as [E1 E2].
  { unfold erase. rewrite H1, H2, lookup_empty. simpl. split; [apply lookup_delete_eq|done]. }
  split; [done|]. unfold add_enter. by rewrite E2, lookup_empty, E1.
Qed.

(** ** Witnesses *)

(** Two threads on the file ["5/a"]: the first reads, the second waits to write, the first
    leaves, the second enters. *)
Definition demo_file : bytes := lit "5/a".
Definition demo_init : system := System locked_files_init {[1%positive := Idle; 2%positive := Idle]}.
Definition demo_waiting : system :=
  System (LockedFiles {[demo_file := 1]} {[demo_file := 2%positive]})
         {[1%positive := Reading demo_file; 2%positive := Waiting demo_file]}.
Definition demo_writing : system :=
  System (LockedFiles {[demo_file := 1]} {[demo_file := 2%positive]})
         {[1%positive := Idle; 2%positive := Writing demo_file]}.

Lemma demo_initial : initial demo_init.
Proof. split; [done|]. intros t st. unfold demo_init. simpl. intros [[_ <-]|[_ [_ <-]%lookup_singleton_Some]]%lookup_insert_Some; done. Qed.

Lemma demo_reach_waiting : rtc step demo_init demo_waiting.
Proof.
  eapply rtc_l; [apply (step_add _ _ 1%positive demo_file false); vm_compute; reflexivity|].
  eapply rtc_l; [apply (step_add _ _ 2%positive demo_file true); vm_compute; reflexivity|].
  vm_compute. apply rtc_refl.
Qed.

Lemma demo_reach_writing : rtc step demo_init demo_writing.
Proof.
  etransitivity; [apply demo_reach_waiting|].
  eapply rtc_l; [apply (step_leave _ _ 1%positive demo_file); left; vm_compute; reflexivity|].
  eapply rtc_l; [apply (step_poll _ _ 2%positive demo_file); vm_compute; reflexivity|].
  vm_compute. apply rtc_refl.
Qed.

Lemma locked_files_exclusion_witness :
  threads demo_writing !! 2%positive = Some (Writing demo_file) /\ 2%positive = 2%positive.
Proof.
  split; [reflexivity|]. apply (locked_files_exclusion demo_init demo_writing 2%positive 2%positive demo_file (Writing demo_file));
    [apply demo_initial|vm_compute; lia|apply demo_reach_writing|reflexivity|reflexivity|right; reflexivity].
Defined.

Lemma locked_files_writer_progress_witness :
  (holders demo_file (threads demo_waiting) = 0%nat -> (add_poll demo_file (lock demo_waiting)).2 = true) /\
  (forall u w, add_enter u demo_file w (lock demo_waiting) = (lock demo_waiting, add_busy)).
Proof.
  apply (locked_files_writer_progress demo_init demo_waiting 2%positive demo_file);
    [apply demo_initial|vm_compute; lia|apply demo_reach_waiting|reflexivity].
Defined.
