(* ===== verification/Base64.v ===== *)
(** * Base64 ([libs/base64.cpp])

    The encoder and decoder that carry the binary oplog inside a json answer
    ([hstf::get], [hstf_client]).  The three encoders of the file share one loop and
    differ in the type of their input; so do the two decoders. *)

From S2P Require Import Prelude.
From Stdlib Require Import ZArith Lia Strings.Byte.
From stdpp Require Import base gmap strings numbers list.
Open Scope Z_scope.

(** ** Operations *)

Definition base64_chars : bytes :=
  lit "ABCDEFGHIJKLMNOPQRSTUVWXYZabcdefghijklmnopqrstuvwxyz0123456789+/".

Definition is_base64 (c : byte) : bool :=
  let z := b2z c in
  ((48 <=? z) && (z <=? 57)) || ((65 <=? z) && (z <=? 90)) || ((97 <=? z) && (z <=? 122))
  || (z =? 43) || (z =? 47).

(** [base64_chars[k]]. *)
Definition b64_char (k : Z) : byte := nth (Z.to_nat k) base64_chars x00.

(** [base64_chars.find(c)] stored into an [unsigned char]: [npos] becomes 255. *)
Definition b64_find (c : byte) : Z :=
  match str_find [c] base64_chars with Some i => wrap U8 (Z.of_nat i) | None => 255 end.

(** [char_array_4] from [char_array_3]. *)
Definition enc_quad (a b c : byte) : list Z :=
  [ wrap U8 (Z.shiftr (Z.land (b2z a) 252) 2);
    wrap U8 (Z.shiftl (Z.land (b2z a) 3) 4 + Z.shiftr (Z.land (b2z b) 240) 4);
    wrap U8 (Z.shiftl (Z.land (b2z b) 15) 2 + Z.shiftr (Z.land (b2z c) 192) 6);
    wrap U8 (Z.land (b2z c) 63) ].

(** The loop over the input; [group] is the filled part of [char_array_3]. *)
Fixpoint encode_loop (l group ret : bytes) : bytes :=
  match l with
  | x :: l' =>
      match group ++ [x] with
      | [a; b; c] => encode_loop l' [] (ret ++ (b64_char <$> enc_quad a b c))
      | g => encode_loop l' g ret
      end
  | [] =>
      match group with
      | [] => ret
      | [a] => ret ++ take 2 (b64_char <$> enc_quad a x00 x00) ++ [x3d; x3d]
      | a :: b :: _ => ret ++ take 3 (b64_char <$> enc_quad a b x00) ++ [x3d]
      end
  end.

(** The length is held in an [unsigned int]. *)
Definition base64_encode (s : bytes) : bytes :=
  encode_loop (take (Z.to_nat (wrap U32 (Z.of_nat (length s)))) s) [] [].

(** The overload on a buffer and a length, and the two overloads on vectors: the same loop. *)
Definition base64_encode_buffer (buf : bytes) (in_len : Z) : bytes :=
  encode_loop (take (Z.to_nat in_len) buf) [] [].
Definition base64_encodeV (s : bytes) : bytes :=
  encode_loop (take (Z.to_nat (wrap U32 (Z.of_nat (length s)))) s) [] [].
Definition base64_encodeV_uchar (s : bytes) : bytes :=
  encode_loop (take (Z.to_nat (wrap U32 (Z.of_nat (length s)))) s) [] [].

(** [char_array_3] from [char_array_4]. *)
Definition dec_triple (w x y z : Z) : bytes :=
  [ z2b (Z.shiftl w 2 + Z.shiftr (Z.land x 48) 4);
    z2b (Z.shiftl (Z.land x 15) 4 + Z.shiftr (Z.land y 60) 2);
    z2b (Z.shiftl (Z.land y 3) 6 + z) ].

(** The remainder of [i] characters: the missing ones are the NUL character, which the
    alphabet does not hold. *)
Definition decode_rest (group : bytes) : bytes :=
  match group with
  | [] => []
  | [a] => []
  | [a; b] => take 1 (dec_triple (b64_find a) (b64_find b) (b64_find x00) (b64_find x00))
  | a :: b :: c :: _ => take 2 (dec_triple (b64_find a) (b64_find b) (b64_find c) (b64_find x00))
  end.

(** The loop condition on a character. *)
Definition b64_plain (c : byte) : bool := negb (bool_decide (c = x3d)) && is_base64 c.

Fixpoint decode_loop (l group ret : bytes) : bytes :=
  match l with
  | x :: l' =>
      if b64_plain x then
        match group ++ [x] with
        | [a; b; c; d] => decode_loop l' [] (ret ++ dec_triple (b64_find a) (b64_find b) (b64_find c) (b64_find d))
        | g => decode_loop l' g ret
        end
      else ret ++ decode_rest group
  | [] => ret ++ decode_rest group
  end.

Definition base64_decode (s : bytes) : bytes :=
  decode_loop (take (Z.to_nat (wrap U32 (Z.of_nat (length s)))) s) [] [].

(** The overload that returns a vector. *)
Definition base64_decodeV (s : bytes) : bytes :=
  decode_loop (take (Z.to_nat (wrap U32 (Z.of_nat (length s)))) s) [] [].

(** ** Bit fields of a byte *)

Lemma byte_fields b :
  Z.shiftr (Z.land (b2z b) 252) 2 = b2z b / 4 /\ Z.land (b2z b) 3 = b2z b mod 4 /\
  Z.shiftr (Z.land (b2z b) 240) 4 = b2z b / 16 /\ Z.land (b2z b) 15 = b2z b mod 16 /\
  Z.shiftr (Z.land (b2z b) 192) 6 = b2z b / 64 /\ Z.land (b2z b) 63 = b2z b mod 64.
Proof. destruct b; repeat split; reflexivity. Qed.

Definition all_sextets : list Z := Z.of_nat <$> seq 0 64.

Lemma sextet_cases (P : Z -> bool) k : forallb P all_sextets = true -> 0 <= k < 64 -> P k = true.
Proof.
  intros H Hk. rewrite forallb_forall in H. apply H. apply list_elem_of_In, list_elem_of_fmap.
  exists (Z.to_nat k). split; [lia|]. apply elem_of_seq. lia.
Qed.

(** The characters of the alphabet decode to their index. *)
Lemma b64_find_char k : 0 <= k < 64 -> b64_find (b64_char k) = k.
Proof.
  intros Hk. apply Z.eqb_eq. apply (sextet_cases (fun k => b64_find (b64_char k) =? k)); [vm_compute|]; done.
Qed.

Lemma b64_char_ok k : 0 <= k < 64 -> b64_plain (b64_char k) = true.
Proof. intros Hk. apply (sextet_cases (fun k => b64_plain (b64_char k))); [vm_compute|]; done. Qed.

Lemma sextet_fields k : 0 <= k < 64 ->
  Z.shiftr (Z.land k 48) 4 = k / 16 /\ Z.land k 15 = k mod 16 /\ Z.shiftr (Z.land k 60) 2 = k / 4 /\ Z.land k 3 = k mod 4.
Proof.
  intros Hk.
  assert ((Z.shiftr (Z.land k 48) 4 =? k / 16) && (Z.land k 15 =? k mod 16) &&
          (Z.shiftr (Z.land k 60) 2 =? k / 4) && (Z.land k 3 =? k mod 4) = true) as H.
  { apply (sextet_cases (fun k => (Z.shiftr (Z.land k 48) 4 =? k / 16) && (Z.land k 15 =? k mod 16) &&
      (Z.shiftr (Z.land k 60) 2 =? k / 4) && (Z.land k 3 =? k mod 4))); [vm_compute|]; done. }
  rewrite !andb_true_iff, !Z.eqb_eq in H. tauto.
Qed.

(** The four sextets of three bytes, as quotients and remainders. *)
Lemma enc_quad_value a b c :
  enc_quad a b c = [ b2z a / 4; (b2z a mod 4) * 16 + b2z b / 16; (b2z b mod 16) * 4 + b2z c / 64; b2z c mod 64 ].
Proof.
  unfold enc_quad. destruct (byte_fields a) as (-> & -> & _). destruct (byte_fields b) as (_ & _ & -> & -> & _).
  destruct (byte_fields c) as (_ & _ & _ & _ & -> & ->). rewrite !Z.shiftl_mul_pow2 by lia.
  change (2 ^ 4) with 16. change (2 ^ 2) with 4.
  pose proof (b2z_range a). pose proof (b2z_range b). pose proof (b2z_range c).
  rewrite !wrap_id by (rewrite in_range_U8; dlia). done.
Qed.

Lemma dec_triple_value w x y z :
  0 <= x < 64 -> 0 <= y < 64 ->
  dec_triple w x y z = [ z2b (w * 4 + x / 16); z2b ((x mod 16) * 16 + y / 4); z2b ((y mod 4) * 64 + z) ].
Proof.
  intros Hx Hy. unfold dec_triple. destruct (sextet_fields x Hx) as (-> & -> & _).
  destruct (sextet_fields y Hy) as (_ & _ & -> & ->). rewrite !Z.shiftl_mul_pow2 by lia. done.
Qed.

Lemma z2b_eq z b : z = b2z b -> z2b z = b.
Proof. intros ->. apply z2b_b2z. Qed.

(** ** Round trip *)

(** One full group. *)
Lemma decode_group a b c l ret :
  decode_loop ((b64_char <$> enc_quad a b c) ++ l) [] ret = decode_loop l [] (ret ++ [a; b; c]).
Proof.
  pose proof (b2z_range a). pose proof (b2z_range b). pose proof (b2z_range c).
  rewrite enc_quad_value. cbn [fmap list_fmap app decode_loop].
  rewrite !b64_char_ok, !b64_find_char by dlia. rewrite dec_triple_value by dlia.
  do 2 f_equal. repeat f_equal; apply z2b_eq; dlia.
Qed.

Lemma decode_two a b ret :
  decode_loop (take 3 (b64_char <$> enc_quad a b x00) ++ [x3d]) [] ret = ret ++ [a; b].
Proof.
  pose proof (b2z_range a). pose proof (b2z_range b). pose proof (b2z_range x00).
  rewrite enc_quad_value. cbn [fmap list_fmap take app decode_loop].
  rewrite !b64_char_ok by (change (b2z x00) with 0 in *; dlia). cbn [b64_plain bool_decide decode_rest].
  rewrite !b64_find_char by (change (b2z x00) with 0 in *; dlia).
  change (b64_plain x3d) with false. cbn iota.
  rewrite dec_triple_value by (change (b2z x00) with 0 in *; dlia).
  cbn [take]. f_equal. repeat f_equal; apply z2b_eq; change (b2z x00) with 0; dlia.
Qed.

Lemma decode_one a ret :
  decode_loop (take 2 (b64_char <$> enc_quad a x00 x00) ++ [x3d; x3d]) [] ret = ret ++ [a].
Proof.
  pose proof (b2z_range a). rewrite enc_quad_value. cbn [fmap list_fmap take app decode_loop].
  change (b2z x00) with 0. rewrite !b64_char_ok by dlia. change (b64_plain x3d) with false.
  cbn [decode_rest]. cbn iota. rewrite !b64_find_char by dlia.
  unfold dec_triple. cbn [take]. do 2 f_equal. destruct (sextet_fields ((b2z a mod 4) * 16 + 0 / 16)) as (-> & _); [dlia|].
  apply z2b_eq. rewrite Z.shiftl_mul_pow2 by lia. change (2 ^ 2) with 4. dlia.
Qed.

Lemma encode_loop_ret l g ret : encode_loop l g ret = ret ++ encode_loop l g [].
Proof.
  revert g ret; induction l as [|x l IH]; intros g ret; cbn [encode_loop].
  - destruct g as [|a [|b g]]; [by rewrite app_nil_r|done|done].
  - destruct (g ++ [x]) as [|a [|b [|c [|d g']]]]; rewrite IH; try done.
    symmetry. rewrite IH. by rewrite app_nil_l, app_assoc.
Qed.

Lemma decode_encode_loop l ret :
  decode_loop (encode_loop l [] []) [] ret = ret ++ l.
Proof.
  remember (length l) as n eqn:Hn. revert l Hn ret.
  induction n as [n IH] using lt_wf_ind; intros l Hn ret.
  destruct l as [|a [|b [|c l]]]; cbn [encode_loop app].
  - done.
  - apply decode_one.
  - apply decode_two.
  - rewrite encode_loop_ret, decode_group.
    rewrite (IH (length l)) by (simpl in Hn; lia || done). by rewrite <- app_assoc.
Qed.

(** What an encoding is made of. *)
Definition b64_text (c : byte) : Prop := b64_plain c = true \/ c = x3d.

Lemma enc_quad_plain a b c : Forall b64_text (b64_char <$> enc_quad a b c).
Proof.
  pose proof (b2z_range a). pose proof (b2z_range b). pose proof (b2z_range c). rewrite enc_quad_value.
  repeat (apply Forall_cons; split; [left; apply b64_char_ok; dlia|]). apply Forall_nil_2.
Qed.

Lemma encode_loop_plain l : forall g ret, Forall b64_text ret -> Forall b64_text (encode_loop l g ret).
Proof.
  induction l as [|x l IH]; intros g ret Hr; cbn [encode_loop].
  - destruct g as [|a [|b g]]; [done| |]; apply Forall_app; (split; [done|]); apply Forall_app; (split; [apply Forall_take, enc_quad_plain|]);
      repeat constructor; by right.
  - destruct (g ++ [x]) as [|a [|b [|c [|d g']]]]; apply IH; try done. apply Forall_app. split; [done|apply enc_quad_plain].
Qed.

Lemma base64_encode_plain s : Forall b64_text (base64_encode s).
Proof. apply encode_loop_plain. constructor. Qed.

(** The encoded length: four characters per started group of three bytes. *)
Lemma length_encode_loop l : Z.of_nat (length (encode_loop l [] [])) = 4 * ((Z.of_nat (length l) + 2) / 3).
Proof.
  remember (length l) as n eqn:Hn. revert l Hn. induction n as [n IH] using lt_wf_ind; intros l ->.
  destruct l as [|a [|b [|c l]]]; try reflexivity. cbn [encode_loop app].
  rewrite encode_loop_ret, length_app.
  rewrite Nat2Z.inj_add, (IH (length l)) by (simpl; lia || done). simpl length.
  replace (Z.of_nat (S (S (S (length l)))) + 2) with (Z.of_nat (length l) + 2 + 1 * 3) by lia.
  rewrite Z.div_add by lia. lia.
Qed.

Lemma base64_round_trip s :
  4 * ((Z.of_nat (length s) + 2) / 3) < 2 ^ 32 -> base64_decode (base64_encode s) = s.
Proof.
  intros Hs. assert (Hin : forall z, 0 <= z < 2 ^ 32 -> wrap U32 z = z) by (intros; apply wrap_id; range_lia).
  unfold base64_decode, base64_encode. rewrite (Hin (Z.of_nat (length s))) by dlia.
  rewrite Nat2Z.id, firstn_all, length_encode_loop, Hin by dlia.
  rewrite <- length_encode_loop, Nat2Z.id, firstn_all. apply (decode_encode_loop s []).
Qed.

(** Decoding what was encoded gives the bytes back, for every input whose encoding fits
    the 32-bit lengths of the code. *)
Theorem base64_decode_encode s :
  4 * ((Z.of_nat (length s) + 2) / 3) < 2 ^ 32 -> base64_decode (base64_encode s) = s.
Proof. apply base64_round_trip. Qed.

Lemma base64_decode_encode_witness :
  4 * ((Z.of_nat (length (lit "oplog")) + 2) / 3) < 2 ^ 32 /\
  base64_decode (base64_encode (lit "oplog")) = lit "oplog".
Proof. split; [vm_compute; reflexivity|]. apply base64_decode_encode. vm_compute. reflexivity. Defined.
