(* ===== verification/NetworkStd.v ===== *)
(** * Addresses ([libs/network/network_std.cpp])

    An IPv4 address as text and as a number; the client library knows its servers by the number. *)

From S2P Require Import Prelude BasefuncStd.
From Stdlib Require Import ZArith Lia Strings.Byte.
From stdpp Require Import base strings numbers list.
Open Scope Z_scope.

(** ** Operations *)

(** One part of an address; it stays 0 when it is no number. *)
Definition octet (s : bytes) : Z := default 0 (stoi U32 s).

(** The sum is one of [double]s, exact up to [2^53]; converting a larger one than a [uint32_t]
    holds to it is undefined ([None]). *)
Definition inet_aton (ip : bytes) (added_mask : Z) : option Z :=
  match BasefuncStd.split ip x2e with
  | [s3; s2; s1; s0] =>
      let n := octet s3 * 256 ^ 3 + octet s2 * 256 ^ 2 + octet s1 * 256 ^ 1 + octet s0 + added_mask in
      if n <=? max_val U32 then Some n else None
  | _ => Some 0
  end.

(** The loop [for (i = 24; i >= 0; i -= 8)]. *)
Fixpoint inet_ntoa_loop (number : Z) (l : list Z) : bytes :=
  match l with
  | [] => []
  | i :: l' =>
      to_string (Z.land (Z.shiftr number i) 255) ++ (if i =? 0 then [] else [x2e]) ++ inet_ntoa_loop number l'
  end.
Definition inet_ntoa (number : Z) : bytes := inet_ntoa_loop number [24; 16; 8; 0].

(** The overload for a container. *)
Definition inet_ntoa_all (numbers : list Z) : list bytes := inet_ntoa <$> numbers.

(** [1 << (32 - mask)] is undefined for 0 ([None]); with 1 it is the smallest [int32_t], which the
    comparison with the unsigned [i] turns into [2^31]. *)
Definition ips_by_mask (ip : bytes) : option (list bytes) :=
  match str_find (lit "/") ip with
  | Some f =>
      addr ← inet_aton (take f ip) 0;
      let mask := default 0 (stoi I32 (drop (f + 1) ip)) in
      let mask := if mask <? 0 then 0 else mask in
      let mask := if 32 <? mask then 32 else mask in
      if mask =? 0 then None
      else
        let bits := wrap I32 (Z.shiftl 1 (32 - mask)) in
        Some ((fun i => inet_ntoa (wrap U32 (addr + i))) <$> seqZ 0 (wrap U32 bits))
  | None => Some [ip]
  end.

(** ** Round trips *)

Lemma inet_ntoa_parts n : 0 <= n <= max_val U32 ->
  inet_ntoa n = BasefuncStd.join x2e [to_string (n / 256 ^ 3); to_string (n / 256 ^ 2 mod 256); to_string (n / 256 mod 256); to_string (n mod 256)].
Proof.
  change (max_val U32) with 4294967295. intros Hn. unfold inet_ntoa. cbn [inet_ntoa_loop Z.eqb BasefuncStd.join].
  assert (E : forall k, 0 <= k -> Z.land (Z.shiftr n k) 255 = n / 2 ^ k mod 256).
  { intros k Hk. change 255 with (Z.ones 8). rewrite Z.land_ones, Z.shiftr_div_pow2 by lia. done. }
  rewrite !E by lia. change (2 ^ 24) with (256 ^ 3). change (2 ^ 16) with (256 ^ 2). change (2 ^ 8) with 256. change (2 ^ 0) with 1.
  rewrite Z.div_1_r, (Z.mod_small (n / 256 ^ 3)) by (change (256 ^ 3) with 16777216; dlia). cbn [app]. by rewrite app_nil_r.
Qed.

Lemma octet_to_string n : 0 <= n < 256 -> octet (to_string n) = n.
Proof.
  intros Hn. unfold octet. change (stoi U32 (to_string n)) with (wrap U32 <$> stoi I32 (to_string n)).
  rewrite stoi_to_string by (done || range_lia). cbn [fmap option_fmap option_map default]. apply wrap_id. range_lia.
Qed.

Lemma to_string_nonempty n : to_string n <> [].
Proof.
  unfold to_string. destruct (Z.ltb_spec n 0); [done|]. destruct (dec_loop_head 20 n) as (c & l & -> & _); [lia..|done].
Qed.

Lemma split_inet_ntoa n : 0 <= n <= max_val U32 -> BasefuncStd.split (inet_ntoa n) x2e =
  [to_string (n / 256 ^ 3); to_string (n / 256 ^ 2 mod 256); to_string (n / 256 mod 256); to_string (n mod 256)].
Proof.
  intros Hn. rewrite inet_ntoa_parts by done. apply split_join.
  - repeat constructor; by apply to_string_not_elem.
  - cbn. intros [= E]. by apply to_string_nonempty in E.
Qed.

Lemma aton_ntoa n : in_range U32 n -> inet_aton (inet_ntoa n) 0 = Some n.
Proof.
  intros Hn. assert (Hb : 0 <= n <= max_val U32) by exact Hn. unfold inet_aton. rewrite split_inet_ntoa by done.
  change (max_val U32) with 4294967295 in *. change (256 ^ 3) with 16777216 in *. change (256 ^ 2) with 65536 in *. change (256 ^ 1) with 256 in *.
  rewrite !octet_to_string by dlia.
  assert (E : n / 16777216 * 16777216 + n / 65536 mod 256 * 65536 + n / 256 mod 256 * 256 + n mod 256 + 0 = n) by dlia.
  cbv zeta. rewrite E. by rewrite (proj2 (Z.leb_le _ _)) by lia.
Qed.

(** A number printed as an address is read back, and different numbers are printed differently. *)
Theorem inet_aton_ntoa n m : in_range U32 n -> in_range U32 m ->
  inet_aton (inet_ntoa n) 0 = Some n /\ (inet_ntoa n = inet_ntoa m -> n = m).
Proof.
  intros Hn Hm. split; [by apply aton_ntoa|]. intros E. pose proof (aton_ntoa n Hn) as E1. rewrite E, aton_ntoa in E1 by done. congruence.
Qed.

Lemma inet_ntoa_no_slash n : 0 <= n <= max_val U32 -> x2f ∉ inet_ntoa n.
Proof.
  intros Hn. rewrite inet_ntoa_parts by done. cbn [BasefuncStd.join].
  repeat (rewrite elem_of_app, elem_of_cons). intros H.
  repeat match goal with H : _ \/ _ |- _ => destruct H as [H|H] end; try done;
    revert H; by apply to_string_not_elem.
Qed.

(** An address with a mask of [m] bits, [m] not 0, stands for the [2^(32 - m)] addresses from it on. *)
Theorem ips_by_mask_exact n m : in_range U32 n -> 1 <= m <= 32 ->
  ips_by_mask (inet_ntoa n ++ lit "/" ++ to_string m) =
    Some ((fun i => inet_ntoa (wrap U32 (n + i))) <$> seqZ 0 (2 ^ (32 - m))).
Proof.
  intros Hn Hm. unfold ips_by_mask. change (lit "/") with [x2f]. cbn [app].
  rewrite str_find_char_app by (by apply inet_ntoa_no_slash). rewrite take_app_length, drop_app_cons, aton_ntoa by done.
  cbn [mbind option_bind]. rewrite stoi_to_string by (done || range_lia). cbn [default from_option id].
  rewrite (proj2 (Z.ltb_ge m 0)), (proj2 (Z.ltb_ge 32 m)) by lia. cbv zeta. rewrite (proj2 (Z.eqb_neq m 0)) by lia.
  do 2 f_equal. rewrite Z.shiftl_1_l. assert (Hp : 0 < 2 ^ (32 - m) <= 2 ^ 31).
  { split; [apply Z.pow_pos_nonneg; lia|]. apply Z.pow_le_mono_r; lia. }
  rewrite <- (wrap_id U32 (2 ^ (32 - m))) at 2 by range_lia. f_equal. apply wrap_congr. apply (wrap_mod I32).
Qed.

(** A mask of 0 bits is a shift by 32. *)
Example ips_by_mask_zero : ips_by_mask (lit "10.0.0.1/0") = None.
Proof. reflexivity. Qed.

Example ips_by_mask_30 : ips_by_mask (lit "10.0.0.254/30") = Some (lit <$> ["10.0.0.254"; "10.0.0.255"; "10.0.1.0"; "10.0.1.1"]%string).
Proof. vm_compute. reflexivity. Qed.
