(* ===== verification/MapTime.v ===== *)
(** * A map with expiry times ([libs/map_time.h])

    [map] holds the values with the time until which they are valid, [times] lists the
    keys by that time.  Inserting again or erasing a key leaves stale entries in [times];
    [clear_ttl] walks [times] from the front and removes what has expired.  Instants are
    nanoseconds of the steady clock, passed in as [now]. *)

From S2P Require Import Prelude Bitbase.
From Stdlib Require Import ZArith Lia Strings.Byte.
From stdpp Require Import base gmap numbers sorting list.
Open Scope Z_scope.

Definition nano : Z := 1000000000.

(** The instant at which a call runs, on both clocks. *)
Record clock := Clock { steady : Z; system : Z }.

(** [steady_clock_to_time_t] and [time_t_to_steady_clock]; [time_t] counts seconds. *)
Definition steady_clock_to_time_t (c : clock) (t : Z) : Z := Z.quot (system c + (t - steady c)) nano.
Definition time_t_to_steady_clock (c : clock) (t : Z) : Z := steady c + (t * nano - system c).

Record timed_val (V : Type) := TimedVal { val : V; valid_until : Z }.
Arguments TimedVal {V}.
Arguments val {V}.
Arguments valid_until {V}.

Record map_time (V : Type) := MapTime { mp : gmap bytes (timed_val V); times : list (Z * bytes) }.
Arguments MapTime {V}.
Arguments mp {V}.
Arguments times {V}.

Section ops.
Context {V : Type}.
Implicit Types (m : map_time V) (k : bytes) (v : V).

Definition empty : map_time V := MapTime ∅ [].

(** [std::multimap::insert]: after the entries with an equal time. *)
Fixpoint times_insert (t : Z) k (l : list (Z * bytes)) : list (Z * bytes) :=
  match l with
  | [] => [(t, k)]
  | (t', k') :: l' => if t <? t' then (t, k) :: l else (t', k') :: times_insert t k l'
  end.

Definition insert_until k (tv : timed_val V) m : map_time V :=
  MapTime (<[k := tv]> (mp m)) (times_insert (valid_until tv) k (times m)).

Definition insert (now : Z) k v (ttl_sec : Z) m : map_time V :=
  insert_until k (TimedVal v (now + ttl_sec * nano)) m.

Definition erase k m : map_time V := MapTime (delete k (mp m)) (times m).

Definition get (now : Z) k m : option V :=
  f ← mp m !! k; if now <=? valid_until f then Some (val f) else None.

Definition remove_if k (pred : V -> bool) m : map_time V :=
  match mp m !! k with
  | Some f => if pred (val f) then MapTime (delete k (mp m)) (times m) else m
  | None => m
  end.

Definition clear m : map_time V := MapTime ∅ [].

(** The loop of [clear_ttl]: what remains of both containers. *)
Fixpoint clear_loop (n : Z) (l : list (Z * bytes)) (mm : gmap bytes (timed_val V)) :
    gmap bytes (timed_val V) * list (Z * bytes) :=
  match l with
  | [] => (mm, [])
  | (t, k) :: l' =>
      if t <? n then
        let mm := match mm !! k with
                  | Some f => if valid_until f <? n then delete k mm else mm
                  | None => mm
                  end in
        clear_loop n l' mm
      else (mm, l)
  end.

Definition clear_ttl (n : Z) m : map_time V :=
  let '(mm, l) := clear_loop n (times m) (mp m) in MapTime mm l.

(** [get_stat]: the two counters. *)
Definition get_stat m : Z * Z := (Z.of_nat (size (mp m)), Z.of_nat (length (times m))).

(** [serialize]: [unordered_map] iterates in some order, here [items]. *)
Definition serialize (serialize_function : bytes * timed_val V -> bytes) (items : list (bytes * timed_val V)) : bytes :=
  foldl (fun ret it => ret ++ serialize_function it) [] items.

(** [map.insert(item); times.insert(...)]: an existing key keeps its value. *)
Definition deserialize_insert (k : bytes) (tv : timed_val V) m : map_time V :=
  MapTime (match mp m !! k with Some _ => mp m | None => <[k := tv]> (mp m) end)
    (times_insert (valid_until tv) k (times m)).

(** The loop of [deserialize].  [None]: still running after [fuel] iterations.  The sums
    [start + block_size] are of [size_t]: a negative [block_size] wraps. *)
Fixpoint deserialize_loop (deserialize_function : bytes -> option (bytes * timed_val V))
    (data : bytes) (fuel : nat) (start : Z) m : option (map_time V) :=
  match fuel with
  | O => None
  | S fuel' =>
      if wrap U64 (start + 4) <=? zlen data then
        let block_size := chars_to_numeric I32 (zsub data start 4) in
        let start := wrap U64 (start + 4) in
        if wrap U64 (start + block_size) <=? zlen data then
          let block := zsub data start (wrap U64 block_size) in
          let m := match deserialize_function block with
                   | Some (k, tv) => deserialize_insert k tv m
                   | None => m
                   end in
          deserialize_loop deserialize_function data fuel' (wrap U64 (start + block_size)) m
        else Some m
      else Some m
  end.

Definition deserialize df (data : bytes) (fuel : nat) m : option (map_time V) :=
  if 4 <? zlen data then deserialize_loop df data fuel 0 m else Some m.
End ops.

(** ** Invariant *)

Section inv.
Context {V : Type}.
Implicit Types (m : map_time V).

Definition time_le (a b : Z * bytes) : Prop := a.1 <= b.1.

(** [times] is sorted and announces the expiry of every key of [map]. *)
Record inv m : Prop := {
  inv_sorted : StronglySorted time_le (times m);
  inv_announced k f : mp m !! k = Some f -> (valid_until f, k) ∈ times m }.

Lemma times_insert_Permutation t k l : times_insert t k l ≡ₚ (t, k) :: l.
Proof.
  induction l as [|[t' k'] l IH]; simpl; [done|]. destruct (t <? t'); [done|].
  rewrite IH. apply Permutation_swap.
Qed.

Lemma times_insert_elem t k l x : x ∈ times_insert t k l <-> x = (t, k) \/ x ∈ l.
Proof. rewrite times_insert_Permutation. set_solver. Qed.

Lemma times_insert_sorted t k l :
  StronglySorted time_le l -> StronglySorted time_le (times_insert t k l).
Proof.
  induction 1 as [|[t' k'] l Hs IH Hl]; simpl; [repeat constructor|].
  destruct (Z.ltb_spec t t').
  - constructor; [by constructor|]. constructor; [unfold time_le; simpl; lia|].
    eapply Forall_impl; [done|]. unfold time_le. intros [? ?] ?. simpl in *. lia.
  - constructor; [done|]. rewrite times_insert_Permutation. constructor; [unfold time_le; simpl; lia|done].
Qed.

Lemma inv_empty : inv empty.
Proof. split; [constructor|]. intros k f Hk. simpl in Hk. by rewrite lookup_empty in Hk. Qed.

Lemma inv_insert_until k tv m : inv m -> inv (insert_until k tv m).
Proof.
  intros [Hs Ha]. split; simpl; [by apply times_insert_sorted|].
  intros k' f. rewrite times_insert_elem. intros [[<- <-]|[_ Hf]]%lookup_insert_Some; [by left|right; by apply Ha].
Qed.

Lemma inv_insert now k v ttl m : inv m -> inv (insert now k v ttl m).
Proof. apply inv_insert_until. Qed.

Lemma inv_erase k m : inv m -> inv (erase k m).
Proof. intros [Hs Ha]. split; simpl; [done|]. intros k' f [_ Hf]%lookup_delete_Some. by apply Ha. Qed.

Lemma inv_remove_if k p m : inv m -> inv (remove_if k p m).
Proof.
  intros Hi. unfold remove_if. destruct (mp m !! k) as [f|]; [|done].
  destruct (p (val f)); [by apply (inv_erase k)|done].
Qed.

Lemma inv_deserialize_insert k tv m : inv m -> inv (deserialize_insert k tv m).
Proof.
  intros [Hs Ha]. split; simpl; [by apply times_insert_sorted|]. intros k' f. rewrite times_insert_elem.
  destruct (mp m !! k) eqn:E; [intros Hf; right; by apply Ha|].
  intros [[<- <-]|[_ Hf]]%lookup_insert_Some; [by left|right; by apply Ha].
Qed.

Lemma inv_deserialize_loop df data fuel start m m' :
  inv m -> deserialize_loop df data fuel start m = Some m' -> inv m'.
Proof.
  revert start m; induction fuel as [|fuel IH]; intros start m Hi; simpl; [done|].
  destruct (_ <=? _); [|naive_solver]. destruct (_ <=? _); [|naive_solver]. apply IH.
  destruct (df _) as [[k tv]|]; [by apply inv_deserialize_insert|done].
Qed.

(** [clear_loop] leaves [k] alone unless it has expired and is announced before [n]. *)
Definition kept (n : Z) (l : list (Z * bytes)) (k : bytes) (f : timed_val V) : Prop :=
  valid_until f < n -> forall t, (t, k) ∈ l -> n <= t.

Lemma clear_loop_spec (n : Z) (l : list (Z * bytes)) (mm : gmap bytes (timed_val V)) :
  StronglySorted time_le l ->
  let '(mm', l') := clear_loop n l mm in
  (forall k f, mm' !! k = Some f <-> mm !! k = Some f /\ kept n l k f) /\
  StronglySorted time_le l' /\ (forall t k, (t, k) ∈ l' <-> (t, k) ∈ l /\ n <= t).
Proof.
  unfold kept. intros Hs. revert mm. induction Hs as [|[t k] l Hs IH Hl]; intros mm; simpl.
  - split; [|split; [constructor|set_solver]]. intros k f. set_solver.
  - destruct (Z.ltb_spec t n) as [Hlt|Hge].
    + set (mm1 := match mm !! k with Some f => _ | None => mm end).
      assert (Hm : forall k' f, mm1 !! k' = Some f <-> mm !! k' = Some f /\ ~ (k' = k /\ valid_until f < n)).
      { intros k' f. unfold mm1. destruct (mm !! k) as [g|] eqn:E; [|naive_solver].
        destruct (Z.ltb_spec (valid_until g) n).
        - rewrite lookup_delete_Some. naive_solver.
        - split; [|naive_solver]. intros Hf. split; [done|]. intros [-> ?]. simplify_eq. lia. }
      specialize (IH mm1). destruct (clear_loop n l mm1) as [mm' l']. destruct IH as (H1 & H2 & H3).
      split; [|split; [done|]].
      * intros k' f. rewrite H1, Hm. setoid_rewrite elem_of_cons. split.
        -- intros [[Hf Hn] Hk]. split; [done|]. intros ? t' [[= -> ->]|?]; naive_solver.
        -- intros [Hf Hk]. split; [split; [done|]|]; [|naive_solver]. intros [-> Hv].
           specialize (Hk Hv t (or_introl eq_refl)). lia.
      * intros t' k'. rewrite H3. split; [set_solver|]. intros [[[= -> ->]|?]%elem_of_cons ?]; [lia|done].
    + assert (Hall : Forall (fun p => n <= p.1) ((t, k) :: l)).
      { constructor; [done|]. eapply Forall_impl; [done|]. unfold time_le. intros [? ?] ?. simpl in *. lia. }
      rewrite Forall_forall in Hall. split; [|split; [by constructor|]].
      * intros k' f. split; [|naive_solver]. intros Hf. split; [done|]. intros _ t' Hin. apply (Hall _ Hin).
      * intros t' k'. split; [|naive_solver]. intros Hin. split; [done|]. apply (Hall _ Hin).
Qed.

(** Under the invariant [clear_ttl] keeps exactly the keys that have not expired. *)
Lemma clear_ttl_lookup n m k f :
  inv m -> mp (clear_ttl n m) !! k = Some f <-> mp m !! k = Some f /\ n <= valid_until f.
Proof.
  intros [Hs Ha]. unfold clear_ttl. pose proof (clear_loop_spec n (times m) (mp m) Hs) as H.
  destruct (clear_loop n (times m) (mp m)) as [mm l]. destruct H as (H1 & _). simpl. rewrite H1.
  unfold kept. split; [|intros [? ?]; split; [done|lia]]. intros [Hf Hk]. split; [done|].
  destruct (decide (n <= valid_until f)); [done|]. apply Hk; [lia|]. by apply Ha.
Qed.

Lemma inv_clear_ttl n m : inv m -> inv (clear_ttl n m).
Proof.
  intros Hi. pose proof Hi as [Hs Ha]. pose proof (fun k f => clear_ttl_lookup n m k f Hi) as Hl. revert Hl.
  unfold clear_ttl. pose proof (clear_loop_spec n (times m) (mp m) Hs) as H.
  destruct (clear_loop n (times m) (mp m)) as [mm l]. destruct H as (_ & H2 & H3). simpl. intros Hl.
  split; simpl; [done|]. intros k f Hf. apply Hl in Hf as [??]. apply H3. split; [by apply Ha|lia].
Qed.
End inv.

(** ** Reachable maps *)

Section reach.
Context {V : Type}.

(** The operations of the class that change the map, at any instants. *)
Inductive step : map_time V -> map_time V -> Prop :=
  | step_insert now k v ttl m : step m (insert now k v ttl m)
  | step_erase k m : step m (erase k m)
  | step_remove_if k p m : step m (remove_if k p m)
  | step_clear m : step m (clear m)
  | step_clear_ttl now m : step m (clear_ttl now m)
  | step_deserialize df data fuel m m' : deserialize df data fuel m = Some m' -> step m m'.

Lemma step_inv m m' : step m m' -> inv m -> inv m'.
Proof.
  destruct 1 as [| | | | |df data fuel m m' Hd]; intros Hi.
  - by apply inv_insert.
  - by apply inv_erase.
  - by apply inv_remove_if.
  - apply inv_empty.
  - by apply inv_clear_ttl.
  - unfold deserialize in Hd. destruct (4 <? _); [eapply inv_deserialize_loop; eauto|naive_solver].
Qed.

Lemma reachable_inv m : rtc step empty m -> inv m.
Proof.
  intros H. assert (forall m0, inv m0 -> rtc step m0 m -> inv m) as Hr; [|eapply Hr; [apply inv_empty|done]].
  clear H. intros m0 H0 H. induction H as [|m0 m1 m Hs H IH]; [done|]. apply IH. by eapply step_inv.
Qed.

(** In every map that the operations can build, [clear_ttl] removes exactly the keys
    that have expired: a key keeps its value iff its time has not passed, and every later
    [get] answers as if nothing had been removed, although erased and re-inserted keys
    leave stale entries in [times]. *)
Theorem map_time_clear_ttl_exact (m : map_time V) (n : Z) (k : bytes) :
  rtc step empty m ->
  (forall f, mp (clear_ttl n m) !! k = Some f <-> mp m !! k = Some f /\ n <= valid_until f) /\
  (forall now, n <= now -> get now k (clear_ttl n m) = get now k m) /\
  Forall (fun p => n <= p.1) (times (clear_ttl n m)).
Proof.
  intros H%reachable_inv. split; [by intros; apply clear_ttl_lookup|]. split.
  - intros now Hn. unfold get. pose proof (fun f => clear_ttl_lookup n m k f H) as Hk.
    destruct (mp m !! k) as [f|] eqn:E; simpl.
    + destruct (Z.leb_spec now (valid_until f)).
      * rewrite (proj2 (Hk f)) by (split; [done|lia]). simpl. by rewrite (proj2 (Z.leb_le _ _)).
      * destruct (mp (clear_ttl n m) !! k) as [g|]; [|done]. destruct (proj1 (Hk g) eq_refl) as [[= <-] _].
        simpl. by rewrite (proj2 (Z.leb_gt _ _)).
    + destruct (mp (clear_ttl n m) !! k) as [g|]; [|done]. by destruct (proj1 (Hk g) eq_refl).
  - unfold clear_ttl. pose proof (clear_loop_spec n (times m) (mp m) (inv_sorted _ H)) as Hc.
    destruct (clear_loop n (times m) (mp m)) as [mm l]. destruct Hc as (_ & _ & Hc). simpl.
    apply Forall_forall. intros [t k'] Hin. by apply Hc in Hin as [_ ?].
Qed.

(** ** [deserialize] of a sequence of framed blocks *)

Context (df : bytes -> option (bytes * timed_val V)).

Definition frame (block : bytes) : bytes := numeric_to_chars I32 (zlen block) ++ block.

Definition load_block (m : map_time V) (block : bytes) : map_time V :=
  match df block with Some (k, tv) => deserialize_insert k tv m | None => m end.

Lemma deserialize_loop_blocks blocks pre fuel m :
  Forall (fun b => zlen b <= max_val I32) blocks -> zlen (pre ++ mjoin (frame <$> blocks)) < 2 ^ 63 ->
  (length blocks < fuel)%nat ->
  deserialize_loop df (pre ++ mjoin (frame <$> blocks)) fuel (zlen pre) m =
    Some (foldl load_block m blocks).
Proof.
  revert pre fuel m; induction blocks as [|b blocks IH]; intros pre fuel m Hb Hl Hf;
    (destruct fuel as [|fuel]; [simpl in Hf; lia|]); cbn [deserialize_loop].
  - simpl in Hl |- *. rewrite app_nil_r in Hl |- *. rewrite wrap_id by range_lia.
    destruct (Z.leb_spec (zlen pre + 4) (zlen pre)); [lia|done].
  - apply Forall_cons in Hb as [Hb1 Hb]. change (max_val I32) with 2147483647 in Hb1.
    rewrite (join_fmap_cons frame b) in Hl |- *. set (rest := mjoin (frame <$> blocks)) in *.
    change (frame b) with (numeric_to_chars I32 (zlen b) ++ b) in Hl |- *. rewrite <- !app_assoc.
    rewrite !length_app, length_numeric_to_chars in Hl. change (sizeof I32) with 4%nat in Hl.
    assert (Hn : zsub (pre ++ numeric_to_chars I32 (zlen b) ++ b ++ rest) (zlen pre) 4 = numeric_to_chars I32 (zlen b)) by zfield.
    rewrite Hn, chars_to_numeric_to_chars by range_lia.
    rewrite (wrap_id U64 (zlen pre + 4)) by range_lia.
    rewrite (wrap_id U64 (zlen b)) by range_lia. rewrite (wrap_id U64 (zlen pre + 4 + zlen b)) by range_lia.
    rewrite !length_app, length_numeric_to_chars. change (sizeof I32) with 4%nat.
    rewrite (proj2 (Z.leb_le _ _)) by lia. rewrite (proj2 (Z.leb_le _ _)) by lia.
    assert (Hbl : zsub (pre ++ numeric_to_chars I32 (zlen b) ++ b ++ rest) (zlen pre + 4) (zlen b) = b) by zfield.
    rewrite Hbl. specialize (IH (pre ++ frame b) fuel (load_block m b) Hb).
    replace (zlen (pre ++ frame b)) with (zlen pre + 4 + zlen b) in IH by (unfold frame; len).
    change (frame b) with (numeric_to_chars I32 (zlen b) ++ b) in IH.
    rewrite <- !app_assoc in IH. apply IH; [|simpl in Hf; lia]. len.
Qed.

Lemma deserialize_blocks blocks fuel m :
  Forall (fun b => 0 < zlen b <= max_val I32) blocks -> zlen (mjoin (frame <$> blocks)) < 2 ^ 63 ->
  (length blocks < fuel)%nat ->
  deserialize df (mjoin (frame <$> blocks)) fuel m = Some (foldl load_block m blocks).
Proof.
  intros Hb Hl Hf. unfold deserialize. destruct (Z.ltb_spec 4 (zlen (mjoin (frame <$> blocks)))) as [_|H4].
  - apply (deserialize_loop_blocks blocks [] fuel m); [|done|done].
    eapply Forall_impl; [done|]. simpl. lia.
  - destruct blocks as [|b blocks]; [done|]. apply Forall_cons in Hb as [Hb _]. exfalso.
    rewrite (join_fmap_cons frame b) in H4. change (frame b) with (numeric_to_chars I32 (zlen b) ++ b) in H4.
    rewrite !length_app, length_numeric_to_chars in H4. simpl in H4. lia.
Qed.
End reach.

(** Three insertions of which the second replaces the first, an erased key, and a clean-up. *)
Definition example_map : map_time Z :=
  erase [x03] (insert 2 [x03] 9 1 (insert 1 [x01] 8 5 (insert 1 [x02] 3 1 (insert 0 [x01] 7 1 empty)))).

Lemma map_time_clear_ttl_exact_witness :
  rtc step empty example_map /\
  (forall f, mp (clear_ttl (2 * nano) example_map) !! [x01] = Some f <->
     mp example_map !! [x01] = Some f /\ 2 * nano <= valid_until f) /\
  (forall now, 2 * nano <= now -> get now [x01] (clear_ttl (2 * nano) example_map) = get now [x01] example_map) /\
  Forall (fun p => 2 * nano <= p.1) (times (clear_ttl (2 * nano) example_map)).
Proof.
  assert (H : rtc step empty example_map).
  { unfold example_map. eapply rtc_r; [|apply step_erase].
    do 4 (eapply rtc_r; [|apply step_insert]). apply rtc_refl. }
  split; [exact H|]. exact (map_time_clear_ttl_exact example_map (2 * nano) [x01] H).
Defined.

(** A block size of -4 sends [deserialize] back to the header it has just read: on these
    bytes the loop runs forever whatever the callback does, so the model has a result for no
    amount of fuel. *)
Theorem map_time_deserialize_hangs {V} (df : bytes -> option (bytes * timed_val V)) (m : map_time V) fuel :
  deserialize df [xff; xff; xff; xfc; x00] fuel m = None.
Proof.
  unfold deserialize. change (4 <? zlen [xff; xff; xff; xfc; x00]) with true. cbv iota.
  revert m; induction fuel as [|fuel IH]; intros m; [done|]. cbn [deserialize_loop].
  change (wrap U64 (0 + 4) <=? zlen [xff; xff; xff; xfc; x00]) with true. cbv iota.
  replace (chars_to_numeric I32 (zsub [xff; xff; xff; xfc; x00] 0 4)) with (-4) by (by vm_compute).
  change (wrap U64 (wrap U64 (0 + 4) + -4)) with 0.
  change (0 <=? zlen [xff; xff; xff; xfc; x00]) with true. cbv iota. apply IH.
Qed.
