(* ===== verification/Caches.v ===== *)
(** * Caches ([libs/time_cache.h], [libs/cache/sized_vector.h])

    [time_cache] keeps values for a number of seconds; the client library collects the events of
    several servers in one.  [sized_vector] keeps the last values of a sequence.  Instants are
    nanoseconds of the steady clock. *)

From S2P Require Import Prelude MapTime.
From Stdlib Require Import ZArith Lia.
From stdpp Require Import base gmap numbers list sorting.
Open Scope Z_scope.

(** ** [time_cache] *)

Section time_cache.
(** [T_def] is the value that [T] is constructed with. *)
Context {K : Type} `{Countable K} {T : Type} (T_def : T).

Record time_cache_item := CacheItem { value_ : T; last_set_cache : Z; sec_to_caching : Z }.

Abbreviation cache := (gmap K time_cache_item).

(** [duration_cast<seconds>(t - last_set_cache)], which rounds towards zero. *)
Definition cached_sec (t : Z) (it : time_cache_item) : Z := Z.quot (t - last_set_cache it) nano.

Definition is_cached (t : Z) (it : time_cache_item) : bool := cached_sec t it <? sec_to_caching it.

(** [get(id)]. *)
Definition tc_has (t : Z) (id : K) (map : cache) : bool * cache :=
  match map !! id with
  | Some it => if is_cached t it then (true, map) else (false, delete id map)
  | None => (false, map)
  end.

Definition get_set (t : Z) (id : K) (sec_to_cache : Z) (map : cache) : bool * cache :=
  let '(found, map) := tc_has t id map in
  if found then (true, map) else (false, <[id := CacheItem T_def t sec_to_cache]> map).

(** [set(id, sec_to_cache)], which keeps the value. *)
Definition tc_touch (t : Z) (id : K) (sec_to_cache : Z) (map : cache) : cache :=
  match map !! id with
  | None => <[id := CacheItem T_def t sec_to_cache]> map
  | Some it => <[id := CacheItem (value_ it) t sec_to_cache]> map
  end.

(** [get(id, cl)]: [cl] is the variable of the caller. *)
Definition tc_get (t : Z) (id : K) (cl : T) (map : cache) : bool * T * cache :=
  match map !! id with
  | Some it => if is_cached t it then (true, value_ it, map) else (false, cl, delete id map)
  | None => (false, cl, map)
  end.

Definition update_or_add (t : Z) (id : K) (upd : T -> T) (sec_to_cache : Z) (map : cache) : cache :=
  match map !! id with
  | Some it => <[id := CacheItem (upd (value_ it)) t (sec_to_caching it)]> map
  | None => <[id := CacheItem (upd T_def) t sec_to_cache]> map
  end.

(** [get_old_events_and_clear]; the order of the result is that of the [unordered_map], here of
    [map_to_list]. *)
Definition get_old_events_and_clear (p : time_cache_item -> bool) (map : cache) : list (K * T) * cache :=
  ((fun x => (x.1, value_ x.2)) <$> filter (fun x => p x.2 = true) (map_to_list map), filter (fun x => p x.2 = false) map).

(** [set(id, cl, sec_to_cache)]. *)
Definition tc_set (t : Z) (id : K) (cl : T) (sec_to_cache : Z) (map : cache) : cache :=
  <[id := CacheItem cl t sec_to_cache]> map.

Definition tc_remove (id : K) (map : cache) : cache := delete id map.

Definition clear_cache (t : Z) (map : cache) : cache :=
  filter (fun x => negb (sec_to_caching x.2 <? cached_sec t x.2) = true) map.

(** *** Facts *)

Lemma cached_sec_mono t t' it : last_set_cache it <= t <= t' -> cached_sec t it <= cached_sec t' it.
Proof. intros Ht. unfold cached_sec, nano. apply Z.quot_le_mono; lia. Qed.

(** What was set is found for [sec] seconds, and not longer. *)
Theorem tc_get_set t t' id v cl sec map : t <= t' ->
  (tc_get t' id cl (tc_set t id v sec map)).1 = if decide (t' < t + sec * nano) then (true, v) else (false, cl).
Proof.
  intros Ht. unfold tc_get, tc_set, is_cached, cached_sec. rewrite lookup_insert_eq. cbn [last_set_cache sec_to_caching value_].
  assert (E : (Z.quot (t' - t) nano <? sec) = bool_decide (t' < t + sec * nano)).
  { unfold nano. rewrite Z.quot_div_nonneg by lia. apply Bool.eq_iff_eq_true. rewrite Z.ltb_lt, bool_decide_eq_true. dlia. }
  rewrite E. by destruct (decide (t' < t + sec * nano)), (bool_decide_reflect (t' < t + sec * nano)).
Qed.

(** Items that were set in the future do not occur. *)
Definition settled (t : Z) (map : cache) : Prop := map_Forall (fun _ it => last_set_cache it <= t) map.

Lemma clear_cache_lookup t map id : clear_cache t map !! id =
  (it ← map !! id; if sec_to_caching it <? cached_sec t it then None else Some it).
Proof.
  unfold clear_cache. rewrite map_lookup_filter. destruct (map !! id) as [it|]; [|done]. cbn [mbind option_bind snd].
  by destruct (sec_to_caching it <? cached_sec t it).
Qed.

(** [clear_cache] changes no later answer. *)
Theorem clear_cache_transparent t t' id cl map : settled t map -> t <= t' ->
  (tc_get t' id cl (clear_cache t map)).1 = (tc_get t' id cl map).1 /\
  (tc_has t' id (clear_cache t map)).1 = (tc_has t' id map).1.
Proof.
  intros Hs Ht. unfold tc_get, tc_has. rewrite clear_cache_lookup. destruct (map !! id) as [it|] eqn:E; [|done]. cbn [mbind option_bind].
  destruct (Z.ltb_spec (sec_to_caching it) (cached_sec t it)).
  - specialize (Hs id it E). cbn in Hs. pose proof (cached_sec_mono t t' it (conj Hs Ht)). unfold is_cached.
    rewrite (proj2 (Z.ltb_ge _ _)) by lia. done.
  - by destruct (is_cached t' it).
Qed.

(** *** [get_set] as a limit of a rate *)

(** The instants at which the calls of [get_set] for [id] answered [false]. *)
Fixpoint admitted (sec : Z) (calls : list (K * Z)) (id : K) (map : cache) : list Z :=
  match calls with
  | [] => []
  | (k, t) :: calls' =>
      let '(found, map') := get_set t k sec map in
      (if negb found && bool_decide (k = id) then [t] else []) ++ admitted sec calls' id map'
  end.

Lemma is_cached_spec t it : last_set_cache it <= t -> is_cached t it = bool_decide (t < last_set_cache it + sec_to_caching it * nano).
Proof.
  intros Hl. unfold is_cached, cached_sec, nano. rewrite Z.quot_div_nonneg by lia. apply Bool.eq_iff_eq_true.
  rewrite Z.ltb_lt, bool_decide_eq_true. dlia.
Qed.

Lemma get_set_cases t k sec map : settled t map ->
  match get_set t k sec map with
  | (true, map') => map' = map
  | (false, map') => map' = <[k := CacheItem T_def t sec]> map /\
      forall it, map !! k = Some it -> last_set_cache it + sec_to_caching it * nano <= t
  end.
Proof.
  intros Hs. unfold get_set, tc_has. destruct (map !! k) as [it|] eqn:E; [|done]. specialize (Hs k it E). cbn in Hs.
  rewrite is_cached_spec by done. destruct (bool_decide_reflect (t < last_set_cache it + sec_to_caching it * nano)); [done|].
  rewrite insert_delete_eq. split; [done|]. intros it' [= <-]. lia.
Qed.

(** All items were set at [t] or before, for [sec] seconds. *)
Definition all_for (sec t : Z) (map : cache) : Prop := map_Forall (fun _ it => last_set_cache it <= t /\ sec_to_caching it = sec) map.

Lemma all_for_insert sec t t' k map : t <= t' -> all_for sec t map -> all_for sec t' (<[k := CacheItem T_def t' sec]> map).
Proof.
  intros Ht Ha. apply map_Forall_insert_2; [done|]. intros i x Hx. destruct (Ha i x Hx). split; [lia|done].
Qed.

Lemma admitted_spaced sec calls id : 0 <= sec -> forall t0 map, StronglySorted Z.le (t0 :: calls.*2) -> all_for sec t0 map ->
  Forall (fun t => forall it, map !! id = Some it -> last_set_cache it + sec * nano <= t) (admitted sec calls id map) /\
  StronglySorted (fun a b => a + sec * nano <= b) (admitted sec calls id map).
Proof.
  intros Hsec. induction calls as [|[k t] calls IH]; intros t0 map Hsort Hall; [by repeat constructor|].
  cbn [admitted]. rewrite fmap_cons in Hsort. cbn [snd] in Hsort. apply StronglySorted_inv in Hsort as [Hsort Hle].
  apply Forall_cons in Hle as [Ht _].
  assert (Hset : settled t map) by (intros i x Hx; destruct (Hall i x Hx); lia).
  pose proof (get_set_cases t k sec map Hset) as Hc. destruct (get_set t k sec map) as [[] map'].
  - subst map'. cbn [negb andb app]. apply (IH t); [done|]. intros i x Hx. destruct (Hall i x Hx). split; [lia|done].
  - destruct Hc as [-> Hk]. destruct (IH t _ Hsort (all_for_insert sec t0 t k map Ht Hall)) as [I1 I2]. cbn [negb andb].
    destruct (bool_decide_reflect (k = id)) as [->|Hne]; cbn [app].
    + rewrite lookup_insert_eq in I1.
      assert (I1' : Forall (fun t' => t + sec * nano <= t') (admitted sec calls id (<[id := CacheItem T_def t sec]> map))).
      { eapply Forall_impl; [exact I1|]. intros t' Ht'. exact (Ht' _ eq_refl). }
      assert (Hid : forall it, map !! id = Some it -> last_set_cache it + sec * nano <= t).
      { intros it Hit. destruct (Hall id it Hit) as [_ <-]. by apply Hk. }
      split; [|by constructor]. constructor; [done|]. eapply Forall_impl; [exact I1'|]. intros t' Ht' it Hit.
      specialize (Hid it Hit). unfold nano in *. lia.
    + split; [|done]. eapply Forall_impl; [exact I1|]. intros t' Ht' it Hit. apply Ht'. by rewrite lookup_insert_ne.
Qed.

(** Calls of [get_set] with a time of [sec] seconds: for each key, those that answer [false] are at
    least [sec] seconds apart, whatever the calls for other keys. *)
Theorem get_set_limits_rate sec calls id : 0 <= sec -> StronglySorted Z.le (calls.*2) ->
  StronglySorted (fun a b => a + sec * nano <= b) (admitted sec calls id ∅).
Proof.
  intros Hs Hc. destruct calls as [|[k t] calls]; [constructor|].
  apply (admitted_spaced sec ((k, t) :: calls) id Hs t ∅); [|apply map_Forall_empty]. constructor; [done|].
  rewrite fmap_cons in *. apply StronglySorted_inv in Hc as [_ Hc]. by constructor.
Qed.
End time_cache.

Arguments time_cache_item : clear implicits.

(** ** [sized_vector] *)

Section sized_vector.
Context {A : Type} (key : A).

Record sized_vector := SizedVector { _vec : list A; _cursor : nat }.

Definition sized_vector_new (sz : nat) : sized_vector := SizedVector (replicate sz key) 0.

(** [_vec[_cursor]] of an empty vector is outside of it ([None]). *)
Definition sv_push_back (v : A) (s : sized_vector) : option sized_vector :=
  if (_cursor s <? length (_vec s))%nat then
    let vec := <[_cursor s := v]> (_vec s) in
    let cursor := S (_cursor s) in
    Some (SizedVector vec (if (length vec <=? cursor)%nat then 0 else cursor)%nat)
  else None.

Definition sv_get (pred : A -> bool) (s : sized_vector) : list A := filter (fun x => pred x = true) (_vec s).

Fixpoint sv_push_all (l : list A) (s : sized_vector) : option sized_vector :=
  match l with [] => Some s | v :: l' => s ← sv_push_back v s; sv_push_all l' s end.

(** The vector holds the values of a window, the oldest one at the cursor. *)
Definition holds (w : list A) (s : sized_vector) : Prop :=
  (_cursor s < length w)%nat /\ length (_vec s) = length w /\
  forall j : nat, (j < length w)%nat -> _vec s !! ((_cursor s + j) mod length w)%nat = w !! j.

Lemma push_holds v x w s : holds (x :: w) s -> exists s', sv_push_back v s = Some s' /\ holds (w ++ [v]) s'.
Proof.
  intros (Hc & Hl & Hv). set (n := length (x :: w)) in *. assert (Hlen : length (w ++ [v]) = n) by (rewrite length_app; simpl; unfold n; simpl; lia).
  unfold sv_push_back. rewrite (proj2 (Nat.ltb_lt _ _)) by lia. eexists. split; [done|]. rewrite length_insert, Hl.
  assert (Hcur : (if (n <=? S (_cursor s))%nat then 0 else S (_cursor s))%nat = (S (_cursor s) mod n)%nat).
  { destruct (Nat.leb_spec n (S (_cursor s))); [|by rewrite Nat.mod_small].
    replace (S (_cursor s)) with n by lia. by rewrite Nat.Div0.mod_same. }
  rewrite Hcur. unfold holds. rewrite Hlen. cbn [_cursor _vec]. split; [apply Nat.mod_upper_bound; lia|].
  split; [by rewrite length_insert|]. intros j Hj. rewrite Nat.Div0.add_mod_idemp_l.
  destruct (decide (S j = n)) as [Hlast|Hlast].
  - replace (S (_cursor s) + j)%nat with (_cursor s + 1 * n)%nat by lia. rewrite Nat.Div0.mod_add, Nat.mod_small by lia.
    rewrite list_lookup_insert_eq by lia. rewrite lookup_app_r by (unfold n in *; simpl in *; lia).
    replace (j - length w)%nat with 0%nat by (unfold n in *; simpl in *; lia). done.
  - assert (Hne : ((S (_cursor s) + j) mod n)%nat <> _cursor s).
    { destruct (decide (S (_cursor s) + j < n)%nat); [rewrite Nat.mod_small by lia; lia|].
      replace (S (_cursor s) + j)%nat with (S (_cursor s) + j - n + 1 * n)%nat by lia. rewrite Nat.Div0.mod_add, Nat.mod_small by lia. lia. }
    rewrite list_lookup_insert_ne by done. replace (S (_cursor s) + j)%nat with (_cursor s + S j)%nat by lia.
    rewrite Hv by lia. rewrite lookup_app_l by (unfold n in *; simpl in *; lia). done.
Qed.

Lemma push_all_holds l : forall w s, w <> [] -> holds w s -> exists s', sv_push_all l s = Some s' /\ holds (drop (length l) (w ++ l)) s'.
Proof.
  induction l as [|v l IH]; intros w s Hw Hs; [exists s; by rewrite app_nil_r|]. destruct w as [|x w]; [done|].
  destruct (push_holds v x w s Hs) as (s1 & E1 & H1). cbn [sv_push_all]. rewrite E1. cbn [mbind option_bind length drop app].
  destruct (IH (w ++ [v]) s1) as (s2 & E2 & H2); [by destruct w|done|]. exists s2. split; [done|]. by rewrite <- app_assoc in H2.
Qed.

(** A vector of [sz] values after any values were pushed: from the cursor on it holds the last [sz]
    of them in their order (the initial ones count as pushed first). *)
Theorem sized_vector_keeps_last sz l : (0 < sz)%nat ->
  exists s, sv_push_all l (sized_vector_new sz) = Some s /\
    forall j : nat, (j < sz)%nat -> _vec s !! ((_cursor s + j) mod sz)%nat = drop (length l) (replicate sz key ++ l) !! j.
Proof.
  intros Hsz. assert (H0 : holds (replicate sz key) (sized_vector_new sz)).
  { split; cbn [_cursor _vec sized_vector_new]; rewrite length_replicate; [done|]. split; [done|].
    intros j Hj. by rewrite Nat.mod_small. }
  destruct (push_all_holds l (replicate sz key) _ ltac:(destruct sz; [lia|done]) H0) as (s & E & _ & _ & Hs).
  exists s. split; [done|]. rewrite length_drop, length_app, length_replicate, Nat.add_sub in Hs. done.
Qed.
End sized_vector.

(** *** Concrete runs *)

Example get_set_run :
  admitted tt 2 [(1, 0); (1, nano); (2, nano); (1, 2 * nano); (1, 3 * nano)] 1 ∅ = [0; 2 * nano].
Proof. reflexivity. Qed.

Example sized_vector_run : _vec <$> sv_push_all [1; 2; 3; 4] (sized_vector_new 0 3) = Some [4; 2; 3].
Proof. reflexivity. Qed.
