(* ===== verification/CManager.v ===== *)
(** * The in-memory key-value store ([rssdisk/rssdisk/extentions/c_manager.cpp])

    [CDatabaseManager] keeps items with a time to live in a [map_time].  A write request is a
    concatenation of records, each a 28-byte header (timestamp, checksum, ttl, key size and
    content size) followed by the key and the content; an empty content erases the key.  The
    store is saved and reloaded with [serialize] and [deserialize] of [map_time]. *)

From S2P Require Import Prelude Bitbase MapTime.
From Stdlib Require Import ZArith Lia Strings.Byte.
From stdpp Require Import base gmap numbers sorting list.
Open Scope Z_scope.

Record Item := MkItem { content : bytes; checksum : Z; timestamp : Z }.

Definition store := map_time Item.

(** ** Saving and loading one item *)

(** [dataStore.serialize_function]; the sizes are cast to 32 bits. *)
Definition serialize_body (c : clock) (p : bytes * timed_val Item) : bytes :=
  let '(k, second) := p in
  numeric_to_chars I32 (wrap I32 (zlen k)) ++ k ++
  numeric_to_chars I64 (steady_clock_to_time_t c (valid_until second)) ++
  numeric_to_chars I64 (timestamp (val second)) ++
  numeric_to_chars I64 (checksum (val second)) ++
  numeric_to_chars I32 (wrap I32 (zlen (content (val second)))) ++
  content (val second).

Definition serialize_function (c : clock) (p : bytes * timed_val Item) : bytes :=
  let ret := serialize_body c p in numeric_to_chars I32 (wrap I32 (zlen ret)) ++ ret.

(** [dataStore.deserialize_function]: [None] for [return false].  [start] and the sums with it
    are of type [size_t]. *)
Definition deserialize_function (c : clock) (d : bytes) : option (bytes * timed_val Item) :=
  if 4 <? zlen d then
    let key_size := chars_to_numeric I32 (zsub d 0 4) in
    let start := 4 in
    if wrap U64 (start + key_size) <=? zlen d then
      let key := zsub d 4 (wrap U64 key_size) in
      let start := wrap U64 (start + key_size) in
      if wrap U64 (start + 28) <? zlen d then
        let valid_to := chars_to_numeric I64 (zsub d start 8) in
        let ts := chars_to_numeric I64 (zsub d (start + 8) 8) in
        let ck := chars_to_numeric I64 (zsub d (start + 16) 8) in
        let data_size := chars_to_numeric I32 (zsub d (start + 24) 4) in
        let start := start + 28 in
        if wrap U64 (start + data_size) <=? zlen d then
          let until := time_t_to_steady_clock c valid_to in
          if steady c <? until then
            Some (key, TimedVal (MkItem (zsub d start (wrap U64 data_size)) ck ts) until)
          else None
        else None
      else None
    else None
  else None.

Arguments serialize_body : simpl never.
Arguments serialize_function : simpl never.

(** ** Operations *)

(** The loop of [insert].  [pos] is an [int32_t]; compared with [d.size()] it is converted to
    [size_t].  [None]: still running after [fuel] iterations. *)
Fixpoint insert_loop (now : Z) (d : bytes) (fuel : nat) (pos : Z) (ok : bool) (m : store) :
    option (bool * store) :=
  match fuel with
  | O => None
  | S fuel' =>
      if wrap U64 (wrap I32 (pos + 28)) <? zlen d then
        let ts := chars_to_numeric I64 (zsub d pos 8) in
        let ck := chars_to_numeric I64 (zsub d (pos + 8) 8) in
        let ttl := chars_to_numeric I32 (zsub d (pos + 16) 4) in
        let header_bytes := chars_to_numeric I32 (zsub d (pos + 20) 4) in
        let content_bytes := chars_to_numeric I32 (zsub d (pos + 24) 4) in
        let pos := wrap I32 (pos + 28) in
        if wrap U64 (wrap I32 (pos + header_bytes)) <=? zlen d then
          let key := zsub d pos (wrap U64 header_bytes) in
          let pos := wrap I32 (pos + header_bytes) in
          if wrap U64 (wrap I32 (pos + content_bytes)) <=? zlen d then
            let cont := zsub d pos (wrap U64 content_bytes) in
            let pos := wrap I32 (pos + content_bytes) in
            match key with
            | [] => insert_loop now d fuel' pos ok m
            | _ :: _ =>
                match cont with
                | [] => insert_loop now d fuel' pos true (MapTime.erase key m)
                | _ :: _ => insert_loop now d fuel' pos true (MapTime.insert now key (MkItem cont ck ts) ttl m)
                end
            end
          else insert_loop now d fuel' pos ok m
        else insert_loop now d fuel' pos ok m
      else Some (ok, m)
  end.

Definition insert (now : Z) (d : bytes) (fuel : nat) (m : store) : option (bool * store) :=
  insert_loop now d fuel 0 false m.

Definition retrieve (now : Z) (k : bytes) (m : store) : option bytes :=
  it ← MapTime.get now k m;
  Some (numeric_to_chars I64 (timestamp it) ++ numeric_to_chars I64 (checksum it) ++ content it).

Definition clearAll (now : Z) (m : store) : store := clear_ttl now m.

Definition removeIf (key : bytes) (pred : Z -> Z -> bool) (m : store) : store :=
  remove_if key (fun it => pred (timestamp it) (checksum it)) m.

Definition generateKey (key : bytes) : bytes := numeric_to_chars I32 (wrap I32 (zlen key)) ++ key.

(** [items] lists the map in the order in which [unordered_map] iterates. *)
Definition serializeData (c : clock) (items : list (bytes * timed_val Item)) : bytes :=
  MapTime.serialize (serialize_function c) items.

Definition deserializeData (c : clock) (d : bytes) (fuel : nat) (m : store) : option store :=
  MapTime.deserialize (deserialize_function c) d fuel m.

(** ** Write requests as sequences of records *)

Record write := Write { w_tms : Z; w_crc : Z; w_ttl : Z; w_key : bytes; w_content : bytes }.

Definition enc_write (w : write) : bytes :=
  numeric_to_chars I64 (w_tms w) ++ numeric_to_chars I64 (w_crc w) ++ numeric_to_chars I32 (w_ttl w) ++
  numeric_to_chars I32 (zlen (w_key w)) ++ numeric_to_chars I32 (zlen (w_content w)) ++
  w_key w ++ w_content w.

Record write_ok (w : write) : Prop := {
  ok_tms : in_range I64 (w_tms w);
  ok_crc : in_range I64 (w_crc w);
  ok_ttl : in_range I32 (w_ttl w);
  ok_key : w_key w <> [] }.

(** What one record asks for. *)
Definition do_write (now : Z) (m : store) (w : write) : store :=
  match w_content w with
  | [] => MapTime.erase (w_key w) m
  | _ :: _ => MapTime.insert now (w_key w) (MkItem (w_content w) (w_crc w) (w_tms w)) (w_ttl w) m
  end.

Lemma length_enc_write w : length (enc_write w) = (28 + length (w_key w) + length (w_content w))%nat.
Proof. unfold enc_write. len. Qed.

(** One iteration of the loop consumes one record. *)
Lemma insert_loop_record now pre w rest fuel ok m :
  write_ok w -> zlen (pre ++ enc_write w ++ rest) + 28 <= max_val I32 ->
  insert_loop now (pre ++ enc_write w ++ rest) (S fuel) (zlen pre) ok m =
    insert_loop now (pre ++ enc_write w ++ rest) fuel (zlen (pre ++ enc_write w)) true (do_write now m w).
Proof.
  intros [Htms Hcrc Httl Hkey] Hl. change (max_val I32) with 2147483647 in Hl.
  rewrite !length_app, length_enc_write in Hl.
  assert (0 < zlen (w_key w)) by (destruct (w_key w); [done|simpl; lia]).
  cbn [insert_loop]. rewrite (wrap_id I32 (zlen pre + 28)) by range_lia.
  rewrite !length_app, length_enc_write. rewrite (wrap_id U64 (zlen pre + 28)) by range_lia.
  rewrite (proj2 (Z.ltb_lt (zlen pre + 28) _)) by lia.
  set (d := pre ++ enc_write w ++ rest).
  assert (Ed : d = pre ++ numeric_to_chars I64 (w_tms w) ++ numeric_to_chars I64 (w_crc w) ++
    numeric_to_chars I32 (w_ttl w) ++ numeric_to_chars I32 (zlen (w_key w)) ++
    numeric_to_chars I32 (zlen (w_content w)) ++ w_key w ++ w_content w ++ rest)
    by (unfold d, enc_write; by rewrite <- !app_assoc).
  assert (F1 : zsub d (zlen pre) 8 = numeric_to_chars I64 (w_tms w)) by (rewrite Ed; zfield).
  assert (F2 : zsub d (zlen pre + 8) 8 = numeric_to_chars I64 (w_crc w)) by (rewrite Ed; zfield).
  assert (F3 : zsub d (zlen pre + 16) 4 = numeric_to_chars I32 (w_ttl w)) by (rewrite Ed; zfield).
  assert (F4 : zsub d (zlen pre + 20) 4 = numeric_to_chars I32 (zlen (w_key w))) by (rewrite Ed; zfield).
  assert (F5 : zsub d (zlen pre + 24) 4 = numeric_to_chars I32 (zlen (w_content w))) by (rewrite Ed; zfield).
  assert (F6 : zsub d (zlen pre + 28) (zlen (w_key w)) = w_key w) by (rewrite Ed; zfield).
  assert (F7 : zsub d (zlen pre + 28 + zlen (w_key w)) (zlen (w_content w)) = w_content w) by (rewrite Ed; zfield).
  rewrite F1, F2, F3, F4, F5, !chars_to_numeric_to_chars by (done || range_lia).
  rewrite (wrap_id I32 (zlen pre + 28 + zlen (w_key w))) by range_lia.
  rewrite (wrap_id I32 (zlen pre + 28 + zlen (w_key w) + zlen (w_content w))) by range_lia.
  rewrite !(wrap_id U64) by range_lia. rewrite F6, F7.
  rewrite !(proj2 (Z.leb_le _ _)) by lia. unfold do_write.
  replace (Z.of_nat (length pre + (28 + length (w_key w) + length (w_content w))))
    with (zlen pre + 28 + zlen (w_key w) + zlen (w_content w)) by lia.
  destruct (w_key w) as [|? ?]; [done|]. by destruct (w_content w).
Qed.

Lemma insert_loop_records now ws pre fuel ok m :
  Forall write_ok ws -> zlen (pre ++ mjoin (enc_write <$> ws)) + 28 <= max_val I32 ->
  (length ws < fuel)%nat ->
  insert_loop now (pre ++ mjoin (enc_write <$> ws)) fuel (zlen pre) ok m =
    Some (match ws with [] => ok | _ => true end, foldl (do_write now) m ws).
Proof.
  revert pre fuel ok m; induction ws as [|w ws IH]; intros pre fuel ok m Hw Hl Hf;
    (destruct fuel as [|fuel]; [simpl in Hf; lia|]).
  - change (max_val I32) with 2147483647 in Hl. simpl in Hl |- *. rewrite app_nil_r in Hl |- *.
    rewrite (wrap_id I32), (wrap_id U64) by range_lia. destruct (Z.ltb_spec (zlen pre + 28) (zlen pre)); [lia|done].
  - apply Forall_cons in Hw as [Hw1 Hw]. rewrite (join_fmap_cons enc_write) in Hl |- *.
    rewrite insert_loop_record by done. rewrite app_assoc in Hl |- *.
    rewrite IH; [by destruct ws|done|done|simpl in Hf; lia].
Qed.

(** a request made of well-formed records is applied record by record, in order: the loop
    of [insert] ends after one iteration per record, with the store that the records ask for
    and success exactly when there was a record. *)
Theorem c_insert_refines_writes now ws fuel m :
  Forall write_ok ws -> zlen (mjoin (enc_write <$> ws)) + 28 <= max_val I32 -> (length ws < fuel)%nat ->
  insert now (mjoin (enc_write <$> ws)) fuel m =
    Some (match ws with [] => false | _ => true end, foldl (do_write now) m ws).
Proof. intros Hw Hl Hf. by apply (insert_loop_records now ws [] fuel false m). Qed.

Definition example_writes : list write :=
  [Write 5 (-1) 60 [x61; x62] [x01]; Write 6 7 60 [x63] []; Write (-8) 9 0 [x61; x62] [x02; x03]].

Lemma example_writes_ok : Forall write_ok example_writes.
Proof. repeat constructor; simpl; try done; unfold in_range; vm_compute; done. Qed.

Lemma c_insert_refines_writes_witness :
  Forall write_ok example_writes /\
  insert 100 (mjoin (enc_write <$> example_writes)) 4 MapTime.empty =
    Some (true, foldl (do_write 100) MapTime.empty example_writes).
Proof.
  split; [exact example_writes_ok|].
  apply (c_insert_refines_writes 100 example_writes 4 MapTime.empty); [exact example_writes_ok|by vm_compute|simpl; lia].
Defined.

(** ** Reading back *)

Lemma do_write_other now m w k :
  w_key w <> k -> mp (do_write now m w) !! k = mp m !! k.
Proof.
  intros H. unfold do_write. destruct (w_content w); simpl; [by rewrite lookup_delete_ne|by rewrite lookup_insert_ne].
Qed.

Lemma do_writes_other now ws m k :
  Forall (fun w => w_key w <> k) ws -> mp (foldl (do_write now) m ws) !! k = mp m !! k.
Proof.
  revert m; induction ws as [|w ws IH]; intros m H; simpl; [done|].
  apply Forall_cons in H as [H1 H]. rewrite IH by done. by apply do_write_other.
Qed.

Lemma length_enc_writes ws : Forall write_ok ws -> (29 * length ws <= length (mjoin (enc_write <$> ws)))%nat.
Proof.
  induction 1 as [|w ws Hw H IH]; [simpl; lia|]. rewrite (join_fmap_cons enc_write), length_app, length_enc_write.
  pose proof (ok_key _ Hw). destruct (w_key w); [done|simpl in *; lia].
Qed.

(** What a request wrote last for a key is what [retrieve] answers until its time to live
    has passed, whatever the store held and whatever else the request wrote; an empty content
    makes the key absent.  The length of the request is enough fuel. *)
Theorem c_insert_retrieve now ws1 w ws2 m t :
  Forall write_ok (ws1 ++ w :: ws2) ->
  zlen (mjoin (enc_write <$> ws1 ++ w :: ws2)) + 28 <= max_val I32 ->
  Forall (fun w' => w_key w' <> w_key w) ws2 ->
  exists m', insert now (mjoin (enc_write <$> ws1 ++ w :: ws2))
               (length (mjoin (enc_write <$> ws1 ++ w :: ws2))) m = Some (true, m') /\
    retrieve t (w_key w) m' =
      if bool_decide (w_content w <> []) && (t <=? now + w_ttl w * nano) then
        Some (numeric_to_chars I64 (w_tms w) ++ numeric_to_chars I64 (w_crc w) ++ w_content w)
      else None.
Proof.
  intros Hw Hl Hk. exists (foldl (do_write now) m (ws1 ++ w :: ws2)). split.
  - pose proof (length_enc_writes _ Hw) as Hlen. rewrite length_app in Hlen. simpl in Hlen.
    unfold insert. pose proof (insert_loop_records now _ [] (length (mjoin (enc_write <$> ws1 ++ w :: ws2))) false m Hw Hl) as E.
    simpl app in E. simpl length in E at 1. change (zlen (@nil byte)) with 0 in E. rewrite E; [|rewrite length_app; simpl; lia].
    by destruct ws1.
  - rewrite foldl_app. cbn [foldl]. unfold retrieve, MapTime.get. rewrite do_writes_other by done.
    unfold do_write at 1. destruct (w_content w) as [|b l] eqn:E; simpl.
    + rewrite lookup_delete_eq. done.
    + rewrite lookup_insert_eq. simpl. by destruct (t <=? _).
Qed.

Lemma c_insert_retrieve_witness :
  exists m', insert 100 (mjoin (enc_write <$> example_writes)) (length (mjoin (enc_write <$> example_writes))) MapTime.empty
      = Some (true, m') /\
    retrieve 100 [x61; x62] m' = Some (numeric_to_chars I64 (-8) ++ numeric_to_chars I64 9 ++ [x02; x03]).
Proof.
  destruct (c_insert_retrieve 100 (take 2 example_writes) (Write (-8) 9 0 [x61; x62] [x02; x03]) [] MapTime.empty 100)
    as (m' & H1 & H2); [exact example_writes_ok|by vm_compute|constructor|].
  exists m'. split; [exact H1|exact H2].
Defined.

(** a record whose key size is -28 brings [insert] back to the record it has just read:
    this 29-byte request keeps the thread that handles it in the loop forever, so the model
    has a result for no amount of fuel. *)
Theorem c_insert_hangs now m fuel :
  insert now (replicate 20 x00 ++ [xff; xff; xff; xe4] ++ replicate 5 x00) fuel m = None.
Proof.
  unfold insert. generalize false. revert m; induction fuel as [|fuel IH]; intros m ok; [done|].
  cbn [insert_loop]. set (d := replicate 20 x00 ++ [xff; xff; xff; xe4] ++ replicate 5 x00) in *.
  replace (chars_to_numeric I32 (zsub d (0 + 20) 4)) with (-28) by (by vm_compute).
  replace (chars_to_numeric I32 (zsub d (0 + 24) 4)) with 0 by (by vm_compute).
  change (wrap U64 (wrap I32 (0 + 28)) <? zlen d) with true. cbv iota zeta.
  change (wrap I32 (0 + 28)) with 28. change (wrap I32 (28 + -28)) with 0. change (wrap I32 (0 + 0)) with 0.
  change (wrap U64 0 <=? zlen d) with true. cbv iota.
  replace (zsub d 28 (wrap U64 (-28))) with [x00] by (by vm_compute).
  replace (zsub d 0 (wrap U64 0)) with (@nil byte) by (by vm_compute). apply IH.
Qed.

(** ** Saving and loading *)

Record item_ok (c : clock) (p : bytes * timed_val Item) : Prop := {
  ok_until : in_range I64 (steady_clock_to_time_t c (valid_until p.2));
  ok_ts : in_range I64 (timestamp (val p.2));
  ok_ck : in_range I64 (checksum (val p.2));
  ok_content : content (val p.2) <> [];
  ok_size : 32 + zlen p.1 + zlen (content (val p.2)) <= max_val I32 }.

(** An instant of the steady clock on the system clock. *)
Definition wall (c : clock) (t : Z) : Z := system c + (t - steady c).

(** The expiry of an item that is saved at [c] and loaded at [c'], when the steady clock may have
    started anew: it survives on the system clock, with the precision of [time_t]. *)
Definition reload_until (c c' : clock) (t : Z) : Z := time_t_to_steady_clock c' (steady_clock_to_time_t c t).

Definition reload (c c' : clock) (f : timed_val Item) : option (timed_val Item) :=
  let u := reload_until c c' (valid_until f) in
  if steady c' <? u then Some (TimedVal (val f) u) else None.

Lemma reload_until_near c c' t :
  0 <= wall c t -> wall c t - nano < wall c' (reload_until c c' t) <= wall c t.
Proof.
  unfold wall. intros H. unfold reload_until, time_t_to_steady_clock, steady_clock_to_time_t, nano.
  rewrite Z.quot_div_nonneg by lia. dlia.
Qed.

Lemma length_serialize_body c k f :
  zlen (serialize_body c (k, f)) = 32 + zlen k + zlen (content (val f)).
Proof. unfold serialize_body. len. Qed.

Lemma deserialize_serialize_function c c' p :
  item_ok c p -> deserialize_function c' (serialize_body c p) = (fun f => (p.1, f)) <$> reload c c' p.2.
Proof.
  destruct p as [k f]. intros [Hu Ht Hc Hn Hs]. cbn [fst snd] in *. change (max_val I32) with 2147483647 in Hs.
  assert (0 < zlen (content (val f))) by (destruct (content (val f)); [done|simpl; lia]).
  unfold deserialize_function. rewrite length_serialize_body. rewrite (proj2 (Z.ltb_lt 4 _)) by lia.
  unfold serialize_body. set (vt := steady_clock_to_time_t c (valid_until f)) in *.
  rewrite !(wrap_id I32) by range_lia. set (d := numeric_to_chars I32 (zlen k) ++ k ++ _).
  assert (F1 : zsub d 0 4 = numeric_to_chars I32 (zlen k)) by (unfold d; zfield).
  rewrite F1, chars_to_numeric_to_chars by range_lia.
  rewrite !(wrap_id U64 (4 + zlen k)), (wrap_id U64 (4 + zlen k + 28)), (wrap_id U64 (zlen k)) by range_lia.
  assert (F2 : zsub d 4 (zlen k) = k) by (unfold d; zfield).
  assert (F3 : zsub d (4 + zlen k) 8 = numeric_to_chars I64 vt) by (unfold d; zfield).
  assert (F4 : zsub d (4 + zlen k + 8) 8 = numeric_to_chars I64 (timestamp (val f))) by (unfold d; zfield).
  assert (F5 : zsub d (4 + zlen k + 16) 8 = numeric_to_chars I64 (checksum (val f))) by (unfold d; zfield).
  assert (F6 : zsub d (4 + zlen k + 24) 4 = numeric_to_chars I32 (zlen (content (val f)))) by (unfold d; zfield).
  assert (F7 : zsub d (4 + zlen k + 28) (zlen (content (val f))) = content (val f)) by (unfold d; zfield).
  rewrite F2, F3, F4, F5, F6, !chars_to_numeric_to_chars by (done || range_lia).
  rewrite !(wrap_id U64) by range_lia. rewrite F7.
  rewrite (proj2 (Z.leb_le _ _)), (proj2 (Z.ltb_lt _ _)), (proj2 (Z.leb_le _ _)) by lia.
  unfold reload, reload_until. fold vt. destruct (val f). simpl. by destruct (steady c' <? _).
Qed.

Lemma serializeData_frames c items :
  Forall (item_ok c) items -> serializeData c items = mjoin (frame <$> (serialize_body c <$> items)).
Proof.
  intros H. unfold serializeData, MapTime.serialize.
  assert (G : forall acc, foldl (fun ret it => ret ++ serialize_function c it) acc items =
    acc ++ mjoin (frame <$> (serialize_body c <$> items))); [|apply G].
  induction H as [|[k f] items Hi H IH]; intros acc; simpl; [by rewrite app_nil_r|].
  rewrite IH, <- app_assoc. do 2 f_equal. unfold serialize_function, frame.
  rewrite wrap_id; [done|]. pose proof (ok_size _ _ Hi) as Hs. simpl in Hs. rewrite length_serialize_body.
  change (max_val I32) with 2147483647 in Hs. range_lia.
Qed.

Lemma load_items c c' items (m : store) k :
  Forall (item_ok c) items -> NoDup (items.*1) ->
  mp (foldl (load_block (deserialize_function c')) m (serialize_body c <$> items)) !! k =
    match mp m !! k with
    | Some f => Some f
    | None => list_to_map (M := gmap bytes _) items !! k ≫= reload c c'
    end.
Proof.
  intros H. revert m. induction H as [|[k' f] items Hi H IH]; intros m Hn; simpl.
  - by destruct (mp m !! k).
  - apply NoDup_cons in Hn as [Hk' Hn]. simpl in Hk'. rewrite IH by done.
    unfold load_block. rewrite (deserialize_serialize_function c c' (k', f)) by done. simpl.
    destruct (decide (k' = k)) as [->|Hne].
    + rewrite lookup_insert_eq. simpl. destruct (reload c c' f) as [g|] eqn:Er; simpl.
      * destruct (mp m !! k) as [f0|] eqn:E; simpl; rewrite ?E; [done|]. by rewrite lookup_insert_eq.
      * destruct (mp m !! k); [done|]. by rewrite (not_elem_of_list_to_map_1 items k).
    + rewrite lookup_insert_ne by done. destruct (reload c c' f) as [g|]; simpl; [|done].
      destruct (mp m !! k'); [done|]. by rewrite lookup_insert_ne.
Qed.

(** Saving the store at one instant and loading the bytes into an empty one at another gives back
    every item with its timestamp, checksum and content; the items that have expired are not
    loaded.  The loop of [deserialize] ends after one iteration per item. *)
Theorem c_deserialize_serialize c c' items fuel :
  Forall (item_ok c) items -> NoDup (items.*1) -> zlen (serializeData c items) < 2 ^ 63 ->
  (length items < fuel)%nat ->
  exists m, deserializeData c' (serializeData c items) fuel MapTime.empty = Some m /\
    (forall k, mp m !! k = list_to_map (M := gmap bytes _) items !! k ≫= reload c c').
Proof.
  intros Hi Hn Hl Hf. rewrite serializeData_frames in Hl |- * by done.
  eexists. split; [apply deserialize_blocks; [|done|by rewrite length_fmap]|].
  - apply Forall_fmap. eapply Forall_impl; [exact Hi|]. intros [k f] H. unfold compose. rewrite length_serialize_body.
    pose proof (ok_size _ _ H) as Hs. cbn [fst snd] in Hs. lia.
  - intros k. rewrite (load_items c) by done. unfold MapTime.empty. cbn [mp]. by rewrite lookup_empty.
Qed.

Definition example_clock : clock := Clock (5 * nano + 1) (1700000000 * nano + 7).
Definition example_items : list (bytes * timed_val Item) :=
  [([x61], TimedVal (MkItem [x01; x02] 77 (-5)) (8 * nano)); ([x62], TimedVal (MkItem [x03] 1 2) (5 * nano))].

(** ** The invariant of the map *)

Lemma insert_loop_inv now d fuel : forall pos ok m r, MapTime.inv m -> insert_loop now d fuel pos ok m = Some r -> MapTime.inv r.2.
Proof.
  induction fuel as [|fuel IH]; intros pos ok m r Hi; [done|]. cbn [insert_loop]. cbv zeta.
  destruct (_ <? _); [|by intros [= <-]]. destruct (_ <=? _); [|by apply IH]. destruct (_ <=? _); [|by apply IH].
  destruct (zsub d _ _) as [|b key]; [by apply IH|]. destruct (zsub d _ _); apply IH; [by apply inv_erase|by apply inv_insert].
Qed.
