(* ===== verification/DateTime.v ===== *)
(** * Dates and times ([libs/date_time.h])

    [date_time] keeps calendar fields as plain integers; every update adds to a field and
    then calls [incr_all], which carries from milliseconds up to days and from days into
    months and years.  The carry is proved against the number of days and milliseconds that
    the fields stand for.  Arithmetic is on unbounded integers: signed overflow of an [int]
    field is undefined behaviour and outside the model.  The C library's calendar functions
    ([mktime], [localtime_r]) are parameters. *)

From S2P Require Import Prelude BasefuncStd.
From Stdlib Require Import ZArith Lia Strings.Byte.
From stdpp Require Import base gmap strings numbers list.
Open Scope Z_scope.

(** ** Fields *)

Record date__ := Date { year : Z; month : Z; day : Z; day_of_year : Z; is_valid_date_ : bool }.
Record time__ := Time { hour : Z; minute : Z; second : Z; thousend_second : Z; is_valid_time_ : bool }.
Record date_time := DateTime { date_ : date__; time_ : time__ }.

Definition date_reset : date__ := Date 0 0 0 0 false.
Definition time_reset : time__ := Time 0 0 0 0 false.
Definition date_time_init : date_time := DateTime date_reset time_reset.

Inductive date_time_sel := date_only | time_only | date_and_time | none.

(** ** Comparisons, as the operators are written *)

Definition date_eq (a b : date__) : bool :=
  (year a =? year b) && (month a =? month b) && (day a =? day b).
Definition date_lt (a b : date__) : bool :=
  (year a <? year b) || ((year a =? year b) && (month a <? month b)) ||
  ((year a =? year b) && (month a =? month b) && (day a <? day b)).
Definition date_gt (a b : date__) : bool := negb (date_lt a b) && negb (date_eq a b).

Definition time_eq (a b : time__) : bool :=
  (hour a =? hour b) && (minute a =? minute b) && (second a =? second b).
Definition time_lt (a b : time__) : bool :=
  (hour a <? hour b) || ((hour a =? hour b) && (minute a <? minute b)) ||
  ((hour a =? hour b) && (minute a =? minute b) && (second a <? second b)) ||
  ((hour a =? hour b) && (minute a =? minute b) && (second a =? second b) &&
   (thousend_second a <? thousend_second b)).
Definition time_gt (a b : time__) : bool := negb (time_lt a b) && negb (time_eq a b).

Definition dt_eq (a b : date_time) : bool := date_eq (date_ a) (date_ b) && time_eq (time_ a) (time_ b).
Definition dt_lt (a b : date_time) : bool :=
  date_lt (date_ a) (date_ b) || (date_eq (date_ a) (date_ b) && time_lt (time_ a) (time_ b)).
Definition dt_gt (a b : date_time) : bool := negb (dt_lt a b) && negb (dt_eq a b).
Definition dt_le (a b : date_time) : bool := negb (dt_gt a b).
Definition dt_ge (a b : date_time) : bool := negb (dt_lt a b).

(** ** Carrying *)

Definition count_days_in_month (month_ year_ : Z) : Z :=
  if bool_decide (month_ ∈ [4; 6; 9; 11]) then 30
  else if month_ =? 2 then
    if ((Z.rem year_ 4 =? 0) && negb (Z.rem year_ 100 =? 0)) || (Z.rem year_ 400 =? 0) then 29 else 28
  else 31.

(** [incr] and [decr]: the new values of [from] and [to]. *)
Definition incr (from to max : Z) : Z * Z :=
  let add_min := Z.quot (from - Z.rem from max) max in
  if negb (add_min =? 0) then (Z.rem from max, to + add_min) else (from, to).

Definition decr (from to max : Z) : Z * Z :=
  let new_val := max + Z.rem from max in
  let new_val := if new_val =? max then 0 else new_val in
  let add_min := Z.quot (from - new_val) max in
  if negb (add_min =? 0) then (new_val, to + add_min) else (from, to).

Definition carry (from to max : Z) : Z * Z :=
  if 0 <? from then incr from to max else decr from to max.

(** The recursions of [incr_month] and [decr_month] on year, month and day; a call moves the
    day by 28 at least, so the distance of the day from its range bounds the calls. *)
Fixpoint incr_month_rec (fuel : nat) (y m d : Z) : Z * Z * Z :=
  match fuel with
  | O => (y, m, d)
  | S fuel' =>
      let max_day_in_m := count_days_in_month m y in
      if max_day_in_m <? d then
        if m <? 12 then incr_month_rec fuel' y (m + 1) (d - max_day_in_m)
        else incr_month_rec fuel' (y + 1) 1 (d - max_day_in_m)
      else (y, m, d)
  end.

Fixpoint decr_month_rec (fuel : nat) (y m d : Z) : Z * Z * Z :=
  match fuel with
  | O => (y, m, d)
  | S fuel' =>
      if d <? 1 then
        let '(y, m) := if 1 <? m then (y, m - 1) else (y - 1, 12) in
        decr_month_rec fuel' y m (d + count_days_in_month m y)
      else (y, m, d)
  end.

Definition incr_month (y m d : Z) : Z * Z * Z := incr_month_rec (Z.to_nat d) y m d.
Definition decr_month (y m d : Z) : Z * Z * Z := decr_month_rec (S (Z.to_nat (1 - d))) y m d.

(** The loop [for (i = 1; i < month; ++i)] over the full months: [k] of them from [i]. *)
Fixpoint days_loop (k : nat) (i y acc : Z) : Z :=
  match k with
  | O => acc
  | S k' => days_loop k' (i + 1) y (acc + count_days_in_month i y)
  end.

Definition incr_all (sel : date_time_sel) (dt : date_time) : date_time :=
  let '(DateTime (Date y mo d _ vd) (Time h mi s ms vt)) := dt in
  let '(ms, s) := carry ms s 1000 in
  let '(s, mi) := carry s mi 60 in
  let '(mi, h) := carry mi h 60 in
  let '(h, d) := carry h d 24 in
  let '(y, mo, d) := if 0 <? d then incr_month y mo d else decr_month y mo d in
  let vd := match sel with date_and_time | date_only => true | _ => vd end in
  let vt := match sel with date_and_time | time_only => true | _ => vt end in
  DateTime (Date y mo d (days_loop (Z.to_nat (mo - 1)) 1 y 0 + d) vd) (Time h mi s ms vt).

(** ** Updates *)

Definition add_msecs (n : Z) (dt : date_time) : date_time :=
  let '(DateTime d (Time h mi s ms v)) := dt in incr_all none (DateTime d (Time h mi s (ms + n) v)).
Definition add_secs (n : Z) (dt : date_time) : date_time :=
  let '(DateTime d (Time h mi s ms v)) := dt in incr_all none (DateTime d (Time h mi (s + n) ms v)).
Definition add_mins (n : Z) (dt : date_time) : date_time :=
  let '(DateTime d (Time h mi s ms v)) := dt in incr_all none (DateTime d (Time h (mi + n) s ms v)).
Definition add_hours (n : Z) (dt : date_time) : date_time :=
  let '(DateTime d (Time h mi s ms v)) := dt in incr_all none (DateTime d (Time (h + n) mi s ms v)).
Definition add_days (n : Z) (dt : date_time) : date_time :=
  let '(DateTime (Date y m d yd v) t) := dt in incr_all none (DateTime (Date y m (d + n) yd v) t).

(** The loops of [add_month]: 12 months at a time. *)
Fixpoint month_down (fuel : nat) (y m : Z) : Z * Z :=
  match fuel with
  | O => (y, m)
  | S fuel' => if 12 <? m then month_down fuel' (y + 1) (m - 12) else (y, m)
  end.
Fixpoint month_up (fuel : nat) (y m : Z) : Z * Z :=
  match fuel with
  | O => (y, m)
  | S fuel' => if m <? 1 then month_up fuel' (y - 1) (m + 12) else (y, m)
  end.

Definition add_month (n : Z) (dt : date_time) : date_time :=
  let '(DateTime (Date y m d yd v) t) := dt in
  let m := m + n in
  let '(y, m) := if 0 <? n then month_down (Z.to_nat m) y m else month_up (S (Z.to_nat (1 - m))) y m in
  incr_all none (DateTime (Date y m d yd v) t).

Definition add_year (n : Z) (dt : date_time) : date_time :=
  let '(DateTime (Date y m d yd v) t) := dt in incr_all none (DateTime (Date (y + n) m d yd v) t).

Definition set_date (y m d : Z) (dt : date_time) : date_time :=
  incr_all date_only (DateTime (Date y m d (day_of_year (date_ dt)) (is_valid_date_ (date_ dt))) (time_ dt)).
Definition set_time (h m s ms : Z) (dt : date_time) : date_time :=
  incr_all time_only (DateTime (date_ dt) (Time h m s ms (is_valid_time_ (time_ dt)))).
Definition set_date_time (y mo d h mi s ms : Z) (dt : date_time) : date_time :=
  incr_all date_and_time (DateTime (Date y mo d (day_of_year (date_ dt)) (is_valid_date_ (date_ dt)))
    (Time h mi s ms (is_valid_time_ (time_ dt)))).

Definition set_time_short (t : Z) (dt : date_time) : option date_time :=
  if (2359 <? t) || (t <? 0) then None
  else let new_min := Z.rem t 100 in
       if 59 <? new_min then None
       else Some (DateTime (date_ dt) (Time (Z.quot (t - new_min) 100) new_min 0 0 true)).
Definition get_time_short (dt : date_time) : Z := wrap I16 (hour (time_ dt) * 100 + minute (time_ dt)).
Definition get_seconds_of_day (dt : date_time) : Z :=
  hour (time_ dt) * 3600 + minute (time_ dt) * 60 + second (time_ dt).

(** ** Printing *)

(** [if (n < 10) ret += "0"; ret += std::to_string(n)]. *)
Definition two (n : Z) : bytes := (if n <? 10 then [x30] else []) ++ to_string n.

Definition get_date (delimeter : bytes) (dt : date_time) : bytes :=
  to_string (year (date_ dt)) ++ delimeter ++ two (month (date_ dt)) ++ delimeter ++ two (day (date_ dt)).
Definition get_date2 (delimeter : bytes) (dt : date_time) : bytes :=
  two (day (date_ dt)) ++ delimeter ++ two (month (date_ dt)) ++ delimeter ++ to_string (year (date_ dt)).
Definition get_time_hh_mm (delimeter : bytes) (dt : date_time) : bytes :=
  two (hour (time_ dt)) ++ delimeter ++ two (minute (time_ dt)).
Definition get_time (delimeter : bytes) (thousend_sec : bool) (dt : date_time) : bytes :=
  let t := time_ dt in
  two (hour t) ++ delimeter ++ two (minute t) ++ delimeter ++ two (second t) ++
  (if thousend_sec then
     lit "." ++ (if thousend_second t <? 1000 then [x30] else []) ++
     (if thousend_second t <? 100 then [x30] else []) ++ two (thousend_second t)
   else []).
Definition get_time_short_str (dt : date_time) : bytes := to_string (hour (time_ dt) * 100 + minute (time_ dt)).
Definition get_date_time (dt : date_time) : bytes := get_date (lit "-") dt ++ lit " " ++ get_time (lit ":") false dt.
Definition get_date_time_iso_8601 (tm_offset : Z) (dt : date_time) : bytes :=
  let tm := to_string tm_offset in
  let tm := if (length tm =? 1)%nat then x30 :: tm else tm in
  get_date (lit "-") dt ++ lit "T" ++ get_time (lit ":") false dt ++ lit "+" ++ tm ++ lit ":00".

(** ** Parsing *)

Inductive field := Year | Month | Day | Hour | Minute | Second | Thousend.
#[export] Instance field_eq_dec : EqDecision field.
Proof. solve_decision. Defined.

(** [scan_format] with the targets [arr]: ["%d"] into a field, or a separator. *)
Inductive directive := Num (f : field) | Sep (c : byte).

(** The loop over the format: a letter counts once, separators are copied, other characters
    are dropped. *)
Fixpoint scan_format (format : bytes) (parsed : list field) : list directive :=
  match format with
  | [] => []
  | c :: format' =>
      let num f := if bool_decide (f ∈ parsed) then scan_format format' parsed
                   else Num f :: scan_format format' (f :: parsed) in
      match c with
      | "y"%byte => num Year
      | "M"%byte => num Month
      | "d"%byte => num Day
      | "h"%byte | "H"%byte => num Hour
      | "m"%byte => num Minute
      | "s"%byte => num Second
      | "t"%byte => num Thousend
      | "/"%byte | "-"%byte | "\"%byte | " "%byte | ","%byte | ":"%byte | ";"%byte | "."%byte =>
          Sep c :: scan_format format' parsed
      | _ => scan_format format' parsed
      end
  end.

Definition is_num (d : directive) : bool := match d with Num _ => true | Sep _ => false end.

Definition set_field (f : field) (v : Z) (dt : date_time) : date_time :=
  let '(DateTime (Date y mo d yd vd) (Time h mi s ms vt)) := dt in
  match f with
  | Year => DateTime (Date v mo d yd vd) (Time h mi s ms vt)
  | Month => DateTime (Date y v d yd vd) (Time h mi s ms vt)
  | Day => DateTime (Date y mo v yd vd) (Time h mi s ms vt)
  | Hour => DateTime (Date y mo d yd vd) (Time v mi s ms vt)
  | Minute => DateTime (Date y mo d yd vd) (Time h v s ms vt)
  | Second => DateTime (Date y mo d yd vd) (Time h mi v ms vt)
  | Thousend => DateTime (Date y mo d yd vd) (Time h mi s v vt)
  end.

(** The longest digit prefix and the rest. *)
Fixpoint scan_digits (s : bytes) (acc : Z) (any : bool) : option (Z * bytes) :=
  match s with
  | c :: s' => if is_digit c then scan_digits s' (10 * acc + digit_val c) true
               else if any then Some (acc, s) else None
  | [] => if any then Some (acc, []) else None
  end.

(** ["%d"] of [sscanf]. *)
Definition scan_int (s : bytes) : option (Z * bytes) :=
  match skip_space s with
  | x2d :: s' => '(m, r) ← scan_digits s' 0 false; Some (wrap I32 (- m), r)
  | x2b :: s' => '(m, r) ← scan_digits s' 0 false; Some (wrap I32 m, r)
  | s' => '(m, r) ← scan_digits s' 0 false; Some (wrap I32 m, r)
  end.

(** [sscanf]: the number of fields read, which are assigned even when a later one fails.  A
    space in the format skips any white space. *)
Fixpoint sscanf (s : bytes) (fmt : list directive) (n : Z) (dt : date_time) : Z * date_time :=
  match fmt with
  | [] => (n, dt)
  | Num f :: fmt' =>
      match scan_int s with
      | Some (v, s') => sscanf s' fmt' (n + 1) (set_field f v dt)
      | None => (n, dt)
      end
  | Sep c :: fmt' =>
      if is_space c then sscanf (skip_space s) fmt' n dt
      else match s with
           | c' :: s' => if bool_decide (c = c') then sscanf s' fmt' n dt else (n, dt)
           | [] => (n, dt)
           end
  end.

(** [c_str()] ends at the first NUL. *)
Fixpoint c_str (s : bytes) : bytes :=
  match s with [] => [] | c :: s' => if bool_decide (c = x00) then [] else c :: c_str s' end.

Definition default_format : bytes := lit "yyyy-MM-dd HH:mm:ss".

Definition parse_date_time (dt_ format : bytes) (sel : date_time_sel) (dt : date_time) : bool * date_time :=
  let '(format, sel) :=
    if (length dt_ =? length format)%nat then (format, sel)
    else if (length dt_ =? 10)%nat then (lit "yyyy-MM-dd", date_only)
    else if (length dt_ =? 8)%nat then (lit "HH:mm:ss", time_only)
    else (format, sel) in
  let fmt := scan_format format [] in
  let queue := Z.of_nat (length (filter (fun d => is_num d = true) fmt)) in
  let '(r, dt) := if queue =? 0 then (-1, dt) else sscanf (c_str dt_) fmt 0 dt in
  if r =? queue then (true, incr_all sel dt) else (false, dt).

(** The constructor from a string; the format is cut to the length of the string. *)
Definition date_time_of_string (str_ format : bytes) (sel : date_time_sel) : date_time :=
  let format := if (length str_ <? length format)%nat then take (length str_) format else format in
  (parse_date_time str_ format sel date_time_init).2.

(** ** Calendar functions of the C library *)

Section libc.
(** [mktime] on year, month, day, hour, minute and second with [tm_isdst = 0]; [localtime_r]
    as the fields it fills (with the day of the year from 0). *)
Context (mktime : Z -> Z -> Z -> Z -> Z -> Z -> Z) (localtime_r : Z -> Z * Z * Z * Z * Z * Z * Z).

Definition mktime_of (dt : date_time) : Z :=
  mktime (year (date_ dt) - 1900) (month (date_ dt) - 1) (day (date_ dt))
    (hour (time_ dt)) (minute (time_ dt)) (second (time_ dt)).

(** [operator-]: the [time_span] as total seconds and total days.  The days are the quotient
    rounded towards zero, which the source computes with [floor] and [ceil] on doubles. *)
Definition minus (a b : date_time) : Z * Z :=
  let total_secs := mktime_of a - mktime_of b in (total_secs, Z.quot total_secs 86400).

Definition secs_to (this other : date_time) : Z := (minus other this).1.
Definition days_to (this other : date_time) : Z := (minus other this).2.

Definition get_time_from_epoch (dt : date_time) : Z :=
  if is_valid_date_ (date_ dt) then mktime_of dt else 0.
Definition get_miliseconds_from_epoch (dt : date_time) : bytes :=
  to_string (get_time_from_epoch dt) ++ lit "000".

(** [current_date_time(t)] at the instant [t]. *)
Definition current_date_time (t : Z) : date_time :=
  let '(y, mo, d, yd, h, mi, s) := localtime_r t in
  DateTime (Date (y + 1900) (mo + 1) d yd true) (Time h mi s 0 true).
End libc.

(** ** What the fields stand for *)

(** Days of the months before [m], days of the years before [y] (from year 1), and the number
    of a day. *)
Definition month_days (y m : Z) : Z := days_loop (Z.to_nat (m - 1)) 1 y 0.
Definition year_days (y : Z) : Z := 365 * (y - 1) + (y - 1) / 4 - (y - 1) / 100 + (y - 1) / 400.
Definition day_number (y m d : Z) : Z := year_days y + month_days y m + d.

Definition ms_of_day (t : time__) : Z :=
  ((hour t * 60 + minute t) * 60 + second t) * 1000 + thousend_second t.

(** Milliseconds since the day 0 of the calendar. *)
Definition total_ms (dt : date_time) : Z :=
  day_number (year (date_ dt)) (month (date_ dt)) (day (date_ dt)) * 86400000 + ms_of_day (time_ dt).

Definition date_normal (d : date__) : Prop :=
  1 <= month d <= 12 /\ 1 <= day d <= count_days_in_month (month d) (year d).
Definition time_normal (t : time__) : Prop :=
  0 <= hour t < 24 /\ 0 <= minute t < 60 /\ 0 <= second t < 60 /\ 0 <= thousend_second t < 1000.
Definition normal (dt : date_time) : Prop := date_normal (date_ dt) /\ time_normal (time_ dt).

Definition leap (y : Z) : bool :=
  ((Z.rem y 4 =? 0) && negb (Z.rem y 100 =? 0)) || (Z.rem y 400 =? 0).

Lemma count_days_range m y : 28 <= count_days_in_month m y <= 31.
Proof.
  unfold count_days_in_month. case_bool_decide; [lia|]. destruct (m =? 2); [|lia].
  destruct (_ || _); lia.
Qed.

Lemma leap_year_days y : year_days (y + 1) = year_days y + 365 + (if leap y then 1 else 0).
Proof.
  unfold year_days, leap. replace (y + 1 - 1) with y by lia.
  destruct (Z.eqb_spec (Z.rem y 4) 0), (Z.eqb_spec (Z.rem y 100) 0), (Z.eqb_spec (Z.rem y 400) 0); simpl; dlia.
Qed.

Lemma days_loop_S k i y acc :
  days_loop (S k) i y acc = days_loop k i y acc + count_days_in_month (i + Z.of_nat k) y.
Proof.
  revert i acc; induction k as [|k IH]; intros i acc.
  - simpl. do 2 f_equal. lia.
  - change (days_loop (S (S k)) i y acc) with (days_loop (S k) (i + 1) y (acc + count_days_in_month i y)).
    rewrite IH. simpl. do 2 f_equal. lia.
Qed.

Lemma month_days_succ y m : 1 <= m -> month_days y (m + 1) = month_days y m + count_days_in_month m y.
Proof.
  intros. unfold month_days. replace (Z.to_nat (m + 1 - 1)) with (S (Z.to_nat (m - 1))) by lia.
  rewrite days_loop_S. do 2 f_equal. lia.
Qed.

Lemma month_days_1 y : month_days y 1 = 0.
Proof. done. Qed.

Lemma month_days_13 y : month_days y 13 = 365 + (if leap y then 1 else 0).
Proof.
  unfold month_days. change (Z.to_nat (13 - 1)) with 12%nat. cbn [days_loop].
  assert (E : forall m, count_days_in_month m y =
    if bool_decide (m ∈ [4; 6; 9; 11]) then 30 else if m =? 2 then if leap y then 29 else 28 else 31) by done.
  rewrite !E. destruct (leap y); vm_compute; done.
Qed.

(** The first day after a month is the first of the next one. *)
Lemma day_number_next_month y m d :
  1 <= m -> day_number y (m + 1) d = day_number y m (d + count_days_in_month m y).
Proof. intros. unfold day_number. rewrite month_days_succ by done. lia. Qed.

Lemma day_number_next_year y d :
  day_number (y + 1) 1 d = day_number y 12 (d + count_days_in_month 12 y).
Proof.
  unfold day_number. rewrite leap_year_days, month_days_1.
  pose proof (month_days_succ y 12 ltac:(lia)) as E. change (12 + 1) with 13 in E.
  rewrite month_days_13 in E. lia.
Qed.

Lemma month_days_lt y m k : 1 <= m -> month_days y m + count_days_in_month m y <= month_days y (m + 1 + Z.of_nat k).
Proof.
  intros Hm. induction k as [|k IH].
  - rewrite <- month_days_succ by done. replace (m + 1 + Z.of_nat 0) with (m + 1) by lia. lia.
  - replace (m + 1 + Z.of_nat (S k)) with (m + 1 + Z.of_nat k + 1) by lia.
    rewrite (month_days_succ y (m + 1 + Z.of_nat k)) by lia.
    pose proof (count_days_range (m + 1 + Z.of_nat k) y). lia.
Qed.

Lemma year_days_mono y k : year_days y + 365 * Z.of_nat k <= year_days (y + Z.of_nat k).
Proof.
  induction k as [|k IH]; [replace (y + Z.of_nat 0) with y by lia; lia|].
  replace (y + Z.of_nat (S k)) with (y + Z.of_nat k + 1) by lia. rewrite leap_year_days.
  destruct (leap _); lia.
Qed.

(** Day numbers order dates lexicographically. *)
Lemma day_number_lt a b :
  date_normal a -> date_normal b -> date_lt a b = true ->
  day_number (year a) (month a) (day a) < day_number (year b) (month b) (day b).
Proof.
  intros [Hma Hda] [Hmb Hdb]. unfold date_lt. rewrite !orb_true_iff, !andb_true_iff, !Z.ltb_lt, !Z.eqb_eq.
  unfold day_number. intros [[Hy|[Hy Hm]]|[[Hy Hm] Hd]].
  - pose proof (month_days_lt (year a) (month a) (Z.to_nat (12 - month a)) ltac:(lia)) as E.
    replace (month a + 1 + Z.of_nat (Z.to_nat (12 - month a))) with 13 in E by lia. rewrite month_days_13 in E.
    pose proof (leap_year_days (year a)) as El.
    pose proof (year_days_mono (year a + 1) (Z.to_nat (year b - (year a + 1)))) as Ey.
    replace (year a + 1 + Z.of_nat (Z.to_nat (year b - (year a + 1)))) with (year b) in Ey by lia.
    assert (0 <= month_days (year b) (month b)).
    { destruct (decide (month b = 1)) as [->|]; [by rewrite month_days_1|].
      pose proof (month_days_lt (year b) 1 (Z.to_nat (month b - 2)) ltac:(lia)) as E1.
      replace (1 + 1 + Z.of_nat (Z.to_nat (month b - 2))) with (month b) in E1 by lia.
      rewrite month_days_1 in E1. pose proof (count_days_range 1 (year b)). lia. }
    lia.
  - pose proof (month_days_lt (year a) (month a) (Z.to_nat (month b - month a - 1)) ltac:(lia)) as E.
    replace (month a + 1 + Z.of_nat (Z.to_nat (month b - month a - 1))) with (month b) in E by lia.
    rewrite <- Hy. lia.
  - rewrite Hy, Hm. lia.
Qed.

(** ** Carrying is exact *)

Lemma carry_spec from to max :
  0 < max -> let '(f, t) := carry from to max in f + t * max = from + to * max /\ 0 <= f < max.
Proof.
  intros Hm. unfold carry, incr, decr.
  destruct (Z.ltb_spec 0 from).
  - pose proof (Z.rem_bound_pos from max ltac:(lia) Hm). pose proof (Z.quot_rem' from max) as Hq.
    assert (E : Z.quot (from - Z.rem from max) max = Z.quot from max).
    { replace (from - Z.rem from max) with (Z.quot from max * max) by lia. apply Z.quot_mul. lia. }
    rewrite E. destruct (Z.eqb_spec (Z.quot from max) 0) as [E0|]; simpl; [|lia]. rewrite E0 in Hq. lia.
  - pose proof (Z.rem_nonpos from max ltac:(lia) ltac:(lia)) as Hr.
    pose proof (Z.rem_bound_abs from max ltac:(lia)) as Hr'. pose proof (Z.quot_rem' from max) as Hq.
    destruct (Z.eqb_spec (max + Z.rem from max) max).
    + assert (E : Z.quot (from - 0) max = Z.quot from max) by (f_equal; lia). rewrite E.
      destruct (Z.eqb_spec (Z.quot from max) 0) as [E0|]; simpl; [|lia]. rewrite E0 in Hq. lia.
    + assert (E : Z.quot (from - (max + Z.rem from max)) max = Z.quot from max - 1).
      { replace (from - (max + Z.rem from max)) with ((Z.quot from max - 1) * max) by lia. apply Z.quot_mul. lia. }
      rewrite E. assert (Z.quot from max <= 0) by nia.
      destruct (Z.eqb_spec (Z.quot from max - 1) 0) as [E0|]; simpl; lia.
Qed.

Lemma incr_month_spec fuel y m d :
  1 <= m <= 12 -> 1 <= d -> d <= Z.of_nat fuel ->
  let '(y', m', d') := incr_month_rec fuel y m d in
  day_number y' m' d' = day_number y m d /\ 1 <= m' <= 12 /\ 1 <= d' <= count_days_in_month m' y'.
Proof.
  revert y m d; induction fuel as [|fuel IH]; intros y m d Hm Hd Hf; [lia|]. cbn [incr_month_rec].
  pose proof (count_days_range m y). destruct (Z.ltb_spec (count_days_in_month m y) d); [|lia].
  destruct (Z.ltb_spec m 12).
  - specialize (IH y (m + 1) (d - count_days_in_month m y)).
    destruct (incr_month_rec fuel _ _ _) as [[y' m'] d']. rewrite day_number_next_month in IH by lia.
    replace (d - count_days_in_month m y + count_days_in_month m y) with d in IH by lia. apply IH; lia.
  - replace m with 12 in * by lia. specialize (IH (y + 1) 1 (d - count_days_in_month 12 y)).
    destruct (incr_month_rec fuel _ _ _) as [[y' m'] d']. rewrite day_number_next_year in IH.
    replace (d - count_days_in_month 12 y + count_days_in_month 12 y) with d in IH by lia. apply IH; lia.
Qed.

Lemma decr_month_spec fuel y m d :
  1 <= m <= 12 -> d <= count_days_in_month m y -> 1 - d < Z.of_nat fuel ->
  let '(y', m', d') := decr_month_rec fuel y m d in
  day_number y' m' d' = day_number y m d /\ 1 <= m' <= 12 /\ 1 <= d' <= count_days_in_month m' y'.
Proof.
  revert y m d; induction fuel as [|fuel IH]; intros y m d Hm Hd Hf; [simpl; lia|]. cbn [decr_month_rec].
  destruct (Z.ltb_spec d 1); [|lia]. destruct (Z.ltb_spec 1 m).
  - specialize (IH y (m - 1) (d + count_days_in_month (m - 1) y)). pose proof (count_days_range (m - 1) y).
    destruct (decr_month_rec fuel _ _ _) as [[y' m'] d'].
    rewrite <- day_number_next_month in IH by lia. replace (m - 1 + 1) with m in IH by lia. apply IH; lia.
  - replace m with 1 in * by lia. specialize (IH (y - 1) 12 (d + count_days_in_month 12 (y - 1))).
    pose proof (count_days_range 12 (y - 1)). destruct (decr_month_rec fuel _ _ _) as [[y' m'] d'].
    rewrite <- day_number_next_year in IH. replace (y - 1 + 1) with y in IH by lia. apply IH; lia.
Qed.

(** [incr_all] does not change the instant and leaves every field in its range. *)
Lemma incr_all_spec sel dt :
  1 <= month (date_ dt) <= 12 ->
  normal (incr_all sel dt) /\ total_ms (incr_all sel dt) = total_ms dt /\
  day_of_year (date_ (incr_all sel dt)) =
    month_days (year (date_ (incr_all sel dt))) (month (date_ (incr_all sel dt))) + day (date_ (incr_all sel dt)).
Proof.
  destruct dt as [[y mo d yd vd] [h mi s ms vt]]. cbn [date_ month]. intros Hmo. cbn [incr_all].
  pose proof (carry_spec ms s 1000 ltac:(lia)) as H1. destruct (carry ms s 1000) as [ms1 s1].
  pose proof (carry_spec s1 mi 60 ltac:(lia)) as H2. destruct (carry s1 mi 60) as [s2 mi1].
  pose proof (carry_spec mi1 h 60 ltac:(lia)) as H3. destruct (carry mi1 h 60) as [mi2 h1].
  pose proof (carry_spec h1 d 24 ltac:(lia)) as H4. destruct (carry h1 d 24) as [h2 d1].
  set (r := if 0 <? d1 then incr_month y mo d1 else decr_month y mo d1).
  assert (Hr : let '(y', m', d') := r in
    day_number y' m' d' = day_number y mo d1 /\ 1 <= m' <= 12 /\ 1 <= d' <= count_days_in_month m' y').
  { unfold r. destruct (Z.ltb_spec 0 d1); [apply incr_month_spec; lia|].
    apply decr_month_spec; [done| |lia]. pose proof (count_days_range mo y). lia. }
  destruct r as [[y' m'] d']. destruct Hr as (Hd & Hm' & Hd').
  unfold normal, date_normal, time_normal, total_ms, ms_of_day. simpl.
  split; [lia|split; [|done]]. rewrite Hd. unfold day_number. lia.
Qed.

(** ** Order *)

Lemma ms_of_day_range t : time_normal t -> 0 <= ms_of_day t < 86400000.
Proof. unfold time_normal, ms_of_day. lia. Qed.

Lemma time_lt_spec a b : time_normal a -> time_normal b -> time_lt a b = (ms_of_day a <? ms_of_day b).
Proof. unfold time_normal, time_lt, ms_of_day. intros Ha Hb. cmp; simpl; lia || done. Qed.

Lemma date_lt_total a b : date_lt a b = false -> date_eq a b = false -> date_lt b a = true.
Proof. unfold date_lt, date_eq. cmp; simpl; lia || done. Qed.

Lemma date_lt_not_eq a b : date_lt a b = true -> date_eq a b = false.
Proof. unfold date_lt, date_eq. cmp; simpl; lia || done. Qed.

Lemma date_eq_number a b : date_eq a b = true ->
  day_number (year a) (month a) (day a) = day_number (year b) (month b) (day b).
Proof. unfold date_eq. rewrite !andb_true_iff, !Z.eqb_eq. by intros [[-> ->] ->]. Qed.

Lemma dt_lt_spec a b : normal a -> normal b -> dt_lt a b = (total_ms a <? total_ms b).
Proof.
  intros [Da Ta] [Db Tb]. unfold dt_lt, total_ms.
  pose proof (ms_of_day_range _ Ta). pose proof (ms_of_day_range _ Tb).
  destruct (date_lt (date_ a) (date_ b)) eqn:E1; simpl.
  - pose proof (day_number_lt _ _ Da Db E1). symmetry. apply Z.ltb_lt. nia.
  - destruct (date_eq (date_ a) (date_ b)) eqn:E2; simpl.
    + rewrite (date_eq_number _ _ E2), time_lt_spec by done. cmp; lia || done.
    + pose proof (day_number_lt _ _ Db Da (date_lt_total _ _ E1 E2)). symmetry. apply Z.ltb_ge. nia.
Qed.

Lemma add_secs_spec dt n :
  normal dt -> normal (add_secs n dt) /\ total_ms (add_secs n dt) = total_ms dt + n * 1000.
Proof.
  intros [[Hm _] _]. destruct dt as [[y mo d yd vd] [h mi s ms vt]]. cbn [add_secs].
  destruct (incr_all_spec none (DateTime (Date y mo d yd vd) (Time h mi (s + n) ms vt)) Hm) as (H1 & H2 & _).
  split; [done|]. rewrite H2. unfold total_ms, ms_of_day. simpl. lia.
Qed.

(** ** Claims *)

(** whatever integers the time fields and the day hold, [incr_all] carries them into a
    calendar date: every field is in its range (the day within the days of its month, leap
    years included), the instant is the same millisecond, and the day of the year is the
    position of the day in its year.  The recursions over the months end. *)
Theorem incr_all_exact sel dt :
  1 <= month (date_ dt) <= 12 ->
  normal (incr_all sel dt) /\ total_ms (incr_all sel dt) = total_ms dt /\
  day_of_year (date_ (incr_all sel dt)) =
    month_days (year (date_ (incr_all sel dt))) (month (date_ (incr_all sel dt))) + day (date_ (incr_all sel dt)).
Proof. apply incr_all_spec. Qed.

Lemma incr_all_exact_witness :
  let dt := DateTime (Date 2024 2 (-400) 0 true) (Time 49 (-61) 3601 (-1) true) in
  1 <= month (date_ dt) <= 12 /\
  normal (incr_all none dt) /\ total_ms (incr_all none dt) = total_ms dt /\
  day_of_year (date_ (incr_all none dt)) =
    month_days (year (date_ (incr_all none dt))) (month (date_ (incr_all none dt))) + day (date_ (incr_all none dt)).
Proof. split; [simpl; lia|]. apply incr_all_exact. simpl; lia. Defined.

(** on calendar dates, [add_secs], [add_mins], [add_hours], [add_days] and [add_msecs] move
    the instant by exactly what they are given, forwards or backwards, and [operator<] is the
    order of the instants. *)
Theorem date_time_arithmetic dt dt' n :
  normal dt -> normal dt' ->
  total_ms (add_msecs n dt) = total_ms dt + n /\ total_ms (add_secs n dt) = total_ms dt + n * 1000 /\
  total_ms (add_mins n dt) = total_ms dt + n * 60000 /\ total_ms (add_hours n dt) = total_ms dt + n * 3600000 /\
  total_ms (add_days n dt) = total_ms dt + n * 86400000 /\
  dt_lt dt dt' = (total_ms dt <? total_ms dt') /\
  dt_lt dt' (add_secs n dt) = (total_ms dt' <? total_ms dt + n * 1000).
Proof.
  intros Hn Hn'. pose proof Hn as [[Hm _] _].
  assert (E : forall d t, date_ dt = d -> 1 <= month d <= 12 ->
    total_ms (incr_all none (DateTime d t)) = total_ms (DateTime d t)) by (intros; by apply incr_all_spec).
  destruct dt as [[y mo d yd vd] [h mi s ms vt]] eqn:Edt. simpl in Hm.
  pose proof (add_secs_spec _ n Hn) as Es.
  rewrite <- Edt in *. destruct Es as [Es1 Es2].
  rewrite !dt_lt_spec by done. rewrite Es2. repeat split; try done; subst dt; cbn [add_msecs add_mins add_hours add_days].
  1-3: rewrite E by done; unfold total_ms, ms_of_day; simpl; lia.
  rewrite (proj1 (proj2 (incr_all_spec none (DateTime (Date y mo (d + n) yd vd) (Time h mi s ms vt)) Hm))).
  unfold total_ms, day_number. simpl. lia.
Qed.

Definition example_dt : date_time := DateTime (Date 2023 12 31 365 true) (Time 23 59 58 0 true).

Lemma date_time_arithmetic_witness :
  normal example_dt /\ total_ms (add_secs 2 example_dt) = total_ms example_dt + 2 * 1000 /\
  dt_lt example_dt (add_secs 2 example_dt) = (total_ms example_dt <? total_ms example_dt + 2 * 1000).
Proof.
  assert (H : normal example_dt).
  { unfold normal, date_normal, time_normal. simpl.
    change (count_days_in_month 12 2023) with 31. lia. }
  split; [exact H|].
  destruct (date_time_arithmetic example_dt example_dt 2 H H) as (_ & E1 & _ & _ & _ & _ & E2).
  split; [exact E1|exact E2].
Defined.

(** [operator<] compares milliseconds and [operator==] does not: two times that differ in
    the milliseconds only are equal and one is also less than the other, while neither is
    greater. *)
Theorem time_operators_disagree :
  exists a b, dt_lt a b = true /\ dt_eq a b = true /\ dt_gt b a = false.
Proof.
  exists (DateTime (Date 2024 1 1 1 true) (Time 0 0 0 1 true)), (DateTime (Date 2024 1 1 1 true) (Time 0 0 0 2 true)).
  by vm_compute.
Qed.

(** ** Printing and parsing *)

Lemma scan_digits_dec_loop fuel n t any :
  0 <= n < 10 ^ Z.of_nat fuel -> (0 < fuel)%nat ->
  scan_digits (dec_loop fuel n [] ++ t) 0 any = scan_digits t n true.
Proof.
  revert n t any; induction fuel as [|fuel IH]; intros n t any Hn Hf; [lia|].
  pose proof (Z.mod_pos_bound n 10 ltac:(lia)) as Hm. pose proof (Z.div_mod n 10 ltac:(lia)) as Hd.
  assert (Hc : forall s acc any, scan_digits (digit_char (n mod 10) :: s) acc any = scan_digits s (10 * acc + n mod 10) true).
  { intros s acc any'. cbn [scan_digits]. by rewrite is_digit_digit_char, digit_val_digit_char by lia. }
  cbn [dec_loop]. destruct (Z.ltb_spec n 10) as [Hlt|Hge].
  - cbn [app]. rewrite Hc. by rewrite Z.mod_small by lia.
  - rewrite dec_loop_app, <- app_assoc. rewrite Nat2Z.inj_succ, Z.pow_succ_r in Hn by lia.
    assert (fuel <> O) by (intros ->; simpl in Hn; lia).
    rewrite IH by lia. cbn [app]. rewrite Hc. f_equal. lia.
Qed.

Lemma to_string_dec n : 0 <= n -> to_string n = dec_loop 20 n [].
Proof. intros. unfold to_string. by rewrite (proj2 (Z.ltb_ge _ _)). Qed.

(** A decimal number with or without a leading zero reads as its value, up to what follows. *)
Lemma scan_int_decimal (zero : bool) n t :
  0 <= n <= max_val I32 -> not_digit_first t ->
  scan_int ((if zero then [x30] else []) ++ to_string n ++ t) = Some (n, t).
Proof.
  change (max_val I32) with 2147483647. intros Hn Ht. rewrite to_string_dec by lia.
  set (s := (if zero then [x30] else []) ++ dec_loop 20 n [] ++ t).
  assert (Hs : scan_digits s 0 false = Some (n, t)).
  { assert (Hg : forall any, scan_digits (dec_loop 20 n [] ++ t) 0 any = Some (n, t)).
    { intros any. rewrite scan_digits_dec_loop by (lia || (split; [lia|]; change (10 ^ Z.of_nat 20) with 100000000000000000000; lia)).
      destruct t as [|c t]; [done|]. simpl in Ht |- *. by rewrite Ht. }
    unfold s. destruct zero; [|apply Hg]. cbn [app scan_digits]. change (is_digit x30) with true. cbn iota.
    change (10 * 0 + digit_val x30) with 0. apply Hg. }
  assert (Hh : exists c l, s = c :: l /\ is_digit c = true).
  { unfold s. destruct zero; [by exists x30, (dec_loop 20 n [] ++ t)|].
    destruct (dec_loop_head 20 n) as (c & l & -> & Hc); [lia..|]. by exists c, (l ++ t). }
  destruct Hh as (c & l & E & Hc). rewrite E in Hs |- *. unfold scan_int.
  assert (is_space c = false) as Hsp by (revert Hc; unfold is_digit, is_space; cmp; simpl; lia || done).
  cbn [skip_space]. rewrite Hsp.
  assert (wrap I32 n = n) as Hw by (apply wrap_id; range_lia).
  destruct c; try (by vm_compute in Hc); rewrite Hs; cbn; by rewrite Hw.
Qed.

Lemma scan_int_two n t : 0 <= n <= max_val I32 -> not_digit_first t -> scan_int (two n ++ t) = Some (n, t).
Proof. intros. unfold two. rewrite <- app_assoc. destruct (n <? 10); [by apply (scan_int_decimal true)|by apply (scan_int_decimal false)]. Qed.

Lemma c_str_id s : x00 ∉ s -> c_str s = s.
Proof.
  induction s as [|c s IH]; intros H; simpl; [done|]. rewrite bool_decide_false by set_solver.
  f_equal. apply IH. set_solver.
Qed.

Lemma two_no_nul n : x00 ∉ two n.
Proof.
  unfold two. rewrite elem_of_app. intros [H|H]; [destruct (n <? 10); set_solver|].
  revert H. by apply to_string_not_elem.
Qed.

Lemma length_to_string n : 0 <= n -> (1 <= length (to_string n))%nat.
Proof. intros. rewrite to_string_dec by done. destruct (dec_loop_head 20 n) as (c & l & -> & _); simpl; lia. Qed.

Lemma length_two n : 0 <= n -> (1 <= length (two n))%nat.
Proof. intros. unfold two. rewrite length_app. pose proof (length_to_string n). lia. Qed.

Lemma carry_id from to max : 0 <= from < max -> carry from to max = (from, to).
Proof.
  intros H. pose proof (carry_spec from to max ltac:(lia)) as E. destruct (carry from to max) as [f t].
  assert (t = to) by nia. f_equal; [nia|done].
Qed.

(** [incr_all] leaves a calendar date as it is. *)
Lemma incr_all_id sel d t :
  date_normal d -> time_normal t ->
  incr_all sel (DateTime d t) =
    DateTime (Date (year d) (month d) (day d) (month_days (year d) (month d) + day d)
        (match sel with date_and_time | date_only => true | _ => is_valid_date_ d end))
      (Time (hour t) (minute t) (second t) (thousend_second t)
        (match sel with date_and_time | time_only => true | _ => is_valid_time_ t end)).
Proof.
  destruct d as [y mo d yd vd], t as [h mi s ms vt]. intros [Hm Hd] (Hh & Hmi & Hs & Hms). simpl in *.
  rewrite !carry_id by lia. rewrite (proj2 (Z.ltb_lt 0 d)) by lia. unfold incr_month.
  replace (Z.to_nat d) with (S (Z.to_nat (d - 1))) by lia. cbn [incr_month_rec].
  rewrite (proj2 (Z.ltb_ge _ _)) by lia. done.
Qed.

Lemma sscanf_year n t f fmt k dt :
  0 <= n <= max_val I32 -> not_digit_first t ->
  sscanf (to_string n ++ t) (Num f :: fmt) k dt = sscanf t fmt (k + 1) (set_field f n dt).
Proof. intros Hn Ht. cbn [sscanf]. pose proof (scan_int_decimal false n t Hn Ht) as E. cbn [app] in E. by rewrite E. Qed.

Lemma sscanf_two n t f fmt k dt :
  0 <= n <= 60 -> not_digit_first t ->
  sscanf (two n ++ t) (Num f :: fmt) k dt = sscanf t fmt (k + 1) (set_field f n dt).
Proof.
  intros Hn Ht. cbn [sscanf]. rewrite scan_int_two; [done| |done]. change (max_val I32) with 2147483647. lia.
Qed.

Lemma sscanf_sep c s fmt n dt : is_space c = false -> sscanf (c :: s) (Sep c :: fmt) n dt = sscanf s fmt n dt.
Proof. intros E. cbn [sscanf]. rewrite E. by rewrite bool_decide_true. Qed.

Lemma sscanf_space s fmt n dt : sscanf (x20 :: s) (Sep x20 :: fmt) n dt = sscanf (skip_space s) fmt n dt.
Proof. done. Qed.

Lemma skip_space_two n t : 0 <= n -> skip_space (two n ++ t) = two n ++ t.
Proof.
  intros. assert (Hh : exists c l, two n = c :: l /\ is_digit c = true).
  { unfold two. destruct (n <? 10); [by eexists _, _|]. rewrite to_string_dec by done. apply dec_loop_head; lia. }
  destruct Hh as (c & l & -> & Hc). cbn [app skip_space].
  assert (is_space c = false) as -> by (revert Hc; unfold is_digit, is_space; cmp; simpl; lia || done). done.
Qed.

Section text.
Context (dt : date_time) (Hn : normal dt) (Hy : 0 <= year (date_ dt) <= max_val I32).
Let d := date_ dt.
Let t := time_ dt.

Lemma get_date_time_text :
  get_date_time dt = to_string (year d) ++ x2d :: two (month d) ++ x2d :: two (day d) ++
    x20 :: two (hour t) ++ x3a :: two (minute t) ++ x3a :: two (second t) ++ [].
Proof. unfold get_date_time, get_date, get_time. by rewrite <- !app_assoc. Qed.

Lemma normal_bounds :
  0 <= month d <= 31 /\ 0 <= day d <= 31 /\ 0 <= hour t <= 31 /\ 0 <= minute t <= 60 /\ 0 <= second t <= 60.
Proof.
  destruct Hn as [[Hm Hd] (Hh & Hmi & Hs & _)]. fold d t in Hm, Hd, Hh, Hmi, Hs.
  pose proof (count_days_range (month d) (year d)). lia.
Qed.

Lemma get_date_time_length : (10 < length (get_date_time dt))%nat.
Proof.
  destruct normal_bounds as (Hm & Hd & Hh & Hmi & Hs). fold d in Hy.
  rewrite get_date_time_text. repeat (rewrite ?length_app; cbn [length]).
  pose proof (length_to_string (year d) ltac:(lia)). pose proof (length_two (month d) ltac:(lia)).
  pose proof (length_two (day d) ltac:(lia)). pose proof (length_two (hour t) ltac:(lia)).
  pose proof (length_two (minute t) ltac:(lia)). pose proof (length_two (second t) ltac:(lia)). lia.
Qed.

Lemma get_date_time_c_str : c_str (get_date_time dt) = get_date_time dt.
Proof.
  apply c_str_id. rewrite get_date_time_text.
  pose proof (to_string_not_elem x00 (year d) eq_refl ltac:(done)) as Hy0.
  repeat (rewrite not_elem_of_app || rewrite not_elem_of_cons || split); try done; try apply two_no_nul.
  apply not_elem_of_nil.
Qed.

Lemma sscanf_get_date_time :
  sscanf (get_date_time dt)
    [Num Year; Sep x2d; Num Month; Sep x2d; Num Day; Sep x20; Num Hour; Sep x3a; Num Minute; Sep x3a; Num Second]
    0 date_time_init =
  (6, DateTime (Date (year d) (month d) (day d) 0 false) (Time (hour t) (minute t) (second t) 0 false)).
Proof.
  destruct normal_bounds as (Hm & Hd & Hh & Hmi & Hs). fold d in Hy. rewrite get_date_time_text.
  rewrite sscanf_year, sscanf_sep, sscanf_two, sscanf_sep, sscanf_two, sscanf_space, skip_space_two by (done || lia).
  by rewrite sscanf_two, sscanf_sep, sscanf_two, sscanf_sep, sscanf_two by (done || lia).
Qed.
End text.

(** a calendar date printed by [get_date_time] is parsed back by [parse_date_time] with its
    default format: the same date and time (the milliseconds are not printed), marked valid. *)
Theorem parse_get_date_time dt :
  normal dt -> 0 <= year (date_ dt) <= max_val I32 ->
  parse_date_time (get_date_time dt) default_format date_and_time date_time_init =
    (true, let d := date_ dt in let t := time_ dt in
      DateTime (Date (year d) (month d) (day d) (month_days (year d) (month d) + day d) true)
        (Time (hour t) (minute t) (second t) 0 true)).
Proof.
  intros Hn Hy. pose proof (get_date_time_length dt Hn Hy) as Hlen. unfold parse_date_time.
  assert (Hfmt : (if (length (get_date_time dt) =? length default_format)%nat then (default_format, date_and_time)
    else if (length (get_date_time dt) =? 10)%nat then (lit "yyyy-MM-dd", date_only)
    else if (length (get_date_time dt) =? 8)%nat then (lit "HH:mm:ss", time_only) else (default_format, date_and_time))
    = (default_format, date_and_time)).
  { destruct (_ =? length default_format)%nat; [done|].
    by rewrite (proj2 (Nat.eqb_neq _ 10)), (proj2 (Nat.eqb_neq _ 8)) by lia. }
  rewrite Hfmt.
  change (scan_format default_format []) with
    [Num Year; Sep x2d; Num Month; Sep x2d; Num Day; Sep x20; Num Hour; Sep x3a; Num Minute; Sep x3a; Num Second].
  change (Z.of_nat (length (filter _ _))) with 6. cbn [Z.eqb].
  rewrite get_date_time_c_str, sscanf_get_date_time by done. cbn [Z.eqb].
  destruct Hn as [Hd (Hh & Hmi & Hs & Hms)]. rewrite incr_all_id; [done|done|]. unfold time_normal. simpl. lia.
Qed.

Lemma parse_get_date_time_witness :
  normal example_dt /\
  parse_date_time (get_date_time example_dt) default_format date_and_time date_time_init =
    (true, DateTime (Date 2023 12 31 365 true) (Time 23 59 58 0 true)).
Proof.
  assert (H : normal example_dt).
  { unfold normal, date_normal, time_normal. simpl. change (count_days_in_month 12 2023) with 31. lia. }
  split; [exact H|]. exact (parse_get_date_time example_dt H ltac:(vm_compute; split; discriminate)).
Defined.
