(* ===== verification/Streamer.v ===== *)
(** * Typed data in a string ([libs/streamer.h])

    A [streamer<BYTES_STR_SIZE>] appends values of several types to a string and reads them back
    from a position that moves forward: integers, characters, floats, strings (their length in
    [BYTES_STR_SIZE] bytes), dates, sets of integers, other streamers and vectors of them, and
    tuples, whose empty items are left out and marked in a bitmap.

    [read_pos] is a [size_t]: sums of positions and lengths wrap at [2^64].  Reading into a
    variable takes its old content and gives the new one; [None] where the code reads bytes that
    it never set.  Not modelled: [double], which goes through [frexp], and json values. *)

From S2P Require Import Prelude Bitbase BasefuncStd DateTime.
From Stdlib Require Import ZArith Lia.
From stdpp Require Import base list gmap numbers sorting strings.
Open Scope Z_scope.

(** ** State *)

Record streamer := Streamer { data : bytes; read_pos : Z }.

Definition empty_streamer : streamer := Streamer [] 0.

(** The values that the operators take, with their C++ type: the items of tuples and the rest. *)
Inductive elem :=
  | e_int (T : ctype) (n : Z)
  | e_char (c : byte)
  | e_string (s : bytes)
  | e_streamer (s : streamer)
  | e_date (d : date_time).

Inductive val :=
  | v_elem (e : elem)
  | v_float (b : Z)  (* the 32 bits of a [float] *)
  | v_set (T : ctype) (l : gset Z)
  | v_streamers (l : list streamer)
  | v_tuple (t : list elem).

Inductive _skip := none | _byte | _string | _date_time | _int16 | _int32 | _int64.

Inductive _get_type := gt_clear | gt_compress | gt_string.

(** ** Helpers of all the operators *)

(** [data.substr(pos, n)] at [size_t]s: throws ([None]) behind the end. *)
Definition substr_at (s : bytes) (pos n : Z) : option bytes :=
  if zlen s <? pos then None else Some (zsub s pos n).

(** [data.size() >= read_pos + sz]. *)
Definition available (s : streamer) (sz : Z) : bool := wrap U64 (read_pos s + sz) <=? zlen (data s).

(** [read_pos += sz]. *)
Definition move (s : streamer) (sz : Z) : streamer := Streamer (data s) (wrap U64 (read_pos s + sz)).

(** ** The class outside of the operators *)

Definition streamer_set (_d : bytes) : streamer := Streamer _d 0.
Definition append (s : streamer) (d : bytes) : streamer := Streamer (data s ++ d) (read_pos s).
Definition clear (s : streamer) : streamer := Streamer [] 0.
Definition is_data_available (s : streamer) (n : Z) : bool :=
  if negb (n =? 0) then wrap U64 (read_pos s + n) <=? zlen (data s) else read_pos s <? zlen (data s).
Definition get_bytes_available (s : streamer) : Z := wrap U64 (zlen (data s) - read_pos s).
Definition streamer_empty (s : streamer) : bool := zlen (data s) =? 0.
Definition streamer_size (s : streamer) : Z := zlen (data s).

(** The length in eight bytes and the string. *)
Definition framed (v : bytes) : bytes := numeric_to_chars U64 (zlen v) ++ v.

Definition streamer_get (compress_string : bytes -> bytes) (s : streamer) (tp : _get_type) : bytes :=
  match tp with
  | gt_clear => data s
  | gt_compress => framed (compress_string (data s))
  | gt_string => framed (data s)
  end.

Definition streamer_to_string (s : streamer) (bytes_size : nat) : bytes :=
  numeric_to_chars_sz (zlen (data s)) bytes_size ++ data s.

(** [get_bytes]: falls off its end, and returns nothing, when there are not enough bytes. *)
Definition get_bytes (s : streamer) (bytes_size : Z) : option (streamer * bytes) :=
  if available s bytes_size then r ← substr_at (data s) (read_pos s) bytes_size; Some (move s bytes_size, r) else None.

(** ** Writing *)

Definition put_int (T : ctype) (s : streamer) (v : Z) : streamer := append s (numeric_to_chars T v).
Definition put_char (s : streamer) (v : byte) : streamer := append s [v].
Definition put_float (s : streamer) (v : Z) : streamer := append s (numeric_to_chars U32 v).

Definition put_string (bytes_str : nat) (s : streamer) (v : bytes) : streamer :=
  let max_sz := 256 ^ Z.of_nat bytes_str - 1 in
  let sz := if max_sz <? zlen v then max_sz else zlen v in
  append (append s (numeric_to_chars_sz sz bytes_str)) (zsub v 0 max_sz).

(** [v.get(_get_type::string)] is [framed (data v)]. *)
Definition put_streamer (s v : streamer) : streamer := append s (framed (data v)).
Definition plus_eq (s v : streamer) : streamer := append s (data v).

Fixpoint put_items (s : streamer) (v : list streamer) : streamer :=
  match v with [] => s | it :: v' => put_items (put_streamer s it) v' end.
Definition put_streamers (s : streamer) (v : list streamer) : streamer := put_items (put_int U64 s (zlen v)) v.

(** The elements of a [std::set] in its order. *)
Definition set_order (l : gset Z) : list Z := merge_sort Z.le (elements l).
Definition put_set (T : ctype) (s : streamer) (v : gset Z) : streamer :=
  let d := comress_list T (set_order v) in append (put_int U64 s (zlen d)) d.

Definition is_empty_tuple_item (e : elem) : bool :=
  match e with
  | e_int _ n => n =? 0
  | e_char c => b2z c =? 0
  | e_string s => zlen s =? 0
  | e_streamer s => streamer_empty s
  | e_date d => negb (is_valid_date_ (date_ d)) && negb (is_valid_time_ (time_ d))
  end.

Section libc.
Context (mktime : Z -> Z -> Z -> Z -> Z -> Z -> Z) (localtime_r : Z -> Z * Z * Z * Z * Z * Z * Z).
Context (B : nat).

Definition put_date (s : streamer) (v : date_time) : streamer :=
  append s (numeric_to_chars I64 (get_time_from_epoch mktime v)).

Definition put_elem (s : streamer) (e : elem) : streamer :=
  match e with
  | e_int T n => put_int T s n
  | e_char c => put_char s c
  | e_string v => put_string B s v
  | e_streamer v => put_streamer s v
  | e_date d => put_date s d
  end.

Fixpoint pack_tuple (I : nat) (t : list elem) (byte : Z) (bytes data : streamer) : streamer * streamer :=
  match t with
  | [] => (put_int U8 bytes byte, data)
  | it :: t' =>
      let '(bytes, byte) := if negb (I =? 0)%nat && (I mod 8 =? 0)%nat then (put_int U8 bytes byte, 0) else (bytes, byte) in
      if is_empty_tuple_item it then pack_tuple (S I) t' (setBit U8 byte (Z.of_nat (I mod 8))) bytes data
      else pack_tuple (S I) t' byte bytes (put_elem data it)
  end.

Definition put_tuple (s : streamer) (v : list elem) : streamer :=
  let '(s, data) := pack_tuple 0 v 0 s empty_streamer in plus_eq s data.

Definition put (s : streamer) (v : val) : streamer :=
  match v with
  | v_elem e => put_elem s e
  | v_float b => put_float s b
  | v_set T l => put_set T s l
  | v_streamers l => put_streamers s l
  | v_tuple t => put_tuple s t
  end.

(** ** Reading *)

Definition get_int (T : ctype) (s : streamer) (v : Z) : option (streamer * Z) :=
  let sz := Z.of_nat (sizeof T) in
  if available s sz then d ← substr_at (data s) (read_pos s) sz; Some (move s sz, chars_to_numeric T d) else Some (s, v).

Definition get_char (s : streamer) (v : byte) : option (streamer * byte) :=
  if available s 1 then c ← data s !! Z.to_nat (read_pos s); Some (move s 1, c) else Some (s, v).

Definition get_float (s : streamer) (v : Z) : option (streamer * Z) := get_int U32 s v.

(** The length is read into a [size_t]. *)
Definition get_string (bytes_str : nat) (s : streamer) (v : bytes) : option (streamer * bytes) :=
  let b := Z.of_nat bytes_str in
  if available s b then
    d ← substr_at (data s) (read_pos s) b;
    let sz_str := chars_to_numeric U64 d in
    if available s (b + sz_str) then
      v ← substr_at (data s) (wrap U64 (read_pos s + b)) sz_str; Some (move (move s b) sz_str, v)
    else Some (s, v)
  else Some (s, v).

Definition get_streamer (s v : streamer) : option (streamer * streamer) :=
  '(s, f) ← get_string 8 s []; Some (s, streamer_set f).

Definition get_date (s : streamer) (v : date_time) : option (streamer * date_time) :=
  if available s 8 then
    d ← substr_at (data s) (read_pos s) 8;
    let vu := chars_to_numeric I64 d in
    Some (move s 8, if negb (vu =? 0) then current_date_time localtime_r vu else v)
  else Some (s, v).

Definition get_elem (s : streamer) (e : elem) : option (streamer * elem) :=
  match e with
  | e_int T n => '(s, n) ← get_int T s n; Some (s, e_int T n)
  | e_char c => '(s, c) ← get_char s c; Some (s, e_char c)
  | e_string v => '(s, v) ← get_string B s v; Some (s, e_string v)
  | e_streamer v => '(s, v) ← get_streamer s v; Some (s, e_streamer v)
  | e_date d => '(s, d) ← get_date s d; Some (s, e_date d)
  end.

(** [uncomress_list(data, ret)], which adds to the set. *)
Definition uncomress_into (T : ctype) (d : bytes) (ret : gset Z) : gset Z :=
  if (sizeof T <=? length d)%nat then uncomress_loop T d (length d) 0 ret else ret.

Definition get_set (T : ctype) (s : streamer) (v : gset Z) : option (streamer * gset Z) :=
  '(s, n) ← get_int U64 s 0;
  if 0 <? n then
    if available s n then d ← substr_at (data s) (read_pos s) n; Some (move s n, uncomress_into T d v) else Some (s, v)
  else Some (s, v).

Fixpoint get_items (sz : nat) (s : streamer) (v : list streamer) : option (streamer * list streamer) :=
  match sz with
  | O => Some (s, v)
  | S sz' => '(s, d) ← get_string 8 s []; get_items sz' s (v ++ [streamer_set d])
  end.
Definition get_streamers (s : streamer) (v : list streamer) : option (streamer * list streamer) :=
  '(s, sz) ← get_int U64 s 0; get_items (Z.to_nat sz) s v.

(** The [sz_bytes] bytes of the bitmap; one that is not in the data stays unset. *)
Fixpoint get_bitmap (sz_bytes : nat) (s : streamer) : option (streamer * list Z) :=
  match sz_bytes with
  | O => Some (s, [])
  | S n => if available s 1 then '(s, b) ← get_int U8 s 0; '(s, l) ← get_bitmap n s; Some (s, b :: l) else None
  end.

Fixpoint unpack_tuple (I : nat) (t : list elem) (bytes : list Z) (s : streamer) : option (streamer * list elem) :=
  match t with
  | [] => Some (s, [])
  | it :: t' =>
      b ← bytes !! (I / 8)%nat;
      '(s, it) ← (if negb (isBitSetted U8 b (Z.of_nat (I mod 8))) then get_elem s it else Some (s, it));
      '(s, t') ← unpack_tuple (S I) t' bytes s;
      Some (s, it :: t')
  end.

Definition get_tuple (s : streamer) (v : list elem) : option (streamer * list elem) :=
  '(s, bytes) ← get_bitmap ((length v + 7) / 8) s; unpack_tuple 0 v bytes s.

(** One [>>] into the variable that holds [v]. *)
Definition get_val (s : streamer) (v : val) : option (streamer * val) :=
  match v with
  | v_elem e => '(s, e) ← get_elem s e; Some (s, v_elem e)
  | v_float b => '(s, b) ← get_float s b; Some (s, v_float b)
  | v_set T l => '(s, l) ← get_set T s l; Some (s, v_set T l)
  | v_streamers l => '(s, l) ← get_streamers s l; Some (s, v_streamers l)
  | v_tuple t => '(s, t) ← get_tuple s t; Some (s, v_tuple t)
  end.

(** [str << v1 << v2 << ...] and [str >> v1 >> v2 >> ...]. *)
Definition put_all (s : streamer) (vs : list val) : streamer := foldl put s vs.

Fixpoint get_all (s : streamer) (vs : list val) : option (streamer * list val) :=
  match vs with
  | [] => Some (s, [])
  | v :: vs' => '(s, v) ← get_val s v; '(s, vs') ← get_all s vs'; Some (s, v :: vs')
  end.

(** ** Skipping *)

(** The length of a skipped string is read from eight bytes, whatever [BYTES_STR_SIZE] is. *)
Definition skip_size (s : streamer) (sk : _skip) : option Z :=
  match sk with
  | none => Some 0
  | _byte => Some 1
  | _int16 => Some 2
  | _int32 => Some 4
  | _int64 | _date_time => Some 8
  | _string =>
      if available s 8 then d ← substr_at (data s) (read_pos s) 8; Some (wrap U64 (8 + chars_to_numeric U64 d)) else Some 0
  end.

Definition skip (s : streamer) (sk : _skip) : option streamer :=
  match sk with
  | none => Some s
  | _ => sz ← skip_size s sk; Some (if available s sz then move s sz else s)
  end.

Definition skip_get (value : bytes) : _skip :=
  if bool_decide (value = lit "_byte") then _byte
  else if bool_decide (value = lit "_string") then _string
  else if bool_decide (value = lit "_date_time") then _date_time
  else if bool_decide (value = lit "_int16") then _int16
  else if bool_decide (value = lit "_int32") then _int32
  else if bool_decide (value = lit "_int64") then _int64
  else none.

Fixpoint skip_all (s : streamer) (exp : list bytes) : option streamer :=
  match exp with [] => Some s | e :: exp' => s ← skip s (skip_get e); skip_all s exp' end.

(** [get_pattern]: skips what all but the last field of [p] name and reads a string; the position
    is put back. *)
Definition get_pattern (s : streamer) (p : bytes) : option bytes :=
  let exp := BasefuncStd.split p (z2b 44) in
  s ← skip_all s (take (length exp - 1) exp);
  '(_, ret) ← get_string B s [];
  Some ret.

Definition fetch_streamer (decompress_string : bytes -> bytes) (s : streamer) (tp : _get_type) : option (streamer * streamer) :=
  '(s, f) ← get_string B s [];
  Some (s, match tp with gt_compress => streamer_set (decompress_string f) | _ => streamer_set f end).

End libc.

Definition fetch_string (bytes_size : nat) (s : streamer) (v : bytes) : option (streamer * bytes) := get_string bytes_size s v.

(** ** What is written *)

Definition stream_ok (s : streamer) : Prop := 0 <= read_pos s <= zlen (data s) /\ zlen (data s) < 2 ^ 63.

(** A string cut to the length that fits its prefix. *)
Definition cut (bytes_str : nat) (v : bytes) : bytes := zsub v 0 (256 ^ Z.of_nat bytes_str - 1).

Definition encode_string (bytes_str : nat) (v : bytes) : bytes :=
  numeric_to_chars_sz (zlen (cut bytes_str v)) bytes_str ++ cut bytes_str v.

(** The bitmap of a tuple, [u] bits of the current byte [b] being used. *)
Fixpoint masks (u : nat) (b : Z) (t : list elem) : list Z :=
  match t with
  | [] => [b]
  | it :: t' =>
      if (u =? 8)%nat then b :: masks 1 (if is_empty_tuple_item it then setBit U8 0 0 else 0) t'
      else masks (S u) (if is_empty_tuple_item it then setBit U8 b (Z.of_nat u) else b) t'
  end.

(** A length prefix of [b] bytes is read back as a [size_t]. *)
Lemma read_length n (b : nat) : (b <= 8)%nat -> 0 <= n < 256 ^ Z.of_nat b -> chars_to_numeric U64 (numeric_to_chars_sz n b) = n.
Proof.
  intros Hb Hn. unfold numeric_to_chars_sz. rewrite chars_to_numeric_value, to_chars_loop_value, Z.mod_small by done.
  apply wrap_id. pose proof (Z.pow_le_mono_r 256 (Z.of_nat b) 8). change (256 ^ 8) with 18446744073709551616 in *. range_lia.
Qed.

Lemma pow256_ge (b : nat) : 1 <= 256 ^ Z.of_nat b.
Proof. pose proof (Z.pow_pos_nonneg 256 (Z.of_nat b)). lia. Qed.

Lemma length_cut b v : zlen (cut b v) = Z.min (zlen v) (256 ^ Z.of_nat b - 1).
Proof. unfold cut. rewrite length_zsub. pose proof (pow256_ge b). lia. Qed.

Lemma length_numeric_to_chars_sz n b : length (numeric_to_chars_sz n b) = b.
Proof. apply length_to_chars_loop. Qed.
#[local] Hint Rewrite length_numeric_to_chars_sz : rssdisk.

Lemma length_encode_string b v : zlen (encode_string b v) = Z.of_nat b + zlen (cut b v).
Proof. unfold encode_string. rewrite length_app, length_numeric_to_chars_sz. lia. Qed.

Lemma append_assoc s a b : append (append s a) b = append s (a ++ b).
Proof. unfold append. simpl. by rewrite app_assoc. Qed.

Lemma append_nil s : append s [] = s.
Proof. destruct s. unfold append. simpl. by rewrite app_nil_r. Qed.

Lemma put_string_encode b s v : put_string b s v = append s (encode_string b v).
Proof.
  unfold put_string, encode_string. rewrite append_assoc. fold (cut b v). do 3 f_equal. rewrite length_cut.
  destruct (Z.ltb_spec (256 ^ Z.of_nat b - 1) (zlen v)); lia.
Qed.

Lemma framed_encode v : zlen v < 2 ^ 63 -> framed v = encode_string 8 v.
Proof.
  intros Hv. unfold framed, encode_string, numeric_to_chars. replace (cut 8 v) with v; [done|].
  unfold cut. rewrite zsub_all; [done|]. change (256 ^ Z.of_nat 8) with (2 ^ 64). lia.
Qed.

Section written.
Context (mktime : Z -> Z -> Z -> Z -> Z -> Z -> Z) (B : nat).

Definition encode_elem (e : elem) : bytes :=
  match e with
  | e_int T n => numeric_to_chars T n
  | e_char c => [c]
  | e_string v => encode_string B v
  | e_streamer v => framed (data v)
  | e_date d => numeric_to_chars I64 (get_time_from_epoch mktime d)
  end.

(** The items of a tuple that are not empty. *)
Fixpoint encode_items (t : list elem) : bytes :=
  match t with [] => [] | it :: t' => (if is_empty_tuple_item it then [] else encode_elem it) ++ encode_items t' end.

Definition encode_bitmap (l : list Z) : bytes := mjoin (numeric_to_chars U8 <$> l).

Definition encode (v : val) : bytes :=
  match v with
  | v_elem e => encode_elem e
  | v_float b => numeric_to_chars U32 b
  | v_set T l => framed (comress_list T (set_order l))
  | v_streamers l => numeric_to_chars U64 (zlen l) ++ mjoin ((fun s => framed (data s)) <$> l)
  | v_tuple t => encode_bitmap (masks 0 0 t) ++ encode_items t
  end.

Definition encode_all (vs : list val) : bytes := mjoin (encode <$> vs).

Lemma put_elem_encode s e : put_elem mktime B s e = append s (encode_elem e).
Proof. destruct e; try done. apply put_string_encode. Qed.

(** After [I] items of a tuple [u] bits of the current byte are in use. *)
Lemma pack_tuple_masks t : forall (I u c : nat) b s d, (I = 8 * c + u)%nat -> (u <= 8)%nat -> (u = 0 -> c = 0)%nat ->
  pack_tuple mktime B I t b s d = (append s (encode_bitmap (masks u b t)), append d (encode_items t)).
Proof.
  induction t as [|it t IH]; intros I u c b s d HI Hu Hc; cbn [pack_tuple masks encode_items].
  - by rewrite append_nil.
  - assert (Hmod : negb (I =? 0)%nat && (I mod 8 =? 0)%nat = (u =? 8)%nat).
    { subst I. destruct (Nat.eqb_spec u 8) as [->|].
      - replace (8 * c + 8)%nat with (S c * 8)%nat by lia. by rewrite Nat.Div0.mod_mul.
      - rewrite Nat.mul_comm, Nat.add_comm, Nat.Div0.mod_add, Nat.mod_small by lia.
        destruct (Nat.eqb_spec u 0) as [->|]; [by rewrite Hc|]. apply andb_false_r. }
    rewrite Hmod. destruct (Nat.eqb_spec u 8) as [->|Hne].
    + replace (I mod 8)%nat with 0%nat by (subst I; replace (8 * c + 8)%nat with (S c * 8)%nat by lia; by rewrite Nat.Div0.mod_mul).
      destruct (is_empty_tuple_item it);
        rewrite (IH _ 1%nat (S c)) by lia; rewrite ?put_elem_encode; unfold put_int; rewrite !append_assoc; done.
    + replace (I mod 8)%nat with u by (subst I; rewrite Nat.mul_comm, Nat.add_comm, Nat.Div0.mod_add, Nat.mod_small; lia).
      destruct (is_empty_tuple_item it); rewrite (IH _ (S u) c) by lia; rewrite ?put_elem_encode, ?append_assoc; done.
Qed.

Lemma put_items_encode l : forall s, put_items s l = append s (mjoin ((fun s => framed (data s)) <$> l)).
Proof.
  induction l as [|x l IH]; intros s; [symmetry; apply append_nil|].
  cbn [put_items]. rewrite IH. unfold put_streamer. by rewrite append_assoc.
Qed.

Lemma put_encode s v : put mktime B s v = append s (encode v).
Proof.
  destruct v as [e|b|T l|l|t]; cbn [put encode]; try done.
  - apply put_elem_encode.
  - unfold put_set, put_int, framed. by rewrite append_assoc.
  - unfold put_streamers, put_int. by rewrite put_items_encode, append_assoc.
  - unfold put_tuple. rewrite (pack_tuple_masks t 0 0 0) by lia. unfold plus_eq. by rewrite append_assoc.
Qed.

Lemma put_all_encode vs : forall s, put_all mktime B s vs = append s (encode_all vs).
Proof.
  induction vs as [|v vs IH]; intros s; [symmetry; apply append_nil|].
  change (put_all mktime B s (v :: vs)) with (put_all mktime B (put mktime B s v) vs).
  rewrite IH, put_encode, append_assoc. done.
Qed.
End written.

(** ** Reading what was written *)

(** Reading [enc] at the position leaves [new] in the variable and stands behind it. *)
Definition reads {A} (g : streamer -> A -> option (streamer * A)) (enc : bytes) (old new : A) : Prop :=
  forall pre post, zlen (pre ++ enc ++ post) < 2 ^ 63 ->
  g (Streamer (pre ++ enc ++ post) (zlen pre)) old = Some (Streamer (pre ++ enc ++ post) (zlen (pre ++ enc)), new).

Section at_position.
Context (pre enc post : bytes) (Hl : zlen (pre ++ enc ++ post) < 2 ^ 63).

Lemma available_at n : 0 <= n <= zlen enc -> available (Streamer (pre ++ enc ++ post) (zlen pre)) n = true.
Proof.
  intros Hn. unfold available. cbn [data read_pos]. rewrite !length_app in *. rewrite wrap_id by range_lia. apply Z.leb_le. lia.
Qed.

Lemma move_at n : n = zlen enc -> move (Streamer (pre ++ enc ++ post) (zlen pre)) n = Streamer (pre ++ enc ++ post) (zlen (pre ++ enc)).
Proof.
  intros ->. unfold move. cbn [data read_pos]. rewrite !length_app in *. rewrite wrap_id by range_lia. f_equal. lia.
Qed.

Lemma substr_at_here n : n = zlen enc -> substr_at (pre ++ enc ++ post) (zlen pre) n = Some enc.
Proof.
  intros ->. unfold substr_at. rewrite (proj2 (Z.ltb_ge _ _)) by (rewrite length_app; lia).
  rewrite zsub_skip, Z.sub_diag by lia. by rewrite zsub_head.
Qed.
End at_position.

Lemma reads_int T n old : in_range T n -> reads (get_int T) (numeric_to_chars T n) old n.
Proof.
  intros Hn pre post Hl. unfold get_int. rewrite available_at by (rewrite ?length_numeric_to_chars; (done || lia)).
  cbn [data read_pos]. rewrite substr_at_here by (by rewrite length_numeric_to_chars). cbn.
  rewrite move_at by (rewrite ?length_numeric_to_chars; done). by rewrite chars_to_numeric_to_chars.
Qed.

Lemma reads_char c old : reads get_char [c] old c.
Proof.
  intros pre post Hl. unfold get_char. rewrite available_at by (done || (simpl; lia)). cbn [data read_pos].
  rewrite Nat2Z.id, lookup_app_r, Nat.sub_diag by lia. 
  exact (f_equal (fun x => Some (x, c)) (move_at pre [c] post Hl 1 eq_refl)).
Qed.

Lemma reads_string b v old : (b <= 8)%nat -> reads (get_string b) (encode_string b v) old (cut b v).
Proof.
  intros Hb pre post Hl. unfold get_string. pose proof (length_encode_string b v) as He. pose proof (pow256_ge b) as Hp.
  pose proof (length_cut b v) as Hc. set (n := zlen (cut b v)) in *.
  rewrite available_at by (done || lia). cbn [data read_pos].
  assert (E1 : substr_at (pre ++ encode_string b v ++ post) (zlen pre) (Z.of_nat b) = Some (numeric_to_chars_sz n b)).
  { unfold encode_string. rewrite <- (app_assoc (numeric_to_chars_sz _ _)). apply substr_at_here. by rewrite length_numeric_to_chars_sz. }
  rewrite E1. cbn [mbind option_bind]. rewrite read_length by lia. rewrite available_at by (done || lia).
  assert (Hw : wrap U64 (zlen pre + Z.of_nat b) = zlen (pre ++ numeric_to_chars_sz n b)).
  { rewrite !length_app in *. rewrite length_numeric_to_chars_sz, wrap_id by range_lia. lia. }
  rewrite Hw. assert (E2 : substr_at (pre ++ encode_string b v ++ post) (zlen (pre ++ numeric_to_chars_sz n b)) n = Some (cut b v)).
  { unfold encode_string. fold n. rewrite <- (app_assoc (numeric_to_chars_sz _ _)), (app_assoc pre). by apply substr_at_here. }
  rewrite E2. cbn [mbind option_bind]. f_equal. f_equal.
  rewrite <- (move_at pre _ post Hl (zlen (encode_string b v))) by done. unfold move. cbn [data read_pos]. f_equal.
  rewrite wrap_add_l. f_equal. lia.
Qed.

Lemma reads_framed v old : zlen v < 2 ^ 63 -> reads (get_string 8) (framed v) old v.
Proof.
  intros Hv. rewrite framed_encode by done. rewrite <- (zsub_all v (256 ^ Z.of_nat 8 - 1)) at 2; [by apply reads_string; lia|].
  change (256 ^ Z.of_nat 8) with (2 ^ 64). lia.
Qed.

(** Two reads after each other. *)
Lemma reads_seq {A C} (g : streamer -> A -> option (streamer * A)) (h : streamer -> C -> option (streamer * C)) e1 e2 old1 new1 old2 new2 pre post :
  reads g e1 old1 new1 -> reads h e2 old2 new2 -> zlen (pre ++ (e1 ++ e2) ++ post) < 2 ^ 63 ->
  g (Streamer (pre ++ (e1 ++ e2) ++ post) (zlen pre)) old1 = Some (Streamer (pre ++ (e1 ++ e2) ++ post) (zlen (pre ++ e1)), new1) /\
  h (Streamer (pre ++ (e1 ++ e2) ++ post) (zlen (pre ++ e1))) old2 = Some (Streamer (pre ++ (e1 ++ e2) ++ post) (zlen (pre ++ e1 ++ e2)), new2).
Proof.
  intros H1 H2 Hl. split.
  - rewrite <- (app_assoc e1) in *. by apply H1.
  - rewrite (app_assoc pre e1 e2). rewrite <- (app_assoc e1), (app_assoc pre e1) in *. by apply H2.
Qed.

(** ** Bitmaps *)

Lemma setBit_byte_computed : forallb (fun b => forallb (fun u => (setBit U8 b u <? 256) && (0 <=? setBit U8 b u) &&
    forallb (fun r => Bool.eqb (isBitSetted U8 (setBit U8 b u) r) ((r =? u) || isBitSetted U8 b r)) (seqZ 0 8)) (seqZ 0 8)) (seqZ 0 256) = true.
Proof. vm_compute. reflexivity. Qed.

Lemma setBit_byte b u : 0 <= b < 256 -> 0 <= u < 8 ->
  0 <= setBit U8 b u < 256 /\ forall r, 0 <= r < 8 -> isBitSetted U8 (setBit U8 b u) r = (r =? u) || isBitSetted U8 b r.
Proof.
  intros Hb Hu. pose proof setBit_byte_computed as H. rewrite forallb_forall in H.
  specialize (H b). rewrite <- list_elem_of_In, elem_of_seqZ in H. specialize (H ltac:(lia)). rewrite forallb_forall in H.
  specialize (H u). rewrite <- list_elem_of_In, elem_of_seqZ in H. specialize (H ltac:(lia)).
  rewrite !andb_true_iff, forallb_forall in H. destruct H as [[H1%Z.ltb_lt H2%Z.leb_le] H3]. split; [lia|].
  intros r Hr. specialize (H3 r). rewrite <- list_elem_of_In, elem_of_seqZ in H3. by apply Bool.eqb_prop, H3; lia.
Qed.

Lemma no_bits r : isBitSetted U8 0 r = false.
Proof. unfold isBitSetted. by rewrite Z.land_0_l. Qed.

(** One more item marked in the current byte. *)
Definition marked (b : Z) (u : nat) (it : elem) : Z := if is_empty_tuple_item it then setBit U8 b (Z.of_nat u) else b.

(** A byte of the bitmap with [u] bits in use. *)
Definition mask_ok (u : nat) (b : Z) : Prop :=
  0 <= b < 256 /\ forall r : nat, (u <= r < 8)%nat -> isBitSetted U8 b (Z.of_nat r) = false.

Lemma mask_ok_0 : mask_ok 0 0.
Proof. split; [lia|]. intros. apply no_bits. Qed.

Lemma marked_spec b u it : mask_ok u b -> (u < 8)%nat ->
  mask_ok (S u) (marked b u it) /\ isBitSetted U8 (marked b u it) (Z.of_nat u) = is_empty_tuple_item it /\
  forall r : nat, (r < u)%nat -> isBitSetted U8 (marked b u it) (Z.of_nat r) = isBitSetted U8 b (Z.of_nat r).
Proof.
  intros [Hb Hz] Hu. unfold marked. destruct (is_empty_tuple_item it).
  - destruct (setBit_byte b (Z.of_nat u)) as [Hr Hs]; [lia..|]. split; [split; [done|]|split].
    + intros r Hr'. rewrite Hs, Hz by lia. destruct (Z.eqb_spec (Z.of_nat r) (Z.of_nat u)); [lia|done].
    + rewrite Hs by lia. by rewrite Z.eqb_refl.
    + intros r Hr'. rewrite Hs by lia. destruct (Z.eqb_spec (Z.of_nat r) (Z.of_nat u)); [lia|done].
  - split; [split; [done|]|split; [apply Hz; lia|done]]. intros r Hr. apply Hz. lia.
Qed.

Lemma masks_cons u b it t : masks u b (it :: t) =
  if (u =? 8)%nat then b :: masks 1 (marked 0 0 it) t else masks (S u) (marked b u it) t.
Proof. done. Qed.

Lemma masks_range t : forall u b, (u <= 8)%nat -> mask_ok u b -> Forall (in_range U8) (masks u b t).
Proof.
  induction t as [|it t IH]; intros u b Hu Hb; [apply Forall_singleton; destruct Hb; range_lia|].
  rewrite masks_cons. destruct (Nat.eqb_spec u 8) as [->|].
  - constructor; [destruct Hb; range_lia|]. apply IH; [lia|]. apply marked_spec; [apply mask_ok_0|lia].
  - apply IH; [lia|]. apply marked_spec; [done|lia].
Qed.

Lemma length_masks t : forall u b, (u <= 8)%nat -> (0 < u + length t)%nat -> length (masks u b t) = ((u + length t + 7) / 8)%nat.
Proof.
  induction t as [|it t IH]; intros u b Hu Hp.
  - cbn [masks length] in *. apply (Nat.div_unique _ _ _ (u - 1)); lia.
  - rewrite masks_cons. cbn [length]. destruct (Nat.eqb_spec u 8) as [->|].
    + cbn [length]. rewrite IH by lia. replace (8 + S (length t) + 7)%nat with ((1 + length t + 7) + 1 * 8)%nat by lia.
      rewrite Nat.div_add by lia. lia.
    + rewrite IH by lia. f_equal. lia.
Qed.

Lemma masks_low t : forall (u r : nat) b, (r < u <= 8)%nat -> mask_ok u b ->
  exists m, masks u b t !! 0%nat = Some m /\ isBitSetted U8 m (Z.of_nat r) = isBitSetted U8 b (Z.of_nat r).
Proof.
  induction t as [|it t IH]; intros u r b Hr Hb; [by exists b|]. rewrite masks_cons. destruct (Nat.eqb_spec u 8); [by exists b|].
  destruct (marked_spec b u it Hb) as (H1 & _ & H3); [lia|]. destruct (IH (S u) r (marked b u it)) as (m & Hm & E); [lia|done|].
  exists m. split; [done|]. rewrite E. apply H3. lia.
Qed.

(** The bit of an item says whether it was left out. *)
Lemma masks_bit t : forall (u j : nat) b it, (u <= 8)%nat -> mask_ok u b -> t !! j = Some it ->
  exists m, masks u b t !! ((u + j) / 8)%nat = Some m /\ isBitSetted U8 m (Z.of_nat ((u + j) mod 8)) = is_empty_tuple_item it.
Proof.
  induction t as [|x t IH]; intros u j b it Hu Hb Hj; [done|]. rewrite masks_cons. destruct (Nat.eqb_spec u 8) as [->|Hne].
  - destruct (marked_spec 0 0 x mask_ok_0) as (H1 & H2 & _); [lia|]. destruct j as [|j].
    + injection Hj as <-. destruct (masks_low t 1 0 (marked 0 0 x)) as (m & Hm & E); [lia|done|]. exists m. by rewrite <- H2, <- E.
    + destruct (IH 1%nat j (marked 0 0 x) it) as (m & Hm & E); [lia|done|done|]. exists m.
      replace (8 + S j)%nat with (1 + j + 1 * 8)%nat by lia. rewrite Nat.div_add, Nat.Div0.mod_add, Nat.add_1_r by lia. done.
  - destruct (marked_spec b u x Hb) as (H1 & H2 & _); [lia|]. destruct j as [|j].
    + injection Hj as <-. rewrite Nat.add_0_r, Nat.div_small, Nat.mod_small by lia.
      destruct (masks_low t (S u) u (marked b u x)) as (m & Hm & E); [lia|done|]. exists m. by rewrite <- H2, <- E.
    + replace (u + S j)%nat with (S u + j)%nat by lia. apply (IH (S u) j); [lia|done|done].
Qed.

(** ** What a variable holds after reading *)

Section round_trip.
Context (mktime : Z -> Z -> Z -> Z -> Z -> Z -> Z) (localtime_r : Z -> Z * Z * Z * Z * Z * Z * Z).
Context (B : nat) (HB : (B <= 8)%nat).

Definition received_elem (old new : elem) : elem :=
  match old, new with
  | e_string _, e_string v => e_string (cut B v)
  | e_streamer _, e_streamer s => e_streamer (streamer_set (data s))
  | e_date o, e_date d =>
      let t := get_time_from_epoch mktime d in
      e_date (if negb (t =? 0) then current_date_time localtime_r t else o)
  | _, _ => new
  end.

(** An item of a tuple that was empty leaves the variable as it is; sets and vectors are added to. *)
Definition received (old new : val) : val :=
  match old, new with
  | v_elem o, v_elem e => v_elem (received_elem o e)
  | v_set _ o, v_set T l => v_set T (l ∪ o)
  | v_streamers o, v_streamers l => v_streamers (o ++ ((fun s => streamer_set (data s)) <$> l))
  | v_tuple o, v_tuple t => v_tuple (zip_with (fun x e => if is_empty_tuple_item e then x else received_elem x e) o t)
  | _, _ => new
  end.

Definition same_elem_type (a b : elem) : Prop :=
  match a, b with
  | e_int T _, e_int T' _ => T = T'
  | e_char _, e_char _ | e_string _, e_string _ | e_streamer _, e_streamer _ | e_date _, e_date _ => True
  | _, _ => False
  end.

Definition same_type (a b : val) : Prop :=
  match a, b with
  | v_elem x, v_elem y => same_elem_type x y
  | v_float _, v_float _ | v_streamers _, v_streamers _ => True
  | v_set T _, v_set T' _ => T = T'
  | v_tuple x, v_tuple y => Forall2 same_elem_type x y
  | _, _ => False
  end.

Definition elem_ok (e : elem) : Prop :=
  match e with
  | e_int T n => in_range T n
  | e_streamer s => zlen (data s) < 2 ^ 63
  | e_date d => in_range I64 (get_time_from_epoch mktime d)
  | _ => True
  end.

(** The values that a variable of the type can hold; a tuple has an item. *)
Definition val_ok (v : val) : Prop :=
  match v with
  | v_elem e => elem_ok e
  | v_float b => in_range U32 b
  | v_set T l => set_Forall (in_range T) l /\ zlen (comress_list T (set_order l)) < 2 ^ 63
  | v_streamers l => Forall (fun s => zlen (data s) < 2 ^ 63) l /\ zlen l < 2 ^ 63
  | v_tuple t => t <> [] /\ Forall elem_ok t
  end.

Lemma reads_elem old e : same_elem_type old e -> elem_ok e ->
  reads (get_elem localtime_r B) (encode_elem mktime B e) old (received_elem old e).
Proof.
  intros Ht He pre post Hl. destruct old, e; try done; cbn [same_elem_type elem_ok encode_elem received_elem get_elem] in *.
  - subst. rewrite (reads_int _ n0 n) by done. done.
  - rewrite (reads_char c0 c) by done. done.
  - rewrite reads_string by done. done.
  - unfold get_streamer. rewrite (reads_framed (data s0)) by done. done.
  - unfold get_date. set (t := get_time_from_epoch mktime d0) in *.
    rewrite available_at by (rewrite ?length_numeric_to_chars; (done || simpl; lia)). cbn [data read_pos].
    rewrite substr_at_here by (by rewrite length_numeric_to_chars). cbn [mbind option_bind].
    rewrite move_at by (rewrite ?length_numeric_to_chars; done). by rewrite chars_to_numeric_to_chars.
Qed.

Lemma list_to_set_order (l : gset Z) : list_to_set (set_order l) = l.
Proof.
  unfold set_order. apply set_eq. intros x. rewrite elem_of_list_to_set.
  rewrite (merge_sort_Permutation Z.le (elements l)). apply elem_of_elements.
Qed.

Lemma uncomress_into_comress T l ret : Forall (in_range T) l -> uncomress_into T (comress_list T l) ret = list_to_set l ∪ ret.
Proof.
  intros Hl. rewrite comress_list_join. unfold uncomress_into.
  destruct (Nat.leb_spec (sizeof T) (length (mjoin (numeric_to_chars T <$> l)))) as [?|Hlt].
  - pose proof (uncomress_loop_app T [] l (length (mjoin (numeric_to_chars T <$> l))) ret Hl) as E. simpl in E. by apply E.
  - destruct l as [|x l]; [simpl; set_solver|]. simpl in Hlt. rewrite length_app, length_numeric_to_chars in Hlt. lia.
Qed.

Lemma reads_set T l o : val_ok (v_set T l) -> reads (get_set T) (encode mktime B (v_set T l)) o (l ∪ o).
Proof.
  intros [Hr Hn] pre post Hl. cbn [encode] in *. unfold framed in *. set (d := comress_list T (set_order l)) in *.
  assert (Hd : forall r, uncomress_into T d r = l ∪ r).
  { intros r. unfold d. rewrite uncomress_into_comress, list_to_set_order; [done|]. rewrite Forall_forall. intros x Hx.
    apply Hr. rewrite <- (list_to_set_order l). by apply elem_of_list_to_set. }
  assert (E : get_int U64 (Streamer (pre ++ (numeric_to_chars U64 (zlen d) ++ d) ++ post) (zlen pre)) 0 =
    Some (Streamer (pre ++ (numeric_to_chars U64 (zlen d) ++ d) ++ post) (zlen (pre ++ numeric_to_chars U64 (zlen d))), zlen d)).
  { rewrite <- (app_assoc (numeric_to_chars _ _)) in *. apply reads_int; [range_lia|done]. }
  unfold get_set. rewrite E. cbn [mbind option_bind]. clear E. rewrite <- (app_assoc (numeric_to_chars _ _)) in *. rewrite (app_assoc pre), (app_assoc pre _ d) in *.
  destruct (Z.ltb_spec 0 (zlen d)) as [Hp|Hp].
  - rewrite available_at by (done || lia). cbn [data read_pos]. rewrite substr_at_here by done. cbn [mbind option_bind].
    rewrite move_at by done. by rewrite Hd.
  - clearbody d. destruct d as [|c d]; [|simpl in Hp; lia]. rewrite <- (Hd o), app_nil_r. by destruct T.
Qed.

Lemma reads_items l : Forall (fun s => zlen (data s) < 2 ^ 63) l -> forall o,
  reads (get_items (length l)) (mjoin ((fun s => framed (data s)) <$> l)) o (o ++ ((fun s => streamer_set (data s)) <$> l)).
Proof.
  induction l as [|x l IH]; intros Hok o pre post Hl.
  - cbn. by rewrite !app_nil_r.
  - apply Forall_cons in Hok as [Hx Hok]. cbn [length get_items]. rewrite fmap_cons, join_cons in *.
    destruct (reads_seq (get_string 8) (get_items (length l)) (framed (data x)) (mjoin ((fun s => framed (data s)) <$> l))
      [] (data x) (o ++ [streamer_set (data x)]) _ pre post (reads_framed _ _ Hx) (IH Hok _) Hl) as [E1 E2].
    rewrite E1. cbn [mbind option_bind]. rewrite E2. by rewrite <- (app_assoc o).
Qed.

Lemma reads_streamers l o : val_ok (v_streamers l) ->
  reads get_streamers (encode mktime B (v_streamers l)) o (o ++ ((fun s => streamer_set (data s)) <$> l)).
Proof.
  intros [Hok Hn] pre post Hl. cbn [encode] in *. unfold get_streamers. assert (Hr : in_range U64 (zlen l)) by (apply in_range_U64; lia).
  destruct (reads_seq (get_int U64) (get_items (length l)) (numeric_to_chars U64 (zlen l)) (mjoin ((fun s => framed (data s)) <$> l))
    0 (zlen l) o _ pre post (reads_int _ _ _ Hr) (reads_items l Hok o) Hl) as [E1 E2].
  rewrite E1. cbn [mbind option_bind]. rewrite Nat2Z.id. done.
Qed.

Lemma reads_bitmap l : Forall (in_range U8) l -> forall pre post, zlen (pre ++ encode_bitmap l ++ post) < 2 ^ 63 ->
  get_bitmap (length l) (Streamer (pre ++ encode_bitmap l ++ post) (zlen pre)) =
    Some (Streamer (pre ++ encode_bitmap l ++ post) (zlen (pre ++ encode_bitmap l)), l).
Proof.
  unfold encode_bitmap. induction 1 as [|b l Hb Hok IH]; intros pre post Hl; [cbn; by rewrite app_nil_r|].
  rewrite fmap_cons, join_cons, <- app_assoc in *. cbn [length get_bitmap].
  rewrite available_at by (rewrite ?length_numeric_to_chars; (done || simpl; lia)).
  rewrite (reads_int _ b 0 Hb) by done. cbn [mbind option_bind]. rewrite (app_assoc pre) in *. rewrite IH by done.
  cbn [mbind option_bind]. by rewrite <- !app_assoc.
Qed.

(** An item that the bitmap marks is left alone. *)
Definition received_item (x e : elem) : elem := if is_empty_tuple_item e then x else received_elem x e.

Lemma unpack_items l t : forall (I : nat) o pre post, Forall2 same_elem_type o t -> Forall elem_ok t ->
  (forall (j : nat) it, t !! j = Some it -> exists m, l !! ((I + j) / 8)%nat = Some m /\ isBitSetted U8 m (Z.of_nat ((I + j) mod 8)) = is_empty_tuple_item it) ->
  zlen (pre ++ encode_items mktime B t ++ post) < 2 ^ 63 ->
  unpack_tuple localtime_r B I o l (Streamer (pre ++ encode_items mktime B t ++ post) (zlen pre)) =
    Some (Streamer (pre ++ encode_items mktime B t ++ post) (zlen (pre ++ encode_items mktime B t)), zip_with received_item o t).
Proof.
  induction t as [|e t IH]; intros I o pre post Ht Hok Hbits Hl.
  - apply Forall2_nil_inv_r in Ht as ->. cbn. by rewrite app_nil_r.
  - apply Forall2_cons_inv_r in Ht as (x & o' & Hx & Ho & ->). apply Forall_cons in Hok as [He Hok].
    destruct (Hbits 0%nat e eq_refl) as (m & Hm & Hbit). rewrite Nat.add_0_r in Hm, Hbit.
    assert (Hbits' : forall (j : nat) it, t !! j = Some it -> exists m, l !! ((S I + j) / 8)%nat = Some m /\
      isBitSetted U8 m (Z.of_nat ((S I + j) mod 8)) = is_empty_tuple_item it).
    { intros j it Hj. destruct (Hbits (S j) it Hj) as (m' & H1 & H2). exists m'.
      replace (S I + j)%nat with (I + S j)%nat by lia. done. }
    cbn [unpack_tuple encode_items zip_with] in *. rewrite Hm. cbn [mbind option_bind]. rewrite Hbit.
    unfold received_item at 1. destruct (is_empty_tuple_item e); cbn [negb].
    + cbn [mbind option_bind app] in *. by rewrite IH.
    + rewrite <- (app_assoc (encode_elem mktime B e)) in *. rewrite reads_elem by done. cbn [mbind option_bind].
      rewrite (app_assoc pre) in *. rewrite IH by done. cbn [mbind option_bind]. by rewrite <- !app_assoc.
Qed.

Lemma reads_tuple o t : Forall2 same_elem_type o t -> val_ok (v_tuple t) ->
  reads (get_tuple localtime_r B) (encode mktime B (v_tuple t)) o (zip_with received_item o t).
Proof.
  intros Ht [Hne Hok] pre post Hl. cbn [encode] in *. unfold get_tuple.
  assert (Hn : (0 < length t)%nat) by (destruct t; [done|simpl; lia]).
  pose proof (length_masks t 0 0 ltac:(lia) Hn) as Hm. rewrite Nat.add_0_l in Hm. rewrite (Forall2_length _ _ _ Ht), <- Hm.
  rewrite <- (app_assoc (encode_bitmap _)) in *. rewrite reads_bitmap by (done || (apply masks_range; [lia|apply mask_ok_0])).
  cbn [mbind option_bind]. rewrite (app_assoc pre) in *. rewrite unpack_items; [by rewrite <- !app_assoc|done..| |done].
  intros j it Hj. apply (masks_bit t 0 j); [lia|apply mask_ok_0|done].
Qed.

Lemma reads_val old v : same_type old v -> val_ok v -> reads (get_val localtime_r B) (encode mktime B v) old (received old v).
Proof.
  intros Ht Hv pre post Hl. destruct old, v; try done; cbn [get_val received same_type val_ok] in *.
  - cbn [encode] in *. rewrite reads_elem by done. done.
  - cbn [encode] in *. unfold get_float. rewrite (reads_int U32 b0) by done. done.
  - subst. rewrite reads_set by done. done.
  - rewrite reads_streamers by done. done.
  - rewrite reads_tuple by done. done.
Qed.

Lemma reads_all vs : forall olds, Forall2 same_type olds vs -> Forall val_ok vs ->
  reads (get_all localtime_r B) (encode_all mktime B vs) olds (zip_with received olds vs).
Proof.
  induction vs as [|v vs IH]; intros olds Ht Hok pre post Hl.
  - apply Forall2_nil_inv_r in Ht as ->. cbn. by rewrite app_nil_r.
  - apply Forall2_cons_inv_r in Ht as (x & o' & Hx & Ho & ->). apply Forall_cons in Hok as [Hv Hok].
    unfold encode_all in *. rewrite fmap_cons, join_cons in *. cbn [get_all zip_with].
    destruct (reads_seq (get_val localtime_r B) (get_all localtime_r B) (encode mktime B v) (mjoin (encode mktime B <$> vs))
      x _ o' _ pre post (reads_val x v Hx Hv) (IH o' Ho Hok) Hl) as [E1 E2].
    rewrite E1. cbn [mbind option_bind]. rewrite E2. done.
Qed.

(** ** Fresh variables *)

(** A date that has been declared and not assigned. *)
Definition no_date : date_time := DateTime (Date 0 0 0 0 false) (Time 0 0 0 0 false).

(** Values that a fresh variable gets exactly: strings that fit their prefix, streamers that have
    not been read from, and dates that the clock of the library gives back. *)
Definition exact_elem (e : elem) : Prop :=
  match e with
  | e_string v => zlen v < 256 ^ Z.of_nat B
  | e_streamer s => read_pos s = 0
  | e_date d => d = no_date \/ (get_time_from_epoch mktime d <> 0 /\ current_date_time localtime_r (get_time_from_epoch mktime d) = d)
  | _ => True
  end.
Definition exact (v : val) : Prop :=
  match v with
  | v_elem e => exact_elem e
  | v_streamers l => Forall (fun s => read_pos s = 0) l
  | v_tuple t => Forall exact_elem t
  | _ => True
  end.

(** A variable that has been declared and not assigned. *)
Definition fresh_elem (e : elem) : elem :=
  match e with
  | e_int T _ => e_int T 0
  | e_char _ => e_char (z2b 0)
  | e_string _ => e_string []
  | e_streamer _ => e_streamer empty_streamer
  | e_date _ => e_date no_date
  end.
Definition fresh (v : val) : val :=
  match v with
  | v_elem e => v_elem (fresh_elem e)
  | v_float _ => v_float 0
  | v_set T _ => v_set T ∅
  | v_streamers _ => v_streamers []
  | v_tuple t => v_tuple (fresh_elem <$> t)
  end.

Lemma received_fresh_elem e : exact_elem e -> received_elem (fresh_elem e) e = e.
Proof.
  destruct e as [T n|c|v|[d p]|d]; cbn [received_elem fresh_elem exact_elem]; try done.
  - intros H. f_equal. unfold cut. apply zsub_all. lia.
  - intros Hp. cbn in Hp. by rewrite Hp.
  - intros [->|[Hn E]]; [done|]. rewrite (proj2 (Z.eqb_neq _ _) Hn). cbn [negb]. by rewrite E.
Qed.

Lemma fresh_empty_elem e : exact_elem e -> is_empty_tuple_item e = true -> fresh_elem e = e.
Proof.
  destruct e as [T n|c|v|[d p]|d]; cbn [exact_elem is_empty_tuple_item fresh_elem].
  - by intros _ ->%Z.eqb_eq.
  - intros _ E%Z.eqb_eq. f_equal. by apply b2z_inj.
  - intros _ E%Z.eqb_eq. by destruct v.
  - unfold streamer_empty. cbn [data read_pos]. intros Hp E%Z.eqb_eq. subst p. by destruct d.
  - intros [->|[_ E]] H; [done|]. rewrite <- E in H. unfold current_date_time in H.
    by destruct (localtime_r _) as [[[[[[y mo] dd] yd] h] mi] sec].
Qed.

Lemma received_fresh v : exact v -> received (fresh v) v = v.
Proof.
  destruct v as [e|b|T l|l|t]; cbn [received fresh exact]; try done.
  - intros H. by rewrite received_fresh_elem.
  - intros _. by rewrite (right_id_L ∅ (∪)).
  - intros H. f_equal. simpl. induction H as [|[d p] l Hp H IH]; [done|]. rewrite fmap_cons, IH. cbn in Hp. by subst.
  - intros H. f_equal. induction H as [|e t He H IH]; [done|]. rewrite fmap_cons. cbn [zip_with]. rewrite IH. f_equal.
    destruct (is_empty_tuple_item e) eqn:E; [by apply fresh_empty_elem|by apply received_fresh_elem].
Qed.

Lemma received_all_fresh vs : Forall exact vs -> zip_with received (fresh <$> vs) vs = vs.
Proof. induction 1 as [|v vs Hv H IH]; [done|]. rewrite fmap_cons. cbn [zip_with]. by rewrite IH, received_fresh. Qed.

End round_trip.

(** ** Any data *)

Section any_data.
Context (localtime_r : Z -> Z * Z * Z * Z * Z * Z * Z) (B : nat).

(** A read of any data stays inside of it. *)
Definition stays {A} (s : streamer) (r : option (streamer * A)) : Prop :=
  forall s' v, r = Some (s', v) -> stream_ok s' /\ data s' = data s.

Lemma stays_same {A} s (v : A) : stream_ok s -> stays s (Some (s, v)).
Proof. by intros H s' v' [= <- _]. Qed.

Lemma stays_move {A} s n (v : A) : stream_ok s -> available s n = true -> stays s (Some (move s n, v)).
Proof.
  intros [H1 H2] Ha s' v' [= <- _]. unfold available in Ha. apply Z.leb_le in Ha. unfold stream_ok, move. cbn [data read_pos].
  pose proof (wrap_in_range U64 (read_pos s + n)). split; [split|]; [range_lia|done|done].
Qed.

Lemma substr_at_inside s n : stream_ok s -> substr_at (data s) (read_pos s) n = Some (zsub (data s) (read_pos s) n).
Proof. intros [H _]. unfold substr_at. rewrite (proj2 (Z.ltb_ge _ _)) by lia. done. Qed.

(** A read that succeeds on a stream that is in order, and stays inside of it. *)
Definition total {A} (s : streamer) (r : option (streamer * A)) : Prop := is_Some r /\ stays s r.

Lemma total_same {A} s (v : A) : stream_ok s -> total s (Some (s, v)).
Proof. intros. split; [by eexists|by apply stays_same]. Qed.

Lemma total_move {A} s n (v : A) : stream_ok s -> available s n = true -> total s (Some (move s n, v)).
Proof. intros. split; [by eexists|by apply stays_move]. Qed.

Lemma total_bind {A C} s (r : option (streamer * A)) (k : streamer * A -> option (streamer * C)) :
  total s r -> (forall s' v, stream_ok s' -> data s' = data s -> total s' (k (s', v))) -> total s (r ≫= k).
Proof.
  intros [[[s1 v1] E] Hs] Hk. destruct (Hs s1 v1 E) as [Hok Hd]. rewrite E. cbn [mbind option_bind].
  destruct (Hk s1 v1 Hok Hd) as [H1 H2]. split; [done|]. intros s' v Es. destruct (H2 s' v Es) as [? Hd']. by rewrite Hd', Hd.
Qed.

Lemma total_int T s v : stream_ok s -> total s (get_int T s v).
Proof.
  intros Hs. unfold get_int. destruct (available s _) eqn:E; [|by apply total_same].
  rewrite substr_at_inside by done. cbn [mbind option_bind]. by apply total_move.
Qed.

Lemma total_char s v : stream_ok s -> total s (get_char s v).
Proof.
  intros Hs. unfold get_char. destruct (available s 1) eqn:E; [|by apply total_same].
  assert (Hp : (Z.to_nat (read_pos s) < length (data s))%nat).
  { unfold available in E. apply Z.leb_le in E. destruct Hs. rewrite wrap_id in E by range_lia. lia. }
  apply lookup_lt_is_Some in Hp as [c Hc]. rewrite Hc. cbn [mbind option_bind]. by apply total_move.
Qed.

Lemma move_move s a b : move (move s a) b = move s (a + b).
Proof. unfold move. cbn [data read_pos]. rewrite wrap_add_l. do 2 f_equal. lia. Qed.

Lemma total_string b s v : stream_ok s -> total s (get_string b s v).
Proof.
  intros Hs. unfold get_string. destruct (available s (Z.of_nat b)) eqn:E; [|by apply total_same].
  rewrite substr_at_inside by done. cbn [mbind option_bind].
  destruct (available s (_ + _)) eqn:E2; [|by apply total_same].
  unfold substr_at. unfold available in E. rewrite (proj2 (Z.ltb_ge _ _)) by (apply Z.leb_le in E; lia). cbn [mbind option_bind].
  rewrite move_move. by apply total_move.
Qed.

Lemma total_elem s e : stream_ok s -> total s (get_elem localtime_r B s e).
Proof.
  intros Hs. destruct e; cbn [get_elem]; (eapply total_bind; [|intros; by apply total_same]);
    auto using total_int, total_char, total_string.
  - unfold get_streamer. eapply total_bind; [by apply total_string|]. intros. by apply total_same.
  - unfold get_date. destruct (available s 8) eqn:E; [|by apply total_same]. rewrite substr_at_inside by done. cbn [mbind option_bind].
    by apply total_move.
Qed.

Lemma total_items n : forall s v, stream_ok s -> total s (get_items n s v).
Proof.
  induction n as [|n IH]; intros s v Hs; [by apply total_same|]. cbn [get_items].
  eapply total_bind; [by apply total_string|]. intros. by apply IH.
Qed.

Lemma total_set T s v : stream_ok s -> total s (get_set T s v).
Proof.
  intros Hs. unfold get_set. eapply total_bind; [by apply total_int|]. intros s' n Hs' _. destruct (0 <? n); [|by apply total_same].
  destruct (available s' n) eqn:E; [|by apply total_same]. rewrite substr_at_inside by done. cbn [mbind option_bind]. by apply total_move.
Qed.

Lemma total_unpack l t : forall (I : nat) s, (I + length t <= 8 * length l)%nat -> stream_ok s -> total s (unpack_tuple localtime_r B I t l s).
Proof.
  induction t as [|e t IH]; intros I s Hl Hs; [by apply total_same|]. cbn [unpack_tuple length] in *.
  assert (Hi : (I / 8 < length l)%nat) by (apply Nat.Div0.div_lt_upper_bound; lia).
  apply lookup_lt_is_Some in Hi as [m ->]. cbn [mbind option_bind]. eapply total_bind.
  - destruct (negb _); [by apply total_elem|by apply total_same].
  - intros s1 e1 H1 _. eapply total_bind; [apply IH; [lia|done]|]. intros. by apply total_same.
Qed.

Lemma bitmap_stays n : forall s s' l, stream_ok s -> get_bitmap n s = Some (s', l) -> stream_ok s' /\ data s' = data s /\ length l = n.
Proof.
  induction n as [|n IH]; intros s s' l Hs E; cbn [get_bitmap] in E; [by injection E as <- <-|].
  destruct (available s 1); [|done]. destruct (total_int U8 s 0 Hs) as [[[s1 b] E1] Hst]. destruct (Hst s1 b E1) as [Hs1 Hd1].
  rewrite E1 in E. cbn [mbind option_bind] in E. destruct (get_bitmap n s1) as [[s2 l2]|] eqn:E2; [|done].
  injection E as <- <-. destruct (IH s1 s2 l2 Hs1 E2) as (? & Hd & <-). by rewrite Hd, Hd1.
Qed.
End any_data.

(** ** The claims *)

(** Values that are appended to a stream with [<<], integers, characters, floats, strings,
    dates, sets, streamers, vectors of them and tuples in any order, are read back by the same
    sequence of [>>], whatever else is appended later: every variable holds what [received] says,
    the position stands behind the last value, and fresh variables hold the values themselves. *)
Theorem streamer_round_trip mktime localtime_r B s vs olds post :
  (B <= 8)%nat -> stream_ok s -> read_pos s = zlen (data s) -> Forall (val_ok mktime) vs -> Forall2 same_type olds vs ->
  zlen (data (append (put_all mktime B s vs) post)) < 2 ^ 63 ->
  get_all localtime_r B (append (put_all mktime B s vs) post) olds =
    Some (Streamer (data (append (put_all mktime B s vs) post)) (zlen (data (put_all mktime B s vs))),
          zip_with (received mktime localtime_r B) olds vs) /\
  (Forall (exact mktime localtime_r B) vs -> olds = fresh <$> vs -> zip_with (received mktime localtime_r B) olds vs = vs).
Proof.
  intros HB Hs Hp Hok Ht. rewrite put_all_encode. unfold append. cbn [data read_pos]. rewrite <- app_assoc, Hp. intros Hl. split.
  - by apply reads_all.
  - intros He ->. by apply received_all_fresh.
Qed.

(** Whatever the data are, a read neither throws nor leaves the data, except that of a tuple whose
    bitmap is not there. *)
Theorem streamer_reads_inside localtime_r B s v : stream_ok s ->
  match get_val localtime_r B s v with
  | Some (s', _) => stream_ok s' /\ data s' = data s
  | None => exists t, v = v_tuple t /\ get_bitmap ((length t + 7) / 8) s = None
  end.
Proof.
  intros Hs. assert (Ht : forall v' : val, (forall t, v <> v_tuple t) -> total s (get_val localtime_r B s v)).
  { intros v' Hv. destruct v as [e|b|T l|l|t]; cbn [get_val]; (eapply total_bind; [|intros; by apply total_same]).
    - by apply total_elem.
    - by apply total_int.
    - by apply total_set.
    - unfold get_streamers. eapply total_bind; [by apply total_int|]. intros. by apply total_items.
    - by destruct (Hv t). }
  destruct v as [e|b|T l|l|t].
  1-4: destruct (Ht (v_float 0) ltac:(done)) as [[[s' v'] E] Hst]; rewrite E; by apply (Hst s' v').
  cbn [get_val]. unfold get_tuple. destruct (get_bitmap _ s) as [[s1 l]|] eqn:E; cbn [mbind option_bind]; [|by exists t].
  apply bitmap_stays in E as (H1 & Hd & Hn); [|done].
  destruct (total_unpack localtime_r B l t 0 s1) as [[[s2 t2] E2] Hst]; [|done|].
  - rewrite Hn. pose proof (Nat.div_mod_eq (length t + 7) 8). pose proof (Nat.mod_upper_bound (length t + 7) 8). lia.
  - rewrite E2. cbn [mbind option_bind]. destruct (Hst s2 t2 E2) as [? Hd2]. by rewrite Hd2, Hd.
Qed.

(** A length prefix of [2^64 - 8] wraps around: the string is read, and the position stays. *)
Theorem string_length_wraps rest v : 8 + zlen rest < 2 ^ 63 ->
  let s := Streamer (numeric_to_chars U64 (2 ^ 64 - 8) ++ rest) 0 in get_string 8 s v = Some (s, rest).
Proof.
  intros Hl s. unfold get_string. change (Z.of_nat 8) with 8.
  assert (Hn : chars_to_numeric U64 (numeric_to_chars U64 (2 ^ 64 - 8)) = 2 ^ 64 - 8) by (by apply chars_to_numeric_to_chars).
  assert (Ha : forall n, 0 <= n <= 8 -> available s n = true).
  { intros n Hn'. unfold available, s. cbn [data read_pos]. rewrite wrap_id by range_lia. rewrite length_app, length_numeric_to_chars.
    apply Z.leb_le. simpl. lia. }
  assert (E1 : substr_at (data s) (read_pos s) 8 = Some (numeric_to_chars U64 (2 ^ 64 - 8))).
  { apply (substr_at_here [] _ rest). by rewrite length_numeric_to_chars. }
  assert (E2 : substr_at (data s) (wrap U64 (read_pos s + 8)) (2 ^ 64 - 8) = Some rest).
  { change (wrap U64 (read_pos s + 8)) with 8. unfold substr_at, s. cbn [data].
    rewrite (proj2 (Z.ltb_ge _ _)) by (rewrite length_app, length_numeric_to_chars; simpl; lia).
    rewrite zsub_skip by (by rewrite length_numeric_to_chars). rewrite length_numeric_to_chars. change (8 - Z.of_nat (sizeof U64)) with 0.
    rewrite zsub_all by lia. done. }
  rewrite Ha, E1 by lia. cbn [mbind option_bind]. rewrite Hn, E2.
  replace (available s (8 + (2 ^ 64 - 8))) with (available s 0) by done. by rewrite Ha by lia.
Qed.

(** ** Patterns *)

(** The word of a pattern that skips an item. *)
Definition skip_name (e : elem) : bytes :=
  match e with
  | e_char _ | e_int U8 _ => lit "_byte"
  | e_int I16 _ => lit "_int16"
  | e_int (I32 | U32) _ => lit "_int32"
  | e_int (I64 | U64) _ => lit "_int64"
  | e_string _ | e_streamer _ => lit "_string"
  | e_date _ => lit "_date_time"
  end.

Lemma skip_fixed sk n pre enc post : zlen (pre ++ enc ++ post) < 2 ^ 63 -> sk <> none -> n = zlen enc ->
  skip_size (Streamer (pre ++ enc ++ post) (zlen pre)) sk = Some n ->
  skip (Streamer (pre ++ enc ++ post) (zlen pre)) sk = Some (Streamer (pre ++ enc ++ post) (zlen (pre ++ enc))).
Proof.
  intros Hl Hk -> E. unfold skip. destruct sk; try done; rewrite E; cbn [mbind option_bind]; rewrite available_at by (done || lia);
    by rewrite move_at.
Qed.

Lemma skip_string v pre post : zlen v < 2 ^ 63 -> zlen (pre ++ framed v ++ post) < 2 ^ 63 ->
  skip (Streamer (pre ++ framed v ++ post) (zlen pre)) _string = Some (Streamer (pre ++ framed v ++ post) (zlen (pre ++ framed v))).
Proof.
  intros Hv Hl. assert (Hf : zlen (framed v) = 8 + zlen v) by (unfold framed; rewrite length_app, length_numeric_to_chars; simpl; lia).
  apply (skip_fixed _ (8 + zlen v)); [done..|]. unfold skip_size. rewrite available_at by (done || lia). cbn [data read_pos].
  unfold framed. rewrite <- (app_assoc (numeric_to_chars _ _)), substr_at_here by (by rewrite length_numeric_to_chars).
  cbn [mbind option_bind]. rewrite chars_to_numeric_to_chars, wrap_id by range_lia. done.
Qed.

Section patterns.
Context (mktime : Z -> Z -> Z -> Z -> Z -> Z -> Z).

(** The items that can be skipped: a string and a streamer have a length that fits. *)
Definition skippable (e : elem) : Prop :=
  match e with e_string v => zlen v < 2 ^ 63 | e_streamer s => zlen (data s) < 2 ^ 63 | _ => True end.

Lemma skip_elem e pre post : skippable e -> zlen (pre ++ encode_elem mktime 8 e ++ post) < 2 ^ 63 ->
  skip (Streamer (pre ++ encode_elem mktime 8 e ++ post) (zlen pre)) (skip_get (skip_name e)) =
    Some (Streamer (pre ++ encode_elem mktime 8 e ++ post) (zlen (pre ++ encode_elem mktime 8 e))).
Proof.
  intros He Hl. destruct e as [T n|c|v|s|d]; cbn [encode_elem skippable] in *.
  - destruct T; (eapply skip_fixed; [done|done| |reflexivity]); by rewrite length_numeric_to_chars.
  - by eapply skip_fixed; [done|done| |reflexivity].
  - rewrite <- framed_encode in * by done. by apply skip_string.
  - by apply skip_string.
  - eapply skip_fixed; [done|done| |reflexivity]. by rewrite length_numeric_to_chars.
Qed.

Lemma skip_elems es : Forall skippable es -> forall pre post, zlen (pre ++ mjoin (encode_elem mktime 8 <$> es) ++ post) < 2 ^ 63 ->
  skip_all (Streamer (pre ++ mjoin (encode_elem mktime 8 <$> es) ++ post) (zlen pre)) (skip_name <$> es) =
    Some (Streamer (pre ++ mjoin (encode_elem mktime 8 <$> es) ++ post) (zlen (pre ++ mjoin (encode_elem mktime 8 <$> es)))).
Proof.
  induction 1 as [|e es He Hes IH]; intros pre post Hl; [cbn; by rewrite app_nil_r|].
  rewrite !fmap_cons, join_cons, <- app_assoc in *. cbn [skip_all]. rewrite skip_elem by done. cbn [mbind option_bind].
  rewrite (app_assoc pre) in *. rewrite IH by done. by rewrite <- !app_assoc.
Qed.
End patterns.

Lemma skip_name_no_comma e : z2b 44 ∉ skip_name e.
Proof. destruct e as [[]| | | |]; by apply (bool_decide_unpack _). Qed.

Lemma split_pattern es : BasefuncStd.split (BasefuncStd.join (z2b 44) ((skip_name <$> es) ++ [lit "_string"])) (z2b 44) =
  (skip_name <$> es) ++ [lit "_string"].
Proof.
  apply split_join; [|by rewrite last_snoc]. apply Forall_app. split; [|apply Forall_singleton; apply (skip_name_no_comma (e_string []))].
  apply Forall_fmap, Forall_true. intros e. apply skip_name_no_comma.
Qed.

(** With lengths of eight bytes, a pattern that names the types of the values before it finds a
    string. *)
Theorem get_pattern_finds mktime s es v post : stream_ok s -> read_pos s = zlen (data s) -> Forall skippable es -> zlen v < 2 ^ 63 ->
  zlen (data (append (put_all mktime 8 s ((v_elem <$> es) ++ [v_elem (e_string v)])) post)) < 2 ^ 63 ->
  get_pattern 8 (append (put_all mktime 8 s ((v_elem <$> es) ++ [v_elem (e_string v)])) post)
    (BasefuncStd.join (z2b 44) ((skip_name <$> es) ++ [lit "_string"])) = Some v.
Proof.
  intros Hs Hp Hes Hv. rewrite put_all_encode. unfold get_pattern, append. cbn [data read_pos]. rewrite split_pattern, Hp.
  replace (length ((skip_name <$> es) ++ [lit "_string"]) - 1)%nat with (length (skip_name <$> es)) by (rewrite length_app; simpl; lia).
  rewrite take_app_length.
  assert (E : encode_all mktime 8 ((v_elem <$> es) ++ [v_elem (e_string v)]) = mjoin (encode_elem mktime 8 <$> es) ++ framed v).
  { unfold encode_all. rewrite fmap_app, join_app, <- list_fmap_compose. f_equal. cbn. by rewrite app_nil_r, framed_encode. }
  rewrite E, <- !app_assoc. intros Hl. rewrite skip_elems by done. cbn [mbind option_bind]. rewrite (app_assoc (data s)) in *.
  by rewrite reads_framed.
Qed.

(** With shorter lengths it does not: a skipped string is taken for one with eight bytes of length. *)
Example get_pattern_short_length mktime :
  get_pattern 1 (put_all mktime 1 empty_streamer [v_elem (e_string (lit "ab")); v_elem (e_string (lit "cd"))]) (lit "_string,_string") = Some (lit "ab").
Proof. reflexivity. Qed.

(** ** A concrete stream *)

Definition ex_localtime (t : Z) : Z * Z * Z * Z * Z * Z * Z := (121, 4, 17, 136, t / 3600, t / 60 mod 60, t mod 60).
Definition ex_mktime (y mo d h mi s : Z) : Z := h * 3600 + mi * 60 + s.
Definition ex_date : date_time := DateTime (Date 2021 5 17 136 true) (Time 12 30 45 0 true).
Definition ex_values : list val :=
  [v_elem (e_int I32 (-7)); v_elem (e_string (lit "rss")); v_set I16 {[3; -2]}; v_streamers [Streamer (lit "in") 0];
   v_tuple [e_int I64 9; e_string []; e_char (z2b 65); e_int U8 0; e_date ex_date; e_string (lit "t"); e_int I16 0; e_int I16 1; e_int I32 5; e_string []];
   v_elem (e_streamer (Streamer (lit "abc") 0)); v_float 1065353216].

Lemma streamer_round_trip_witness :
  get_all ex_localtime 2 (append (put_all ex_mktime 2 empty_streamer ex_values) (lit "tail")) (fresh <$> ex_values) =
    Some (Streamer (data (append (put_all ex_mktime 2 empty_streamer ex_values) (lit "tail"))) (zlen (data (put_all ex_mktime 2 empty_streamer ex_values))), ex_values).
Proof.
  assert (He : Forall (exact ex_mktime ex_localtime 2) ex_values) by (repeat first [apply Forall_nil_2 | apply Forall_cons_2 | exact Logic.I | reflexivity]; right; split; [done|reflexivity]).
  assert (Hset : set_Forall (in_range I16) ({[3; -2]} : gset Z)) by (intros x Hx; assert (x = 3 \/ x = -2) by set_solver; range_lia).
  destruct (streamer_round_trip ex_mktime ex_localtime 2 empty_streamer ex_values (fresh <$> ex_values) (lit "tail")) as [E Hf].
  - lia.
  - split; [split|]; vm_compute; congruence.
  - reflexivity.
  - repeat first [exact Hset | exact Logic.I | apply Forall_nil_2 | apply Forall_cons_2 | split]; vm_compute; congruence.
  - repeat constructor.
  - vm_compute. reflexivity.
  - rewrite E. rewrite Hf by done. reflexivity.
Defined.
