(* ===== verification/Json.v ===== *)
(** * Json values ([libs/json/jsoncpp.cpp])

    The part of jsoncpp that the json database calls: the type tests and conversions of
    [Json::Value], member access, and [Value::toString], which is [FastWriter::writeValue].  An
    object is the list of its entries in the order of the underlying [std::map].  A double is
    given by what the code can see of it: its text as [valueToString] prints it and its value
    when it is integral.  A call that fails an assertion of the library throws; it returns
    [None]. *)

From S2P Require Import Prelude BasefuncStd DateTime.
From Stdlib Require Import ZArith Lia Strings.Byte.
From stdpp Require Import base gmap strings numbers list.
Open Scope Z_scope.

(** [Json::Value] by [Json::ValueType]. *)
Inductive json :=
  | nullValue
  | intValue (n : Z)
  | uintValue (n : Z)
  | realValue (text : bytes) (integral : option Z)
  | stringValue (s : bytes)
  | booleanValue (b : bool)
  | arrayValue (l : list json)
  | objectValue (l : list (bytes * json)).

(** ** Type tests *)

Definition isInt (v : json) : bool :=
  match v with
  | intValue n => (min_val I32 <=? n) && (n <=? max_val I32)
  | uintValue n => n <=? max_val I32
  | realValue _ (Some n) => (min_val I32 <=? n) && (n <=? max_val I32)
  | _ => false
  end.

Definition isInt64 (v : json) : bool :=
  match v with
  | intValue _ => true
  | uintValue n => n <=? max_val I64
  | realValue _ (Some n) => (min_val I64 <=? n) && (n <=? max_val I64)
  | _ => false
  end.

Definition isString (v : json) : bool := match v with stringValue _ => true | _ => false end.
Definition isArray (v : json) : bool := match v with arrayValue _ => true | _ => false end.
Definition isObject (v : json) : bool := match v with objectValue _ => true | _ => false end.
Definition isBool (v : json) : bool := match v with booleanValue _ => true | _ => false end.

(** [empty]: no elements; other values than null, arrays and objects are not empty. *)
Definition json_empty (v : json) : bool :=
  match v with nullValue | arrayValue [] | objectValue [] => true | _ => false end.

(** [asInt] and [asInt64] after their type test, and [asBool] and [asString] of their own kinds. *)
Definition asInt64 (v : json) : Z :=
  match v with
  | intValue n | uintValue n | realValue _ (Some n) => n
  | booleanValue true => 1
  | _ => 0
  end.
Definition asBool (v : json) : bool := match v with booleanValue b => b | _ => false end.
Definition asString (v : json) : bytes := match v with stringValue s => s | _ => [] end.

(** *** The conversions of every kind of value; [None] is the exception *)

(** [asString]: throws for arrays and objects. *)
Definition json_asString (v : json) : option bytes :=
  match v with
  | nullValue => Some []
  | stringValue s => Some s
  | booleanValue b => Some (if b then lit "true" else lit "false")
  | intValue n | uintValue n => Some (to_string n)
  | realValue text _ => Some text
  | arrayValue _ | objectValue _ => None
  end.

(** A double that is not an integer, without its fraction: the digits before the point; with an
    exponent the number is below one. *)
Definition truncated_real (text : bytes) : Z :=
  if bool_decide (x65 ∈ text) then 0
  else match strto text with Some (neg, m) => if (neg : bool) then - m else m | None => 0 end.

(** [asInt] and [asInt64].  A fraction must lie between the bounds of the type as the number
    does; the double [2^63], for which the conversion is undefined, counts as out of range. *)
Definition convert_to (T : ctype) (v : json) : option Z :=
  match v with
  | intValue n | uintValue n | realValue _ (Some n) => if bool_decide (in_range T n) then Some n else None
  | realValue text None =>
      let n := truncated_real text in
      let below := bool_decide (head text = Some x2d) in
      if (if below then min_val T <? n else min_val T <=? n) && (if below then n <=? max_val T else n <? max_val T)
      then Some n else None
  | nullValue => Some 0
  | booleanValue b => Some (if b then 1 else 0)
  | stringValue _ | arrayValue _ | objectValue _ => None
  end.
Definition json_asInt (v : json) : option Z := convert_to I32 v.
Definition json_asInt64 (v : json) : option Z := convert_to I64 v.

(** ** Members *)

(** The lookup of [std::map]. *)
Fixpoint member (key : bytes) (l : list (bytes * json)) : option json :=
  match l with
  | [] => None
  | (k, v) :: l' => if bool_decide (k = key) then Some v else member key l'
  end.

(** [Value::find]: throws unless the value is null or an object. *)
Definition json_find (v : json) (key : bytes) : option (option json) :=
  match v with
  | nullValue => Some None
  | objectValue l => Some (member key l)
  | _ => None
  end.

(** [operator[]] of a constant value: a missing member is null. *)
Definition json_at (v : json) (key : bytes) : option json := default nullValue <$> json_find v key.

Definition isMember (v : json) (key : bytes) : option bool := (fun o => bool_decide (is_Some o)) <$> json_find v key.

Definition getMemberNames (v : json) : option (list bytes) :=
  match v with
  | nullValue => Some []
  | objectValue l => Some (fst <$> l)
  | _ => None
  end.

(** The values a range loop visits. *)
Definition elements_of (v : json) : list json :=
  match v with arrayValue l => l | objectValue l => snd <$> l | _ => [] end.

(** ** Printing *)

(** [isControlCharacter]; a [char] is signed, and bytes from 128 on are negative. *)
Definition isControlCharacter (c : byte) : bool := (0 <? b2z c) && (b2z c <=? 31).

Definition hex_digit (d : Z) : byte := z2b (if d <? 10 then 48 + d else 55 + d).

(** What [valueToQuotedStringN] writes for one character. *)
Definition escape_char (c : byte) : bytes :=
  match c with
  | x22 => [x5c; x22]
  | x5c => [x5c; x5c]
  | x08 => lit "\b"
  | x0c => lit "\f"
  | x0a => lit "\n"
  | x0d => lit "\r"
  | x09 => lit "\t"
  | _ => if isControlCharacter c || bool_decide (c = x00)
         then lit "\u00" ++ [hex_digit (b2z c / 16); hex_digit (b2z c mod 16)] else [c]
  end.

(** The test of [strnpbrk] and [containsControlCharacter0] for one character. *)
Definition needs_escape (c : byte) : bool :=
  bool_decide (c ∈ [x22; x5c; x08; x0c; x0a; x0d; x09]) || bool_decide (c = x00) || isControlCharacter c.

Definition valueToQuotedStringN (value : bytes) : bytes :=
  if forallb (fun c => negb (needs_escape c)) value then [x22] ++ c_str value ++ [x22]
  else [x22] ++ mjoin (escape_char <$> value) ++ [x22].

(** [FastWriter::writeValue]; [Value::toString] returns its document without a line feed. *)
Fixpoint toString (v : json) : bytes :=
  let fix items (l : list json) (first : bool) : bytes :=
    match l with
    | [] => []
    | x :: l' => (if first then [] else lit ",") ++ toString x ++ items l' false
    end in
  let fix members (l : list (bytes * json)) (first : bool) : bytes :=
    match l with
    | [] => []
    | (k, x) :: l' =>
        (if first then [] else lit ",") ++ valueToQuotedStringN k ++ lit ":" ++ toString x ++ members l' false
    end in
  match v with
  | nullValue => lit "null"
  | intValue n | uintValue n => to_string n
  | realValue text _ => text
  | stringValue s => valueToQuotedStringN s
  | booleanValue b => if b then lit "true" else lit "false"
  | arrayValue l => lit "[" ++ items l true ++ lit "]"
  | objectValue l => lit "{" ++ members l true ++ lit "}"
  end.

Example toString_ex :
  toString (objectValue [(lit "a", intValue (-5)); (lit "b", arrayValue [stringValue [x41; x0a]; nullValue; booleanValue true])])
  = lit "{" ++ [x22; x61; x22] ++ lit ":-5," ++ [x22; x62; x22] ++ lit ":[" ++ [x22; x41; x5c; x6e; x22] ++ lit ",null,true]}".
Proof. reflexivity. Qed.

(** ** Facts *)

Lemma escape_char_id c : needs_escape c = false -> escape_char c = [c].
Proof.
  unfold needs_escape. rewrite !orb_false_iff. intros [[Hl H0] Hc].
  destruct c; try reflexivity; vm_compute in Hl, H0, Hc; discriminate.
Qed.

(** The two branches of [valueToQuotedStringN] write the same text. *)
Lemma valueToQuotedStringN_escape value :
  valueToQuotedStringN value = [x22] ++ mjoin (escape_char <$> value) ++ [x22].
Proof.
  unfold valueToQuotedStringN. destruct (forallb _ value) eqn:E; [|done]. do 2 f_equal.
  rewrite forallb_forall in E.
  assert (Hn : forall c, c ∈ value -> needs_escape c = false).
  { intros c Hc. apply negb_true_iff, E, list_elem_of_In, Hc. }
  rewrite c_str_id by (intros H; by apply Hn in H). clear E.
  induction value as [|c value IH]; [done|]. cbn.
  rewrite escape_char_id by (apply Hn; set_solver). cbn. f_equal. apply IH. set_solver.
Qed.

(** The first character of a printed value, used to tell the kinds apart. *)
Lemma toString_string_head s : head (toString (stringValue s)) = Some x22.
Proof. cbn. unfold valueToQuotedStringN. by destruct (forallb _ s). Qed.

(** Reading one character back. *)
Definition hex_val (c : byte) : Z := if b2z c <? 58 then b2z c - 48 else b2z c - 55.

Definition unescape_char (l : bytes) : option (byte * bytes) :=
  match l with
  | x5c :: x75 :: _ :: _ :: h1 :: h2 :: r => Some (z2b (16 * hex_val h1 + hex_val h2), r)
  | x5c :: x62 :: r => Some (x08, r)
  | x5c :: x66 :: r => Some (x0c, r)
  | x5c :: x6e :: r => Some (x0a, r)
  | x5c :: x72 :: r => Some (x0d, r)
  | x5c :: x74 :: r => Some (x09, r)
  | x5c :: c :: r => Some (c, r)
  | c :: r => Some (c, r)
  | [] => None
  end.

Lemma unescape_escape c s : unescape_char (escape_char c ++ s) = Some (c, s).
Proof. destruct c; reflexivity. Qed.

(** A printed string determines the string. *)
Lemma quoted_inj s t : valueToQuotedStringN s = valueToQuotedStringN t -> s = t.
Proof.
  rewrite !valueToQuotedStringN_escape. intros H. apply app_inv_head, app_inv_tail in H. revert t H.
  induction s as [|c s IH]; intros [|d t] H; cbn in H; [done| | |].
  - apply (f_equal unescape_char) in H. by rewrite unescape_escape in H.
  - apply (f_equal unescape_char) in H. by rewrite unescape_escape in H.
  - apply (f_equal unescape_char) in H. rewrite !unescape_escape in H. simplify_eq. f_equal. by apply IH.
Qed.

Lemma to_string_inj m n : in_range I64 m -> in_range I64 n -> to_string m = to_string n -> m = n.
Proof.
  intros Hm Hn E. pose proof (stoi_to_string I64 m eq_refl Hm) as H1. pose proof (stoi_to_string I64 n eq_refl Hn) as H2.
  rewrite E, H2 in H1. by injection H1.
Qed.

(** The values that are compared by their text: 64-bit integers and strings. *)
Inductive plain : json -> Prop :=
  | plain_int n : in_range I64 n -> plain (intValue n)
  | plain_string s : plain (stringValue s).

Lemma toString_plain_nonempty v : plain v -> toString v <> [].
Proof.
  intros [n Hn|s]; cbn.
  - intros E. pose proof (stoi_to_string I64 n eq_refl Hn) as H. by rewrite E in H.
  - unfold valueToQuotedStringN. by destruct (forallb _ s).
Qed.

Lemma to_string_not_quoted n s : to_string n <> valueToQuotedStringN s.
Proof.
  intros E. apply (to_string_not_elem x22 n); [done|done|]. rewrite E, valueToQuotedStringN_escape. set_solver.
Qed.

Lemma toString_plain_inj v w : plain v -> plain w -> toString v = toString w -> v = w.
Proof.
  intros [m Hm|s] [n Hn|t]; cbn; intros E.
  - f_equal. by apply to_string_inj.
  - by apply to_string_not_quoted in E.
  - symmetry in E. by apply to_string_not_quoted in E.
  - f_equal. by apply quoted_inj.
Qed.
