(* ===== verification/JsonReader.v ===== *)
(** * Reading json ([Json::Reader] of [libs/json/jsoncpp.cpp])

    The reader that every component uses for json texts: the scanner ([readToken] and what it
    calls), the decoders of numbers and strings, and the recursive descent of [readValue],
    [readObject] and [readArray] with its recovery from errors, for the features that
    [Json::Reader()] selects (comments allowed, any root, no dropped placeholders, no numeric
    keys).  The reader's state is what is left of the document ([current_] up to [end_]), the
    depth of the recursion ([stackDepth_g]) and the errors; comments and offsets, which the
    program never looks at, are not kept.  The byte behind the document, which two places of the
    scanner read, is the parameter [past].  The fuel of the recursive descent is three times the
    length of the document and one; [JsonReaderFacts] shows that it is enough. *)

From S2P Require Import Prelude BasefuncStd DateTime Json.
From Stdlib Require Import ZArith Lia Strings.Byte.
From stdpp Require Import base gmap strings numbers list sorting.
Open Scope Z_scope.

(** ** Results of the reader *)

(** A call returns, throws [RuntimeError], or the model has run out of fuel. *)
Inductive outcome (A : Type) :=
  | Ret (a : A)
  | Throw
  | NoFuel.

Arguments Ret {A} _.
Arguments Throw {A}.
Arguments NoFuel {A}.

#[export] Instance outcome_ret : MRet outcome := @Ret.
#[export] Instance outcome_bind : MBind outcome := fun A B f x =>
  match x with Ret a => f a | Throw => Throw | NoFuel => NoFuel end.

(** ** Tokens *)

Inductive TokenType :=
  | tokenEndOfStream | tokenObjectBegin | tokenObjectEnd | tokenArrayBegin | tokenArrayEnd
  | tokenString | tokenNumber | tokenTrue | tokenFalse | tokenNull
  | tokenArraySeparator | tokenMemberSeparator | tokenComment | tokenError.

#[export] Instance TokenType_eq_dec : EqDecision TokenType.
Proof. solve_decision. Defined.

(** The characters from [start_] to [end_]. *)
Record Token := MkToken { type_ : TokenType; text_ : bytes }.

(** The messages of [addError]. *)
Inductive reader_error :=
  | value_expected | not_a_number | empty_escape | bad_escape | surrogate_short | surrogate_no_u
  | unicode_short | unicode_digit | missing_colon | missing_object_end | missing_member | missing_array_end.

Definition stackLimit_g : Z := 1000.

Record reader := MkReader { current_ : bytes; stackDepth_g : Z; errors_ : list reader_error }.

Definition at_ (s : reader) (cur : bytes) : reader := MkReader cur (stackDepth_g s) (errors_ s).
Definition deeper (d : Z) (s : reader) : reader := MkReader (current_ s) (stackDepth_g s + d) (errors_ s).
Definition addError (e : reader_error) (s : reader) : reader := MkReader (current_ s) (stackDepth_g s) (errors_ s ++ [e]).

(** ** The scanner *)

Section scanner.
Context (past : byte).

(** [*current_]. *)
Definition deref (cur : bytes) : byte := match cur with [] => past | c :: _ => c end.

Definition getNextChar (cur : bytes) : byte * bytes := match cur with [] => (x00, []) | c :: l => (c, l) end.

Fixpoint skipSpaces (cur : bytes) : bytes :=
  match cur with
  | c :: l => match c with x20 | x09 | x0d | x0a => skipSpaces l | _ => cur end
  | [] => []
  end.

Definition match_pattern (pattern cur : bytes) : bool * bytes :=
  if (length cur <? length pattern)%nat then (false, cur)
  else if bool_decide (take (length pattern) cur = pattern) then (true, drop (length pattern) cur) else (false, cur).

Fixpoint readCStyleComment (cur : bytes) : bool * bytes :=
  match cur with
  | [] => (false, [])
  | c :: l =>
      if bool_decide (c = x2a) && bool_decide (deref l = x2f)
      then let '(d, l') := getNextChar l in (bool_decide (d = x2f), l')
      else readCStyleComment l
  end.

Fixpoint readCppStyleComment (cur : bytes) : bytes :=
  match cur with
  | [] => []
  | x0a :: l => l
  | x0d :: l => match l with x0a :: l' => l' | _ => l end
  | _ :: l => readCppStyleComment l
  end.

Definition readComment (cur : bytes) : bool * bytes :=
  match getNextChar cur with
  | (x2a, l) => readCStyleComment l
  | (x2f, l) => (true, readCppStyleComment l)
  | (_, l) => (false, l)
  end.

Fixpoint skip_digits (cur : bytes) : bytes :=
  match cur with
  | c :: l => if is_digit c then skip_digits l else cur
  | [] => []
  end.

(** The parts of [readNumber] after the integral part. *)
Definition read_exponent (cur : bytes) : bytes :=
  match cur with
  | (x65 | x45) :: l => skip_digits match l with (x2b | x2d) :: l' => l' | _ => l end
  | _ => cur
  end.
Definition read_fraction (cur : bytes) : bytes := match cur with x2e :: l => skip_digits l | _ => cur end.

Definition readNumber (cur : bytes) : bytes := read_exponent (read_fraction (skip_digits cur)).

Fixpoint readString (cur : bytes) : bool * bytes :=
  match cur with
  | [] => (false, [])
  | x5c :: l => match l with [] => (false, []) | _ :: l' => readString l' end
  | x22 :: l => (true, l)
  | _ :: l => readString l
  end.

(** The [switch] of [readToken] on the character [c] before [l]: type, success, what is left. *)
Definition token_from (c : byte) (l : bytes) : TokenType * bool * bytes :=
  match c with
  | x7b => (tokenObjectBegin, true, l)
  | x7d => (tokenObjectEnd, true, l)
  | x5b => (tokenArrayBegin, true, l)
  | x5d => (tokenArrayEnd, true, l)
  | x22 => let '(ok, l') := readString l in (tokenString, ok, l')
  | x2f => let '(ok, l') := readComment l in (tokenComment, ok, l')
  | x30 | x31 | x32 | x33 | x34 | x35 | x36 | x37 | x38 | x39 | x2d => (tokenNumber, true, readNumber l)
  | x74 => let '(ok, l') := match_pattern (lit "rue") l in (tokenTrue, ok, l')
  | x66 => let '(ok, l') := match_pattern (lit "alse") l in (tokenFalse, ok, l')
  | x6e => let '(ok, l') := match_pattern (lit "ull") l in (tokenNull, ok, l')
  | x2c => (tokenArraySeparator, true, l)
  | x3a => (tokenMemberSeparator, true, l)
  | x00 => (tokenEndOfStream, true, l)
  | _ => (tokenError, false, l)
  end.

Definition readToken (cur : bytes) : Token * bytes :=
  let start := skipSpaces cur in
  let '(c, l) := getNextChar start in
  let '(t, ok, l') := token_from c l in
  (MkToken (if (ok : bool) then t else tokenError) (take (length start - length l') start), l').

(** The loops over comments of [skipCommentTokens], [readObject] and [readArray]. *)
Fixpoint skip_comments (fuel : nat) (cur : bytes) : outcome (Token * bytes) :=
  match fuel with
  | O => NoFuel
  | S fuel' =>
      let '(token, cur) := readToken cur in
      if bool_decide (type_ token = tokenComment) then skip_comments fuel' cur else Ret (token, cur)
  end.

Definition skipCommentTokens (s : reader) : outcome (Token * reader) :=
  '(token, cur) ← skip_comments (S (length (current_ s))) (current_ s); Ret (token, at_ s cur).

(** The loop of [recoverFromError]. *)
Fixpoint skip_until (fuel : nat) (skipUntilToken : TokenType) (cur : bytes) : outcome bytes :=
  match fuel with
  | O => NoFuel
  | S fuel' =>
      let '(skip, cur) := readToken cur in
      if bool_decide (type_ skip = skipUntilToken) || bool_decide (type_ skip = tokenEndOfStream)
      then Ret cur else skip_until fuel' skipUntilToken cur
  end.

Definition recoverFromError (skipUntilToken : TokenType) (s : reader) : outcome reader :=
  cur ← skip_until (S (length (current_ s))) skipUntilToken (current_ s); Ret (at_ s cur).

Definition addErrorAndRecover (e : reader_error) (skipUntilToken : TokenType) (s : reader) : outcome reader :=
  recoverFromError skipUntilToken (addError e s).
End scanner.

(** ** Numbers *)

(** Leading decimal digits: their value, how many there are, what follows. *)
Fixpoint scan_digits (l : bytes) (value count : Z) : Z * Z * bytes :=
  match l with
  | c :: l' => if is_digit c then scan_digits l' (10 * value + digit_val c) (count + 1) else (value, count, l)
  | [] => (value, count, [])
  end.

(** The text of a number as [operator>>] takes it: sign, mantissa, number of digits of the
    mantissa, exponent of ten; [None] unless the whole text is a number. *)
Definition scan_real (text : bytes) : option (bool * Z * Z * Z) :=
  let '(neg, l) := match text with x2d :: l => (true, l) | _ => (false, text) end in
  let '(m, n, l) := scan_digits l 0 0 in
  let '(m, n', l) := match l with x2e :: l' => scan_digits l' m 0 | _ => (m, 0, l) end in
  if n + n' =? 0 then None
  else match l with
       | [] => Some (neg, m, n + n', - n')
       | (x65 | x45) :: l' =>
           let '(eneg, l') := match l' with x2d :: l'' => (true, l'') | x2b :: l'' => (false, l'') | _ => (false, l') end in
           let '(e, k, l') := scan_digits l' 0 0 in
           if (k =? 0) || negb (bool_decide (l' = [])) then None
           else Some (neg, m, n + n', (if (eneg : bool) then - e else e) - n')
       | _ => None
       end.

(** Division rounded to nearest, ties to even. *)
Definition round_div (a b : Z) : Z :=
  let q := a / b in
  let r := a mod b in
  if 2 * r <? b then q else if b <? 2 * r then q + 1 else if Z.even q then q else q + 1.

(** [num / den] scaled by [base ^ -k] and rounded. *)
Definition round_scaled (base num den k : Z) : Z :=
  if 0 <=? k then round_div num (den * base ^ k) else round_div (num * base ^ (- k)) den.

(** The double nearest to a positive quotient, as an integer times a power of two; [None] is an
    overflow, at which [operator>>] fails. *)
Definition nearest_double (num den : Z) : option (Z * Z) :=
  let k := Z.log2 num - Z.log2 den - 53 in
  let k := if den * 2 ^ Z.max 0 (53 + k) <=? num * 2 ^ Z.max 0 (- (53 + k)) then k + 1 else k in
  let k := Z.max k (-1074) in
  let q := round_scaled 2 num den k in
  if (971 <? k) || ((k =? 971) && (2 ^ 53 <=? q)) then None else Some (q, k).

(** The conversion of a decimal number.  A number below [10^-330] rounds to zero and one from
    [10^310] on overflows, whatever its digits. *)
Definition real_value (m n e : Z) : option (Z * Z) :=
  if (m =? 0) || (n + e <? -330) then Some (0, 0)
  else if 310 <? Z.log2 m / 4 + e then None
  else nearest_double (m * 10 ^ Z.max 0 e) (10 ^ Z.max 0 (- e)).

(** The largest power of ten in a number below [10^400]. *)
Fixpoint log10 (fuel : nat) (n : Z) : Z :=
  match fuel with O => 0 | S fuel' => if n <? 10 then 0 else 1 + log10 fuel' (n / 10) end.

Fixpoint strip_zeros (l : bytes) : bytes :=
  match l with
  | [] => []
  | c :: l' => match strip_zeros l' with [] => if bool_decide (c = x30) then [] else [c] | r => c :: r end
  end.

Definition with_point (int_part frac : bytes) : bytes :=
  match strip_zeros frac with [] => int_part | f => int_part ++ lit "." ++ f end.

(** [valueToString] of a finite double with [%.17g]. *)
Definition valueToString_real (neg : bool) (q k : Z) : bytes :=
  (if neg then lit "-" else []) ++
  if q =? 0 then lit "0"
  else
    let num := q * 2 ^ Z.max 0 k in
    let den := 2 ^ Z.max 0 (- k) in
    let x := log10 400 num - log10 400 den in
    let x := if den * 10 ^ Z.max 0 x <=? num * 10 ^ Z.max 0 (- x) then x else x - 1 in
    let d := round_scaled 10 num den (x - 16) in
    let '(d, x) := if 10 ^ 17 <=? d then (10 ^ 16, x + 1) else (d, x) in
    let ds := to_string d in
    if (-4 <=? x) && (x <? 17) then
      if 0 <=? x then with_point (take (Z.to_nat (x + 1)) ds) (drop (Z.to_nat (x + 1)) ds)
      else with_point (lit "0") (replicate (Z.to_nat (- x - 1)) x30 ++ ds)
    else with_point (take 1 ds) (drop 1 ds) ++ lit "e" ++ (if x <? 0 then lit "-" else lit "+") ++
         (if Z.abs x <? 10 then lit "0" else []) ++ to_string (Z.abs x).

(** The value of a double that is an integer. *)
Definition integral_of (neg : bool) (q k : Z) : option Z :=
  let sgn v := if neg then - v else v in
  if 0 <=? k then Some (sgn (q * 2 ^ k))
  else if q mod 2 ^ (- k) =? 0 then Some (sgn (q / 2 ^ (- k))) else None.

Definition decodeDouble (text : bytes) : reader_error + json :=
  match scan_real text with
  | Some (neg, m, n, e) =>
      match real_value m n e with
      | Some (q, k) => inr (realValue (valueToString_real neg q k) (integral_of neg q k))
      | None => inl not_a_number
      end
  | None => inl not_a_number
  end.

(** The loop of [decodeNumber]; [None]: it goes on with [decodeDouble].  The guard keeps
    [value * 10 + digit] within the 64-bit type. *)
Fixpoint decode_digits (maxIntegerValue threshold : Z) (l : bytes) (value : Z) : option Z :=
  match l with
  | [] => Some value
  | c :: l' =>
      if negb (is_digit c) then None
      else
        let digit := digit_val c in
        if (threshold <=? value) &&
           ((threshold <? value) || negb (bool_decide (l' = [])) || (maxIntegerValue mod 10 <? digit)) then None
        else decode_digits maxIntegerValue threshold l' (value * 10 + digit)
  end.

Definition decodeNumber (text : bytes) : reader_error + json :=
  let '(isNegative, l) := match text with x2d :: l => (true, l) | _ => (false, text) end in
  let maxIntegerValue := if (isNegative : bool) then max_val I64 + 1 else max_val U64 in
  match decode_digits maxIntegerValue (maxIntegerValue / 10) l 0 with
  | None => decodeDouble text
  | Some value =>
      if isNegative && (value =? maxIntegerValue) then inr (intValue (min_val I64))
      else if isNegative then inr (intValue (- value))
      else if value <=? max_val I32 then inr (intValue value)
      else inr (uintValue value)
  end.

Definition shown (r : reader_error + json) : option bytes := match r with inr v => Some (toString v) | inl _ => None end.

Example real_ex :
  (shown ∘ decodeNumber) <$> [lit "1.5"; lit "0.1"; lit "1e400"; lit "-0.0"; lit "5.0"; lit "1e22"; lit "123456789012345678901234567890"; lit "2.5e-7"; lit "1e"; lit "4.9e-324"; lit "1.7976931348623157e308"; lit "18446744073709551616"; lit "-"; lit "0.000123"] =
  [Some (lit "1.5"); Some (lit "0.10000000000000001"); None; Some (lit "-0"); Some (lit "5"); Some (lit "1e+22"); Some (lit "1.2345678901234568e+29"); Some (lit "2.4999999999999999e-07"); None; Some (lit "4.9406564584124654e-324"); Some (lit "1.7976931348623157e+308"); Some (lit "1.8446744073709552e+19"); Some (lit "0"); Some (lit "0.00012300000000000001")].
Proof. vm_compute. reflexivity. Qed.

(** ** Strings *)

Definition codePointToUTF8 (cp : Z) : bytes :=
  if cp <=? 0x7f then [z2b cp]
  else if cp <=? 0x7ff then
    [z2b (Z.lor 0xc0 (Z.land 0x1f (Z.shiftr cp 6))); z2b (Z.lor 0x80 (Z.land 0x3f cp))]
  else if cp <=? 0xffff then
    [z2b (Z.lor 0xe0 (Z.land 0xf (Z.shiftr cp 12))); z2b (Z.lor 0x80 (Z.land 0x3f (Z.shiftr cp 6)));
     z2b (Z.lor 0x80 (Z.land 0x3f cp))]
  else if cp <=? 0x10ffff then
    [z2b (Z.lor 0xf0 (Z.land 0x7 (Z.shiftr cp 18))); z2b (Z.lor 0x80 (Z.land 0x3f (Z.shiftr cp 12)));
     z2b (Z.lor 0x80 (Z.land 0x3f (Z.shiftr cp 6))); z2b (Z.lor 0x80 (Z.land 0x3f cp))]
  else [].

Definition hex_digit_value (c : byte) : option Z :=
  let c := b2z c in
  if (48 <=? c) && (c <=? 57) then Some (c - 48)
  else if (97 <=? c) && (c <=? 102) then Some (c - 97 + 10)
  else if (65 <=? c) && (c <=? 70) then Some (c - 65 + 10) else None.

(** The loop over four digits. *)
Fixpoint hex_digits (n : nat) (cur : bytes) (unicode : Z) : reader_error + (Z * bytes) :=
  match n, cur with
  | S n', c :: l =>
      match hex_digit_value c with Some d => hex_digits n' l (unicode * 16 + d) | None => inl unicode_digit end
  | _, _ => inr (unicode, cur)
  end.

Definition decodeUnicodeEscapeSequence (cur : bytes) : reader_error + (Z * bytes) :=
  if (length cur <? 4)%nat then inl unicode_short else hex_digits 4 cur 0.

Definition decodeUnicodeCodePoint (cur : bytes) : reader_error + (Z * bytes) :=
  match decodeUnicodeEscapeSequence cur with
  | inl e => inl e
  | inr (unicode, cur) =>
      if (0xd800 <=? unicode) && (unicode <=? 0xdbff) then
        if (length cur <? 6)%nat then inl surrogate_short
        else match cur with
             | x5c :: x75 :: l =>
                 match decodeUnicodeEscapeSequence l with
                 | inl e => inl e
                 | inr (surrogatePair, l) =>
                     inr (0x10000 + Z.shiftl (Z.land unicode 0x3ff) 10 + Z.land surrogatePair 0x3ff, l)
                 end
             | _ => inl surrogate_no_u
             end
      else inr (unicode, cur)
  end.

(** The characters that stand for themselves or a control character after a backslash. *)
Definition simple_escape (escape : byte) : option byte :=
  match escape with
  | x22 => Some x22 | x2f => Some x2f | x5c => Some x5c | x62 => Some x08 | x66 => Some x0c
  | x6e => Some x0a | x72 => Some x0d | x74 => Some x09 | _ => None
  end.

(** The loop of [decodeString] over the characters between the quotes. *)
Fixpoint decode_chars (fuel : nat) (cur decoded : bytes) : outcome (reader_error + bytes) :=
  match fuel with
  | O => NoFuel
  | S fuel' =>
      match cur with
      | [] => Ret (inr decoded)
      | x22 :: _ => Ret (inr decoded)
      | x5c :: cur =>
          match cur with
          | [] => Ret (inl empty_escape)
          | x75 :: cur =>
              match decodeUnicodeCodePoint cur with
              | inl e => Ret (inl e)
              | inr (unicode, cur) => decode_chars fuel' cur (decoded ++ codePointToUTF8 unicode)
              end
          | escape :: cur =>
              match simple_escape escape with
              | Some c => decode_chars fuel' cur (decoded ++ [c])
              | None => Ret (inl bad_escape)
              end
          end
      | c :: cur => decode_chars fuel' cur (decoded ++ [c])
      end
  end.

Definition decodeString (text : bytes) : outcome (reader_error + bytes) :=
  let inner := drop 1 (take (length text - 1) text) in
  decode_chars (S (length inner)) inner [].

(** ** Values *)

(** [CZString::operator<]: [memcmp] on the common length, then the shorter first. *)
Fixpoint key_lt (a b : bytes) : bool :=
  match a, b with
  | _, [] => false
  | [], _ :: _ => true
  | x :: a', y :: b' => (b2z x <? b2z y) || (bool_decide (x = y) && key_lt a' b')
  end.

(** [currentValue()[name] = value] in the [std::map] of an object. *)
Fixpoint set_member (name : bytes) (value : json) (m : list (bytes * json)) : list (bytes * json) :=
  match m with
  | [] => [(name, value)]
  | (k, v) :: m' =>
      if key_lt k name then (k, v) :: set_member name value m'
      else if bool_decide (k = name) then (name, value) :: m' else (name, value) :: m
  end.

Section reader.
Context (past : byte).

(** [readValue] reads into the value [v]; [readObject] goes on with the members [m], after the
    name [name] (the loop keeps it); [read_items] is the loop of [readArray].  A value that
    cannot be read stays as it is. *)
Fixpoint readValue (fuel : nat) (v : json) (s : reader) {struct fuel} : outcome (bool * json * reader) :=
  match fuel with
  | O => NoFuel
  | S fuel' =>
      if stackLimit_g <=? stackDepth_g s then Throw
      else
        '(token, s) ← skipCommentTokens past (deeper 1 s);
        match type_ token with
        | tokenObjectBegin =>
            '(ok, v, s) ← readObject fuel' [] [] s; Ret (ok, v, deeper (-1) s)
        | tokenArrayBegin =>
            '(ok, v, s) ← readArray fuel' s; Ret (ok, v, deeper (-1) s)
        | tokenNumber =>
            match decodeNumber (text_ token) with
            | inr v => Ret (true, v, deeper (-1) s)
            | inl e => Ret (false, v, deeper (-1) (addError e s))
            end
        | tokenString =>
            r ← decodeString (text_ token);
            match r with
            | inr str => Ret (true, stringValue str, deeper (-1) s)
            | inl e => Ret (false, v, deeper (-1) (addError e s))
            end
        | tokenTrue => Ret (true, booleanValue true, deeper (-1) s)
        | tokenFalse => Ret (true, booleanValue false, deeper (-1) s)
        | tokenNull => Ret (true, nullValue, deeper (-1) s)
        | _ => Ret (false, v, addError value_expected s)
        end
  end
with readObject (fuel : nat) (name : bytes) (m : list (bytes * json)) (s : reader) {struct fuel} :
    outcome (bool * json * reader) :=
  match fuel with
  | O => NoFuel
  | S fuel' =>
      '(tokenName, s) ← skipCommentTokens past s;
      if bool_decide (type_ tokenName = tokenObjectEnd) && bool_decide (name = []) then Ret (true, objectValue m, s)
      else if bool_decide (type_ tokenName = tokenString) then
        r ← decodeString (text_ tokenName);
        match r with
        | inl e => s ← recoverFromError past tokenObjectEnd (addError e s); Ret (false, objectValue m, s)
        | inr name =>
            let '(colon, cur) := readToken past (current_ s) in
            let s := at_ s cur in
            if negb (bool_decide (type_ colon = tokenMemberSeparator)) then
              s ← addErrorAndRecover past missing_colon tokenObjectEnd s; Ret (false, objectValue m, s)
            else
              '(ok, value, s) ← readValue fuel' (default nullValue (member name m)) s;
              let m := set_member name value m in
              if negb ok then s ← recoverFromError past tokenObjectEnd s; Ret (false, objectValue m, s)
              else
                let '(comma, cur) := readToken past (current_ s) in
                let s := at_ s cur in
                if negb (bool_decide (type_ comma ∈ [tokenObjectEnd; tokenArraySeparator; tokenComment])) then
                  s ← addErrorAndRecover past missing_object_end tokenObjectEnd s; Ret (false, objectValue m, s)
                else
                  '(comma, s) ← (if bool_decide (type_ comma = tokenComment) then skipCommentTokens past s else Ret (comma, s));
                  if bool_decide (type_ comma = tokenObjectEnd) then Ret (true, objectValue m, s)
                  else readObject fuel' name m s
        end
      else s ← addErrorAndRecover past missing_member tokenObjectEnd s; Ret (false, objectValue m, s)
  end
with readArray (fuel : nat) (s : reader) {struct fuel} : outcome (bool * json * reader) :=
  match fuel with
  | O => NoFuel
  | S fuel' =>
      let s := at_ s (skipSpaces (current_ s)) in
      if bool_decide (deref past (current_ s) = x5d)
      then Ret (true, arrayValue [], at_ s (readToken past (current_ s)).2)
      else read_items fuel' [] s
  end
with read_items (fuel : nat) (l : list json) (s : reader) {struct fuel} : outcome (bool * json * reader) :=
  match fuel with
  | O => NoFuel
  | S fuel' =>
      '(ok, value, s) ← readValue fuel' nullValue s;
      let l := l ++ [value] in
      if negb ok then s ← recoverFromError past tokenArrayEnd s; Ret (false, arrayValue l, s)
      else
        '(token, s) ← skipCommentTokens past s;
        if negb (bool_decide (type_ token ∈ [tokenArraySeparator; tokenArrayEnd])) then
          s ← addErrorAndRecover past missing_array_end tokenArrayEnd s; Ret (false, arrayValue l, s)
        else if bool_decide (type_ token = tokenArrayEnd) then Ret (true, arrayValue l, s)
        else read_items fuel' l s
  end.

(** [Reader::parse] of a document into the value [root]: success, the value, the errors. *)
Definition Reader_parse (doc : bytes) (root : json) : outcome (bool * json * list reader_error) :=
  '(successful, root, s) ← readValue (3 * length doc + 1) root (MkReader doc 0 []);
  '(_, s) ← skipCommentTokens past s;
  Ret (successful, root, errors_ s).
End reader.

(** A text that [parse] accepts, with its value; an exception of the reader counts as a failure.
    The text is a [std::string], behind which there is a NUL. *)
Definition parse (doc : bytes) : option json :=
  match Reader_parse x00 doc nullValue with
  | Ret (true, v, _) => Some v
  | _ => None
  end.

Lemma parse_Some doc v : parse doc = Some v -> exists es, Reader_parse x00 doc nullValue = Ret (true, v, es).
Proof. unfold parse. destruct (Reader_parse x00 doc nullValue) as [[[[] w] es]| |]; try done. intros [= <-]. by exists es. Qed.
