(* ===== verification/JsonReaderFacts.v ===== *)
(** * What the json reader guarantees ([Json::Reader] of [libs/json/jsoncpp.cpp])

    The scanner takes at least one character for every token but the last, so that the loops and
    the recursive descent end within the fuel of [Reader_parse].  A successful call reports no
    error and yields a value as a [std::map] and the number types of the library allow it, nested
    at most a thousand levels deep; a failed one reports an error.  What [Value::toString] wrote
    is read back exactly, when it is not nested deeper than that, and what the reader accepted is
    accepted again after printing. *)

From S2P Require Import Prelude BasefuncStd DateTime Json JsonReader.
From Stdlib Require Import ZArith Lia Strings.Byte.
From stdpp Require Import base gmap strings numbers list sorting.
Open Scope Z_scope.

(** ** The scanner consumes its input *)

Lemma skipSpaces_length l : (length (skipSpaces l) <= length l)%nat.
Proof. induction l as [|c l IH]; [done|]. cbn [skipSpaces length]. destruct c; cbn [length]; lia. Qed.

Lemma skip_digits_length l : (length (skip_digits l) <= length l)%nat.
Proof. induction l as [|c l IH]; [done|]. cbn [skip_digits length]. destruct (is_digit c); cbn [length]; lia. Qed.

Lemma read_exponent_length l : (length (read_exponent l) <= length l)%nat.
Proof.
  destruct l as [|c l]; [done|].
  assert (H : (length (skip_digits match l with (x2b | x2d) :: l' => l' | _ => l end) <= length l)%nat).
  { etrans; [apply skip_digits_length|]. destruct l as [|d l]; [done|]. destruct d; cbn [length]; lia. }
  unfold read_exponent. destruct c; try done; cbn [length]; lia.
Qed.

Lemma readNumber_length l : (length (readNumber l) <= length l)%nat.
Proof.
  unfold readNumber. etrans; [apply read_exponent_length|]. etrans; [|apply skip_digits_length].
  destruct (skip_digits l) as [|c l']; [done|]. unfold read_fraction.
  pose proof (skip_digits_length l'). destruct c; try done; cbn [length]; lia.
Qed.

Lemma readString_length l : forall ok l', readString l = (ok, l') -> (length l' <= length l)%nat.
Proof.
  induction l as [l IH] using (well_founded_induction (Nat.lt_wf_0_projected (@length byte))). intros ok l' E.
  destruct l as [|c l]; [by injection E as <- <-|].
  assert (Hr : forall k, (length k <= length l)%nat -> readString k = (ok, l') -> (length l' <= length (c :: l))%nat).
  { intros k Hk Ek. apply IH in Ek; cbn [length]; lia. }
  destruct c; cbn [readString] in E; try (by eapply Hr); [by injection E as <- <-; cbn [length]; lia|].
  destruct l as [|d l]; [injection E as <- <-; cbn [length]; lia|]. apply (Hr l); [cbn [length]; lia|done].
Qed.

Lemma readCppStyleComment_length l : (length (readCppStyleComment l) <= length l)%nat.
Proof.
  induction l as [|c l IH]; [done|]. destruct c; cbn [readCppStyleComment length]; try lia.
  destruct l as [|d l]; [cbn [length]; lia|]. destruct d; cbn [length]; lia.
Qed.

Lemma match_pattern_length p l ok l' : match_pattern p l = (ok, l') -> (length l' <= length l)%nat.
Proof.
  unfold match_pattern. repeat case_match; intros [= <- <-]; [lia| |lia]. rewrite length_drop. lia.
Qed.

Section consumes.
Context (past : byte).

Lemma readCStyleComment_length l : forall ok l', readCStyleComment past l = (ok, l') -> (length l' <= length l)%nat.
Proof.
  induction l as [|c l IH]; intros ok l' E; cbn [readCStyleComment] in E; [by injection E as <- <-|].
  destruct (_ && _).
  - destruct l as [|d l]; injection E as <- <-; cbn [length]; lia.
  - apply IH in E. cbn [length]. lia.
Qed.

Lemma readComment_length l ok l' : readComment past l = (ok, l') -> (length l' <= length l)%nat.
Proof.
  unfold readComment, getNextChar. destruct l as [|c l]; [by intros [= <- <-]|].
  pose proof (readCppStyleComment_length l) as H1. pose proof (readCStyleComment_length l) as H2.
  destruct c; intros E; try (injection E as <- <-; cbn [length]; lia). apply H2 in E. cbn [length]. lia.
Qed.

Lemma token_from_length c l t ok l' : token_from past c l = (t, ok, l') -> (length l' <= length l)%nat.
Proof.
  intros E. pose proof (readNumber_length l).
  destruct c; cbn [token_from] in E; try (injection E as <- <- <-; lia);
    (destruct (readString l) as [b m] eqn:Er || idtac; destruct (readComment past l) as [b' m'] eqn:Ec;
     destruct (match_pattern (lit "rue") l) as [b1 m1] eqn:E1; destruct (match_pattern (lit "alse") l) as [b2 m2] eqn:E2;
     destruct (match_pattern (lit "ull") l) as [b3 m3] eqn:E3; injection E as <- <- <-);
    eauto using readString_length, readComment_length, match_pattern_length.
Qed.

Lemma token_from_end c l t ok l' : token_from past c l = (t, ok, l') -> c <> x00 -> t <> tokenEndOfStream.
Proof.
  intros E Hc. destruct c; cbn [token_from] in E; try done;
    repeat match type of E with context [let '(_, _) := ?x in _] => destruct x as [??] end; by injection E as <- <- <-.
Qed.

(** Every token but the last one takes at least one character. *)
Lemma readToken_length l t l' : readToken past l = (t, l') ->
  (length l' <= length l)%nat /\ (type_ t <> tokenEndOfStream -> (length l' < length l)%nat).
Proof.
  unfold readToken, getNextChar. pose proof (skipSpaces_length l) as Hs. destruct (skipSpaces l) as [|c k].
  - cbn. intros [= <- <-]. cbn. split; [lia|done].
  - destruct (token_from past c k) as [[u ok] k'] eqn:E. intros [= <- <-]. apply token_from_length in E. cbn [length] in Hs. lia.
Qed.

Lemma skip_comments_spec fuel : forall l, (length l < fuel)%nat ->
  exists t l', skip_comments past fuel l = Ret (t, l') /\ type_ t <> tokenComment /\
    (length l' <= length l)%nat /\ (type_ t <> tokenEndOfStream -> (length l' < length l)%nat).
Proof.
  induction fuel as [|fuel IH]; intros l Hl; [lia|]. cbn [skip_comments].
  destruct (readToken past l) as [t l1] eqn:E. apply readToken_length in E as [H1 H2].
  destruct (bool_decide_reflect (type_ t = tokenComment)) as [Ht|Ht].
  - specialize (H2 ltac:(by rewrite Ht)). destruct (IH l1) as (t' & l' & -> & Ht' & H3 & H4); [lia|].
    exists t', l'. split; [done|]. split; [done|]. split; [lia|]. intros Hn. specialize (H4 Hn). lia.
  - by exists t, l1.
Qed.

Lemma skipCommentTokens_spec s : exists t l,
  skipCommentTokens past s = Ret (t, at_ s l) /\ type_ t <> tokenComment /\
  (length l <= length (current_ s))%nat /\ (type_ t <> tokenEndOfStream -> (length l < length (current_ s))%nat).
Proof.
  unfold skipCommentTokens. destruct (skip_comments_spec (S (length (current_ s))) (current_ s)) as (t & l & -> & H); [lia|].
  by exists t, l.
Qed.

Lemma skip_until_spec fuel ty : forall l, (length l < fuel)%nat ->
  exists l', skip_until past fuel ty l = Ret l' /\ (length l' <= length l)%nat.
Proof.
  induction fuel as [|fuel IH]; intros l Hl; [lia|]. cbn [skip_until].
  destruct (readToken past l) as [t l1] eqn:E. apply readToken_length in E as [H1 H2].
  destruct (_ || _) eqn:Ho; [by exists l1|]. apply orb_false_iff in Ho as [_ Ho]. apply bool_decide_eq_false in Ho.
  specialize (H2 Ho). destruct (IH l1) as (l' & -> & H3); [lia|]. exists l'. split; [done|lia].
Qed.

Lemma recoverFromError_spec ty s : exists l, recoverFromError past ty s = Ret (at_ s l) /\ (length l <= length (current_ s))%nat.
Proof.
  unfold recoverFromError. destruct (skip_until_spec (S (length (current_ s))) ty (current_ s)) as (l & -> & H); [lia|]. by exists l.
Qed.
End consumes.

(** ** The reader ends *)

Lemma hex_digits_length n : forall l u r, hex_digits n l u = inr r -> (length r.2 <= length l)%nat.
Proof.
  induction n as [|n IH]; intros l u r E; cbn [hex_digits] in E; [by injection E as <-|].
  destruct l as [|c l]; [by injection E as <-|]. destruct (hex_digit_value c); [|done]. apply IH in E. cbn [length]. lia.
Qed.

Lemma decodeUnicodeEscapeSequence_length l r : decodeUnicodeEscapeSequence l = inr r -> (length r.2 <= length l)%nat.
Proof. unfold decodeUnicodeEscapeSequence. destruct (_ <? _)%nat; [done|]. apply hex_digits_length. Qed.

Lemma decodeUnicodeCodePoint_length l r : decodeUnicodeCodePoint l = inr r -> (length r.2 <= length l)%nat.
Proof.
  unfold decodeUnicodeCodePoint. destruct (decodeUnicodeEscapeSequence l) as [e|[u k]] eqn:E; [done|].
  apply decodeUnicodeEscapeSequence_length in E. cbn [snd] in E. destruct (_ && _); [|by intros [= <-]].
  destruct (_ <? _)%nat; [done|]. destruct k as [|c [|d k]]; [done|by destruct c|].
  destruct c; try done. destruct d; try done. destruct (decodeUnicodeEscapeSequence k) as [e|[u' k']] eqn:E'; [done|].
  apply decodeUnicodeEscapeSequence_length in E'. intros [= <-]. cbn [snd length] in *. lia.
Qed.

Lemma decode_chars_spec fuel : forall l acc, (length l < fuel)%nat -> exists r, decode_chars fuel l acc = Ret r.
Proof.
  induction fuel as [|fuel IH]; intros l acc Hl; [lia|]. cbn [decode_chars].
  destruct l as [|c l]; [eauto|]. cbn [length] in Hl.
  assert (Hn : forall acc, exists r, decode_chars fuel l acc = Ret r) by (intros; apply IH; lia).
  destruct c; eauto. destruct l as [|d l]; [eauto|]. cbn [length] in Hl.
  assert (Hs : exists r, match simple_escape d with Some c => decode_chars fuel l (acc ++ [c]) | None => Ret (inl bad_escape) end = Ret r)
    by (destruct (simple_escape d); [apply IH; lia|eauto]).
  destruct d; try exact Hs.
  destruct (decodeUnicodeCodePoint l) as [e|[u k]] eqn:E; [eauto|]. apply decodeUnicodeCodePoint_length in E. apply IH. cbn [snd] in E. lia.
Qed.

Lemma decodeString_spec text : exists r, decodeString text = Ret r.
Proof. apply decode_chars_spec. lia. Qed.

Section ends.
Context (past : byte).

(** A result with at most [n] characters left, or an exception. *)
Inductive leaves (n : nat) : outcome (bool * json * reader) -> Prop :=
  | leaves_ret ok v s : (length (current_ s) <= n)%nat -> leaves n (Ret (ok, v, s))
  | leaves_throw : leaves n Throw.

Hint Constructors leaves : core.

Lemma leaves_le n n' o : leaves n o -> (n <= n')%nat -> leaves n' o.
Proof. intros [ok v s H|]; constructor. lia. Qed.

Lemma leaves_bind n n' o f : leaves n' o -> (forall ok v s, (length (current_ s) <= n')%nat -> leaves n (f (ok, v, s))) -> leaves n (o ≫= f).
Proof. intros [ok v s H|] Hf; [by apply Hf|constructor]. Qed.

Lemma leaves_recover n ty v s : (length (current_ s) <= n)%nat ->
  leaves n (s' ← recoverFromError past ty s; Ret (false, v, s')).
Proof. intros Hn. destruct (recoverFromError_spec past ty s) as (l & -> & H). constructor. cbn in *. lia. Qed.

(** The separator after a member: the comments before it are skipped. *)
Lemma separator_spec l s : length (current_ s) = l -> exists t comma l', readToken past (current_ s) = (t, l') /\
  (length l' <= l)%nat /\
  (bool_decide (type_ t ∈ [tokenObjectEnd; tokenArraySeparator; tokenComment]) = true -> exists l'',
   (if bool_decide (type_ t = tokenComment) then skipCommentTokens past (at_ s l') else Ret (t, at_ s l')) = Ret (comma, at_ s l'') /\
   (length l'' < l)%nat).
Proof.
  intros <-. destruct (readToken past (current_ s)) as [t l'] eqn:E. apply readToken_length in E as [H1 H2].
  destruct (skipCommentTokens_spec past (at_ s l')) as (t' & l2 & E' & _ & H3 & _). cbn [current_ at_] in H3.
  exists t, (if bool_decide (type_ t = tokenComment) then t' else t), l'. split; [done|]. split; [done|].
  intros Ht%bool_decide_eq_true. assert (type_ t <> tokenEndOfStream) as Hn by (intros Hn; rewrite Hn in Ht; set_solver).
  specialize (H2 Hn). case_bool_decide; [exists l2|exists l']; (split; [done|]); cbn in *; lia.
Qed.

Definition ends_within (fuel : nat) : Prop :=
  (forall v s, (3 * length (current_ s) < fuel)%nat -> leaves (length (current_ s)) (readValue past fuel v s)) /\
  (forall name m s, (3 * length (current_ s) + 2 < fuel)%nat -> leaves (length (current_ s)) (readObject past fuel name m s)) /\
  (forall s, (3 * length (current_ s) + 2 < fuel)%nat -> leaves (length (current_ s)) (readArray past fuel s)) /\
  (forall l s, (3 * length (current_ s) + 1 < fuel)%nat -> leaves (length (current_ s)) (read_items past fuel l s)).

Lemma readValue_ends fuel : ends_within fuel -> forall v s, (3 * length (current_ s) < S fuel)%nat ->
  leaves (length (current_ s)) (readValue past (S fuel) v s).
Proof.
  intros (_ & HO & HA & _) v s Hf. cbn [readValue]. destruct (_ <=? _); [constructor|].
  destruct (skipCommentTokens_spec past (deeper 1 s)) as (t & l & -> & _ & H1 & H2). cbn [mbind outcome_bind].
  change (current_ (deeper 1 s)) with (current_ s) in *.
  destruct (type_ t); try (constructor; cbn; lia); specialize (H2 ltac:(done)).
  - eapply leaves_bind; [apply HO; cbn; lia|]. intros ok' v' s' Hs. constructor. cbn in *. lia.
  - eapply leaves_bind; [apply HA; cbn; lia|]. intros ok' v' s' Hs. constructor. cbn in *. lia.
  - destruct (decodeString_spec (text_ t)) as [[e|str] ->]; constructor; cbn; lia.
  - destruct (decodeNumber (text_ t)); constructor; cbn; lia.
Qed.

Lemma readObject_ends fuel : ends_within fuel -> forall name m s, (3 * length (current_ s) + 2 < S fuel)%nat ->
  leaves (length (current_ s)) (readObject past (S fuel) name m s).
Proof.
  intros (HV & HO & _) name m s Hf. cbn [readObject]. unfold addErrorAndRecover.
  destruct (skipCommentTokens_spec past s) as (t & l & -> & _ & H1 & H2). cbn [mbind outcome_bind].
  destruct (_ && _); [constructor; cbn; lia|].
  destruct (bool_decide_reflect (type_ t = tokenString)) as [Ht|]; [|apply leaves_recover; cbn; lia].
  rewrite Ht in H2. specialize (H2 ltac:(done)).
  destruct (decodeString_spec (text_ t)) as [[e|str] ->]; cbn [mbind outcome_bind]; [apply leaves_recover; cbn; lia|].
  cbn [current_ at_]. destruct (readToken past l) as [colon l2] eqn:E2. apply readToken_length in E2 as [H3 _].
  destruct (negb _); [apply leaves_recover; cbn; lia|].
  eapply leaves_bind; [apply HV; cbn; lia|]. intros ok v s' Hs'. cbn [current_ at_] in Hs'.
  destruct (negb ok); [apply leaves_recover; lia|].
  destruct (separator_spec _ s' eq_refl) as (t2 & comma & l3 & -> & H4 & H5).
  destruct (bool_decide (type_ t2 ∈ _)); cbn [negb]; [|apply leaves_recover; cbn; lia].
  destruct (H5 eq_refl) as (l4 & -> & H6). clear H5. cbn [mbind outcome_bind].
  case_bool_decide; [constructor; cbn; lia|]. eapply leaves_le; [apply HO; cbn; lia|cbn; lia].
Qed.

Lemma read_items_ends fuel : ends_within fuel -> forall l s, (3 * length (current_ s) + 1 < S fuel)%nat ->
  leaves (length (current_ s)) (read_items past (S fuel) l s).
Proof.
  intros (HV & _ & _ & HI) l s Hf. cbn [read_items]. unfold addErrorAndRecover.
  eapply leaves_bind; [apply HV; lia|]. intros ok v s' Hs'. destruct (negb ok); [apply leaves_recover; lia|].
  destruct (skipCommentTokens_spec past s') as (t & l' & -> & _ & H1 & H2). cbn [mbind outcome_bind].
  case_bool_decide as Ht; cbn [negb]; [|apply leaves_recover; cbn; lia].
  assert (type_ t <> tokenEndOfStream) as Hn by (intros Hn; rewrite Hn in Ht; set_solver). specialize (H2 Hn).
  case_bool_decide; [constructor; cbn; lia|]. eapply leaves_le; [apply HI; cbn; lia|cbn; lia].
Qed.

Lemma readArray_ends fuel : ends_within fuel -> forall s, (3 * length (current_ s) + 2 < S fuel)%nat ->
  leaves (length (current_ s)) (readArray past (S fuel) s).
Proof.
  intros (_ & _ & _ & HI) s Hf. cbn [readArray]. pose proof (skipSpaces_length (current_ s)) as Hs. cbn [current_ at_].
  case_bool_decide.
  - destruct (readToken past (skipSpaces (current_ s))) as [t l] eqn:E. apply readToken_length in E as [H1 _]. constructor. cbn. lia.
  - eapply leaves_le; [apply HI; cbn; lia|done].
Qed.

Lemma reader_ends fuel : ends_within fuel.
Proof.
  induction fuel as [|fuel IH]; [split_and!; intros; lia|].
  split_and!; [by apply readValue_ends|by apply readObject_ends|by apply readArray_ends|by apply read_items_ends].
Qed.

(** Reading ends, with a result or with the exception of the depth limit: the fuel of the
    model is enough for every document. *)
Lemma parse_total doc root : Reader_parse past doc root <> NoFuel.
Proof.
  unfold Reader_parse. destruct (proj1 (reader_ends (3 * length doc + 1)) root (MkReader doc 0 [])) as [ok v s _|]; [cbn; lia| |done].
  cbn [mbind outcome_bind]. by destruct (skipCommentTokens_spec past s) as (t & l & -> & _).
Qed.
End ends.

(** ** The values of the reader *)

(** Induction on values nested in arrays and objects. *)
Lemma json_nested_ind (P : json -> Prop) :
  (forall v, match v with arrayValue l => Forall P l | objectValue l => Forall (fun x => P x.2) l | _ => True end -> P v) ->
  forall v, P v.
Proof.
  intros H. fix go 1. intros v. apply H. destruct v; try exact I.
  - induction l as [|x l IHl]; constructor; [apply go|exact IHl].
  - induction l as [|x l IHl]; constructor; [apply go|exact IHl].
Qed.

(** A test that every value inside of a value passes. *)
Fixpoint json_all (P : json -> bool) (v : json) : bool :=
  P v && match v with
         | arrayValue l => forallb (json_all P) l
         | objectValue l => forallb (fun x => json_all P x.2) l
         | _ => true
         end.

(** Levels of nesting. *)
Fixpoint json_depth (v : json) : Z :=
  1 + match v with
      | arrayValue l => foldr (fun x => Z.max (json_depth x)) 0 l
      | objectValue l => foldr (fun x => Z.max (json_depth x.2)) 0 l
      | _ => 0
      end.

Fixpoint sorted_keys (l : list bytes) : bool :=
  match l with
  | k :: l' => match l' with k' :: _ => key_lt k k' && sorted_keys l' | [] => true end
  | [] => true
  end.

(** What the reader makes of numbers and objects: integers up to the largest [int] are signed,
    those above unsigned, and the members of an object are those of a [std::map]. *)
Definition canonical_node (v : json) : bool :=
  match v with
  | intValue n => (min_val I64 <=? n) && (n <=? max_val I32)
  | uintValue n => (max_val I32 <? n) && (n <=? max_val U64)
  | objectValue l => sorted_keys l.*1
  | _ => true
  end.

(** A text that is one number token. *)
Definition number_text (text : bytes) : bool :=
  match text with
  | c :: l => (is_digit c || bool_decide (c = x2d)) && bool_decide (readNumber l = [])
  | [] => false
  end.

(** A double whose text is read as the same double again: the text of an integral double such as
    5.0 is an integer. *)
Definition stable_real (text : bytes) (i : option Z) : bool :=
  number_text text &&
  match decodeNumber text with inr (realValue text' i') => bool_decide (text' = text /\ i' = i) | _ => false end.
Definition stable_node (v : json) : bool := match v with realValue text i => stable_real text i | _ => true end.

Definition canonical (v : json) : bool := json_all canonical_node v.
Definition stable (v : json) : bool := json_all stable_node v.

(** *** The order of keys *)

Lemma key_lt_irrefl a : key_lt a a = false.
Proof. induction a as [|x a IH]; [done|]. cbn [key_lt]. rewrite Z.ltb_irrefl, IH. by rewrite andb_false_r. Qed.

Lemma key_lt_spec x a y b : key_lt (x :: a) (y :: b) = true <-> b2z x < b2z y \/ x = y /\ key_lt a b = true.
Proof. cbn [key_lt]. rewrite orb_true_iff, andb_true_iff, Z.ltb_lt, bool_decide_eq_true. done. Qed.

Lemma key_lt_trans a : forall b c, key_lt a b = true -> key_lt b c = true -> key_lt a c = true.
Proof.
  induction a as [|x a IH]; intros [|y b] [|z c]; try done. rewrite !key_lt_spec. intros [H1|[-> H1]] [H2|[-> H2]].
  - left. lia.
  - by left.
  - by left.
  - right. split; [done|by eapply IH].
Qed.

Lemma key_lt_total a : forall b, key_lt a b = false -> a <> b -> key_lt b a = true.
Proof.
  induction a as [|x a IH]; intros [|y b]; try done. intros Hf Hne. rewrite key_lt_spec.
  destruct (decide (x = y)) as [->|Hxy].
  - right. split; [done|]. apply IH; [|congruence]. destruct (key_lt a b) eqn:E; [|done].
    rewrite (proj2 (key_lt_spec y a y b)) in Hf; [done|by right].
  - left. destruct (Z.lt_trichotomy (b2z x) (b2z y)) as [Hl|[He|Hg]]; [|by apply b2z_inj in He|done].
    rewrite (proj2 (key_lt_spec x a y b)) in Hf; [done|by left].
Qed.

Definition key_order : relation bytes := fun a b => key_lt a b = true.

Lemma sorted_keys_spec l : sorted_keys l = true <-> StronglySorted key_order l.
Proof.
  induction l as [|k l IH]; [split; [constructor|done]|]. destruct l as [|k' l].
  - split; [repeat constructor|done].
  - cbn [sorted_keys] in *. rewrite andb_true_iff, IH. split.
    + intros [Hk Hs]. pose proof Hs as [_ Ha]%StronglySorted_inv. constructor; [done|]. constructor; [done|].
      eapply Forall_impl; [exact Ha|]. intros x Hx. by eapply key_lt_trans.
    + intros [Hs Ha]%StronglySorted_inv. split; [|done]. by apply Forall_inv in Ha.
Qed.

Lemma set_member_elem name v m x : x ∈ set_member name v m -> x = (name, v) \/ x ∈ m.
Proof.
  induction m as [|[k w] m IH]; cbn [set_member]; [set_solver|].
  destruct (key_lt k name); [|case_bool_decide]; set_solver.
Qed.

Lemma set_member_sorted name v m : StronglySorted key_order m.*1 -> StronglySorted key_order (set_member name v m).*1.
Proof.
  induction m as [|[k w] m IH]; intros Hs; [repeat constructor|]. cbn [fmap list_fmap fst] in Hs.
  pose proof Hs as [Hs' Ha]%StronglySorted_inv. cbn [set_member]. destruct (key_lt k name) eqn:E.
  - cbn [fmap list_fmap fst]. constructor; [by apply IH|]. apply Forall_forall. intros y Hy.
    apply list_elem_of_fmap in Hy as (x & -> & [-> | Hx]%set_member_elem); [done|].
    rewrite Forall_forall in Ha. apply Ha, list_elem_of_fmap. eauto.
  - case_bool_decide as Ek; [subst; by constructor|]. apply key_lt_total in E; [|done].
    cbn [fmap list_fmap fst]. constructor; [done|]. constructor; [done|].
    eapply Forall_impl; [exact Ha|]. intros y Hy. by eapply key_lt_trans.
Qed.

(** A key above all others is added at the end. *)
Lemma set_member_last name v m : Forall (fun k => key_lt k name = true) m.*1 -> set_member name v m = m ++ [(name, v)].
Proof.
  induction m as [|[k w] m IH]; intros Hk; [done|]. apply Forall_cons_1 in Hk as [Hk Hm]. cbn [set_member]. cbn [fst] in Hk.
  rewrite Hk. cbn [app]. by rewrite IH.
Qed.

(** *** What is read is canonical *)

Lemma is_digit_val c : is_digit c = true -> 0 <= digit_val c <= 9.
Proof. unfold is_digit, digit_val. intros [H1 H2]%andb_true_iff. lia. Qed.

(** The guard of the loop keeps the value within the type. *)
Lemma decode_digits_bound M l : 0 < M -> forall value r, 0 <= value <= M -> decode_digits M (M / 10) l value = Some r -> 0 <= r <= M.
Proof.
  intros HM. induction l as [|c l IH]; intros value r Hv E; cbn [decode_digits] in E; [by injection E as <-|].
  destruct (is_digit c) eqn:Ec; cbn [negb] in E; [|done]. pose proof (is_digit_val c Ec) as Hd.
  destruct (_ && _) eqn:Eg; [done|]. apply IH in E; [done|]. apply andb_false_iff in Eg as [Eg|Eg].
  - apply Z.leb_gt in Eg. dlia.
  - rewrite !orb_false_iff in Eg. destruct Eg as [[H1 _] H2]. apply Z.ltb_ge in H1, H2. dlia.
Qed.

(** A value that can be read at depth [d]. *)
Definition fits (d : Z) (v : json) : Prop := canonical v = true /\ d + json_depth v <= stackLimit_g.

Lemma decodeDouble_real text v : decodeDouble text = inr v -> exists t i, v = realValue t i.
Proof. unfold decodeDouble. repeat case_match; intros [= <-]; eauto. Qed.

Lemma decodeNumber_fits text v d : decodeNumber text = inr v -> d < stackLimit_g -> fits d v.
Proof.
  intros E Hd. unfold decodeNumber in E.
  assert (Hs : forall v, canonical_node v = true -> match v with arrayValue _ | objectValue _ => False | _ => True end -> fits d v).
  { intros w Hw Hn. destruct w; try done; (split; [unfold canonical; cbn [json_all]; by rewrite Hw|cbn; lia]). }
  assert (Hgen : forall (neg : bool) (l : bytes) (M : Z), M = (if neg then max_val I64 + 1 else max_val U64) ->
    match decode_digits M (M / 10) l 0 with
    | None => decodeDouble text
    | Some value => if neg && (value =? M) then inr (intValue (min_val I64)) else if neg then inr (intValue (- value))
        else if value <=? max_val I32 then inr (intValue value) else inr (uintValue value)
    end = inr v -> fits d v).
  { intros neg l M HM E'. destruct (decode_digits M (M / 10) l 0) as [value|] eqn:Ed.
    - apply decode_digits_bound in Ed; [|destruct neg; subst M; done|destruct neg; subst M; done].
      destruct neg; cbn [andb] in E'.
      + destruct (Z.eqb_spec value M); injection E' as <-; apply Hs; try done. subst M. cbn -[min_val max_val] in *.
        apply andb_true_iff. rewrite !Z.leb_le. change (max_val I64) with 9223372036854775807 in *.
        change (min_val I64) with (-9223372036854775808). change (max_val I32) with 2147483647. lia.
      + destruct (Z.leb_spec value (max_val I32)); injection E' as <-; apply Hs; try done; cbn -[min_val max_val];
          apply andb_true_iff; rewrite ?Z.leb_le, ?Z.ltb_lt; subst M; change (min_val I64) with (-9223372036854775808); lia.
    - apply decodeDouble_real in E' as (t & i & ->). by apply Hs. }
  destruct text as [|c l]; [by eapply (Hgen false)|]. destruct c; (by eapply (Hgen false)) || by eapply (Hgen true).
Qed.

Section image.
Context (past : byte).

(** What a call that started in [s] may return for a value at depth [d]. *)
Inductive reads (d : Z) (s : reader) : outcome (bool * json * reader) -> Prop :=
  | reads_ok v l : fits d v -> reads d s (Ret (true, v, at_ s l))
  | reads_bad v s' e es : errors_ s' = errors_ s ++ e :: es -> reads d s (Ret (false, v, s'))
  | reads_throw : reads d s Throw
  | reads_nofuel : reads d s NoFuel.

Lemma reads_recover d s ty e es v s' : errors_ s' = errors_ s ++ e :: es ->
  reads d s (s' ← recoverFromError past ty s'; Ret (false, v, s')).
Proof. intros He. destruct (recoverFromError_spec past ty s') as (l & -> & _). by eapply reads_bad. Qed.

Lemma reads_add d s ty e v s' : errors_ s' = errors_ s ->
  reads d s (s' ← addErrorAndRecover past e ty s'; Ret (false, v, s')).
Proof. intros He. eapply (reads_recover _ _ _ e []). cbn. by rewrite He. Qed.

(** The position does not matter. *)
Lemma reads_at d s l o : reads d (at_ s l) o -> reads d s o.
Proof.
  intros [v l' Hf|v s' e es He| |]; try constructor; [by apply (reads_ok d s v l')|by eapply reads_bad].
Qed.

(** The members read so far. *)
Definition members_fit (d : Z) (m : list (bytes * json)) : Prop :=
  StronglySorted key_order m.*1 /\ Forall (fun x => fits d x.2) m.

Lemma fold_depth_le {A} (f : A -> Z) l b : 0 <= b -> Forall (fun x => f x <= b) l -> foldr (fun x => Z.max (f x)) 0 l <= b.
Proof. intros Hb. induction 1; cbn; lia. Qed.

Lemma fits_object d m : members_fit d m -> d <= stackLimit_g -> fits (d - 1) (objectValue m).
Proof.
  intros [Hs Hf] Hd. split.
  - unfold canonical. cbn [json_all canonical_node]. apply andb_true_iff. split; [by apply sorted_keys_spec|].
    apply forallb_forall. intros x Hx. rewrite Forall_forall in Hf. apply Hf. by apply list_elem_of_In.
  - cbn [json_depth]. enough (foldr (fun x => Z.max (json_depth x.2)) 0 m <= stackLimit_g - d) by lia.
    apply fold_depth_le; [lia|]. eapply Forall_impl; [exact Hf|]. intros x [_ ?]. cbn in *. lia.
Qed.

Lemma fits_array d l : Forall (fits d) l -> d <= stackLimit_g -> fits (d - 1) (arrayValue l).
Proof.
  intros Hf Hd. split.
  - unfold canonical. cbn [json_all canonical_node andb]. apply forallb_forall. intros x Hx.
    rewrite Forall_forall in Hf. apply Hf. by apply list_elem_of_In.
  - cbn [json_depth]. enough (foldr (fun x => Z.max (json_depth x)) 0 l <= stackLimit_g - d) by lia.
    apply fold_depth_le; [lia|]. eapply Forall_impl; [exact Hf|]. intros x [_ ?]. cbn in *. lia.
Qed.

Lemma members_fit_set d name v m : members_fit d m -> fits d v -> members_fit d (set_member name v m).
Proof.
  intros [Hs Hf] Hv. split; [by apply set_member_sorted|]. apply Forall_forall. intros x [-> | Hx]%set_member_elem; [done|].
  rewrite Forall_forall in Hf. by apply Hf.
Qed.

Definition image_ok (fuel : nat) : Prop :=
  (forall v s, reads (stackDepth_g s) s (readValue past fuel v s)) /\
  (forall name m s, members_fit (stackDepth_g s) m -> stackDepth_g s <= stackLimit_g ->
     reads (stackDepth_g s - 1) s (readObject past fuel name m s)) /\
  (forall s, stackDepth_g s <= stackLimit_g -> reads (stackDepth_g s - 1) s (readArray past fuel s)) /\
  (forall l s, Forall (fits (stackDepth_g s)) l -> stackDepth_g s <= stackLimit_g ->
     reads (stackDepth_g s - 1) s (read_items past fuel l s)).

Lemma deeper_back s l l' : deeper (-1) (at_ (at_ (deeper 1 s) l) l') = at_ s l'.
Proof. unfold deeper, at_. cbn. f_equal. lia. Qed.

Lemma deeper_back1 s l : deeper (-1) (at_ (deeper 1 s) l) = at_ s l.
Proof. unfold deeper, at_. cbn. f_equal. lia. Qed.

(** A container is read one level deeper. *)
Lemma reads_deeper s l o : reads (stackDepth_g s) (at_ (deeper 1 s) l) o ->
  reads (stackDepth_g s) s ('(ok, v, s') ← o; Ret (ok, v, deeper (-1) s')).
Proof.
  intros [v l' Hf|v s' e es He| |]; cbn [mbind outcome_bind]; try constructor.
  - rewrite deeper_back. by constructor.
  - by eapply reads_bad.
Qed.

Lemma readValue_image fuel : image_ok fuel -> forall v s, reads (stackDepth_g s) s (readValue past (S fuel) v s).
Proof.
  intros (_ & HO & HA & _) v s. cbn [readValue]. destruct (Z.leb_spec stackLimit_g (stackDepth_g s)) as [|Hd]; [constructor|].
  destruct (skipCommentTokens_spec past (deeper 1 s)) as (t & l & -> & _). cbn [mbind outcome_bind].
  assert (Hleaf : forall w, json_depth w = 1 -> canonical w = true -> reads (stackDepth_g s) s (Ret (true, w, deeper (-1) (at_ (deeper 1 s) l)))).
  { intros w Hw Hc. rewrite deeper_back1. constructor. split; [done|]. lia. }
  destruct (type_ t); try (by apply Hleaf); try (by apply (reads_bad _ _ _ _ value_expected [])).
  - apply (reads_deeper s l). replace (stackDepth_g s) with (stackDepth_g (at_ (deeper 1 s) l) - 1) by (cbn; lia).
    apply HO; [split; constructor|cbn; lia].
  - apply (reads_deeper s l). replace (stackDepth_g s) with (stackDepth_g (at_ (deeper 1 s) l) - 1) by (cbn; lia).
    apply HA. cbn. lia.
  - destruct (decodeString_spec (text_ t)) as [[e|str] ->]; cbn [mbind outcome_bind]; [by apply (reads_bad _ _ _ _ e [])|by apply Hleaf].
  - destruct (decodeNumber (text_ t)) as [e|w] eqn:E; [by apply (reads_bad _ _ _ _ e [])|].
    rewrite deeper_back1. constructor. by eapply decodeNumber_fits.
Qed.

Lemma readObject_image fuel : image_ok fuel -> forall name m s, members_fit (stackDepth_g s) m -> stackDepth_g s <= stackLimit_g ->
  reads (stackDepth_g s - 1) s (readObject past (S fuel) name m s).
Proof.
  intros (HV & HO & _) name m s Hm Hd. cbn [readObject].
  destruct (skipCommentTokens_spec past s) as (t & l & -> & _). cbn [mbind outcome_bind].
  destruct (_ && _); [constructor; by apply fits_object|]. case_bool_decide; [|by apply reads_add].
  destruct (decodeString_spec (text_ t)) as [[e|str] ->]; cbn [mbind outcome_bind]; [by apply (reads_recover _ _ _ e [])|].
  cbn [current_ at_]. destruct (readToken past l) as [colon l2]. destruct (negb _); [by apply reads_add|].
  destruct (HV (default nullValue (member str m)) (at_ (at_ s l) l2)) as [v l3 Hv|v s' e es He| |]; cbn [mbind outcome_bind negb];
    [|by eapply reads_recover|constructor|constructor].
  destruct (separator_spec past _ (at_ (at_ (at_ s l) l2) l3) eq_refl) as (t2 & comma & l4 & -> & _ & H5).
  destruct (bool_decide (type_ t2 ∈ _)); cbn [negb]; [|by apply reads_add].
  destruct (H5 eq_refl) as (l5 & -> & _). clear H5. cbn [mbind outcome_bind].
  assert (Hm' : members_fit (stackDepth_g s) (set_member str v m)) by (by apply members_fit_set).
  case_bool_decide; [|apply (reads_at _ s l5), (HO str _ (at_ s l5) Hm' Hd)].
  change (reads (stackDepth_g s - 1) s (Ret (true, objectValue (set_member str v m), at_ s l5))). constructor. by apply fits_object.
Qed.

Lemma read_items_image fuel : image_ok fuel -> forall l s, Forall (fits (stackDepth_g s)) l -> stackDepth_g s <= stackLimit_g ->
  reads (stackDepth_g s - 1) s (read_items past (S fuel) l s).
Proof.
  intros (HV & _ & _ & HI) l s Hl Hd. cbn [read_items].
  destruct (HV nullValue s) as [v l' Hv|v s' e es He| |]; cbn [mbind outcome_bind negb];
    [|by eapply reads_recover|constructor|constructor].
  destruct (skipCommentTokens_spec past (at_ s l')) as (t & l2 & -> & _). cbn [mbind outcome_bind].
  assert (Hl' : Forall (fits (stackDepth_g s)) (l ++ [v])) by (apply Forall_app; split; [done|by apply Forall_singleton]).
  case_bool_decide; cbn [negb]; [|by apply reads_add]. case_bool_decide; [|apply (reads_at _ s l2), (HI _ (at_ s l2) Hl' Hd)].
  change (reads (stackDepth_g s - 1) s (Ret (true, arrayValue (l ++ [v]), at_ s l2))). constructor. by apply fits_array.
Qed.

Lemma readArray_image fuel : image_ok fuel -> forall s, stackDepth_g s <= stackLimit_g ->
  reads (stackDepth_g s - 1) s (readArray past (S fuel) s).
Proof.
  intros (_ & _ & _ & HI) s Hd. cbn [readArray]. case_bool_decide; [|by eapply reads_at, (HI [] (at_ s _))].
  change (reads (stackDepth_g s - 1) s (Ret (true, arrayValue [], at_ s (readToken past (current_ (at_ s (skipSpaces (current_ s))))).2))).
  constructor. by apply fits_array.
Qed.

Lemma reader_image fuel : image_ok fuel.
Proof.
  induction fuel as [|fuel IH]; [split_and!; constructor|].
  split_and!; [by apply readValue_image|by apply readObject_image|by apply readArray_image|by apply read_items_image].
Qed.

(** The result of a document: a canonical value nested at most a thousand levels deep and no
    error, or a failure and at least one error, or the exception of the depth limit. *)
Lemma parse_cases doc root :
  match Reader_parse past doc root with
  | Ret (true, v, es) => fits 0 v /\ es = []
  | Ret (false, _, es) => es <> []
  | Throw => True
  | NoFuel => False
  end.
Proof.
  pose proof (parse_total past doc root) as Ht. unfold Reader_parse in *.
  destruct (proj1 (reader_image (3 * length doc + 1)) root (MkReader doc 0 [])) as [v l Hv|v s' e es He| |]; cbn [mbind outcome_bind] in *; [| |done|done].
  - by destruct (skipCommentTokens_spec past (at_ (MkReader doc 0 []) l)) as (t & l' & -> & _).
  - destruct (skipCommentTokens_spec past s') as (t & l' & -> & _). cbn. by rewrite He.
Qed.
End image.

(** ** Reading what was printed *)

(** *** Strings *)

Lemma readString_char c l : readString (escape_char c ++ l) = readString l.
Proof. by destruct c. Qed.

Lemma readString_escaped str rest : readString (mjoin (escape_char <$> str) ++ x22 :: rest) = (true, rest).
Proof.
  induction str as [|c str IH]; [done|]. cbn [fmap list_fmap]. rewrite join_cons, <- app_assoc. by rewrite readString_char.
Qed.

Lemma decode_char fuel c l acc : decode_chars (S fuel) (escape_char c ++ l) acc = decode_chars fuel l (acc ++ [c]).
Proof. by destruct c. Qed.

Lemma decode_escaped str : forall fuel acc, (length str < fuel)%nat ->
  decode_chars fuel (mjoin (escape_char <$> str)) acc = Ret (inr (acc ++ str)).
Proof.
  induction str as [|c str IH]; intros fuel acc Hf; (destruct fuel as [|fuel]; [cbn in Hf; lia|]).
  - cbn. by rewrite app_nil_r.
  - cbn [fmap list_fmap]. rewrite join_cons, decode_char. cbn [length] in Hf. rewrite IH by lia. by rewrite <- app_assoc.
Qed.

Lemma escape_char_nonempty c : (1 <= length (escape_char c))%nat.
Proof. apply Nat.leb_le. by destruct c. Qed.

Lemma escaped_length str : (length str <= length (mjoin (escape_char <$> str)))%nat.
Proof.
  induction str as [|c str IH]; [done|]. cbn [fmap list_fmap]. rewrite join_cons, length_app. cbn [length].
  pose proof (escape_char_nonempty c). lia.
Qed.

Lemma decodeString_quoted str : decodeString (valueToQuotedStringN str) = Ret (inr str).
Proof.
  rewrite valueToQuotedStringN_escape. unfold decodeString. set (b := mjoin (escape_char <$> str)).
  replace (drop 1 (take (length ([x22] ++ b ++ [x22]) - 1) ([x22] ++ b ++ [x22]))) with b.
  - apply decode_escaped. pose proof (escaped_length str). unfold b in *. lia.
  - rewrite !length_app. cbn [length]. replace (1 + (length b + 1) - 1)%nat with (S (length b)) by lia.
    cbn [app take drop]. by rewrite take_app_length.
Qed.

(** *** Numbers *)

Definition number_char (c : byte) : bool := is_digit c || bool_decide (c ∈ [x2e; x65; x45; x2b; x2d]).

(** A text that does not go on with a number. *)
Definition stops (rest : bytes) : bool := match rest with c :: _ => negb (number_char c) | [] => true end.

Lemma skip_digits_stops rest : stops rest = true -> skip_digits rest = rest.
Proof.
  destruct rest as [|c rest]; [done|]. cbn [stops skip_digits]. unfold number_char. intros H%negb_true_iff.
  apply orb_false_iff in H as [-> _]. done.
Qed.

Lemma skip_digits_app l rest : stops rest = true -> skip_digits (l ++ rest) = skip_digits l ++ rest.
Proof.
  intros Hr. induction l as [|c l IH]; cbn [skip_digits app]; [by apply skip_digits_stops|]. by destruct (is_digit c).
Qed.

Lemma read_fraction_app l rest : stops rest = true -> read_fraction (l ++ rest) = read_fraction l ++ rest.
Proof.
  intros Hr. destruct l as [|c l]; cbn [app].
  - destruct rest as [|c rest]; [done|]. destruct c; done.
  - pose proof (skip_digits_app l rest Hr). by destruct c.
Qed.

Lemma read_exponent_app l rest : stops rest = true -> read_exponent (l ++ rest) = read_exponent l ++ rest.
Proof.
  intros Hr. assert (Hsign : forall l, match l ++ rest with (x2b | x2d) :: l' => l' | _ => l ++ rest end =
    match l with (x2b | x2d) :: l' => l' | _ => l end ++ rest).
  { intros [|c k]; cbn [app]; [destruct rest as [|c rest]; [done|]; by destruct c|]. by destruct c. }
  destruct l as [|c l]; cbn [app].
  - destruct rest as [|c rest]; [done|]. destruct c; done.
  - assert (He : skip_digits match l ++ rest with (x2b | x2d) :: l' => l' | _ => l ++ rest end =
      skip_digits match l with (x2b | x2d) :: l' => l' | _ => l end ++ rest) by (rewrite Hsign; by apply skip_digits_app).
    destruct c; done.
Qed.

Lemma readNumber_app l rest : stops rest = true -> readNumber (l ++ rest) = readNumber l ++ rest.
Proof. intros Hr. unfold readNumber. by rewrite skip_digits_app, read_fraction_app, read_exponent_app. Qed.

Lemma skip_digits_all l : Forall (fun c => is_digit c = true) l -> skip_digits l = [].
Proof. induction 1 as [|c l Hc _ IH]; [done|]. cbn [skip_digits]. by rewrite Hc. Qed.

Lemma digits_le l : forall v r, 0 <= v -> digits l v true = Some r -> Forall (fun c => is_digit c = true) l ->
  v <= r /\ (l <> [] -> 10 * v <= r).
Proof.
  induction l as [|c l IH]; intros v r Hv E Hl; cbn [digits] in E; [by injection E as <-|].
  apply Forall_cons_1 in Hl as [Hc Hl]. rewrite Hc in E. pose proof (is_digit_val c Hc).
  apply IH in E as [H1 _]; [|lia|done]. split; [lia|]. intros _. lia.
Qed.

Lemma decode_digits_value M l : 10 < M -> forall v r, 0 <= v -> Forall (fun c => is_digit c = true) l ->
  digits l v true = Some r -> r <= M -> decode_digits M (M / 10) l v = Some r.
Proof.
  intros HM. induction l as [|c l IH]; intros v r Hv Hl E Hr; cbn [digits decode_digits] in *; [done|].
  apply Forall_cons_1 in Hl as [Hc Hl]. rewrite Hc in E |- *. cbn [negb]. pose proof (is_digit_val c Hc) as Hd.
  pose proof (digits_le l (10 * v + digit_val c) r ltac:(lia) E Hl) as [H1 H2].
  assert (Hg : (M / 10 <=? v) && ((M / 10 <? v) || negb (bool_decide (l = [])) || (M mod 10 <? digit_val c)) = false).
  { apply andb_false_iff. destruct (Z.leb_spec (M / 10) v) as [Hle|]; [|by left]. right. rewrite !orb_false_iff.
    assert (v = M / 10) by dlia. split_and!; [apply Z.ltb_ge; lia| |apply Z.ltb_ge; dlia].
    apply negb_false_iff, bool_decide_eq_true. destruct l as [|d l]; [done|]. specialize (H2 ltac:(done)). dlia. }
  rewrite Hg. apply IH; [lia|done| |done]. by rewrite (Z.mul_comm v 10).
Qed.

Lemma dec_loop_value n : 0 <= n < 10 ^ 20 -> digits (dec_loop 20 n []) 0 true = Some n.
Proof. intros Hn. rewrite <- (app_nil_r (dec_loop 20 n [])). by rewrite digits_dec_loop by (done || lia). Qed.

Lemma to_string_number n : number_text (to_string n) = true.
Proof.
  unfold to_string. destruct (Z.ltb_spec n 0).
  - cbn [number_text]. rewrite bool_decide_true by done. rewrite orb_true_r. apply bool_decide_eq_true. unfold readNumber.
    by rewrite skip_digits_all by (apply dec_loop_digits; lia).
  - destruct (dec_loop_head 20 n) as (c & l & E & Hc); [lia..|]. pose proof (dec_loop_digits 20 n ltac:(lia)) as Hd.
    rewrite E in Hd |- *. cbn [number_text]. rewrite Hc. apply bool_decide_eq_true. unfold readNumber.
    apply Forall_cons_1 in Hd as [_ Hd]. by rewrite skip_digits_all.
Qed.

Lemma decodeNumber_nonneg text M : text <> [] -> head text <> Some x2d -> M = max_val U64 ->
  decodeNumber text = match decode_digits M (M / 10) text 0 with
    | None => decodeDouble text
    | Some value => if value <=? max_val I32 then inr (intValue value) else inr (uintValue value)
    end.
Proof. intros Hne Hh ->. destruct text as [|c text]; [done|]. destruct c; done. Qed.

Lemma decodeNumber_to_string n : min_val I64 <= n <= max_val U64 ->
  decodeNumber (to_string n) = inr (if n <=? max_val I32 then intValue n else uintValue n).
Proof.
  change (min_val I64) with (-9223372036854775808). change (max_val U64) with 18446744073709551615. intros Hn.
  unfold to_string. destruct (Z.ltb_spec n 0) as [Hneg|Hpos].
  - unfold decodeNumber. rewrite (decode_digits_value (max_val I64 + 1) (dec_loop 20 (- n) []) eq_refl 0 (- n)); [|lia| | |].
    + rewrite (proj2 (Z.leb_le n (max_val I32))) by (change (max_val I32) with 2147483647; lia). cbn [andb].
      change (max_val I64 + 1) with 9223372036854775808. destruct (Z.eqb_spec (- n) 9223372036854775808) as [He|]; do 2 f_equal; [|lia].
      change (min_val I64) with (-9223372036854775808). lia.
    + apply dec_loop_digits. lia.
    + apply dec_loop_value. lia.
    + change (max_val I64 + 1) with 9223372036854775808. lia.
  - pose proof (dec_loop_digits 20 n ltac:(lia)) as Hd. destruct (dec_loop_head 20 n) as (c & l & E & Hc); [lia..|].
    rewrite (decodeNumber_nonneg _ (max_val U64)); [|by rewrite E|rewrite E; intros [= ->]; done|done].
    rewrite (decode_digits_value (max_val U64) (dec_loop 20 n []) eq_refl 0 n); [by destruct (n <=? _)|lia|done|apply dec_loop_value; lia|].
    change (max_val U64) with 18446744073709551615. lia.
Qed.

(** *** Tokens *)

Section printed.
Context (past : byte).

Definition start_char (c : byte) : bool := is_digit c || bool_decide (c ∈ [x7b; x5b; x22; x74; x66; x6e; x2d]).

Lemma skipSpaces_start c l : start_char c = true -> skipSpaces (c :: l) = c :: l.
Proof. intros H. destruct c; try done. Qed.

Lemma readToken_at c l t l' : skipSpaces (c :: l) = c :: l -> token_from past c l = (t, true, l') ->
  readToken past (c :: l) = (MkToken t (take (S (length l) - length l') (c :: l)), l').
Proof. intros Hs Ht. unfold readToken. rewrite Hs. cbn [getNextChar]. by rewrite Ht. Qed.

Lemma readToken_split c l t l' k : skipSpaces (c :: l) = c :: l -> token_from past c l = (t, true, l') -> c :: l = k ++ l' ->
  readToken past (c :: l) = (MkToken t k, l').
Proof.
  intros Hs Ht Hk. rewrite (readToken_at _ _ _ _ Hs Ht). do 2 f_equal. rewrite Hk.
  apply (f_equal length) in Hk. rewrite length_app in Hk. cbn [length] in Hk.
  replace (S (length l) - length l')%nat with (length k) by lia. by rewrite take_app_length.
Qed.

Lemma readToken_string str rest : readToken past (valueToQuotedStringN str ++ rest) = (MkToken tokenString (valueToQuotedStringN str), rest).
Proof.
  rewrite valueToQuotedStringN_escape. set (b := mjoin (escape_char <$> str)).
  change (([x22] ++ b ++ [x22]) ++ rest) with (x22 :: (b ++ [x22]) ++ rest). rewrite <- app_assoc.
  apply readToken_split; [done| |cbn [app]; by rewrite <- app_assoc].
  cbn [token_from app]. unfold b. by rewrite readString_escaped.
Qed.

Lemma readToken_number text rest : number_text text = true -> stops rest = true ->
  readToken past (text ++ rest) = (MkToken tokenNumber text, rest).
Proof.
  intros Ht Hr. destruct text as [|c l]; [done|]. cbn [number_text] in Ht. apply andb_true_iff in Ht as [Hc Hl%bool_decide_eq_true].
  change ((c :: l) ++ rest) with (c :: l ++ rest).
  assert (Hn : readNumber (l ++ rest) = rest) by (by rewrite readNumber_app, Hl).
  apply readToken_split; [|by destruct c; try done; cbn [token_from]; rewrite Hn|done]. apply skipSpaces_start.
  unfold start_char. apply orb_true_iff in Hc as [->|Hc%bool_decide_eq_true]; [done|]. by subst c.
Qed.

Lemma skipCommentTokens_tok s t l : readToken past (current_ s) = (t, l) -> type_ t <> tokenComment ->
  skipCommentTokens past s = Ret (t, at_ s l).
Proof. intros E Ht. unfold skipCommentTokens. cbn [skip_comments]. rewrite E. by rewrite bool_decide_false. Qed.

(** What may follow a printed value: anything, unless it is a number. *)
Definition may_follow (v : json) (rest : bytes) : bool :=
  match v with intValue _ | uintValue _ | realValue _ _ => stops rest | _ => true end.

Lemma toString_start v : stable_node v = true -> exists c l, toString v = c :: l /\ start_char c = true.
Proof.
  assert (Hn : forall t, number_text t = true -> exists c l, t = c :: l /\ start_char c = true).
  { intros [|c l] H; [done|]. exists c, l. split; [done|]. unfold start_char. apply andb_true_iff in H as [H _].
    apply orb_true_iff in H as [->|H%bool_decide_eq_true]; [done|]. by subst c. }
  destruct v; intros Hs; cbn [toString]; try (by eexists _, _).
  - apply Hn, to_string_number.
  - apply Hn, to_string_number.
  - apply Hn. by apply andb_true_iff in Hs as [? _].
  - rewrite valueToQuotedStringN_escape. by eexists _, _.
  - destruct b; by eexists _, _.
Qed.

(** *** Arrays and objects as text *)

Definition more_items (l : list json) : bytes := mjoin ((fun x => x2c :: toString x) <$> l).
Definition member_text (x : bytes * json) : bytes := valueToQuotedStringN x.1 ++ x3a :: toString x.2.
Definition more_members (l : list (bytes * json)) : bytes := mjoin ((fun x => x2c :: member_text x) <$> l).

Lemma toString_array_cons x l : toString (arrayValue (x :: l)) = x5b :: toString x ++ more_items l ++ [x5d].
Proof.
  cbn [toString app]. f_equal. rewrite <- app_assoc. f_equal. f_equal. unfold more_items.
  induction l as [|y l IH]; [done|]. cbn [fmap list_fmap]. rewrite join_cons. by rewrite <- IH.
Qed.

Lemma toString_object_cons x l : toString (objectValue (x :: l)) = x7b :: member_text x ++ more_members l ++ [x7d].
Proof.
  destruct x as [k v]. cbn [toString app]. change (lit "{" ++ ?t) with (x7b :: t). f_equal. unfold member_text at 1. cbn [fst snd].
  rewrite <- !app_assoc. f_equal. change (lit ":" ++ ?t) with (x3a :: t). cbn [app]. f_equal. f_equal. f_equal. unfold more_members.
  induction l as [|[k' v'] l IH]; [done|]. cbn [fmap list_fmap]. rewrite join_cons, <- IH.
  unfold member_text. cbn [fst snd app]. change (lit "," ++ ?t) with (x2c :: t). by rewrite <- !app_assoc.
Qed.

(** *** Values *)

(** Reading the text of [v] at the depth of [s] gives [u] and leaves what follows, or the depth
    limit is hit. *)
Definition read_as (v u : json) : Prop := forall fuel w s rest,
  may_follow v rest = true -> current_ s = toString v ++ rest -> (3 * length (current_ s) < fuel)%nat ->
  stackDepth_g s <= stackLimit_g ->
  readValue past fuel w s = if stackDepth_g s + json_depth v <=? stackLimit_g then Ret (true, u, at_ s rest) else Throw.
Definition read_back (v : json) : Prop := read_as v v.

Lemma json_depth_pos v : 1 <= json_depth v.
Proof.
  assert (H : forall {A} (f : A -> Z) l, 0 <= foldr (fun x => Z.max (f x)) 0 l) by (intros A f l; induction l; cbn; lia).
  destruct v; cbn [json_depth]; try lia; (specialize (H _ json_depth l) || specialize (H _ (fun x => json_depth x.2) l)); lia.
Qed.

Lemma punct_token c ty rest : skipSpaces (c :: rest) = c :: rest -> token_from past c rest = (ty, true, rest) ->
  readToken past (c :: rest) = (MkToken ty [c], rest).
Proof. intros Hs Ht. by apply readToken_split. Qed.

Lemma word_token c w rest ty : skipSpaces (c :: w ++ rest) = c :: w ++ rest -> token_from past c (w ++ rest) = (ty, true, rest) ->
  readToken past ((c :: w) ++ rest) = (MkToken ty (c :: w), rest).
Proof. intros Hs Ht. by apply readToken_split. Qed.

Lemma match_pattern_app p rest : match_pattern p (p ++ rest) = (true, rest).
Proof.
  unfold match_pattern. rewrite length_app, (proj2 (Nat.ltb_ge _ _)) by lia.
  by rewrite take_app_length, drop_app_length, bool_decide_true.
Qed.

Lemma read_leaf v ty text : json_depth v = 1 -> ty <> tokenComment ->
  (forall rest, may_follow v rest = true -> readToken past (toString v ++ rest) = (MkToken ty text, rest)) ->
  (forall fuel w s, stackDepth_g s < stackLimit_g -> forall l, skipCommentTokens past (deeper 1 s) = Ret (MkToken ty text, at_ (deeper 1 s) l) ->
     readValue past (S fuel) w s = Ret (true, v, deeper (-1) (at_ (deeper 1 s) l))) ->
  read_back v.
Proof.
  intros Hd Hty Htok Hval fuel w s rest Hf Hc Hfu Hs. destruct fuel as [|fuel]; [lia|]. rewrite Hd.
  destruct (Z.leb_spec (stackDepth_g s + 1) stackLimit_g).
  - rewrite (Hval fuel w s ltac:(lia) rest); [by rewrite deeper_back1|]. apply skipCommentTokens_tok; [|done].
    cbn [deeper current_]. rewrite Hc. by apply Htok.
  - cbn [readValue]. by rewrite (proj2 (Z.leb_le _ _)) by lia.
Qed.

Ltac read_leaf_value :=
  let H := fresh in
  let El := fresh in
  intros ??? H ? El; cbn [readValue]; rewrite (proj2 (Z.leb_gt _ _)) by exact H; rewrite El; cbn [mbind outcome_bind type_ text_].

Lemma read_back_number v text : json_depth v = 1 -> toString v = text -> number_text text = true -> decodeNumber text = inr v ->
  (forall rest, may_follow v rest = true -> stops rest = true) -> read_back v.
Proof.
  intros Hd Ht Hn Hv Hf. apply (read_leaf v tokenNumber text); [done|done| |].
  - intros rest Hr. rewrite Ht. apply readToken_number; auto.
  - read_leaf_value. by rewrite Hv.
Qed.

Lemma read_back_leaf v : canonical_node v = true -> stable_node v = true ->
  match v with arrayValue _ | objectValue _ => False | _ => True end -> read_back v.
Proof.
  intros Hc Hs Hk. destruct v as [|n|n|text i|str|b|l|l]; try done.
  - apply (read_leaf nullValue tokenNull (lit "null")); [done|done| |by read_leaf_value]. intros rest _. apply (word_token x6e (lit "ull")); [done|].
    cbn [token_from]. by rewrite match_pattern_app.
  - cbn [canonical_node] in Hc. apply andb_true_iff in Hc as [H1 H2]. apply Z.leb_le in H1.
    apply (read_back_number _ (to_string n)); [done|done|apply to_string_number| |done]. rewrite decodeNumber_to_string.
    + by rewrite H2.
    + apply Z.leb_le in H2. change (max_val I32) with 2147483647 in H2. change (max_val U64) with 18446744073709551615. lia.
  - cbn [canonical_node] in Hc. apply andb_true_iff in Hc as [H1 H2]. apply Z.ltb_lt in H1. apply Z.leb_le in H2.
    apply (read_back_number _ (to_string n)); [done|done|apply to_string_number| |done]. rewrite decodeNumber_to_string.
    + by rewrite (proj2 (Z.leb_gt _ _)) by done.
    + change (max_val I32) with 2147483647 in H1. change (min_val I64) with (-9223372036854775808). lia.
  - cbn [stable_node] in Hs. apply andb_true_iff in Hs as [Ht Hd]. destruct (decodeNumber text) as [|[]] eqn:E; try done.
    apply bool_decide_eq_true in Hd as [-> ->]. by apply (read_back_number _ text).
  - apply (read_leaf _ tokenString (valueToQuotedStringN str)); [done|done|intros; apply readToken_string|].
    read_leaf_value. by rewrite decodeString_quoted.
  - destruct b.
    + apply (read_leaf _ tokenTrue (lit "true")); [done|done| |by read_leaf_value]. intros rest _. apply (word_token x74 (lit "rue")); [done|].
      cbn [token_from]. by rewrite match_pattern_app.
    + apply (read_leaf _ tokenFalse (lit "false")); [done|done| |by read_leaf_value]. intros rest _. apply (word_token x66 (lit "alse")); [done|].
      cbn [token_from]. by rewrite match_pattern_app.
Qed.

(** A value inside of a container, at the depth of [s]. *)
Lemma read_items_back l : Forall read_back l -> forall x acc fuel s rest, read_back x -> stable_node x = true ->
  Forall (fun v => stable_node v = true) l ->
  current_ s = toString x ++ more_items l ++ x5d :: rest -> (3 * length (current_ s) + 1 < fuel)%nat ->
  stackDepth_g s <= stackLimit_g ->
  read_items past fuel acc s =
    if stackDepth_g s + foldr (fun x => Z.max (json_depth x)) 0 (x :: l) <=? stackLimit_g
    then Ret (true, arrayValue (acc ++ x :: l), at_ s rest) else Throw.
Proof.
  induction l as [|y l IH]; intros Hl x acc fuel s rest Hx Hsx Hsl Hc Hf Hs; (destruct fuel as [|fuel]; [lia|]); cbn [read_items].
  - rewrite (Hx fuel nullValue s (x5d :: rest)); [|by destruct x|done|lia|done].
    pose proof (json_depth_pos x). cbn [foldr]. rewrite Z.max_l by lia.
    destruct (_ <=? _); [|done]. cbn [mbind outcome_bind negb].
    rewrite (skipCommentTokens_tok _ (MkToken tokenArrayEnd [x5d]) rest); [done|by apply punct_token|done].
  - apply Forall_cons_1 in Hl as [Hy Hl], Hsl as [Hsy Hsl].
    assert (E : more_items (y :: l) ++ x5d :: rest = x2c :: toString y ++ more_items l ++ x5d :: rest)
      by (unfold more_items; cbn [fmap list_fmap]; rewrite join_cons; cbn [app]; by rewrite <- app_assoc).
    rewrite E in Hc. rewrite (Hx fuel nullValue s (x2c :: toString y ++ more_items l ++ x5d :: rest)); [|by destruct x|done|lia|done].
    destruct (Z.leb_spec (stackDepth_g s + json_depth x) stackLimit_g) as [Hd|Hd]; cycle 1.
    { cbn [foldr mbind outcome_bind]. by rewrite (proj2 (Z.leb_gt _ _)) by lia. }
    cbn [mbind outcome_bind negb].
    rewrite (skipCommentTokens_tok _ (MkToken tokenArraySeparator [x2c]) (toString y ++ more_items l ++ x5d :: rest)); [|by apply punct_token|done].
    cbn [mbind outcome_bind type_]. rewrite bool_decide_true by set_solver. rewrite bool_decide_false by done. cbn [negb].
    assert (Hlen : (length (toString y ++ more_items l ++ x5d :: rest) < length (current_ s))%nat) by (rewrite Hc, (length_app (toString x)); cbn [length]; lia).
    rewrite (IH Hl y (acc ++ [x]) fuel (at_ (at_ s _) _) rest Hy Hsy Hsl eq_refl); [|cbn [current_ at_]; lia|done].
    cbn [stackDepth_g at_ foldr]. rewrite <- app_assoc. cbn [app].
    set (a := Z.max (json_depth y) _). destruct (Z.leb_spec (stackDepth_g s + a) stackLimit_g) as [Ha|Ha].
    + by rewrite (proj2 (Z.leb_le _ _)) by lia.
    + by rewrite (proj2 (Z.leb_gt _ _)) by lia.
Qed.

(** One member and the separator after it. *)
Lemma read_member_step k v name m fuel s c rest : read_back v -> c = x7d \/ c = x2c ->
  current_ s = member_text (k, v) ++ c :: rest -> (3 * length (current_ s) < fuel)%nat -> stackDepth_g s <= stackLimit_g ->
  readObject past (S fuel) name m s =
    if stackDepth_g s + json_depth v <=? stackLimit_g then
      (if bool_decide (c = x7d) then Ret (true, objectValue (set_member k v m), at_ s rest)
       else readObject past fuel k (set_member k v m) (at_ s rest))
    else Throw.
Proof.
  intros Hv Hcc Hc Hf Hs. unfold member_text in Hc. cbn [fst snd] in Hc. rewrite <- app_assoc in Hc. cbn [app] in Hc.
  assert (Hlen : (length (toString v ++ c :: rest) <= length (current_ s))%nat)
    by (rewrite Hc, (length_app (valueToQuotedStringN k)); cbn [length]; lia).
  cbn [readObject].
  rewrite (skipCommentTokens_tok _ (MkToken tokenString (valueToQuotedStringN k)) (x3a :: toString v ++ c :: rest));
    [|rewrite Hc; apply readToken_string|done].
  cbn [mbind outcome_bind type_ text_]. rewrite (bool_decide_false (tokenString = tokenObjectEnd)) by done. cbn [andb].
  rewrite (bool_decide_true (tokenString = tokenString)) by done. rewrite decodeString_quoted. cbn [mbind outcome_bind current_ at_].
  rewrite (punct_token x3a tokenMemberSeparator) by done. cbn [type_]. rewrite bool_decide_true by done. cbn [negb].
  rewrite (Hv fuel _ (at_ (at_ s _) _) (c :: rest)); [|destruct v; try done; by destruct Hcc as [-> | ->]|done|cbn [current_ at_]; lia|done].
  cbn [stackDepth_g at_]. destruct (_ <=? _); [|done]. cbn [mbind outcome_bind negb].
  cbn [current_ at_]. destruct Hcc as [-> | ->].
  - rewrite (punct_token x7d tokenObjectEnd) by done. cbn [type_]. rewrite bool_decide_true by set_solver. by cbn.
  - rewrite (punct_token x2c tokenArraySeparator) by done. cbn [type_]. rewrite bool_decide_true by set_solver. by cbn.
Qed.

(** The members in the order in which they are read. *)
Definition set_members (m l : list (bytes * json)) : list (bytes * json) := foldl (fun m x => set_member x.1 x.2 m) m l.

Lemma read_members_back l : Forall (fun x => read_back x.2) l -> forall x name m fuel s rest, read_back x.2 ->
  current_ s = member_text x ++ more_members l ++ x7d :: rest -> (3 * length (current_ s) + 1 < fuel)%nat ->
  stackDepth_g s <= stackLimit_g ->
  readObject past fuel name m s =
    if stackDepth_g s + foldr (fun x => Z.max (json_depth x.2)) 0 (x :: l) <=? stackLimit_g
    then Ret (true, objectValue (set_members m (x :: l)), at_ s rest) else Throw.
Proof.
  induction l as [|y l IH]; intros Hl [k v] name m fuel s rest Hx Hc Hf Hs; cbn [snd] in Hx; (destruct fuel as [|fuel]; [lia|]).
  - rewrite (read_member_step k v name m fuel s x7d rest); [|done|by left|done|lia|done].
    pose proof (json_depth_pos v). cbn [foldr snd]. rewrite Z.max_l by lia. by destruct (_ <=? _).
  - apply Forall_cons_1 in Hl as [Hy Hl].
    assert (E : more_members (y :: l) ++ x7d :: rest = x2c :: member_text y ++ more_members l ++ x7d :: rest)
      by (unfold more_members; cbn [fmap list_fmap]; rewrite join_cons; cbn [app]; by rewrite <- app_assoc).
    rewrite E in Hc. rewrite (read_member_step k v name m fuel s x2c (member_text y ++ more_members l ++ x7d :: rest));
      [|done|by right|done|lia|done].
    rewrite bool_decide_false by done. cbn [foldr snd].
    destruct (Z.leb_spec (stackDepth_g s + json_depth v) stackLimit_g) as [Hd|Hd]; cycle 1.
    { by rewrite (proj2 (Z.leb_gt _ _)) by lia. }
    assert (Hlen : (length (member_text y ++ more_members l ++ x7d :: rest) < length (current_ s))%nat)
      by (rewrite Hc, (length_app (member_text (k, v))); cbn [length]; lia).
    rewrite (IH Hl y k (set_member k v m) fuel (at_ s _) rest Hy); [|done|cbn [current_ at_]; lia|done].
    cbn [stackDepth_g at_ foldr].
    set (a := Z.max (json_depth y.2) _). destruct (Z.leb_spec (stackDepth_g s + a) stackLimit_g) as [Ha|Ha].
    + by rewrite (proj2 (Z.leb_le _ _)) by lia.
    + by rewrite (proj2 (Z.leb_gt _ _)) by lia.
Qed.

Lemma sorted_app_head (m : list (bytes * json)) k v l : StronglySorted key_order (m ++ (k, v) :: l).*1 ->
  Forall (fun k' => key_lt k' k = true) m.*1.
Proof.
  rewrite fmap_app. intros H. apply Forall_forall. intros k' Hk'. apply list_elem_of_split in Hk' as (u & w & E).
  rewrite E in H. rewrite <- app_assoc in H. clear E. induction u as [|z u IH]; cbn [app] in H.
  - apply StronglySorted_inv in H as [_ H]. rewrite Forall_forall in H. apply H. set_solver.
  - apply StronglySorted_inv in H as [H _]. by apply IH.
Qed.

Lemma set_members_sorted l : forall m, StronglySorted key_order (m ++ l).*1 -> set_members m l = m ++ l.
Proof.
  induction l as [|[k v] l IH]; intros m Hs; [by rewrite app_nil_r|]. cbn [set_members foldl fst snd].
  rewrite set_member_last by (by eapply sorted_app_head). change (set_members (m ++ [(k, v)]) l = m ++ (k, v) :: l).
  rewrite IH by (by rewrite <- app_assoc). by rewrite <- app_assoc.
Qed.

(** What the members of a container inherit. *)
Lemma json_all_node P v : json_all P v = true -> P v = true.
Proof. destruct v; cbn [json_all]; by intros [? _]%andb_true_iff. Qed.

Lemma json_all_array P l : json_all P (arrayValue l) = true -> Forall (fun x => json_all P x = true) l.
Proof. cbn [json_all]. intros [_ H]%andb_true_iff. rewrite forallb_forall in H. apply Forall_forall. intros x Hx. by apply H, list_elem_of_In. Qed.

Lemma json_all_object P l : json_all P (objectValue l) = true -> Forall (fun x => json_all P x.2 = true) l.
Proof. cbn [json_all]. intros [_ H]%andb_true_iff. rewrite forallb_forall in H. apply Forall_forall. intros x Hx. by apply (H x), list_elem_of_In. Qed.

Lemma read_container v u (open : byte) (ty : TokenType) (loop : nat -> reader -> outcome (bool * json * reader)) :
  skipSpaces [open] = [open] ->
  (forall fuel w s, stackDepth_g s < stackLimit_g -> forall l t, type_ t = ty -> skipCommentTokens past (deeper 1 s) = Ret (t, at_ (deeper 1 s) l) ->
     readValue past (S fuel) w s = '(ok, v, s') ← loop fuel (at_ (deeper 1 s) l); Ret (ok, v, deeper (-1) s')) ->
  ty <> tokenComment -> (forall l, token_from past open l = (ty, true, l)) ->
  forall text, toString v = open :: text ->
  (forall fuel s rest, current_ s = text ++ rest -> (3 * length (current_ s) + 2 < fuel)%nat -> stackDepth_g s <= stackLimit_g ->
     loop fuel s = if stackDepth_g s + (json_depth v - 1) <=? stackLimit_g then Ret (true, u, at_ s rest) else Throw) ->
  read_as v u.
Proof.
  intros Hsp Hval Hty Htok text Ht Hloop fuel w s rest _ Hc Hf Hs. destruct fuel as [|fuel]; [lia|].
  pose proof (json_depth_pos v). destruct (Z.leb_spec stackLimit_g (stackDepth_g s)) as [Hlim|Hlim].
  - cbn [readValue]. rewrite (proj2 (Z.leb_le stackLimit_g _)) by done. by rewrite (proj2 (Z.leb_gt _ _)) by lia.
  - assert (Hsp' : skipSpaces (open :: text ++ rest) = open :: text ++ rest) by (revert Hsp; destruct open; done).
    rewrite (Hval fuel w s Hlim (text ++ rest) (MkToken ty [open]) eq_refl); cycle 1.
    { apply skipCommentTokens_tok; [|done]. cbn [deeper current_]. rewrite Hc, Ht. cbn [app]. by apply punct_token. }
    rewrite Hc, Ht in Hf. cbn [app length] in Hf.
    rewrite (Hloop fuel _ rest); [|done|cbn [current_ at_]; lia|cbn; lia]. cbn [stackDepth_g deeper at_].
    replace (stackDepth_g s + 1 + (json_depth v - 1)) with (stackDepth_g s + json_depth v) by lia.
    destruct (_ <=? _); [|done]. cbn [mbind outcome_bind]. by rewrite deeper_back.
Qed.

Lemma read_back_array l : Forall read_back l -> Forall (fun v => stable_node v = true) l -> read_back (arrayValue l).
Proof.
  intros Hl Hs.
  apply (read_container _ _ x5b tokenArrayBegin (readArray past)) with
    (text := match l with [] => [x5d] | x :: l' => toString x ++ more_items l' ++ [x5d] end); [done| |done|done| |].
  - intros fuel w s Hd k t Ht Et. cbn [readValue]. rewrite (proj2 (Z.leb_gt _ _)) by done. rewrite Et. cbn [mbind outcome_bind]. by rewrite Ht.
  - destruct l; [done|apply toString_array_cons].
  - intros fuel s rest Hc Hf Hd. destruct fuel as [|fuel]; [lia|]. cbn [readArray]. destruct l as [|x l].
    + rewrite Hc. cbn. by rewrite (proj2 (Z.leb_le _ _)) by lia.
    + apply Forall_cons_1 in Hl as [Hx Hl], Hs as [Hsx Hs]. destruct (toString_start x Hsx) as (c & k & Ek & Hck).
      rewrite <- !app_assoc in Hc. cbn [app] in Hc.
      assert (Hh : exists k', current_ s = c :: k') by (rewrite Hc, Ek; by eexists). destruct Hh as [k' Hk'].
      assert (Hsk : skipSpaces (current_ s) = current_ s) by (rewrite Hk'; by apply skipSpaces_start).
      rewrite Hsk. cbn [current_ at_]. rewrite bool_decide_false by (rewrite Hk'; cbn [deref]; intros ->; done).
      rewrite (read_items_back l Hl x [] fuel (at_ s _) rest Hx Hsx Hs Hc); [|cbn [current_ at_]; lia|done].
      cbn [stackDepth_g at_ json_depth app]. by rewrite Z.add_simpl_l.
Qed.

(** An object whose members are written in any order, names given twice included. *)
Lemma read_as_object l : Forall (fun x => read_back x.2) l -> read_as (objectValue l) (objectValue (set_members [] l)).
Proof.
  intros Hl.
  apply (read_container _ _ x7b tokenObjectBegin (fun fuel => readObject past fuel [] [])) with
    (text := match l with [] => [x7d] | x :: l' => member_text x ++ more_members l' ++ [x7d] end); [done| |done|done| |].
  - intros fuel w s Hd k t Ht Et. cbn [readValue]. rewrite (proj2 (Z.leb_gt _ _)) by done. rewrite Et. cbn [mbind outcome_bind]. by rewrite Ht.
  - destruct l; [done|apply toString_object_cons].
  - intros fuel s rest Hc Hf Hd. destruct l as [|x l].
    + destruct fuel as [|fuel]; [lia|]. cbn [readObject].
      rewrite (skipCommentTokens_tok _ (MkToken tokenObjectEnd [x7d]) rest); [|rewrite Hc; by apply punct_token|done].
      cbn. by rewrite (proj2 (Z.leb_le _ _)) by lia.
    + apply Forall_cons_1 in Hl as [Hx Hl].
      rewrite (read_members_back l Hl x [] [] fuel s rest Hx); [|by rewrite Hc, <- !app_assoc|lia|done].
      cbn [json_depth]. by rewrite Z.add_simpl_l.
Qed.

Lemma read_back_object l : Forall (fun x => read_back x.2) l -> sorted_keys l.*1 = true -> read_back (objectValue l).
Proof.
  intros Hl Hs%sorted_keys_spec. pose proof (read_as_object l Hl) as H. by rewrite (set_members_sorted l []) in H.
Qed.

(** Every canonical value whose doubles are stable is read back as it was printed. *)
Lemma read_back_all v : canonical v = true -> stable v = true -> read_back v.
Proof.
  induction v as [v IH] using json_nested_ind. intros Hc Hs.
  pose proof (json_all_node _ _ Hc) as Hcn. pose proof (json_all_node _ _ Hs) as Hsn.
  destruct v as [|n|n|text i|str|b|l|l]; try (by apply read_back_leaf).
  - apply json_all_array in Hc, Hs. rewrite Forall_forall in IH, Hc, Hs.
    apply read_back_array; apply Forall_forall; [auto|]. intros x Hx. by apply json_all_node, Hs.
  - apply json_all_object in Hc, Hs. rewrite Forall_forall in IH, Hc, Hs.
    apply read_back_object; [apply Forall_forall; auto|done].
Qed.

Lemma Reader_parse_as v u rest root : read_as v u -> may_follow v rest = true ->
  Reader_parse past (toString v ++ rest) root = if json_depth v <=? stackLimit_g then Ret (true, u, []) else Throw.
Proof.
  intros Hv Hr. unfold Reader_parse. rewrite (Hv _ _ (MkReader (toString v ++ rest) 0 []) rest Hr eq_refl); [|cbn [current_]; lia|done].
  cbn [stackDepth_g Z.add]. destruct (_ <=? _); [|done]. cbn [mbind outcome_bind].
  by destruct (skipCommentTokens_spec past (at_ (MkReader (toString v ++ rest) 0 []) rest)) as (t & l & -> & _).
Qed.

Lemma Reader_parse_printed v rest root : canonical v = true -> stable v = true -> may_follow v rest = true ->
  Reader_parse past (toString v ++ rest) root = if json_depth v <=? stackLimit_g then Ret (true, v, []) else Throw.
Proof. intros Hc Hs. by apply Reader_parse_as, read_back_all. Qed.

(** C8: The reader undoes the writer, up to the depth it allows.  For every value whose integers
    and members are as the reader makes them (signed up to 2^31 - 1 and unsigned above, members
    in the order of the map) and whose doubles are printed as texts that are read as the same
    doubles, [Reader::parse] of what [Value::toString] wrote, followed by anything that does not
    continue a number and whatever byte lies behind the document, succeeds without an error and
    gives the value back when it is nested at most a thousand levels deep, and otherwise throws. *)
Theorem reader_reads_writer v rest root : canonical v = true -> stable v = true -> may_follow v rest = true ->
  Reader_parse past (toString v ++ rest) root = if json_depth v <=? stackLimit_g then Ret (true, v, []) else Throw.
Proof. apply Reader_parse_printed. Qed.
End printed.

Lemma parse_toString v : canonical v = true -> stable v = true -> json_depth v <= stackLimit_g -> parse (toString v) = Some v.
Proof.
  intros Hc Hs Hd. unfold parse. rewrite <- (app_nil_r (toString v)).
  rewrite Reader_parse_printed by (done || by destruct v). by rewrite (proj2 (Z.leb_le _ _)).
Qed.

(** The text of an object with its members in any order. *)
Lemma parse_members l : Forall (fun x => canonical x.2 = true /\ stable x.2 = true) l -> json_depth (objectValue l) <= stackLimit_g ->
  parse (toString (objectValue l)) = Some (objectValue (set_members [] l)).
Proof.
  intros Hl Hd. unfold parse. rewrite <- (app_nil_r (toString _)). rewrite (Reader_parse_as x00 _ (objectValue (set_members [] l))); [|apply read_as_object|done].
  - by rewrite (proj2 (Z.leb_le _ _)).
  - eapply Forall_impl; [exact Hl|]. intros x [Hc Hs]. by apply read_back_all.
Qed.

Lemma parse_fits doc v : parse doc = Some v -> fits 0 v.
Proof.
  unfold parse. pose proof (parse_cases x00 doc nullValue) as H. destruct (Reader_parse x00 doc nullValue) as [[[[] w] es]| |]; try done.
  intros [= <-]. apply H.
Qed.

(** C13: The reader and its errors, for every text.  Reading ends; when it succeeds, no error is
    reported, and, unless a double is printed as a text of another value, printing the value and
    reading it again gives the same value; when it fails, an error is reported.  (The third
    outcome is the exception for a nesting of more than a thousand levels.) *)
Theorem reader_stable past doc root :
  match Reader_parse past doc root with
  | Ret (true, v, es) => es = [] /\
      (stable v = true -> forall past' root', Reader_parse past' (toString v) root' = Ret (true, v, []))
  | Ret (false, _, es) => es <> []
  | Throw => True
  | NoFuel => False
  end.
Proof.
  pose proof (parse_cases past doc root) as H. destruct (Reader_parse past doc root) as [[[[] v] es]| |]; try done.
  destruct H as [[Hc Hd] He]. split; [done|]. intros Hs past' root'. rewrite <- (app_nil_r (toString v)).
  rewrite Reader_parse_printed by (done || by destruct v). by rewrite (proj2 (Z.leb_le _ _)) by (cbn in Hd; lia).
Qed.

(** Arrays of records taken from a text that was read are read again. *)
Lemma parse_sub_array doc items its : parse doc = Some (arrayValue items) -> stable (arrayValue items) = true -> its ⊆+ items ->
  parse (toString (arrayValue its)) = Some (arrayValue its).
Proof.
  intros Hp Hs Hi. destruct (parse_fits _ _ Hp) as [Hc Hd]. apply parse_toString.
  - apply json_all_array in Hc. unfold canonical. cbn [json_all canonical_node andb]. apply forallb_forall. intros x Hx%list_elem_of_In.
    rewrite Forall_forall in Hc. apply Hc. by eapply elem_of_submseteq.
  - apply json_all_array in Hs. unfold stable. cbn [json_all stable_node andb]. apply forallb_forall. intros x Hx%list_elem_of_In.
    rewrite Forall_forall in Hs. apply Hs. by eapply elem_of_submseteq.
  - cbn [json_depth] in *. enough (foldr (fun x => Z.max (json_depth x)) 0 its <= foldr (fun x => Z.max (json_depth x)) 0 items) by lia.
    assert (Hin : forall x l, x ∈ l -> json_depth x <= foldr (fun x => Z.max (json_depth x)) 0 l)
      by (intros x l; induction l as [|y l IH]; [set_solver|]; intros [->|Hx]%elem_of_cons; cbn [foldr]; [lia|]; specialize (IH Hx); lia).
    apply fold_depth_le; [clear; induction items; cbn; lia|]. apply Forall_forall. intros x Hx. apply Hin. by eapply elem_of_submseteq.
Qed.

(** ** Examples *)

(** Texts with apostrophes in the place of quotes. *)
Definition dq (s : bytes) : bytes := (fun c => if bool_decide (c = x27) then x22 else c) <$> s.

Definition ex_value : json :=
  objectValue [(lit "a", arrayValue [intValue (-5); uintValue 3000000000; stringValue [x41; x0a; x00; x22; xc3; xa9]; nullValue]);
               (lit "b", objectValue [(lit "x", booleanValue true); (lit "y", realValue (lit "0.10000000000000001") None)]);
               (lit "c", arrayValue [])].

Lemma reader_reads_writer_witness :
  Reader_parse x5d (toString ex_value ++ lit " /* rest */ ...") nullValue = Ret (true, ex_value, []).
Proof. apply (reader_reads_writer x5d ex_value); by vm_compute. Defined.

(** Comments, spaces, escapes, surrogate pairs, a key given twice, and text after the value. *)
Example parse_ex :
  parse (dq (lit " // c
  { 'b' : 1, 'a' : [ 1, /* c */ -2.5e3, true, null ] , 'b' : '\u00e9\ud83d\ude00\/' } ] tail")) =
  Some (objectValue [(lit "a", arrayValue [intValue 1; realValue (lit "-2500") (Some (-2500)); booleanValue true; nullValue]);
                     (lit "b", stringValue [xc3; xa9; xf0; x9f; x98; x80; x2f])]).
Proof. vm_compute. reflexivity. Qed.

(** Errors: a missing value, colon or quote, a bad escape; what was read before stays in the value. *)
Example parse_errors :
  (fun t => Reader_parse x00 (dq (lit t)) nullValue) <$> ["[1,]"; "{'a' 1}"; "['a"; "'\q'"; ""; "1e400"; "{'a':1,}"]%string =
  [Ret (false, arrayValue [intValue 1; nullValue], [value_expected]); Ret (false, objectValue [], [missing_colon]);
   Ret (false, arrayValue [nullValue], [value_expected]); Ret (false, nullValue, [bad_escape]);
   Ret (false, nullValue, [value_expected]); Ret (false, nullValue, [not_a_number]);
   Ret (false, objectValue [(lit "a", intValue 1)], [missing_member])].
Proof. vm_compute. reflexivity. Qed.

(** An array that is cut off after its bracket is accepted when the byte behind the document
    happens to be a closing bracket: [readArray] reads that byte. *)
Lemma reader_past_end :
  Reader_parse x5d (lit "[") nullValue = Ret (true, arrayValue [], []) /\
  Reader_parse x00 (lit "[") nullValue = Ret (false, arrayValue [nullValue], [value_expected]).
Proof. split; by vm_compute. Qed.

(** After a comment any token stands for the comma between two members. *)
Lemma reader_comment_comma :
  parse (dq (lit "{'a':1 /**/ 7 'b':2}")) = Some (objectValue [(lit "a", intValue 1); (lit "b", intValue 2)]) /\
  parse (dq (lit "{'a':1 7 'b':2}")) = None.
Proof. split; by vm_compute. Qed.

(** A minus sign alone is the number zero, and an integer above the largest [int] that was
    stored as a signed number comes back unsigned. *)
Lemma reader_numbers :
  parse (lit "-") = Some (intValue 0) /\
  parse (toString (intValue 3000000000)) = Some (uintValue 3000000000) /\
  parse (toString (realValue (lit "5") (Some 5))) = Some (intValue 5).
Proof. split_and!; by vm_compute. Qed.
