(* ===== verification/StreamerJson.v ===== *)
(** * Json values in a stream ([libs/streamer.h], [STREAMER_WITH_JSON])

    A json value goes into a stream as the text of [Value::toString] with its length in eight
    bytes, and is read back with [Json::Reader]. *)

From S2P Require Import Prelude Bitbase BasefuncStd DateTime Streamer Json JsonReader JsonReaderFacts.
From Stdlib Require Import ZArith Lia Strings.Byte.
From stdpp Require Import base gmap strings numbers list.
Open Scope Z_scope.

Definition put_json (s : streamer) (v : json) : streamer := put_string 8 s (toString v).

(** The value is read into [v].  The reader's exception is caught; what it leaves in the value
    is not modelled ([None] inside). *)
Definition get_json (s : streamer) (v : json) : option (streamer * option json) :=
  '(s, f) ← get_string 8 s [];
  Some (s, match Reader_parse x00 f v with
           | Ret (_, v, _) => Some v
           | Throw | NoFuel => None
           end).

(** A json value that was put into a stream, wherever it lies in it, is read back as it was when
    it is nested at most a thousand levels deep, and the stream stands behind it. *)
Theorem json_in_stream v old pre post : canonical v = true -> stable v = true -> json_depth v <= stackLimit_g ->
  zlen (data (append (put_json (Streamer pre 0) v) post)) < 2 ^ 62 ->
  get_json (Streamer (data (append (put_json (Streamer pre 0) v) post)) (zlen pre)) old =
    Some (Streamer (data (append (put_json (Streamer pre 0) v) post)) (zlen (data (put_json (Streamer pre 0) v))), Some v).
Proof.
  intros Hc Hs Hd. unfold put_json. rewrite put_string_encode. cbn [append data]. rewrite <- app_assoc. intros Hl.
  assert (Hv : zlen (toString v) < 2 ^ 62).
  { rewrite !length_app in Hl. pose proof (length_encode_string 8 (toString v)) as He. unfold cut in He. rewrite length_zsub in He.
    change (256 ^ Z.of_nat 8) with (2 ^ 64) in He. lia. }
  rewrite <- framed_encode in Hl |- * by lia.
  unfold get_json. rewrite (reads_framed (toString v) [] ltac:(lia) pre post ltac:(lia)). cbn [mbind option_bind].
  pose proof (Reader_parse_printed x00 v [] old Hc Hs ltac:(by destruct v)) as Hr. rewrite app_nil_r in Hr.
  rewrite (proj2 (Z.leb_le _ _)) in Hr by done. by rewrite Hr.
Qed.
