(* ===== verification/BSearch.v ===== *)
(** * Search conditions ([rssdisk/rssdisk/extentions/b_tree.cpp])

    How a json query becomes search conditions ([f_search], [f_search_val]), how a field of a
    record becomes the integer key of an index ([try_make_index_parameter] and the functions
    it calls), and how a record is matched against the conditions ([matching]).  A call that
    throws returns [None].  [std::hash] of strings and [mktime] are parameters. *)

From S2P Require Import Prelude BasefuncStd BTree DateTime Json.
From Stdlib Require Import ZArith Lia Strings.Byte.
From stdpp Require Import base gmap strings numbers list.
Open Scope Z_scope.

Section conditions.
Context (hash : bytes -> Z) (mktime : Z -> Z -> Z -> Z -> Z -> Z -> Z).

(** ** Index keys *)

(** The text of a date: a string, or the string member "$date" of an object. *)
Definition date_text (val : json) : bytes :=
  match val with
  | stringValue _ => toString val
  | objectValue l =>
      match member (lit "$date") l with
      | Some (stringValue s) => toString (stringValue s)
      | _ => []
      end
  | _ => []
  end.

(** [try_make_date_index]: the new value of [i] on success. *)
Definition try_make_date_index (val : json) : option Z :=
  match date_text val with
  | [] => None
  | val_str =>
      let val_str := removeAll val_str x22 in
      let cutted := if (19 <? length val_str)%nat then take 19 val_str else val_str in
      let cutted := replaceAll cutted (lit "T") (lit " ") in
      let '(ok, dt) :=
        if (length cutted =? 19)%nat then parse_date_time cutted default_format date_and_time date_time_init
        else if (length cutted =? 10)%nat then parse_date_time cutted (lit "yyyy-MM-dd") date_only date_time_init
        else if (length cutted =? 8)%nat then parse_date_time cutted (lit "HH:mm:ss") time_only date_time_init
        else if (length cutted =? 5)%nat then parse_date_time cutted (lit "HH:mm") time_only date_time_init
        else (false, date_time_init) in
      if (ok : bool) then Some (get_time_from_epoch mktime dt) else None
  end.

(** [try_make_string_index] always succeeds. *)
Definition try_make_string_index (val : json) : Z := wrap I64 (wrap U64 (hash (toString val))).

(** [try_make_index_parameter]: the kind of index and the new value of [i]; the member name is
    a C string. *)
Definition try_make_index_parameter (val : json) (f : bytes) (i : Z) (ind_type_pr : b_base.type) :
    option (b_base.type * Z) :=
  o ← json_find val (c_str f);
  Some match o with
       | None => (b_base.none, i)
       | Some v =>
           if isInt v then (b_base.numeric, asInt64 v)
           else if isInt64 v then (b_base.numeric, asInt64 v)
           else match v with
           | objectValue l =>
               match member (lit "$date") l with
               | Some d => match try_make_date_index d with Some x => (b_base.date, x) | None => (b_base.none, i) end
               | None => (b_base.none, i)
               end
           | stringValue _ =>
               match ind_type_pr with
               | b_base.date =>
                   match try_make_date_index v with Some x => (b_base.date, x) | None => (b_base.none, i) end
               | b_base.string => (b_base.string, try_make_string_index v)
               | _ => (b_base.none, i)
               end
           | _ => (b_base.none, i)
           end
       end.

(** ** Queries *)

Definition set_op (o : search.type_operation) (s : search.t) : search.t :=
  search.mk o (search.tp s) (search.i s) (search.is_indexed s) (search.min s) (search.max s).
Definition set_tp (tp : b_base.type) (s : search.t) : search.t :=
  search.mk (search.op s) tp (search.i s) (search.is_indexed s) (search.min s) (search.max s).
Definition push (v : search.val_search) (s : search.t) : search.t :=
  search.mk (search.op s) (search.tp s) (search.i s ++ [v]) (search.is_indexed s) (search.min s) (search.max s).
Definition set_indexed (s : search.t) : search.t :=
  search.mk (search.op s) (search.tp s) (search.i s) true (search.min s) (search.max s).
Definition set_min (m : Z) (s : search.t) : search.t :=
  search.mk (search.op s) (search.tp s) (search.i s) (search.is_indexed s) m (search.max s).
Definition set_max (m : Z) (s : search.t) : search.t :=
  search.mk (search.op s) (search.tp s) (search.i s) (search.is_indexed s) (search.min s) m.

(** The value a condition compares with, when it is not a date. *)
Definition push_value (val : json) (ind : search.t) : search.t :=
  if isString val then
    let h := try_make_string_index val in
    push (search.mk_val (to_string h) (toString val)) (set_tp b_base.string (set_min h ind))
  else push (search.mk_val (toString val) []) ind.

Definition push_date (d : json) (ind : search.t) : option search.t :=
  x ← try_make_date_index d;
  Some (set_tp b_base.date (push (search.mk_val (to_string x) []) (set_min x ind))).

(** One element of "$in". *)
Definition push_in (ind : search.t) (it : json) : search.t :=
  match it with
  | objectValue l =>
      match member (lit "$date") l with
      | Some d => default ind (push_date d ind)
      | None => push_value it ind
      end
  | _ => push_value it ind
  end.

(** One of the bounds "$lt", "$lte", "$gt", "$gte": [set] stores the bound, [combine] is the
    change of the operation. *)
Definition bound_step (val : json) (f : bytes) (get : search.t -> Z) (set : Z -> search.t -> search.t)
    (combine : search.type_operation -> search.type_operation) (ind : search.t) : option search.t :=
  '(tp_tmp, x) ← try_make_index_parameter val f (get ind) (search.tp ind);
  let ind := set x ind in
  Some (if bool_decide (tp_tmp = b_base.none) then ind else set_tp tp_tmp (set_op (combine (search.op ind)) ind)).

Definition f_search_val (val : json) : option search.t :=
  let ind := search.init in
  match val with
  | objectValue l =>
      match member (lit "$in") l with
      | Some (arrayValue items) => Some (foldl push_in ind items)
      | _ =>
          ind ← bound_step val (lit "$lt") search.max set_max (fun _ => search.op_lt) ind;
          ind ← bound_step val (lit "$lte") search.max set_max (fun _ => search.op_lte) ind;
          ind ← bound_step val (lit "$gt") search.min set_min
                  (fun o => match o with search.op_lt => search.op_range_lt_gt
                            | search.op_lte => search.op_range_lte_gt | _ => search.op_gt end) ind;
          ind ← bound_step val (lit "$gte") search.min set_min
                  (fun o => match o with search.op_lt => search.op_range_lt_gte
                            | search.op_lte => search.op_range_lte_gte | _ => search.op_gte end) ind;
          if bool_decide (search.op ind <> search.op_compare) then Some ind
          else match member (lit "$date") l with
               | Some d => match push_date d ind with Some ind => Some ind | None => Some (push_value val ind) end
               | None => Some (push_value val ind)
               end
      end
  | _ => Some (push_value val ind)
  end.

(** [searches.insert] keeps the first condition of a name. *)
Definition add_search (name : bytes) (s : search.t) (searches : gmap bytes search.t) : gmap bytes search.t :=
  match searches !! name with Some _ => searches | None => <[name := s]> searches end.

Fixpoint f_search_members (l : list (bytes * json)) (searches : gmap bytes search.t) : option (gmap bytes search.t) :=
  match l with
  | [] => Some searches
  | (name, val) :: l' => s ← f_search_val val; f_search_members l' (add_search name s searches)
  end.

(** [f_search] on an object; [getMemberNames] throws on other values than null. *)
Definition f_search (s : json) (searches : gmap bytes search.t) : option (gmap bytes search.t) :=
  match s with
  | objectValue l => f_search_members l searches
  | nullValue => Some searches
  | _ => None
  end.

(** ** Matching *)

(** [f_cmp_one]. *)
Definition f_cmp_one (s : search.t) (to_cmp : bytes) : bool :=
  existsb (fun v => bool_decide ((if bool_decide (search.base v = []) then search.indexed v else search.base v) = to_cmp))
    (search.i s).

(** The text of a value that is compared with the values of the condition. *)
Definition cmp_text (s : search.t) (v : json) : option bytes :=
  if bool_decide (search.tp s = b_base.date) then to_string <$> try_make_date_index v else Some (toString v).

(** The loop over an array: some element is searched for; a value that is not a date ends it
    in failure. *)
Fixpoint match_array (s : search.t) (l : list json) (is_find_one : bool) : bool :=
  match l with
  | [] => is_find_one
  | it_one :: l' =>
      match cmp_text s it_one with
      | None => false
      | Some to_cmp => match_array s l' (if f_cmp_one s to_cmp then true else is_find_one)
      end
  end.

(** One condition on a record. *)
Definition match_one (item : json) (name : bytes) (s : search.t) : option bool :=
  o ← json_find item name;
  match o with
  | None => Some false
  | Some v =>
      match search.op s with
      | search.op_compare =>
          Some match v with
               | arrayValue l => match_array s l false
               | _ => match cmp_text s v with Some to_cmp => f_cmp_one s to_cmp | None => false end
               end
      | o =>
          '(tpi, i_type) ← try_make_index_parameter item name 0 (search.tp s);
          Some match tpi with
               | b_base.none | b_base.string => false
               | _ =>
                   match o with
                   | search.op_gt => negb (i_type <=? search.min s)
                   | search.op_gte => negb (i_type <? search.min s)
                   | search.op_lt => negb (search.max s <=? i_type)
                   | search.op_lte => negb (search.max s <? i_type)
                   | search.op_range_lte_gt => negb ((search.max s <? i_type) || (i_type <=? search.min s))
                   | search.op_range_lte_gte => negb ((search.max s <? i_type) || (i_type <? search.min s))
                   | search.op_range_lt_gt => negb ((search.max s <=? i_type) || (i_type <=? search.min s))
                   | search.op_range_lt_gte => negb ((search.max s <=? i_type) || (i_type <? search.min s))
                   | search.op_compare => true
                   end
               end
      end
  end.

(** The loop over the conditions in the order the map gives them; it stops at the first that
    fails. *)
Fixpoint matching (item : json) (searches : list (bytes * search.t)) : option bool :=
  match searches with
  | [] => Some true
  | (name, s) :: l => b ← match_one item name s; if (b : bool) then matching item l else Some false
  end.
End conditions.

(** ** What a query means

    A condition on one field: equal to a value, one of several values, or an integer between
    bounds; a bound is a flag (strict) and a value. *)
Inductive cond :=
  | c_eq (v : json)
  | c_in (vs : list json)
  | c_range (lo hi : option (bool * Z)).

Definition bound_member (strict loose : bytes) (b : option (bool * Z)) : list (bytes * json) :=
  match b with
  | Some (true, z) => [(strict, intValue z)]
  | Some (false, z) => [(loose, intValue z)]
  | None => []
  end.

(** The json of a condition, members in the order of their names. *)
Definition query_of (c : cond) : json :=
  match c with
  | c_eq v => v
  | c_in vs => objectValue [(lit "$in", arrayValue vs)]
  | c_range lo hi => objectValue (bound_member (lit "$gt") (lit "$gte") lo ++ bound_member (lit "$lt") (lit "$lte") hi)
  end.

Definition above (lo : option (bool * Z)) (n : Z) : bool :=
  match lo with Some (true, z) => z <? n | Some (false, z) => z <=? n | None => true end.
Definition below (hi : option (bool * Z)) (n : Z) : bool :=
  match hi with Some (true, z) => n <? z | Some (false, z) => n <=? z | None => true end.

(** Whether the field value [v] satisfies a condition; an array does when an element does. *)
Definition sat (c : cond) (v : json) : Prop :=
  match c with
  | c_eq w => v = w \/ exists l, v = arrayValue l /\ w ∈ l
  | c_in ws => v ∈ ws \/ exists l w, v = arrayValue l /\ w ∈ l /\ w ∈ ws
  | c_range lo hi => exists n, v = intValue n /\ above lo n = true /\ below hi n = true
  end.

Definition cond_ok (c : cond) : Prop :=
  match c with
  | c_eq v => plain v
  | c_in vs => Forall plain vs
  | c_range lo hi => lo <> None \/ hi <> None
  end.

(** The fields the theorem speaks of: integers, strings and arrays of them. *)
Inductive field_ok : json -> Prop :=
  | field_plain v : plain v -> field_ok v
  | field_array l : Forall plain l -> field_ok (arrayValue l).

Section meaning.
Context (hash : bytes -> Z) (mktime : Z -> Z -> Z -> Z -> Z -> Z -> Z).

(** The texts a comparing condition accepts. *)
Definition texts (s : search.t) : list bytes :=
  (fun v => if bool_decide (search.base v = []) then search.indexed v else search.base v) <$> search.i s.

Lemma f_cmp_one_texts s t : f_cmp_one s t = bool_decide (t ∈ texts s).
Proof.
  apply eq_bool_prop_intro. rewrite bool_decide_spec. unfold f_cmp_one, texts.
  rewrite Is_true_true, existsb_exists, list_elem_of_fmap. split.
  - intros (v & Hv & E%bool_decide_eq_true). exists v. by rewrite list_elem_of_In.
  - intros (v & -> & Hv). exists v. by rewrite <- list_elem_of_In, bool_decide_eq_true.
Qed.

(** A comparing search accepts exactly the values [ws]. *)
Definition compares (s : search.t) (ws : list json) : Prop :=
  search.op s = search.op_compare /\ search.tp s <> b_base.date /\ texts s = toString <$> ws.

Lemma push_value_compares s ws v : compares s ws -> plain v -> compares (push_value hash v s) (ws ++ [v]).
Proof.
  intros (Ho & Ht & Hx) Hv. pose proof (toString_plain_nonempty v Hv) as Hne.
  unfold push_value. destruct Hv as [n Hn|t]; cbn [isString]; split_and!; try done; unfold texts in *;
    cbn [search.i push set_tp set_min]; rewrite !fmap_app, Hx; cbn [fmap list_fmap search.base search.indexed].
  - done.
  - by rewrite bool_decide_false.
Qed.

Lemma push_in_plain s v : plain v -> push_in hash mktime s v = push_value hash v s.
Proof. by intros []. Qed.

Lemma foldl_push_in vs : forall s ws, compares s ws -> Forall plain vs ->
  compares (foldl (push_in hash mktime) s vs) (ws ++ vs).
Proof.
  induction vs as [|v vs IH]; intros s ws Hs Hvs; cbn; [by rewrite app_nil_r|].
  inversion_clear Hvs. rewrite cons_middle, app_assoc. apply IH; [|done].
  rewrite push_in_plain by done. by apply push_value_compares.
Qed.

Lemma compares_init : compares search.init [].
Proof. done. Qed.

Lemma cmp_text_compares s ws v : compares s ws -> cmp_text mktime s v = Some (toString v).
Proof. intros (? & ? & ?). unfold cmp_text. by rewrite bool_decide_false. Qed.

Lemma f_cmp_one_compares s ws v :
  compares s ws -> Forall plain ws -> plain v -> f_cmp_one s (toString v) = true <-> v ∈ ws.
Proof.
  intros (_ & _ & Hx) Hws Hv. rewrite f_cmp_one_texts, Hx, bool_decide_eq_true, list_elem_of_fmap.
  split; [|naive_solver].
  intros (w & E & Hw). rewrite Forall_forall in Hws. apply toString_plain_inj in E; [by subst|done|by apply Hws].
Qed.

Lemma match_array_compares s ws l b :
  compares s ws -> Forall plain ws -> Forall plain l ->
  match_array mktime s l b = true <-> b = true \/ exists w, w ∈ l /\ w ∈ ws.
Proof.
  intros Hs Hws. revert b. induction l as [|v l IH]; intros b Hl; cbn [match_array]; [set_solver|].
  inversion_clear Hl. rewrite (cmp_text_compares s ws v Hs), IH by done.
  pose proof (f_cmp_one_compares s ws v Hs Hws) as Hc. destruct (f_cmp_one s (toString v)); set_solver.
Qed.

(** A comparing condition is met by the values it lists, and by arrays that hold one. *)
Lemma match_one_compares s ws l name v :
  compares s ws -> Forall plain ws -> member name l = Some v -> field_ok v ->
  exists b, match_one hash mktime (objectValue l) name s = Some b /\
    (b = true <-> v ∈ ws \/ exists l w, v = arrayValue l /\ w ∈ l /\ w ∈ ws).
Proof.
  intros Hs Hws Hm Hv. pose proof Hs as (Ho & _ & _). unfold match_one. cbn. rewrite Hm, Ho. eexists; split; [done|].
  destruct Hv as [v Hv|vs Hvs].
  - rewrite (cmp_text_compares s ws v Hs). destruct Hv; (rewrite f_cmp_one_compares; [|done|done|by constructor]);
      naive_solver.
  - rewrite match_array_compares by done. split.
    + intros [?|(w & ? & ?)]; [done|right; eauto].
    + intros [Ha|(? & w & ? & ? & ?)]; [|simplify_eq; right; eauto].
      rewrite Forall_forall in Hws. apply Hws in Ha. inversion Ha.
Qed.

(** ** Ranges *)

(** The operation and the bounds of a range condition. *)
Definition range_op (lo hi : option (bool * Z)) : search.type_operation :=
  match lo, hi with
  | None, None => search.op_compare
  | None, Some (true, _) => search.op_lt
  | None, Some (false, _) => search.op_lte
  | Some (true, _), None => search.op_gt
  | Some (false, _), None => search.op_gte
  | Some (true, _), Some (true, _) => search.op_range_lt_gt
  | Some (true, _), Some (false, _) => search.op_range_lte_gt
  | Some (false, _), Some (true, _) => search.op_range_lt_gte
  | Some (false, _), Some (false, _) => search.op_range_lte_gte
  end.

Definition range_search (lo hi : option (bool * Z)) : search.t :=
  search.mk (range_op lo hi) b_base.numeric [] false (default (min_val I64) (snd <$> lo)) (default (max_val I64) (snd <$> hi)).

Lemma try_int v f i tp n :
  json_find v (c_str f) = Some (Some (intValue n)) ->
  try_make_index_parameter hash mktime v f i tp = Some (b_base.numeric, n).
Proof. intros H. unfold try_make_index_parameter. rewrite H. cbn. by destruct (_ && _). Qed.

Lemma bound_step_int v f get set combine ind n :
  json_find v (c_str f) = Some (Some (intValue n)) ->
  bound_step hash mktime v f get set combine ind =
  Some (set_tp b_base.numeric (set_op (combine (search.op (set n ind))) (set n ind))).
Proof. intros H. unfold bound_step. by rewrite (try_int _ _ _ _ n H). Qed.

Lemma bound_step_none v f get set combine ind :
  json_find v (c_str f) = Some None -> set (get ind) ind = ind ->
  bound_step hash mktime v f get set combine ind = Some ind.
Proof. intros H Hs. unfold bound_step, try_make_index_parameter. rewrite H. cbn. by rewrite Hs. Qed.

Lemma f_search_val_range lo hi :
  lo <> None \/ hi <> None -> f_search_val hash mktime (query_of (c_range lo hi)) = Some (range_search lo hi).
Proof.
  intros Hne. destruct lo as [[[] lo]|], hi as [[[] hi]|]; try (by destruct Hne);
    unfold f_search_val; cbn [query_of bound_member app];
    repeat match goal with |- context [member ?k ?l] =>
      let r := eval vm_compute in (member k l) in change (member k l) with r end; cbn [mbind option_bind];
    repeat (first [rewrite bound_step_none by reflexivity
                  |rewrite (bound_step_int _ _ _ _ _ _ lo) by reflexivity
                  |rewrite (bound_step_int _ _ _ _ _ _ hi) by reflexivity]; cbn [mbind option_bind]);
    reflexivity.
Qed.

(** The comparisons of [matching] with the bounds the search keeps. *)
Lemma range_search_bounds lo hi n :
  match range_op lo hi with
  | search.op_gt => negb (n <=? search.min (range_search lo hi))
  | search.op_gte => negb (n <? search.min (range_search lo hi))
  | search.op_lt => negb (search.max (range_search lo hi) <=? n)
  | search.op_lte => negb (search.max (range_search lo hi) <? n)
  | search.op_range_lte_gt => negb ((search.max (range_search lo hi) <? n) || (n <=? search.min (range_search lo hi)))
  | search.op_range_lte_gte => negb ((search.max (range_search lo hi) <? n) || (n <? search.min (range_search lo hi)))
  | search.op_range_lt_gt => negb ((search.max (range_search lo hi) <=? n) || (n <=? search.min (range_search lo hi)))
  | search.op_range_lt_gte => negb ((search.max (range_search lo hi) <=? n) || (n <? search.min (range_search lo hi)))
  | search.op_compare => true
  end = above lo n && below hi n.
Proof.
  destruct lo as [[[] lo]|], hi as [[[] hi]|]; cbn; try done; apply eq_bool_prop_intro;
    rewrite ?Is_true_true, ?negb_true_iff, ?orb_false_iff, ?andb_true_iff, ?andb_true_r;
    rewrite ?Z.leb_gt, ?Z.ltb_ge, ?Z.leb_le, ?Z.ltb_lt; lia.
Qed.

Lemma member_find l name v : x00 ∉ name -> member name l = Some v -> json_find (objectValue l) (c_str name) = Some (Some v).
Proof. intros Hn Hm. rewrite c_str_id by done. cbn. by rewrite Hm. Qed.

Lemma match_one_range lo hi l name v :
  lo <> None \/ hi <> None -> x00 ∉ name -> member name l = Some v -> field_ok v ->
  exists b, match_one hash mktime (objectValue l) name (range_search lo hi) = Some b /\
    (b = true <-> sat (c_range lo hi) v).
Proof.
  intros Hne Hn Hm Hv.
  assert (Hop : search.op (range_search lo hi) <> search.op_compare).
  { destruct lo as [[[] ?]|], hi as [[[] ?]|]; cbn; (done || naive_solver). }
  pose proof (member_find l name v Hn Hm) as Hf. unfold match_one. cbn [json_find mbind option_bind]. rewrite Hm. cbn [mbind option_bind].
  destruct Hv as [v [n Hr|t]|vs Hvs].
  - rewrite (try_int _ _ _ _ n Hf). pose proof (range_search_bounds lo hi n) as Hb. cbn [search.op range_search] in *.
    destruct (range_op lo hi); try done; (eexists; split; [reflexivity|]);
      rewrite Hb, andb_true_iff; cbn; naive_solver.
  - unfold try_make_index_parameter. rewrite Hf. cbn [mbind option_bind isInt isInt64 search.tp range_search search.op] in *.
    destruct (range_op lo hi); try done; (eexists; split; [reflexivity|]); cbn; naive_solver.
  - unfold try_make_index_parameter. rewrite Hf. cbn [mbind option_bind isInt isInt64 search.tp range_search search.op] in *.
    destruct (range_op lo hi); try done; (eexists; split; [reflexivity|]); cbn; naive_solver.
Qed.

(** ** One condition and all of them *)

(** The search of a condition decides it on every field the theorem speaks of. *)
Lemma cond_search c :
  cond_ok c ->
  exists s, f_search_val hash mktime (query_of c) = Some s /\ forall l name v,
    x00 ∉ name -> member name l = Some v -> field_ok v ->
    exists b, match_one hash mktime (objectValue l) name s = Some b /\ (b = true <-> sat c v).
Proof.
  destruct c as [w|ws|lo hi]; intros Hc.
  - exists (push_value hash w search.init). split; [by destruct Hc|]. intros l name v _ Hm Hv.
    destruct (match_one_compares _ [w] l name v (push_value_compares _ [] w compares_init Hc) ltac:(by constructor) Hm Hv)
      as (b & E & Hb). exists b. split; [done|]. rewrite Hb. cbn. set_solver.
  - exists (foldl (push_in hash mktime) search.init ws). split; [done|]. intros l name v _ Hm Hv.
    by apply (match_one_compares _ ws l name v (foldl_push_in ws _ [] compares_init Hc) Hc Hm Hv).
  - exists (range_search lo hi). split; [by apply f_search_val_range|]. intros. by apply match_one_range.
Qed.

(** The searches of a query: one per condition. *)
Definition query (q : list (bytes * cond)) : json := objectValue (prod_map id query_of <$> q).

Definition decides (s : search.t) (c : cond) : Prop :=
  forall l name v, x00 ∉ name -> member name l = Some v -> field_ok v ->
    exists b, match_one hash mktime (objectValue l) name s = Some b /\ (b = true <-> sat c v).

Lemma f_search_members_spec q : forall m,
  NoDup q.*1 -> (forall k, k ∈ q.*1 -> m !! k = None) -> Forall cond_ok q.*2 ->
  exists ss, f_search_members hash mktime (prod_map id query_of <$> q) m = Some (list_to_map ss ∪ m) /\
    Forall2 (fun x y => x.1 = y.1 /\ decides x.2 y.2) ss q.
Proof.
  induction q as [|[k c] q IH]; intros m Hnd Hm Hok; cbn in *.
  { exists []. cbn. by rewrite (left_id_L ∅ _). }
  apply NoDup_cons in Hnd as [Hk Hnd]. inversion_clear Hok as [|? ? Hc Hq].
  destruct (cond_search c Hc) as (s & -> & Hs). cbn.
  unfold add_search. rewrite (Hm k) by set_solver.
  destruct (IH (<[k := s]> m)) as (ss & E & H2); [done| |done|].
  { intros k' Hk'. rewrite lookup_insert_ne by set_solver. apply Hm. set_solver. }
  exists ((k, s) :: ss). split; [|constructor; [by split|done]]. rewrite E. cbn. f_equal.
  rewrite <- insert_union_r, insert_union_l; [done|].
  apply not_elem_of_list_to_map_1. intros Hin. apply Hk.
  clear -Hin H2. induction H2 as [|[? ?] [? ?] ? ? [Hx _]]; cbn in *; set_solver.
Qed.

(** A record whose fields named by the query are integers, strings or arrays of them. *)
Definition record_ok (q : list (bytes * cond)) (l : list (bytes * json)) : Prop :=
  forall k v, k ∈ q.*1 -> member k l = Some v -> field_ok v.

Lemma match_one_decides s c l k :
  decides s c -> x00 ∉ k -> (forall v, member k l = Some v -> field_ok v) ->
  exists b, match_one hash mktime (objectValue l) k s = Some b /\
    (b = true <-> exists v, member k l = Some v /\ sat c v).
Proof.
  intros Hd Hk Hf. destruct (member k l) as [v|] eqn:E.
  - destruct (Hd l k v Hk E) as (b & Eb & Hb); [by apply Hf|]. exists b. split; [done|]. rewrite Hb. naive_solver.
  - exists false. unfold match_one. cbn. rewrite E. naive_solver.
Qed.

Lemma matching_decides l ss :
  Forall (fun x => exists b, match_one hash mktime (objectValue l) x.1 x.2 = Some b) ss ->
  exists b, matching hash mktime (objectValue l) ss = Some b /\
    (b = true <-> forall x, x ∈ ss -> match_one hash mktime (objectValue l) x.1 x.2 = Some true).
Proof.
  induction 1 as [|[k s] ss [b Hb] Hss (b' & E & IH)]; cbn [matching fst snd] in *; [set_solver|].
  rewrite Hb. cbn [mbind option_bind]. destruct b.
  - exists b'. split; [done|]. rewrite IH. set_solver.
  - exists false. split; [done|]. split; [done|]. intros Hx.
    specialize (Hx (k, s) ltac:(by left)). cbn [fst snd] in Hx. congruence.
Qed.
End meaning.

(** A query decides what its conditions say. *)
Lemma matching_query (hash : bytes -> Z) (mktime : Z -> Z -> Z -> Z -> Z -> Z -> Z) (q : list (bytes * cond)) :
  NoDup q.*1 -> Forall cond_ok q.*2 -> Forall (fun k => x00 ∉ k) q.*1 ->
  exists searches, f_search hash mktime (query q) ∅ = Some searches /\
    forall (order : list (bytes * search.t)) (l : list (bytes * json)),
      order ≡ₚ map_to_list searches -> record_ok q l ->
      exists b, matching hash mktime (objectValue l) order = Some b /\
        (b = true <-> forall k c, (k, c) ∈ q -> exists v, member k l = Some v /\ sat c v).
Proof.
  intros Hnd Hok Hk. destruct (f_search_members_spec hash mktime q ∅ Hnd) as (ss & E & H2); [done..|].
  rewrite (right_id_L ∅ _) in E. exists (list_to_map ss). split; [done|]. intros order l Hord Hl.
  assert (Hfst : ss.*1 = q.*1) by (clear -H2; induction H2 as [|[? ?] [? ?] ? ? [Hx _]]; cbn in *; congruence).
  rewrite map_to_list_to_map in Hord by (by rewrite Hfst).
  assert (Hd : forall x, x ∈ order -> exists c, (x.1, c) ∈ q /\ decides hash mktime x.2 c).
  { intros x Hx. rewrite Hord in Hx. apply list_elem_of_lookup in Hx as [n Hn].
    destruct (Forall2_lookup_l _ _ _ _ _ H2 Hn) as ([k c] & Hq & Hx1 & Hx2). exists c.
    split; [|done]. cbn in Hx1. rewrite Hx1. by eapply list_elem_of_lookup_2. }
  assert (Hm : forall x c, x ∈ order -> (x.1, c) ∈ q -> decides hash mktime x.2 c ->
    exists b, match_one hash mktime (objectValue l) x.1 x.2 = Some b /\
      (b = true <-> exists v, member x.1 l = Some v /\ sat c v)).
  { intros x c Hx Hq Hdx. assert (x.1 ∈ q.*1) by (apply list_elem_of_fmap; by exists (x.1, c)).
    apply match_one_decides; [done|by rewrite Forall_forall in Hk; apply Hk|]. intros v Hv. by eapply Hl. }
  destruct (matching_decides hash mktime l order) as (b & Eb & Hb).
  { apply Forall_forall. intros x Hx. destruct (Hd x Hx) as (c & Hq & Hdx).
    destruct (Hm x c Hx Hq Hdx) as (b & ? & _). by exists b. }
  exists b. split; [done|]. rewrite Hb. split.
  - intros Hall k c Hq. apply list_elem_of_lookup in Hq as [n Hn].
    destruct (Forall2_lookup_r _ _ _ _ _ H2 Hn) as ([k' s] & Hs & [= ->] & Hdx).
    assert (Hin : (k, s) ∈ order) by (rewrite Hord; by eapply list_elem_of_lookup_2).
    destruct (Hm (k, s) c Hin) as (b' & E' & Hb'); [by eapply list_elem_of_lookup_2|done|].
    rewrite (Hall _ Hin) in E'. injection E' as <-. by apply Hb'.
  - intros Hall x Hx. destruct (Hd x Hx) as (c & Hq & Hdx). destruct (Hm x c Hx Hq Hdx) as (b' & E' & Hb').
    rewrite E'. f_equal. apply Hb'. by apply Hall.
Qed.

(** C34: A json query on integer and string fields means what its conditions say: [f_search]
    turns it into searches, and [matching] of a record returns, in whatever order the map of
    searches is visited, whether every named field is present and satisfies its condition
    (equality, "$in", and the bounds "$gt", "$gte", "$lt", "$lte", strict or not). *)
Theorem matching_exact (hash : bytes -> Z) (mktime : Z -> Z -> Z -> Z -> Z -> Z -> Z) (q : list (bytes * cond)) :
  NoDup q.*1 -> Forall cond_ok q.*2 -> Forall (fun k => x00 ∉ k) q.*1 ->
  exists searches, f_search hash mktime (query q) ∅ = Some searches /\
    forall (order : list (bytes * search.t)) (l : list (bytes * json)),
      order ≡ₚ map_to_list searches -> record_ok q l ->
      exists b, matching hash mktime (objectValue l) order = Some b /\
        (b = true <-> forall k c, (k, c) ∈ q -> exists v, member k l = Some v /\ sat c v).
Proof. exact (matching_query hash mktime q). Qed.

Definition example_query : list (bytes * cond) :=
  [(lit "id", c_in [intValue 5; stringValue (lit "x")]); (lit "t", c_range (Some (true, 10)) (Some (false, 20)))].

Lemma matching_exact_witness :
  exists searches, f_search (fun _ => 7) (fun _ _ _ _ _ _ => 0) (query example_query) ∅ = Some searches /\
    forall (order : list (bytes * search.t)) (l : list (bytes * json)),
      order ≡ₚ map_to_list searches -> record_ok example_query l ->
      exists b, matching (fun _ => 7) (fun _ _ _ _ _ _ => 0) (objectValue l) order = Some b /\
        (b = true <-> forall k c, (k, c) ∈ example_query -> exists v, member k l = Some v /\ sat c v).
Proof.
  apply (matching_exact (fun _ => 7) (fun _ _ _ _ _ _ => 0) example_query).
  - apply (bool_decide_unpack _). vm_compute. exact I.
  - repeat constructor; try done.
  - apply (bool_decide_unpack _). vm_compute. exact I.
Defined.

Example matching_ex :
  (s ← f_search (fun _ => 7) (fun _ _ _ _ _ _ => 0) (query example_query) ∅;
   matching (fun _ => 7) (fun _ _ _ _ _ _ => 0) (objectValue [(lit "id", stringValue (lit "x")); (lit "t", intValue 20)])
     (map_to_list s)) = Some true.
Proof. reflexivity. Qed.
