(* ===== verification/EManager.v ===== *)
(** * The event store ([rssdisk/rssdisk/extentions/e_manager.cpp])

    [EDatabaseManager] keeps the last event for every positive type and header name, and a
    queue of events with a time to live for every other type.  [now] is the value that
    [date_time::current_date_time()] has in the call. *)

From S2P Require Import Prelude Bitbase BasefuncStd DateTime.
From Stdlib Require Import ZArith Lia Strings.Byte.
From stdpp Require Import base gmap strings numbers sorting list.
Open Scope Z_scope.

Record EventResult := Event { eventType : Z; payload : bytes; dtm : date_time; timeToLive : Z }.
Definition EventResult_init : EventResult := Event 0 [] date_time_init 0.

Record EDatabaseManager := EDb {
  eventStorage : gmap Z (gmap bytes EventResult);
  eventQueue : gmap Z (list EventResult) }.

(** [eventStorage[type][name] = s] and [eventQueue[type].emplace_back(s)]. *)
Definition put_storage (t : Z) (name : bytes) (s : EventResult) (db : EDatabaseManager) : EDatabaseManager :=
  EDb (<[t := <[name := s]> (default ∅ (eventStorage db !! t))]> (eventStorage db)) (eventQueue db).
Definition put_queue (t : Z) (s : EventResult) (db : EDatabaseManager) : EDatabaseManager :=
  EDb (eventStorage db) (<[t := default [] (eventQueue db !! t) ++ [s]]> (eventQueue db)).

Definition insert (now : date_time) (d : bytes) (db : EDatabaseManager) : EventResult * EDatabaseManager :=
  if 8 <? zlen d then
    let ty := chars_to_numeric I32 (zsub d 0 4) in
    let header_bytes := chars_to_numeric I32 (zsub d 4 4) in
    if wrap U64 (wrap I32 (header_bytes + 8)) <=? zlen d then
      if 0 <? ty then
        let name := zsub d 8 (wrap U64 header_bytes) in
        let s := Event ty (zsub d (header_bytes + 8) (zlen d)) now 0 in
        (Event ty name date_time_init 0, put_storage ty name s db)
      else if 12 <? header_bytes then
        let data := zsub d 4 (zlen d) in
        let s := Event ty data now (chars_to_numeric I32 (zsub d 8 4)) in
        (Event ty data date_time_init 0, put_queue ty s db)
      else (Event ty [] date_time_init 0, db)
    else (Event ty [] date_time_init 0, db)
  else (EventResult_init, db).

(** [r.dtm < current_date_time().add_secs(-r.timeToLive)]; the negation is of an [int]. *)
Definition expired (now : date_time) (r : EventResult) : bool :=
  dt_lt (dtm r) (add_secs (wrap I32 (- timeToLive r)) now).

Definition reset (now : date_time) (db : EDatabaseManager) : EDatabaseManager :=
  EDb (eventStorage db) ((fun v => filter (fun r => expired now r = false) v) <$> eventQueue db).

Definition retrieve (k : bytes) (db : EDatabaseManager) : EventResult :=
  let '(ty, kk) := match str_find (lit "|") k with
                   | Some fr => (default 0 (stoi I32 (take fr k)), drop (fr + 1) k)
                   | None => (0, [])
                   end in
  match eventStorage db !! ty ≫= (fun m => m !! kk) with
  | Some r => r
  | None => Event ty [] date_time_init 0
  end.

Section fetch.
Context (mktime : Z -> Z -> Z -> Z -> Z -> Z -> Z).

(** [r.dtm.secs_to(d) < v[0]]. *)
Definition recent (d : date_time) (v0 : Z) (r : EventResult) : bool := secs_to mktime (dtm r) d <? v0.

(** [rr.payload += r.payload] over the recent events of the queue [i]; [None] when there is
    none, so that [r0] has no entry. *)
Definition joined (d : date_time) (v0 i : Z) (q : list EventResult) : option EventResult :=
  match filter (fun r => recent d v0 r = true) q with
  | [] => None
  | rs => Some (Event i (mjoin (payload <$> rs)) date_time_init 0)
  end.

(** The sets and maps are unordered containers; the model visits them in the order of
    [elements] and [map_to_list]. *)
Definition fetchEvents (d : date_time) (k : bytes) (db : EDatabaseManager) : list EventResult :=
  match get_vector_from_string I32 k with
  | [] => []
  | v0 :: rest =>
      let s := elements (list_to_set rest : gset Z) in
      let stored := mjoin ((fun i => if 0 <? i then
          filter (fun r => recent d v0 r = true) ((map_to_list (default ∅ (eventStorage db !! i))).*2)
        else []) <$> s) in
      let r0 := omap (fun i => if 0 <? i then None else q ← eventQueue db !! i; joined d v0 i q) s in
      stored ++ r0
  end.
End fetch.

Definition generateKey (k d : bytes) : bytes := numeric_to_chars I32 (wrap I32 (zlen k)) ++ k ++ d.

(** ** Round trip *)

(** An event message: its type, then what [generateKey] makes of its name and value. *)
Definition enc_event (ty : Z) (name value : bytes) : bytes := numeric_to_chars I32 ty ++ generateKey name value.

Lemma insert_enc_event now ty name value db :
  0 < ty -> in_range I32 ty -> 0 < zlen name + zlen value -> zlen name + 8 <= max_val I32 ->
  insert now (enc_event ty name value) db =
    (Event ty name date_time_init 0, put_storage ty name (Event ty value now 0) db).
Proof.
  change (max_val I32) with 2147483647. intros Hty Hr Hv Hn.
  unfold insert, enc_event, generateKey. rewrite (wrap_id I32 (zlen name)) by range_lia.
  set (d := numeric_to_chars I32 ty ++ numeric_to_chars I32 (zlen name) ++ name ++ value).
  assert (Hd : zlen d = 8 + zlen name + zlen value) by (unfold d; len).
  assert (F1 : zsub d 0 4 = numeric_to_chars I32 ty) by (unfold d; zfield).
  assert (F2 : zsub d 4 4 = numeric_to_chars I32 (zlen name)) by (unfold d; zfield).
  rewrite F1, F2, !chars_to_numeric_to_chars by (done || range_lia).
  rewrite (wrap_id I32), !(wrap_id U64) by range_lia.
  assert (F3 : zsub d 8 (zlen name) = name) by (unfold d; zfield).
  assert (F4 : zsub d (zlen name + 8) (zlen d) = value).
  { rewrite Hd. unfold d. zfield. }
  rewrite F3, F4, (proj2 (Z.ltb_lt 8 _)), (proj2 (Z.leb_le _ _)), (proj2 (Z.ltb_lt 0 ty)) by lia. done.
Qed.

Lemma retrieve_put ty name e db : in_range I32 ty -> retrieve (to_string ty ++ lit "|" ++ name) (put_storage ty name e db) = e.
Proof.
  intros Hr. unfold retrieve. change (lit "|") with [x7c]. cbn [app].
  rewrite str_find_char_app by (by apply to_string_not_elem). rewrite take_app_length, drop_app_cons.
  rewrite stoi_to_string by done. simpl. rewrite lookup_insert_eq. simpl. by rewrite lookup_insert_eq.
Qed.

(** An event sent for a positive type and a name is what [retrieve] answers for the key
    "type|name", whatever the store held, and no other key changes its answer. *)
Theorem e_insert_retrieve now ty name value db :
  0 < ty -> in_range I32 ty -> 0 < zlen name + zlen value -> zlen name + 8 <= max_val I32 ->
  let db' := (insert now (enc_event ty name value) db).2 in
  retrieve (to_string ty ++ lit "|" ++ name) db' = Event ty value now 0 /\
  (forall ty' name', (ty', name') <> (ty, name) ->
     eventStorage db' !! ty' ≫= (.!! name') = eventStorage db !! ty' ≫= (.!! name')) /\
  eventQueue db' = eventQueue db.
Proof.
  intros Hty Hr Hv Hn. rewrite insert_enc_event by done. cbn [snd]. split; [|split; [|done]].
  - by apply retrieve_put.
  - intros ty' name' Hne. simpl. destruct (decide (ty' = ty)) as [->|].
    + rewrite lookup_insert_eq. simpl. rewrite lookup_insert_ne by congruence.
      by destruct (eventStorage db !! ty).
    + by rewrite lookup_insert_ne.
Qed.

Definition empty_db : EDatabaseManager := EDb ∅ ∅.

Lemma e_insert_retrieve_witness :
  let db' := (insert example_dt (enc_event 7 (lit "door") (lit "open")) empty_db).2 in
  retrieve (to_string 7 ++ lit "|" ++ lit "door") db' = Event 7 (lit "open") example_dt 0.
Proof.
  destruct (e_insert_retrieve example_dt 7 (lit "door") (lit "open") empty_db) as [H _];
    [lia|vm_compute; split; discriminate|simpl; lia|vm_compute; discriminate|]. exact H.
Defined.

(** ** Expiry *)

(** [reset] keeps of every queue, in order, exactly the events whose age is at most their
    time to live (as instants: the carry over days, months and years included), and touches
    nothing else. *)
Theorem e_reset_exact now db ty q :
  normal now -> eventQueue db !! ty = Some q ->
  Forall (fun r => normal (dtm r) /\ in_range I32 (- timeToLive r)) q ->
  eventQueue (reset now db) !! ty =
    Some (filter (fun r => total_ms now - timeToLive r * 1000 <= total_ms (dtm r)) q) /\
  eventStorage (reset now db) = eventStorage db.
Proof.
  intros Hn Hq Hall. split; [|done]. simpl. rewrite lookup_fmap, Hq. simpl. f_equal. clear Hq.
  induction Hall as [|r q [Hr Ht] Hall IH]; [done|].
  assert (Hx : expired now r = false <-> total_ms now - timeToLive r * 1000 <= total_ms (dtm r)).
  { unfold expired. rewrite wrap_id by done. pose proof (add_secs_spec now (- timeToLive r) Hn) as [Hn' E].
    rewrite dt_lt_spec, E by done. rewrite Z.ltb_ge. lia. }
  destruct (decide (expired now r = false)).
  - rewrite !filter_cons_True by tauto. f_equal. apply IH.
  - rewrite !filter_cons_False by tauto. apply IH.
Qed.

Definition example_queue : list EventResult :=
  [Event 0 (lit "old") example_dt 1; Event 0 (lit "new") example_dt 3600].

Lemma e_reset_exact_witness :
  eventQueue (reset (add_secs 5 example_dt) (EDb ∅ {[0 := example_queue]})) !! 0 =
    Some (filter (fun r => total_ms (add_secs 5 example_dt) - timeToLive r * 1000 <= total_ms (dtm r)) example_queue).
Proof.
  assert (H : normal example_dt).
  { unfold normal, date_normal, time_normal. simpl. change (count_days_in_month 12 2023) with 31. lia. }
  destruct (e_reset_exact (add_secs 5 example_dt) (EDb ∅ {[0 := example_queue]}) 0 example_queue) as [E _].
  - by apply add_secs_spec.
  - by vm_compute.
  - repeat constructor; try exact H; vm_compute; discriminate.
  - exact E.
Defined.
