(* ===== verification/ClientPool.v ===== *)
(** * The pool of clients ([pool::ClientMutex] and [pool::guard], client/rssdisk_pool.hpp)

    A program that uses the client library takes a [client] from a pool and gives it back when its
    [guard] is destroyed.  The pool keeps the clients it has made, the indices of those in use and
    the indices that are free for new ones; idle clients are dropped from time to time.

    The users of the pool are a step relation over the pool and the guards that exist.  A [client]
    is known by its identity; whether its settings can be read is an input of the steps. *)

From S2P Require Import Prelude BasefuncStd DateTime EManager.
From Stdlib Require Import ZArith Lia.
From stdpp Require Import base gmap numbers list.
Open Scope Z_scope.

(** ** State *)

Record client := Client { obj : nat; pool_index : Z }.

(** [made] counts the clients that were ever constructed, so that identities are not used twice. *)
Record ClientMutex := Pool {
  clients : list client;
  activeClients : gmap Z date_time;
  inUse : gset Z;
  minClients : Z;
  maxClients : Z;
  availableIndices : list Z;
  made : nat }.

(** A guard holds its index, -1 for none, and the client, which may be null. *)
Record guard := Guard { g_index : Z; g_client : option client }.

(** ** Operations *)

(** The first client that is not in use. *)
Fixpoint find_free (l : list client) (u : gset Z) : option client :=
  match l with
  | [] => None
  | c :: l' => if bool_decide (pool_index c ∈ u) then find_free l' u else Some c
  end.

(** Marks an index as used, at the time [now]. *)
Definition use_index (now : date_time) (i : Z) (p : ClientMutex) : ClientMutex :=
  Pool (clients p) (<[i := now]> (activeClients p)) ({[i]} ∪ inUse p) (minClients p) (maxClients p) (availableIndices p) (made p).

(** A new client with the index at the back of [availableIndices]. *)
Definition add_client (now : date_time) (p : ClientMutex) : guard * ClientMutex :=
  let c := Client (made p) 0 in
  match last (availableIndices p) with
  | Some i =>
      let c := Client (made p) i in
      let n := (length (availableIndices p) - 1)%nat in
      (Guard i (Some c),
       use_index now i (Pool (clients p ++ [c]) (activeClients p) (inUse p) (minClients p) (maxClients p) (take n (availableIndices p)) (S (made p))))
  | None =>
      (Guard (-1) (Some c),
       Pool (clients p) (activeClients p) (inUse p) (minClients p) (maxClients p) (availableIndices p) (S (made p)))
  end.

(** [acquire]; the comparison of a [size_t] with an [int32_t] is unsigned.  [init_ok] is what
    [init_settings] of a new client answers. *)
Definition acquire (init_ok : bool) (now : date_time) (p : ClientMutex) : guard * ClientMutex :=
  match find_free (clients p) (inUse p) with
  | Some c => (Guard (pool_index c) (Some c), use_index now (pool_index c) p)
  | None =>
      if zlen (clients p) <? wrap U64 (maxClients p) then
        if init_ok then add_client now p
        else (Guard (-1) (Some (Client (made p) 0)),
              Pool (clients p) (activeClients p) (inUse p) (minClients p) (maxClients p) (availableIndices p) (S (made p)))
      else (Guard (-1) None, p)
  end.

Definition release (i : Z) (p : ClientMutex) : ClientMutex :=
  Pool (clients p) (activeClients p) (inUse p ∖ {[i]}) (minClients p) (maxClients p) (availableIndices p) (made p).

(** [initialize]: the clients [0 .. startMinClients - 1] whose settings can be read, the other
    indices below [maxClients] are available. *)
Fixpoint initialize_loop (oks : list bool) (i : Z) (p : ClientMutex) : ClientMutex :=
  match oks with
  | [] => p
  | ok :: oks' =>
      initialize_loop oks' (i + 1)
        (if ok then Pool (clients p ++ [Client (made p) i]) (activeClients p) (inUse p) (minClients p) (maxClients p) (availableIndices p) (S (made p))
         else Pool (clients p) (activeClients p) (inUse p) (minClients p) (maxClients p) (availableIndices p ++ [i]) (S (made p)))
  end.

(** [oks] says for each of the [startMinClients] first clients whether its settings can be read. *)
Definition initialize (oks : list bool) (min max : Z) : ClientMutex :=
  let p := initialize_loop oks 0 (Pool [] ∅ ∅ min max [] 0) in
  Pool (clients p) (activeClients p) (inUse p) min max (availableIndices p ++ seqZ (zlen oks) (max - zlen oks)) (made p).

(** What [stop] does under the lock, before it waits for the guards. *)
Definition stop (p : ClientMutex) : ClientMutex := Pool [] (activeClients p) (inUse p) 0 0 [] (made p).

Section clear.
Context (mktime : Z -> Z -> Z -> Z -> Z -> Z -> Z).

(** The indices that have not been taken for an hour. *)
Definition idle (now : date_time) (p : ClientMutex) (c : client) : bool :=
  match activeClients p !! pool_index c with
  | Some found => (3600 <=? secs_to mktime found now) && negb (bool_decide (pool_index c ∈ inUse p))
  | None => false
  end.

(** [clients.erase(clients.begin() + j)] for the first [j] with the index. *)
Fixpoint erase_index (i : Z) (l : list client) : option (list client) :=
  match l with
  | [] => None
  | c :: l' => if pool_index c =? i then Some l' else (c ::.) <$> erase_index i l'
  end.

Fixpoint clear_loop (toDelete : list Z) (p : ClientMutex) : ClientMutex :=
  match toDelete with
  | [] => p
  | i :: toDelete' =>
      let p := match erase_index i (clients p) with
               | Some l => Pool l (activeClients p) (inUse p) (minClients p) (maxClients p) (availableIndices p ++ [i]) (made p)
               | None => p
               end in
      if zlen (clients p) <=? wrap U64 (minClients p) then p else clear_loop toDelete' p
  end.

Definition clear (now : date_time) (p : ClientMutex) : ClientMutex :=
  if wrap U64 (minClients p) <? zlen (clients p)
  then clear_loop (pool_index <$> filter (fun c => idle now p c = true) (clients p)) p
  else p.

(** ** The users of the pool *)

(** A guard is taken, dropped, or lives; the code never makes a copy of one (a copy, which the
    class allows, would give its client back twice). *)

Inductive pool_step : ClientMutex * list guard -> ClientMutex * list guard -> Prop :=
  | step_get init_ok now p gs :
      pool_step (p, gs) ((acquire init_ok now p).2, (acquire init_ok now p).1 :: gs)
  | step_drop p gs1 g gs2 : pool_step (p, gs1 ++ g :: gs2) (release (g_index g) p, gs1 ++ gs2)
  | step_clear now p gs : pool_step (p, gs) (clear now p, gs)
  | step_stop p gs : pool_step (p, gs) (stop p, gs).
End clear.

(** ** The invariant *)

(** The indices of the guards that have one. *)
Definition held (gs : list guard) : list Z := filter (fun i => i <> -1) (g_index <$> gs).

Record pool_inv (p : ClientMutex) (gs : list guard) : Prop := {
  inv_indices : NoDup ((pool_index <$> clients p) ++ availableIndices p);
  inv_nonneg : Forall (fun i => 0 <= i) ((pool_index <$> clients p) ++ availableIndices p);
  inv_count : zlen (clients p) + zlen (availableIndices p) = maxClients p;
  inv_made : Forall (fun c => obj c < made p)%nat (clients p ++ omap g_client gs);
  inv_objects : NoDup (obj <$> clients p);
  inv_clients : NoDup (obj <$> omap g_client gs);
  inv_use : forall i, i ∈ inUse p <-> i ∈ held gs;
  inv_held : NoDup (held gs);
  inv_some : forall g, g ∈ gs -> g_index g <> -1 -> is_Some (g_client g);
  inv_same : forall g c c', g ∈ gs -> g_client g = Some c' -> c ∈ clients p -> pool_index c = g_index g <-> obj c = obj c';
  inv_free : forall g, g ∈ gs -> g_index g ∉ availableIndices p }.

Lemma held_cons g gs : held (g :: gs) = (if decide (g_index g <> -1) then [g_index g] else []) ++ held gs.
Proof. unfold held. rewrite fmap_cons, filter_cons. by destruct (decide _). Qed.

Lemma elem_of_held i gs : i ∈ held gs <-> i <> -1 /\ exists g, g ∈ gs /\ g_index g = i.
Proof.
  unfold held. rewrite list_elem_of_filter, list_elem_of_fmap. split; intros [H1 (g & H2 & H3)]; (split; [done|]); exists g; by split.
Qed.

Lemma omap_client_cons g (gs : list guard) : omap g_client (g :: gs) = match g_client g with Some c => c :: omap g_client gs | None => omap g_client gs end.
Proof. done. Qed.

Lemma elem_of_objects o (gs : list guard) : o ∈ obj <$> omap g_client gs <-> exists g c, g ∈ gs /\ g_client g = Some c /\ obj c = o.
Proof.
  rewrite list_elem_of_fmap. split.
  - intros (c & -> & (g & Hg & Hc)%list_elem_of_omap). by exists g, c.
  - intros (g & c & Hg & Hc & <-). exists c. split; [done|]. apply list_elem_of_omap. by exists g.
Qed.

(** A guard that gets a client of the pool that no guard has. *)
Lemma use_free now c p gs : pool_inv p gs -> c ∈ clients p -> pool_index c ∉ inUse p ->
  pool_inv (use_index now (pool_index c) p) (Guard (pool_index c) (Some c) :: gs).
Proof.
  intros Hi Hc Hu. destruct Hi as [I1 I2 I3 I4 I5 I6 I7 I8 I9 I10 I11].
  assert (Hpos : 0 <= pool_index c). { rewrite Forall_app, Forall_fmap in I2. destruct I2 as [I2 _]. rewrite Forall_forall in I2. by apply I2. }
  assert (Hnew : pool_index c ∉ held gs) by (by rewrite <- I7).
  assert (Hob : forall g c', g ∈ gs -> g_client g = Some c' -> obj c' <> obj c).
  { intros g c' Hg Hg' E. apply Hnew, elem_of_held. split; [lia|]. exists g. split; [done|]. symmetry. by apply (I10 g c c'). }
  split; cbn [use_index clients activeClients inUse minClients maxClients availableIndices made]; try done.
  - rewrite omap_client_cons. cbn [g_client]. rewrite Forall_app, Forall_cons in *. destruct I4 as [I4 I4']. split; [done|]. split; [|done].
    rewrite Forall_forall in I4. by apply I4.
  - rewrite omap_client_cons. cbn [g_client]. rewrite fmap_cons. apply NoDup_cons. split; [|done].
    intros (g & c' & Hg & Hg' & E)%elem_of_objects. by apply (Hob g c').
  - intros i. rewrite held_cons. cbn [g_index]. destruct (decide (pool_index c <> -1)); [|lia]. set_solver.
  - rewrite held_cons. cbn [g_index]. destruct (decide (pool_index c <> -1)); [|lia]. by apply NoDup_cons.
  - intros g [->|Hg]%elem_of_cons Hn; [by eexists|by apply I9].
  - intros g c1 c' [->|Hg]%elem_of_cons Hgc Hc1; [|by apply (I10 g c1 c')]. cbn in Hgc. injection Hgc as <-. cbn [g_index]. split.
    + intros E. f_equal. apply NoDup_app in I1 as (I1 & _ & _). by apply (NoDup_fmap_eq pool_index (clients p)).
    + intros E. f_equal. by apply (NoDup_fmap_eq obj (clients p)).
  - intros g [->|Hg]%elem_of_cons; [|by apply I11]. cbn [g_index]. apply NoDup_app in I1 as (_ & I1 & _).
    apply I1. apply list_elem_of_fmap. by exists c.
Qed.

(** A guard without an index: it has no client, or a new one that is not in the pool. *)
Definition with_made (n : nat) (p : ClientMutex) : ClientMutex :=
  Pool (clients p) (activeClients p) (inUse p) (minClients p) (maxClients p) (availableIndices p) n.

Lemma no_index_null p gs : pool_inv p gs -> pool_inv p (Guard (-1) None :: gs).
Proof.
  intros [I1 I2 I3 I4 I5 I6 I7 I8 I9 I10 I11]. split; try done.
  - intros g [->|Hg]%elem_of_cons Hn; [done|by apply I9].
  - intros g c c' [->|Hg]%elem_of_cons; [done|by apply I10].
  - intros g [->|Hg]%elem_of_cons; [|by apply I11]. intros H. apply Forall_app in I2 as [_ I2]. rewrite Forall_forall in I2.
    by specialize (I2 _ H).
Qed.

Lemma no_index_new p gs : pool_inv p gs -> pool_inv (with_made (S (made p)) p) (Guard (-1) (Some (Client (made p) 0)) :: gs).
Proof.
  intros [I1 I2 I3 I4 I5 I6 I7 I8 I9 I10 I11].
  pose proof I4 as I4'. rewrite Forall_forall in I4'.
  split; cbn [with_made clients inUse maxClients availableIndices made]; try done.
  - rewrite omap_client_cons. cbn [g_client]. rewrite Forall_app, Forall_cons in *. destruct I4 as [I4 I4'']. split; [|split; [simpl; lia|]].
    + eapply Forall_impl; [exact I4|]. simpl. lia.
    + eapply Forall_impl; [exact I4''|]. simpl. lia.
  - rewrite omap_client_cons. cbn [g_client]. rewrite fmap_cons. apply NoDup_cons. split; [|done].
    intros (g & c' & Hg & Hc & E)%elem_of_objects. assert (H : c' ∈ clients p ++ omap g_client gs).
    { apply elem_of_app. right. apply list_elem_of_omap. by exists g. } specialize (I4' _ H). cbn in *. lia.
  - intros g [->|Hg]%elem_of_cons Hn; [done|by apply I9].
  - intros g c c' [->|Hg]%elem_of_cons; [|by apply I10]. cbn. intros [= <-] Hc. split.
    + intros E. exfalso. apply Forall_app in I2 as [I2 _]. rewrite Forall_fmap, Forall_forall in I2. specialize (I2 _ Hc). cbn in I2. lia.
    + intros E. exfalso. assert (H : c ∈ clients p ++ omap g_client gs) by (apply elem_of_app; by left). specialize (I4' _ H). cbn in *. lia.
  - intros g [->|Hg]%elem_of_cons; [|by apply I11]. intros H. apply Forall_app in I2 as [_ I2]. rewrite Forall_forall in I2.
    by specialize (I2 _ H).
Qed.

(** The pool with a new client that takes an available index. *)
Lemma add_inv p gs i avail : pool_inv p gs -> availableIndices p = avail ++ [i] ->
  pool_inv (Pool (clients p ++ [Client (made p) i]) (activeClients p) (inUse p) (minClients p) (maxClients p) avail (S (made p))) gs /\ i ∉ inUse p.
Proof.
  intros [I1 I2 I3 I4 I5 I6 I7 I8 I9 I10 I11] E. rewrite E in *. pose proof I4 as I4'. rewrite Forall_forall in I4'.
  assert (Hu : i ∉ held gs). { intros (_ & g & Hg & Hi)%elem_of_held. apply (I11 g Hg). rewrite Hi. set_solver. }
  assert (Hold : forall c, c ∈ clients p -> (obj c < made p)%nat) by (intros c Hc; apply I4'; set_solver).
  assert (Hperm : (pool_index <$> clients p ++ [Client (made p) i]) ++ avail ≡ₚ (pool_index <$> clients p) ++ avail ++ [i]).
  { rewrite fmap_app. cbn. rewrite <- app_assoc. apply Permutation_app_head. cbn. apply Permutation_cons_append. }
  split; [split; cbn [clients inUse maxClients availableIndices made]; try done|by rewrite I7].
  - by rewrite Hperm.
  - by rewrite Hperm.
  - rewrite !length_app in *. simpl in *. lia.
  - rewrite !Forall_app in *. destruct I4 as [I4 I4'']. split; [split; [|by repeat constructor; simpl; lia]|].
    + eapply Forall_impl; [exact I4|]. simpl. lia.
    + eapply Forall_impl; [exact I4''|]. simpl. lia.
  - rewrite fmap_app. apply NoDup_app. split; [done|]. split; [|apply NoDup_singleton].
    intros o (c & -> & Hc)%list_elem_of_fmap Ho. apply list_elem_of_singleton in Ho. cbn in Ho. specialize (Hold _ Hc). lia.
  - intros g c c' Hg Hc' [Hc|Hc]%elem_of_app; [by apply (I10 g c c')|]. apply list_elem_of_singleton in Hc as ->. cbn. split.
    + intros ->. exfalso. apply (I11 g Hg). set_solver.
    + intros Eo. exfalso. assert (H : c' ∈ clients p ++ omap g_client gs).
      { apply elem_of_app. right. apply list_elem_of_omap. by exists g. } specialize (I4' _ H). cbn in I4'. lia.
  - intros g Hg H. apply (I11 g Hg). set_solver.
Qed.

Lemma find_free_Some l u c : find_free l u = Some c -> c ∈ l /\ pool_index c ∉ u.
Proof.
  induction l as [|x l IH]; [done|]. cbn [find_free]. destruct (bool_decide_reflect (pool_index x ∈ u)).
  - intros H%IH. set_solver.
  - intros [= ->]. set_solver.
Qed.

Lemma find_free_None l u : find_free l u = None <-> forall c, c ∈ l -> pool_index c ∈ u.
Proof.
  induction l as [|x l IH]; cbn [find_free]; [split; [by intros _ c ?%not_elem_of_nil|done]|].
  destruct (bool_decide_reflect (pool_index x ∈ u)) as [H|H].
  - rewrite IH. set_solver.
  - split; [done|]. intros Hc. destruct H. apply Hc. set_solver.
Qed.

Lemma acquire_inv init_ok now p gs : pool_inv p gs -> pool_inv (acquire init_ok now p).2 ((acquire init_ok now p).1 :: gs).
Proof.
  intros Hi. unfold acquire. destruct (find_free (clients p) (inUse p)) as [c|] eqn:E.
  - apply find_free_Some in E as [Hc Hu]. by apply use_free.
  - destruct (_ <? _); [|by apply no_index_null]. destruct init_ok; [|by apply no_index_new]. unfold add_client.
    destruct (last (availableIndices p)) as [i|] eqn:El; [|by apply no_index_new].
    apply last_Some in El as [avail Ea]. destruct (add_inv p gs i avail Hi Ea) as [H Hu].
    replace (take (length (availableIndices p) - 1) (availableIndices p)) with avail.
    + cbn [fst snd]. apply (use_free now (Client (made p) i) _ gs H); cbn; [set_solver|done].
    + rewrite Ea, length_app. simpl. rewrite Nat.add_sub, take_app_length. done.
Qed.

(** ** Giving back *)

Lemma held_app gs1 gs2 : held (gs1 ++ gs2) = held gs1 ++ held gs2.
Proof. unfold held. by rewrite fmap_app, filter_app. Qed.

Lemma drop_inv p gs1 g gs2 : pool_inv p (gs1 ++ g :: gs2) -> pool_inv (release (g_index g) p) (gs1 ++ gs2).
Proof.
  intros [I1 I2 I3 I4 I5 I6 I7 I8 I9 I10 I11].
  assert (Hsub : forall x, x ∈ gs1 ++ gs2 -> x ∈ gs1 ++ g :: gs2) by set_solver.
  assert (Hom : omap g_client (gs1 ++ g :: gs2) ≡ₚ omap g_client [g] ++ omap g_client (gs1 ++ gs2)).
  { rewrite !omap_app, !omap_client_cons. destruct (g_client g) as [c|]; [|done]. symmetry. exact (Permutation_middle (omap g_client gs1) (omap g_client gs2) c). }
  rewrite held_app, held_cons in I8. rewrite (Permutation_app_comm (held gs1)), <- app_assoc in I8.
  split; cbn [release clients inUse maxClients availableIndices made]; try done.
  - rewrite Forall_app in *. destruct I4 as [I4 I4']. split; [done|]. rewrite Hom in I4'. by apply Forall_app in I4' as [_ I4'].
  - rewrite Hom, fmap_app in I6. by apply NoDup_app in I6 as (_ & _ & I6).
  - intros i. rewrite elem_of_difference, elem_of_singleton, I7, !held_app, held_cons, !elem_of_app.
    destruct (decide (g_index g <> -1)) as [Hn|Hn]; cbn [app] in I8.
    + apply NoDup_cons in I8 as [I8 _]. rewrite elem_of_app in I8. rewrite list_elem_of_singleton. split; [naive_solver|].
      intros Hi. split; [naive_solver|]. intros ->. apply I8. naive_solver.
    + split; [set_solver|]. intros Hi. split; [set_solver|]. intros ->.
      assert (H : g_index g ∈ held (gs1 ++ gs2)) by (rewrite held_app; set_solver). by apply elem_of_held in H as [H _].
  - rewrite held_app, (Permutation_app_comm (held gs1)). by apply NoDup_app in I8 as (_ & _ & I8).
  - intros x Hx. apply I9. auto.
  - intros x c c' Hx. apply I10. auto.
  - intros x Hx. apply I11. auto.
Qed.

Lemma stop_inv p gs : pool_inv p gs -> pool_inv (stop p) gs.
Proof.
  intros [I1 I2 I3 I4 I5 I6 I7 I8 I9 I10 I11]. split; cbn [stop clients inUse maxClients availableIndices made]; try done.
  - apply NoDup_nil_2.
  - by apply Forall_app in I4 as [_ I4].
  - apply NoDup_nil_2.
  - intros g c c' _ _ H. by apply not_elem_of_nil in H.
  - intros g _ H. by apply not_elem_of_nil in H.
Qed.

(** ** Dropping idle clients *)

Lemma erase_index_Some i l l' : erase_index i l = Some l' -> exists c, pool_index c = i /\ c ∈ l /\ l ≡ₚ c :: l'.
Proof.
  revert l'; induction l as [|x l IH]; intros l'; [done|]. cbn [erase_index]. destruct (Z.eqb_spec (pool_index x) i) as [E|].
  - intros [= <-]. exists x. split; [done|]. by split; [set_solver|].
  - destruct (erase_index i l) as [l1|]; [|done]. intros [= <-]. destruct (IH l1 eq_refl) as (c & Ec & Hc & Hp).
    exists c. split; [done|]. split; [set_solver|]. rewrite Hp. apply perm_swap.
Qed.

Lemma erase_inv p gs i l' : pool_inv p gs -> i ∉ inUse p -> erase_index i (clients p) = Some l' ->
  pool_inv (Pool l' (activeClients p) (inUse p) (minClients p) (maxClients p) (availableIndices p ++ [i]) (made p)) gs.
Proof.
  intros [I1 I2 I3 I4 I5 I6 I7 I8 I9 I10 I11] Hi (c & <- & Hc & Hp)%erase_index_Some.
  assert (Hperm : (pool_index <$> l') ++ availableIndices p ++ [pool_index c] ≡ₚ (pool_index <$> clients p) ++ availableIndices p).
  { rewrite Hp, fmap_cons. cbn [app]. rewrite app_assoc. symmetry. apply Permutation_cons_append. }
  assert (Hsub : forall x, x ∈ l' -> x ∈ clients p) by (intros x; rewrite Hp; set_solver).
  split; cbn [clients inUse maxClients availableIndices made]; try done.
  - by rewrite Hperm.
  - by rewrite Hperm.
  - apply Permutation_length in Hp. rewrite length_app. simpl in *. lia.
  - rewrite Forall_app in *. destruct I4 as [I4 I4']. split; [|done]. rewrite Hp in I4. by apply Forall_cons in I4 as [_ I4].
  - rewrite Hp, fmap_cons in I5. by apply NoDup_cons in I5 as [_ I5].
  - intros g x c' Hg Hc' Hx. apply I10; auto.
  - intros g Hg [H|H]%elem_of_app; [by apply (I11 g)|]. apply list_elem_of_singleton in H.
    apply Hi, I7, elem_of_held. split; [|by exists g]. apply Forall_app in I2 as [I2 _]. rewrite Forall_fmap, Forall_forall in I2.
    specialize (I2 _ Hc). cbn in I2. lia.
Qed.

Lemma clear_loop_inv ix : forall p gs, pool_inv p gs -> Forall (fun i => i ∉ inUse p) ix -> pool_inv (clear_loop ix p) gs.
Proof.
  induction ix as [|i ix IH]; intros p gs Hi Hu; [done|]. apply Forall_cons in Hu as [Hu Hus]. cbn [clear_loop].
  destruct (erase_index i (clients p)) as [l'|] eqn:E; cbn [clients minClients].
  - pose proof (erase_inv p gs i l' Hi Hu E) as H. destruct (_ <=? _); [done|]. by apply IH.
  - destruct (_ <=? _); [done|]. by apply IH.
Qed.

Lemma clear_inv mktime now p gs : pool_inv p gs -> pool_inv (clear mktime now p) gs.
Proof.
  intros Hi. unfold clear. destruct (_ <? _); [|done]. apply clear_loop_inv; [done|].
  apply Forall_fmap, Forall_forall. intros c [Hc _]%list_elem_of_filter. unfold idle in Hc. unfold compose.
  destruct (activeClients p !! pool_index c); [|done]. apply andb_true_iff in Hc as [_ Hc].
  by destruct (bool_decide_reflect (pool_index c ∈ inUse p)).
Qed.

(** ** The start *)

Definition fresh_pool (min max : Z) : ClientMutex := Pool [] ∅ ∅ min max [] 0.

Lemma seqZ_step {A} i (x : A) l : seqZ i (zlen (x :: l)) = i :: seqZ (i + 1) (zlen l).
Proof. rewrite seqZ_cons by (simpl; lia). f_equal. f_equal; simpl; lia. Qed.

Lemma initialize_loop_spec oks : forall i p, 
  exists l av n, initialize_loop oks i p = Pool (clients p ++ l) (activeClients p) (inUse p) (minClients p) (maxClients p) (availableIndices p ++ av) n /\
    (pool_index <$> l) ++ av ≡ₚ seqZ i (zlen oks) /\ (made p <= n)%nat /\ NoDup (obj <$> l) /\ Forall (fun c => made p <= obj c < n)%nat l.
Proof.
  induction oks as [|ok oks IH]; intros i p; cbn [initialize_loop].
  - exists [], [], (made p). rewrite !app_nil_r. destruct p. split; [done|]. split; [done|]. split; [done|]. split; constructor.
  - destruct ok.
    + destruct (IH (i + 1) (Pool (clients p ++ [Client (made p) i]) (activeClients p) (inUse p) (minClients p) (maxClients p) (availableIndices p) (S (made p))))
        as (l & av & n & E & Hp & Hm & Hn & Hf). cbn [clients activeClients inUse minClients maxClients availableIndices made] in *. exists (Client (made p) i :: l), av, n. rewrite E, <- app_assoc.
      split; [done|]. split; [|split; [lia|split]].
      * rewrite seqZ_step, fmap_cons. cbn [app pool_index]. by rewrite Hp.
      * rewrite fmap_cons. apply NoDup_cons. split; [|done]. intros (c & Ec & Hc)%list_elem_of_fmap. rewrite Forall_forall in Hf.
        specialize (Hf c Hc). cbn in *. lia.
      * constructor; [cbn; lia|]. eapply Forall_impl; [exact Hf|]. cbn. lia.
    + destruct (IH (i + 1) (Pool (clients p) (activeClients p) (inUse p) (minClients p) (maxClients p) (availableIndices p ++ [i]) (S (made p))))
        as (l & av & n & E & Hp & Hm & Hn & Hf). cbn [clients activeClients inUse minClients maxClients availableIndices made] in *. exists l, (i :: av), n. rewrite E, <- app_assoc.
      split; [done|]. split; [|split; [lia|split; [done|]]].
      * rewrite seqZ_step, <- Permutation_middle. by rewrite Hp.
      * eapply Forall_impl; [exact Hf|]. cbn. lia.
Qed.

Lemma initialize_inv oks min max : zlen oks <= max -> pool_inv (initialize oks min max) [].
Proof.
  intros Hm. unfold initialize. destruct (initialize_loop_spec oks 0 (fresh_pool min max)) as (l & av & n & E & Hp & _ & Hn & Hf).
  unfold fresh_pool in *. cbn in E, Hf. rewrite E. cbn [clients activeClients inUse availableIndices made app].
  assert (Hperm : (pool_index <$> l) ++ av ++ seqZ (zlen oks) (max - zlen oks) ≡ₚ seqZ 0 max).
  { rewrite app_assoc, Hp. replace max with (zlen oks + (max - zlen oks)) at 2 by lia. rewrite seqZ_app by lia. done. }
  split; cbn [clients activeClients inUse minClients maxClients availableIndices made]; try (intros; set_solver).
  - rewrite Hperm. apply NoDup_seqZ.
  - rewrite Hperm. apply Forall_forall. intros i Hi%elem_of_seqZ. lia.
  - apply Permutation_length in Hperm. rewrite length_app, length_fmap, length_app, !length_seqZ in *. lia.
  - rewrite app_nil_r. eapply Forall_impl; [exact Hf|]. cbn. lia.
  - apply NoDup_nil_2.
  - apply NoDup_nil_2.
Qed.

(** ** The claims *)

Lemma pool_step_inv mktime s s' : pool_step mktime s s' -> pool_inv s.1 s.2 -> pool_inv s'.1 s'.2.
Proof.
  destruct 1; cbn [fst snd]; intros Hi; [by apply acquire_inv|by apply drop_inv|by apply clear_inv|by apply stop_inv].
Qed.

Lemma reachable_pool_inv mktime oks min max p gs :
  zlen oks <= max -> rtc (pool_step mktime) (initialize oks min max, []) (p, gs) -> pool_inv p gs.
Proof.
  intros Hm Hr. pose proof (initialize_inv oks min max Hm) as Hi.
  assert (G : forall s s', rtc (pool_step mktime) s s' -> pool_inv s.1 s.2 -> pool_inv s'.1 s'.2).
  { induction 1 as [|s1 s2 s3 H1 H2 IH]; [done|]. intros. apply IH. by eapply pool_step_inv. }
  exact (G _ _ Hr Hi).
Qed.

(** C20: whatever the users of the pool do, no two guards hold the same client or the same index, a
    guard with an index has a client, the indices in use are those of the guards, and the pool
    never has more clients than [maxClients], with distinct indices. *)
Theorem pool_clients_exclusive mktime oks min max p gs :
  zlen oks <= max -> rtc (pool_step mktime) (initialize oks min max, []) (p, gs) ->
  NoDup (obj <$> omap g_client gs) /\ NoDup (held gs) /\ (forall i, i ∈ inUse p <-> i ∈ held gs) /\
  (forall g, g ∈ gs -> g_index g <> -1 -> is_Some (g_client g)) /\
  NoDup (pool_index <$> clients p) /\ zlen (clients p) <= maxClients p.
Proof.
  intros Hm [I1 I2 I3 I4 I5 I6 I7 I8 I9 I10 I11]%reachable_pool_inv; [|done].
  apply NoDup_app in I1 as (I1 & _ & _). repeat split; try done; [by apply I7|by apply I7|lia].
Qed.

Lemma clear_loop_max ix : forall p, maxClients (clear_loop ix p) = maxClients p.
Proof.
  induction ix as [|i ix IH]; intros p; [done|]. cbn [clear_loop].
  destruct (erase_index i (clients p)); (destruct (_ <=? _); [done|by rewrite IH]).
Qed.

Lemma reachable_max mktime oks min max p gs :
  zlen oks <= max -> max <= max_val I32 -> rtc (pool_step mktime) (initialize oks min max, []) (p, gs) ->
  0 <= maxClients p <= max_val I32.
Proof.
  intros Hm Hmax Hr.
  assert (G : forall s s', rtc (pool_step mktime) s s' -> 0 <= maxClients s.1 <= max_val I32 -> 0 <= maxClients s'.1 <= max_val I32).
  { induction 1 as [|s1 s2 s3 H1 H2 IH]; [done|]. intros Hs. apply IH. destruct H1; cbn [fst snd] in *; try done.
    - unfold acquire, add_client. repeat case_match; done.
    - unfold clear. destruct (_ <? _); [by rewrite clear_loop_max|done]. }
  apply (G _ _ Hr). cbn. split; [lia|done].
Qed.

(** What [acquire] gives: a client that no guard has when there is one, otherwise a new one while
    there is room; with full room or unreadable settings the guard has no index. *)
Theorem acquire_exact mktime oks min max p gs init_ok now :
  zlen oks <= max -> max <= max_val I32 -> rtc (pool_step mktime) (initialize oks min max, []) (p, gs) ->
  let g := (acquire init_ok now p).1 in
  (g_index g <> -1 <-> (exists c, c ∈ clients p /\ pool_index c ∉ held gs) \/ (zlen (clients p) < maxClients p /\ init_ok = true)) /\
  (g_index g <> -1 -> g_index g ∉ held gs).
Proof.
  intros Hm Hmax Hr. pose proof (reachable_pool_inv _ _ _ _ _ _ Hm Hr) as Hi.
  pose proof (reachable_max _ _ _ _ _ _ Hm Hmax Hr) as Hb.
  pose proof (acquire_inv init_ok now p gs Hi) as Ha. intros g. split.
  - unfold g, acquire. pose proof (find_free_None (clients p) (inUse p)) as Hf. destruct Hi as [I1 I2 I3 I4 I5 I6 I7 I8 I9 I10 I11].
    assert (Hpos : forall c, c ∈ clients p -> 0 <= pool_index c).
    { intros c Hc. apply Forall_app in I2 as [I2 _]. rewrite Forall_fmap, Forall_forall in I2. by apply I2. }
    destruct (find_free (clients p) (inUse p)) as [c|] eqn:E.
    + apply find_free_Some in E as [Hc Hu]. cbn [g_index fst]. split; [|intros _; specialize (Hpos c Hc); lia].
      intros _. left. exists c. by rewrite <- I7.
    + assert (Hno : ~ exists c, c ∈ clients p /\ pool_index c ∉ held gs).
      { intros (c & Hc & Hn). apply Hn, I7. by apply Hf. }
      change (max_val I32) with 2147483647 in Hb. rewrite wrap_id by range_lia. destruct (Z.ltb_spec (zlen (clients p)) (maxClients p)).
      * destruct init_ok; [|cbn; split; [done|intros [?|[_ ?]]; done]]. unfold add_client.
        destruct (last (availableIndices p)) as [i|] eqn:El.
        -- apply last_Some in El as [av Eav]. cbn [g_index fst]. split; [by right|]. intros _. apply Forall_app in I2 as [_ I2].
           rewrite Eav, Forall_app, Forall_singleton in I2. lia.
        -- apply last_None in El. rewrite El in I3. simpl in I3. lia.
      * cbn. split; [done|]. intros [?|[? _]]; [done|lia].
  - intros Hn. destruct Ha as [_ _ _ _ _ _ _ I8 _ _ _]. rewrite held_cons in I8. fold g in I8.
    destruct (decide (g_index g <> -1)); [|done]. by apply NoDup_cons in I8 as [I8 _].
Qed.

Lemma clear_loop_clients ix : forall p, wrap U64 (minClients p) < zlen (clients p) ->
  wrap U64 (minClients p) <= zlen (clients (clear_loop ix p)) /\
  forall c, c ∈ clients p -> pool_index c ∉ ix -> c ∈ clients (clear_loop ix p).
Proof.
  induction ix as [|i ix IH]; intros p Hp; [split; [simpl; lia|done]|]. cbn [clear_loop].
  destruct (erase_index i (clients p)) as [l|] eqn:E; cbn [clients minClients].
  - apply erase_index_Some in E as (c0 & Ec & Hc0 & Hperm).
    assert (Hk : forall c, c ∈ clients p -> pool_index c ∉ i :: ix -> c ∈ l).
    { intros c. rewrite Hperm. intros [->|?]%elem_of_cons Hn; [|done]. rewrite Ec in Hn. set_solver. }
    pose proof (Permutation_length Hperm) as Hlen. simpl in Hlen. destruct (Z.leb_spec (zlen l) (wrap U64 (minClients p))).
    + cbn [clients]. split; [lia|done].
    + match goal with |- context [clear_loop ix ?q] => destruct (IH q) as [H1 H2]; [done|] end.
      split; [done|]. intros c Hc Hn. apply H2; [by apply Hk|set_solver].
  - destruct (Z.leb_spec (zlen (clients p)) (wrap U64 (minClients p))); [lia|]. destruct (IH p) as [H1 H2]; [done|].
    split; [done|]. intros c Hc Hn. apply H2; [done|set_solver].
Qed.

(** [clear] drops only clients that no guard has and that were last taken an hour ago or earlier,
    and never goes below [minClients]. *)
Theorem clear_keeps_used mktime oks min max p gs now :
  zlen oks <= max -> rtc (pool_step mktime) (initialize oks min max, []) (p, gs) ->
  Z.min (zlen (clients p)) (wrap U64 (minClients p)) <= zlen (clients (clear mktime now p)) /\
  forall c, c ∈ clients p -> c ∉ clients (clear mktime now p) ->
    pool_index c ∉ held gs /\ exists t, activeClients p !! pool_index c = Some t /\ 3600 <= secs_to mktime t now.
Proof.
  intros Hm Hr. pose proof (reachable_pool_inv _ _ _ _ _ _ Hm Hr) as Hi. unfold clear.
  destruct (Z.ltb_spec (wrap U64 (minClients p)) (zlen (clients p))); [|split; [lia|done]].
  match goal with |- context [clear_loop ?ix p] => destruct (clear_loop_clients ix p) as [H1 H2]; [done|] end.
  split; [lia|]. intros c Hc Hn.
  assert (Hidle : idle mktime now p c = true).
  { destruct (idle mktime now p c) eqn:Ei; [done|]. exfalso. apply Hn, H2; [done|]. intros (c' & E & [Hc' Hin]%list_elem_of_filter)%list_elem_of_fmap.
    destruct Hi as [I1 _ _ _ _ _ _ _ _ _ _]. apply NoDup_app in I1 as (I1 & _ & _).
    rewrite (NoDup_fmap_eq pool_index (clients p) c c') in Ei by done. congruence. }
  unfold idle in Hidle. destruct (activeClients p !! pool_index c) as [t|] eqn:Et; [|done].
  apply andb_true_iff in Hidle as [Ht%Z.leb_le Hu]. split; [|by exists t]. rewrite <- (inv_use _ _ Hi).
  by destruct (bool_decide_reflect (pool_index c ∈ inUse p)).
Qed.

(** Settings that cannot be read: the guard has a client all the same, one that is not connected to
    any server, and no index. *)
Example acquire_unreadable now :
  acquire false now (initialize [] 0 2) = (Guard (-1) (Some (Client 0 0)), Pool [] ∅ ∅ 0 2 [0; 1] 1).
Proof. reflexivity. Qed.

(** ** An example *)

Definition ex_mktime (y mo d h mi s : Z) : Z := ((d * 24 + h) * 60 + mi) * 60 + s.
Definition ex_guards : ClientMutex * list guard :=
  let '(g1, p) := acquire true example_dt (initialize [true] 0 2) in
  let '(g2, p) := acquire true example_dt p in
  (p, [g2; g1]).

Lemma pool_clients_exclusive_witness :
  NoDup (obj <$> omap g_client ex_guards.2) /\ NoDup (held ex_guards.2) /\ (forall i, i ∈ inUse ex_guards.1 <-> i ∈ held ex_guards.2) /\
  (forall g, g ∈ ex_guards.2 -> g_index g <> -1 -> is_Some (g_client g)) /\
  NoDup (pool_index <$> clients ex_guards.1) /\ zlen (clients ex_guards.1) <= maxClients ex_guards.1.
Proof.
  apply (pool_clients_exclusive ex_mktime [true] 0 2 ex_guards.1 ex_guards.2).
  - simpl. lia.
  - eapply rtc_l; [apply (step_get ex_mktime true example_dt)|]. apply rtc_once. apply (step_get ex_mktime true example_dt).
Defined.

Example ex_held : held ex_guards.2 = [1; 0].
Proof. reflexivity. Qed.
