(* ===== verification/DiskHelper.v ===== *)
(** * Files ([rssdisk/rssdisk/disk_helper.hpp])

    The file system is a finite map from path names to contents.  Whether a path can be opened
    for writing (its directory exists, permissions) is the parameter [opens]; a write that
    starts is complete.  [write_file_to_disk] also keeps account of the blocks a file takes;
    the account is on machine integers, and a missing file has the size [(size_t)-1] that
    [tellg] of a closed stream converts to. *)

From S2P Require Import Prelude BasefuncStd DateTime.
From Stdlib Require Import ZArith Lia Strings.Byte.
From stdpp Require Import base gmap strings numbers list.
Open Scope Z_scope.

Abbreviation fs := (gmap bytes bytes).

Section ops.
Context (opens : bytes -> bool).

(** [get_file_size]: [tellg] gives -1 on a stream that is not open. *)
Definition get_file_size (f : fs) (filename : bytes) : Z :=
  match f !! filename with Some c => zlen c | None => -1 end.

Definition is_file_exists (f : fs) (filename : bytes) : bool := bool_decide (is_Some (f !! filename)).

(** [count * fs_block_size] with the count truncated to 32 bits; the product is of 64 bits. *)
Definition block_bytes (s fs_block_size : Z) : Z := wrap I32 (Z.quot s fs_block_size + 1) * fs_block_size.

(** [old_size != 0 ? old_size / fs_block_size + 1 : 0] blocks, in bytes, as a [size_t]. *)
Definition account (s fs_block_size : Z) : Z :=
  if fs_block_size =? 0 then s
  else if s =? 0 then 0 else wrap U64 (block_bytes s fs_block_size).

Definition get_file_size_fs_block_size (f : fs) (filename : bytes) (fs_block_size : Z) : Z :=
  block_bytes (wrap U64 (get_file_size f filename)) fs_block_size.

(** The text before the content of a file: the headers, the date and the time to live. *)
Definition file_header (now : date_time) (ttl : Z) (headers : list bytes) : bytes :=
  mjoin headers ++ get_date_time now ++ to_string ttl ++ lit " ".

(** [write_file_to_disk]: success, the new value of [size] and the new files. *)
Definition write_file_to_disk (now : date_time) (path file_name content : bytes) (size ttl fs_block_size : Z)
    (headers : list bytes) (write_headers : bool) (f : fs) : bool * Z * fs :=
  let name := path ++ file_name in
  let old_size := wrap U64 (get_file_size f name) in
  match content with
  | [] =>
      let old_size := account old_size fs_block_size in
      (true, wrap I32 (size + wrap U64 (- old_size)), delete name f)
  | _ :: _ =>
      if opens name then
        let new_size := if write_headers
          then zlen content + (20 + zlen (to_string ttl)) + zlen (mjoin headers) else zlen content in
        let text := if write_headers then file_header now ttl headers ++ content else content in
        let old_size := account old_size fs_block_size in
        let new_size := account new_size fs_block_size in
        (true, wrap I32 (size + wrap U64 (new_size - old_size)), <[name := text]> f)
      else (false, size, f)
  end.

Definition read_file (f : fs) (path file_name : bytes) (max_bytes_read : Z) : option bytes :=
  c ← f !! (path ++ file_name);
  Some (if (negb (max_bytes_read =? 0)) && (max_bytes_read <? zlen c) then zsub c 0 max_bytes_read else c).

Definition append_to_file (file_name content : bytes) (f : fs) : bool * fs :=
  if opens file_name then (true, <[file_name := default [] (f !! file_name) ++ content]> f) else (false, f).

Definition write (file_name content : bytes) (f : fs) : bool * fs :=
  if opens file_name then (true, <[file_name := content]> f) else (false, f).

(** What the names of the files below the directory [path] begin with. *)
Definition below_dir (path : bytes) : bytes := match last path with Some x2f => path | _ => path ++ [x2f] end.

(** [get_dir_size]: the blocks of every file below [path]; the iterator throws for an empty path. *)
Definition get_dir_size (f : fs) (path : bytes) (fs_block_size : Z) : Z :=
  match path with
  | [] => 0
  | _ =>
      map_fold (fun name c size =>
        if starts_with name (below_dir path) then
          size + (if fs_block_size =? 0 then zlen c else block_bytes (zlen c) fs_block_size)
        else size) 0 f
  end.
End ops.

(** ** Block accounting *)

(** The bytes of the blocks that a file of [s] bytes takes. *)
Definition blocks (blk s : Z) : Z := (s / blk + 1) * blk.

(** What a directory of files takes below [path]. *)
Definition used (path : bytes) (blk : Z) (f : fs) : Z :=
  map_fold (fun name c size => if starts_with name path then size + blocks blk (zlen c) else size) 0 f.

Definition taken (blk : Z) (o : option bytes) : Z := match o with Some c => blocks blk (zlen c) | None => 0 end.

Lemma used_comm path blk : forall j1 j2 (z1 z2 : bytes) y, j1 <> j2 ->
  (fun name c size => if starts_with name path then size + blocks blk (zlen c) else size) j1 z1
   ((fun name c size => if starts_with name path then size + blocks blk (zlen c) else size) j2 z2 y) =
  (fun name c size => if starts_with name path then size + blocks blk (zlen c) else size) j2 z2
   ((fun name c size => if starts_with name path then size + blocks blk (zlen c) else size) j1 z1 y).
Proof. intros. simpl. destruct (starts_with j1 path), (starts_with j2 path); lia. Qed.

Lemma used_delete path blk f name :
  starts_with name path = true -> used path blk (delete name f) = used path blk f - taken blk (f !! name).
Proof.
  intros Hp. unfold used, taken. destruct (f !! name) as [c|] eqn:E.
  - rewrite (map_fold_delete_L _ 0 name c f); [|intros; by apply used_comm|done].
    rewrite Hp. ring.
  - rewrite delete_id by done. ring.
Qed.

Lemma used_insert path blk f name c :
  starts_with name path = true ->
  used path blk (<[name := c]> f) = used path blk f - taken blk (f !! name) + blocks blk (zlen c).
Proof.
  intros Hp. rewrite <- used_delete by done. rewrite <- insert_delete_eq. unfold used.
  rewrite map_fold_insert_L; [|intros; by apply used_comm|by rewrite lookup_delete_eq]. by rewrite Hp.
Qed.

Lemma used_other path blk f name c :
  starts_with name path = false -> used path blk (<[name := c]> f) = used path blk f.
Proof.
  intros Hp. rewrite <- insert_delete_eq. unfold used.
  rewrite map_fold_insert_L; [|intros; by apply used_comm|by rewrite lookup_delete_eq]. rewrite Hp.
  destruct (f !! name) as [c'|] eqn:E; [|by rewrite delete_id].
  rewrite (map_fold_delete_L _ 0 name c' f); [|intros; by apply used_comm|done]. by rewrite Hp.
Qed.

(** The block size of the file system. *)
Definition block_ok (blk : Z) : Prop := exists k, 0 <= k <= 31 /\ blk = 2 ^ k.

Lemma account_present blk s :
  block_ok blk -> 0 < s -> s + blk < 2 ^ 31 -> account s blk = blocks blk s.
Proof.
  intros (k & Hk & ->) Hs Hb. pose proof (Z.pow_pos_nonneg 2 k ltac:(lia) ltac:(lia)) as Hp.
  unfold account, block_bytes, blocks. rewrite (proj2 (Z.eqb_neq _ _)), (proj2 (Z.eqb_neq s 0)) by lia.
  rewrite Z.quot_div_nonneg by lia. pose proof (Z.mul_div_le s (2 ^ k) Hp). pose proof (Z.div_pos s (2 ^ k) ltac:(lia) Hp).
  rewrite (wrap_id I32), wrap_id by (rewrite ?in_range_I32, ?in_range_U64; nia). done.
Qed.

(** The size [(size_t)-1] of a missing file makes [2^(64-k)] blocks, which is 0 in 32 bits. *)
Lemma account_missing blk : block_ok blk -> account (wrap U64 (-1)) blk = 0.
Proof.
  intros (k & Hk & ->). pose proof (Z.pow_pos_nonneg 2 k ltac:(lia) ltac:(lia)) as Hp.
  unfold account, block_bytes. rewrite (proj2 (Z.eqb_neq _ _)) by lia.
  change (wrap U64 (-1)) with (2 ^ 64 - 1). change (2 ^ 64 - 1 =? 0) with false. cbv iota.
  rewrite Z.quot_div_nonneg by lia.
  assert (E : 2 ^ 64 = 2 ^ (32 - k) * 2 ^ 32 * 2 ^ k).
  { rewrite <- !Z.pow_add_r by lia. f_equal. lia. }
  assert (Hd : (2 ^ 64 - 1) / 2 ^ k = 2 ^ (32 - k) * 2 ^ 32 - 1).
  { symmetry. apply (Z.div_unique _ _ _ (2 ^ k - 1)); [lia|]. rewrite E. ring. }
  rewrite Hd. replace (2 ^ (32 - k) * 2 ^ 32 - 1 + 1) with (2 ^ (32 - k) * 2 ^ 32) by lia.
  replace (wrap I32 (2 ^ (32 - k) * 2 ^ 32)) with 0; [done|].
  rewrite <- (wrap_id I32 0) by range_lia. apply wrap_congr. change (2 ^ bits I32) with (2 ^ 32).
  rewrite Z.mod_mul by lia. done.
Qed.

(** Files that the account is exact for: not empty, and their blocks fit in 31 bits. *)
Definition file_ok (blk : Z) (c : bytes) : Prop := 0 < zlen c /\ zlen c + blk < 2 ^ 31.

Lemma account_file blk f name :
  block_ok blk -> (forall c, f !! name = Some c -> file_ok blk c) ->
  account (wrap U64 (get_file_size f name)) blk = taken blk (f !! name).
Proof.
  intros Hb Hf. unfold get_file_size, taken. destruct (f !! name) as [c|]; [|by apply account_missing].
  destruct (Hf c eq_refl) as [H1 H2]. assert (0 < blk) by (destruct Hb as (k & ? & ->); lia).
  rewrite wrap_id by range_lia. by apply account_present.
Qed.

Lemma file_block_bytes blk c :
  block_ok blk -> file_ok blk c -> block_bytes (zlen c) blk = blocks blk (zlen c).
Proof.
  intros Hb [H1 H2]. pose proof (account_present blk (zlen c) Hb H1 H2) as E. unfold account in E.
  assert (0 < blk) by (destruct Hb as (k & ? & ->); lia).
  rewrite (proj2 (Z.eqb_neq blk 0)), (proj2 (Z.eqb_neq (zlen c) 0)) in E by lia. rewrite <- E. symmetry. apply wrap_id.
  revert E. unfold block_bytes, blocks. rewrite Z.quot_div_nonneg by lia.
  pose proof (Z.mul_div_le (zlen c) blk ltac:(lia)). pose proof (Z.div_pos (zlen c) blk ltac:(lia) ltac:(lia)).
  rewrite (wrap_id I32) by (rewrite in_range_I32; nia). rewrite in_range_U64. nia.
Qed.

(** ** The header of a file *)

Lemma length_dec_loop k fuel n :
  (k < fuel)%nat -> 10 ^ Z.of_nat k <= n < 10 ^ Z.of_nat (S k) -> length (dec_loop fuel n []) = S k.
Proof.
  revert fuel n; induction k as [|k IH]; intros [|fuel] n Hf Hn; try lia; cbn [dec_loop].
  - rewrite (proj2 (Z.ltb_lt n 10)) by (change (10 ^ Z.of_nat 1) with 10 in Hn; lia). done.
  - rewrite !Nat2Z.inj_succ, !Z.pow_succ_r in Hn by lia.
    rewrite (proj2 (Z.ltb_ge n 10)) by nia. rewrite dec_loop_app, length_app, IH; [simpl; lia|lia|].
    rewrite Nat2Z.inj_succ, Z.pow_succ_r by lia. dlia.
Qed.

Lemma length_two_2 n : 0 <= n < 100 -> length (two n) = 2%nat.
Proof.
  intros Hn. unfold two. rewrite length_app, to_string_dec by lia. destruct (Z.ltb_spec n 10).
  - cbn [dec_loop]. by rewrite (proj2 (Z.ltb_lt n 10)).
  - rewrite (length_dec_loop 1) by (lia || (simpl; lia)). done.
Qed.

(** Nineteen characters, as long as the year has four digits. *)
Lemma length_get_date_time dt :
  normal dt -> 1000 <= year (date_ dt) <= 9999 -> length (get_date_time dt) = 19%nat.
Proof.
  intros Hn Hy. pose proof (normal_bounds dt Hn) as (Hm & Hd & Hh & Hmi & Hs). rewrite get_date_time_text.
  repeat (rewrite ?length_app; cbn [length]). rewrite !length_two_2 by lia.
  rewrite to_string_dec, (length_dec_loop 3) by (lia || (simpl; lia)). lia.
Qed.

Lemma length_file_header now ttl headers :
  normal now -> 1000 <= year (date_ now) <= 9999 ->
  zlen (file_header now ttl headers) = 20 + zlen (to_string ttl) + zlen (mjoin headers).
Proof.
  intros. unfold file_header. rewrite !length_app, length_get_date_time by done. simpl. lia.
Qed.

Lemma starts_with_app path name : starts_with (path ++ name) path = true.
Proof.
  unfold starts_with. rewrite length_app, take_app_length, bool_decide_true by done.
  by rewrite (proj2 (Nat.leb_le _ _)) by lia.
Qed.

Lemma wrap_I32_U64 a b : wrap I32 (a + wrap U64 b) = wrap I32 (a + b).
Proof.
  apply wrap_congr. rewrite Zplus_mod, (Zplus_mod a b). f_equal. f_equal.
  change (2 ^ bits I32) with (2 ^ 32). pose proof (wrap_mod U64 b) as E. change (2 ^ bits U64) with (2 ^ 32 * 2 ^ 32) in E.
  rewrite <- (Z.mod_mod_divide (wrap U64 b) (2 ^ 32 * 2 ^ 32) (2 ^ 32)), E by (by exists (2 ^ 32)).
  apply Z.mod_mod_divide. by exists (2 ^ 32).
Qed.

(** What the file becomes: removed for an empty content, else the header and the content. *)
Definition written (now : date_time) (ttl : Z) (headers : list bytes) (content : bytes) : option bytes :=
  match content with [] => None | _ => Some (file_header now ttl headers ++ content) end.

Section accounting.
Context (opens : bytes -> bool) (now : date_time) (path file_name : bytes) (blk : Z).
Context (Hopen : opens (path ++ file_name) = true) (Hb : block_ok blk).
Context (Hnow : normal now) (Hyear : 1000 <= year (date_ now) <= 9999).

Lemma write_file_spec (content : bytes) (size ttl : Z) (headers : list bytes) (f : fs) :
  (forall c, f !! (path ++ file_name) = Some c -> file_ok blk c) ->
  (forall c, written now ttl headers content = Some c -> file_ok blk c) ->
  write_file_to_disk opens now path file_name content size ttl blk headers true f =
    (true, wrap I32 (size + (taken blk (written now ttl headers content) - taken blk (f !! (path ++ file_name)))),
     partial_alter (fun _ => written now ttl headers content) (path ++ file_name) f).
Proof.
  intros Hold Hnew. unfold write_file_to_disk. rewrite (account_file blk f) by done.
  destruct content as [|b content]; simpl written in *.
  - by rewrite wrap_I32_U64.
  - rewrite Hopen. destruct (Hnew _ eq_refl) as [H1 H2]. rewrite length_app, Nat2Z.inj_add, length_file_header in H1, H2 by done.
    replace (zlen (b :: content) + (20 + zlen (to_string ttl)) + zlen (mjoin headers))
      with (zlen (file_header now ttl headers ++ b :: content))
      by (rewrite length_app, Nat2Z.inj_add, length_file_header by done; lia).
    rewrite account_present; [|done| |]; [|rewrite length_app, Nat2Z.inj_add, length_file_header by done; lia..].
    rewrite wrap_I32_U64. done.
Qed.

Lemma used_write (f : fs) (o : option bytes) :
  used path blk (partial_alter (fun _ => o) (path ++ file_name) f) =
    used path blk f + (taken blk o - taken blk (f !! (path ++ file_name))).
Proof.
  destruct o as [c|].
  - change (partial_alter (fun _ => Some c) (path ++ file_name) f) with (<[path ++ file_name := c]> f).
    rewrite used_insert by apply starts_with_app. simpl. lia.
  - change (partial_alter (fun _ => None) (path ++ file_name) f) with (delete (path ++ file_name) f).
    rewrite used_delete by apply starts_with_app. simpl. lia.
Qed.
End accounting.

(** C38: [write_file_to_disk] writes the header and the content (or removes the file when there
    is no content), leaves every other file alone, and adds to [size] exactly the change of the
    blocks that the files of the directory take: on a missing file, too, where the size -1 of
    [tellg] becomes zero blocks for every block size that is a power of two up to 2^31. *)
Theorem write_file_accounts (opens : bytes -> bool) (now : date_time) (path file_name : bytes) (blk : Z) (content : bytes) (size ttl : Z) (headers : list bytes) (f : fs) :
  opens (path ++ file_name) = true -> block_ok blk -> normal now -> 1000 <= year (date_ now) <= 9999 ->
  (forall c, f !! (path ++ file_name) = Some c -> file_ok blk c) ->
  (forall c, written now ttl headers content = Some c -> file_ok blk c) ->
  let '(ok, size', f') := write_file_to_disk opens now path file_name content size ttl blk headers true f in
  ok = true /\ f' !! (path ++ file_name) = written now ttl headers content /\
  (forall n, n <> path ++ file_name -> f' !! n = f !! n) /\
  (in_range I32 (size + (used path blk f' - used path blk f)) ->
   size' = size + (used path blk f' - used path blk f)).
Proof.
  intros Ho Hb Hn Hy Hold Hnew. rewrite write_file_spec by done.
  split; [done|]. split; [apply lookup_partial_alter_eq|]. split; [intros; by apply lookup_partial_alter_ne|].
  rewrite used_write. intros Hr. rewrite wrap_id; [lia|]. revert Hr. replace (used path blk f +
    (taken blk (written now ttl headers content) - taken blk (f !! (path ++ file_name))) - used path blk f)
    with (taken blk (written now ttl headers content) - taken blk (f !! (path ++ file_name))) by lia. done.
Qed.

Lemma write_file_accounts_witness :
  let '(ok, size', f') := write_file_to_disk (fun _ => true) example_dt (lit "/d/") (lit "7/a") (lit "xyz") 0 5 4096 [lit "00"] true ∅ in
  ok = true /\ f' !! (lit "/d/" ++ lit "7/a") = written example_dt 5 [lit "00"] (lit "xyz") /\
  (forall n, n <> lit "/d/" ++ lit "7/a" -> f' !! n = (∅ : fs) !! n) /\
  (in_range I32 (0 + (used (lit "/d/") 4096 f' - used (lit "/d/") 4096 ∅)) ->
   size' = 0 + (used (lit "/d/") 4096 f' - used (lit "/d/") 4096 ∅)).
Proof.
  apply (write_file_accounts (fun _ => true) example_dt (lit "/d/") (lit "7/a") 4096 (lit "xyz") 0 5 [lit "00"] ∅).
  - reflexivity.
  - exists 12. split; [lia|reflexivity].
  - unfold normal, date_normal, time_normal. simpl. change (count_days_in_month 12 2023) with 31. lia.
  - simpl; lia.
  - intros c Hc. by rewrite lookup_empty in Hc.
  - intros c [= <-]. vm_compute. split; reflexivity.
Defined.
