(* ===== verification/Framing.v ===== *)
(** * Messages on a connection ([libs/network/epoll_v2.cpp], [libs/network/tcp_client.cpp])

    A message is sent between two delimiters.  The server takes the bytes of a connection
    apart with an automaton that remembers how much of a delimiter it has seen
    ([process_read2]); the client collects the bytes and searches ([read_bytes]).  Both give the
    messages that the text splits into at its delimiters, however the bytes are cut into
    packets.  The queue of what a server still has to write is modelled with its partial
    writes: nothing is lost, doubled or reordered. *)

From S2P Require Import Prelude.
From Stdlib Require Import ZArith Lia Strings.Byte.
From stdpp Require Import base gmap strings numbers list.
Open Scope Z_scope.

(** ** The code *)

(** *** The server reads: [process_read2] *)

Record message_helper := MessageHelper { message : bytes; del_message : bytes; seek_delimeter : Z }.

Definition helper_clear : message_helper := MessageHelper [] [] (-1).

(** A character of the delimiter has come. *)
Definition del_push (ch : byte) (m : message_helper) : message_helper :=
  MessageHelper (message m) (del_message m ++ [ch]) (seek_delimeter m + 1).

(** [operator[]] of a string. *)
Definition char_at (det_string : bytes) (i : Z) : byte := default x00 (det_string !! Z.to_nat i).

(** The inner loop, up to its [break]: what is left of the buffer, and the new state. *)
Fixpoint scan (det_string : bytes) (del_char : byte) (buf : bytes) (m : message_helper) : bytes * message_helper :=
  match buf with
  | [] => ([], m)
  | ch :: buf' =>
      if bool_decide (ch = del_char) then (buf', del_push ch m)
      else
        let '(m, del_char) :=
          match del_message m with
          | [] => (m, del_char)
          | _ :: _ => (MessageHelper (message m ++ del_message m) [] (-1), char_at det_string 0)
          end in
        if bool_decide (ch = del_char) then (buf', del_push ch m)
        else scan det_string del_char buf' (MessageHelper (message m ++ [ch]) (del_message m) (seek_delimeter m))
  end.

(** [f_add_message]. *)
Definition add_message (m : message_helper) (ret : list bytes) : list bytes * message_helper :=
  (match message m with [] => ret | _ :: _ => ret ++ [message m] end, helper_clear).

(** The outer loop. *)
Fixpoint process_read2_loop (fuel : nat) (det_string buf : bytes) (m : message_helper) (ret : list bytes) :
    option (list bytes * message_helper) :=
  match fuel with
  | O => None
  | S fuel' =>
      match buf with
      | [] => Some (ret, m)
      | _ :: _ =>
          let delimeter_pos := seek_delimeter m + 1 in
          if delimeter_pos <? zlen det_string then
            let '(buf, m) := scan det_string (char_at det_string delimeter_pos) buf m in
            let '(ret, m) :=
              match buf with
              | [] => if zlen det_string <=? seek_delimeter m + 1 then add_message m ret else (ret, m)
              | _ :: _ => (ret, m)
              end in
            process_read2_loop fuel' det_string buf m ret
          else
            let '(ret, m) := add_message m ret in process_read2_loop fuel' det_string buf m ret
      end
  end.

(** Two iterations per byte are enough. *)
Definition process_read2 (det_string buf : bytes) (m : message_helper) : option (list bytes * message_helper) :=
  process_read2_loop (2 * length buf + 1) det_string buf m [].

(** *** The client reads: [read_bytes] *)

(** The two thread-local variables [m] and [s]. *)
Record reader := Reader { r_m : bytes; r_s : nat }.

(** [check]: whether a delimiter was found, the message that [pr] gets, the new state. *)
Definition check (det_string : bytes) (st : reader) : bool * list bytes * reader :=
  match str_find_at det_string (r_m st) (r_s st) with
  | Some f_del =>
      if (f_del =? 0)%nat then (true, [], Reader (drop (length det_string) (r_m st)) 0)
      else if (f_del + length det_string =? length (r_m st))%nat then
        (true, [take f_del (r_m st) ++ drop (f_del + length det_string) (r_m st)], Reader [] 0)
      else (true, [take f_del (r_m st)], Reader (drop (f_del + length det_string) (r_m st)) 0)
  | None =>
      (false, [], Reader (r_m st)
        (if (length det_string <? length (r_m st))%nat then length (r_m st) - length det_string else r_s st)%nat)
  end.

Fixpoint check_loop (fuel : nat) (det_string : bytes) (st : reader) (ret : list bytes) : option (list bytes * reader) :=
  match fuel with
  | O => None
  | S fuel' =>
      let '(again, msgs, st) := check det_string st in
      if (again : bool) then check_loop fuel' det_string st (ret ++ msgs) else Some (ret ++ msgs, st)
  end.

Definition read_bytes (det_string buffer : bytes) (st : reader) : option (list bytes * reader) :=
  let m := r_m st ++ buffer in
  check_loop (length m + 1) det_string (Reader m (r_s st)) [].

(** *** The client writes: the text of [send] *)

Definition send_text (det_string msg : bytes) : bytes := det_string ++ msg ++ det_string.

(** *** The server writes *)

Record m_write := MWrite { t_size_send : nat; msg : bytes; is_on_waiting_epollout : bool }.

(** [push_message_impl]. *)
Definition push_message (det_string s : bytes) (wr : list m_write) : list m_write :=
  wr ++ [MWrite 0 det_string false; MWrite 0 s false; MWrite 0 det_string false].

Definition mega : nat := 1024 * 1024.

(** The loop over the short messages: what they join to and how many they are. *)
Fixpoint short_messages (msgs : list m_write) (one : bytes) (remove_i : nat) : bytes * nat :=
  match msgs with
  | [] => (one, remove_i)
  | w :: msgs' =>
      if negb (t_size_send w =? 0)%nat then (one, remove_i)
      else if (length (msg w) <? mega)%nat && (length one <? mega)%nat then short_messages msgs' (one ++ msg w) (S remove_i)
      else (one, remove_i)
  end.

Definition join_short (msgs : list m_write) : list m_write :=
  let '(one, remove_i) := short_messages msgs [] 0 in
  if (1 <? remove_i)%nat then MWrite 0 one false :: drop remove_i msgs else msgs.

(** What [::send] can answer. *)
Inductive send_result := Wrote (n : nat) | WouldBlock | SendError.

(** The work of the thread: every branch of its loop leaves it.  [None] removes the
    connection; otherwise the bytes that went out and what goes back to the queue. *)
Definition send_one (r : send_result) (w : m_write) : option (bytes * option m_write) :=
  match msg w with
  | [] => Some ([], None)
  | _ :: _ =>
      match r with
      | SendError | Wrote 0 => None
      | WouldBlock => Some ([], Some (MWrite (t_size_send w) (msg w) true))
      | Wrote n =>
          let out := take n (drop (t_size_send w) (msg w)) in
          let t := (t_size_send w + n)%nat in
          if (t =? length (msg w))%nat then Some (out, None)
          else if (t <? length (msg w))%nat then Some (out, Some (MWrite t (msg w) true))
          else None
      end
  end.

(** ** What a text splits into *)

(** The messages of a text, cut at the first delimiter and on from there, and what is left. *)
Definition emit (m : bytes) : list bytes := match m with [] => [] | _ :: _ => [m] end.

Inductive cut (d : bytes) : bytes -> list bytes -> bytes -> Prop :=
  | cut_none s : str_find d s = None -> cut d s [] s
  | cut_some s i ms r : str_find d s = Some i -> cut d (drop (i + length d) s) ms r -> cut d s (emit (take i s) ++ ms) r.

Lemma cut_unique d s ms r : cut d s ms r -> forall ms' r', cut d s ms' r' -> ms' = ms /\ r' = r.
Proof.
  induction 1 as [s E|s i ms r E H IH]; intros ms' r'; inversion 1; subst; try congruence; [done|].
  assert (i0 = i) as -> by congruence. destruct (IH _ _ ltac:(eassumption)) as [-> ->]. done.
Qed.

Lemma cut_rest d s ms r : cut d s ms r -> str_find d r = None.
Proof. by induction 1. Qed.

(** Splitting what was left together with what comes next continues the splitting. *)
Lemma cut_app d s ms1 r1 t ms2 r2 : cut d s ms1 r1 -> cut d (r1 ++ t) ms2 r2 -> cut d (s ++ t) (ms1 ++ ms2) r2.
Proof.
  induction 1 as [s E|s i ms r E H IH]; intros H2; [done|]. rewrite <- app_assoc. pose proof (str_find_bound _ _ _ E).
  replace (take i s) with (take i (s ++ t)) by (rewrite take_app_le by lia; done).
  apply cut_some; [by apply str_find_more|]. rewrite drop_app_le by lia. by apply IH.
Qed.

Lemma cut_one d u : d <> [] -> str_find d (u ++ d) = Some (length u) -> cut d (u ++ d) (emit u) [].
Proof.
  intros Hd E. rewrite <- (app_nil_r (emit u)). rewrite <- (take_app_length u d) at 2. apply cut_some; [done|].
  rewrite drop_ge by (rewrite length_app; lia). apply cut_none. destruct d; [done|]. done.
Qed.

(** A message that can be sent: a delimiter neither is in it nor begins in it. *)
Definition sendable (d m : bytes) : Prop := m <> [] /\ str_find d (m ++ take (length d - 1) d) = None.

Lemma cut_frame d m : d <> [] -> sendable d m -> cut d (send_text d m) [m] [].
Proof.
  intros Hd [Hm Hs]. unfold send_text.
  assert (H1 : cut d d [] []).
  { pose proof (cut_one d [] Hd) as H. cbn [app emit] in H. apply H. destruct d; [done|]. cbn [str_find].
    by rewrite (proj2 (is_prefix_spec _ _)) by (exists []; by rewrite app_nil_r). }
  assert (H2 : cut d (m ++ d) [m] []).
  { destruct m as [|b m]; [done|]. apply (cut_one d (b :: m) Hd), str_find_last; done. }
  exact (cut_app d d [] [] (m ++ d) [m] [] H1 H2).
Qed.

(** The text of several messages splits into them. *)
Lemma cut_frames d ms : d <> [] -> Forall (sendable d) ms -> cut d (mjoin (send_text d <$> ms)) ms [].
Proof.
  intros Hd. induction 1 as [|m ms Hm H IH]; [apply cut_none; by destruct d|].
  rewrite join_fmap_cons. exact (cut_app d _ [m] [] _ ms [] (cut_frame d m Hd Hm) IH).
Qed.

(** A text splits. *)
Lemma cut_total d s : d <> [] -> exists ms r, cut d s ms r.
Proof.
  intros Hd. remember (length s) as n eqn:Hn. revert s Hn. induction (lt_wf n) as [n _ IH]. intros s ->. destruct (str_find d s) as [i|] eqn:E.
  - pose proof (str_find_bound _ _ _ E). assert (0 < length d)%nat by (destruct d; [done|simpl; lia]).
    destruct (IH (length (drop (i + length d) s)) ltac:(rewrite length_drop; lia) _ eq_refl) as (ms & r & Hc).
    eexists _, _. by eapply cut_some.
  - exists [], s. by apply cut_none.
Qed.

(** A beginning of a text splits into a beginning of its messages. *)
Lemma cut_prefix d s t ms : d <> [] -> cut d (s ++ t) ms [] -> exists ms1 r ms2, cut d s ms1 r /\ ms = ms1 ++ ms2.
Proof.
  intros Hd H. destruct (cut_total d s Hd) as (ms1 & r1 & H1). destruct (cut_total d (r1 ++ t) Hd) as (ms2 & r2 & H2).
  pose proof (cut_app _ _ _ _ _ _ _ H1 H2) as H3. destruct (cut_unique _ _ _ _ H _ _ H3) as [<- _]. eauto.
Qed.

(** ** The automaton of the server *)

Section server_reader.
Context (d0 : byte) (ds : bytes) (Hd0 : d0 ∉ ds).
Abbreviation d := (d0 :: ds).

(** [k] characters of a delimiter have come after the text [u]; no longer beginning of a
    delimiter ends the text, and there is no delimiter in it. *)
Definition state (u : bytes) (k : nat) : message_helper := MessageHelper u (take k d) (Z.of_nat k - 1).

Record opened (u : bytes) (k : nat) : Prop := {
  op_k : (k < length d)%nat;
  op_none : str_find d (u ++ take k d) = None;
  op_max : forall j v, (k < j < length d)%nat -> u ++ take k d <> v ++ take j d }.

Lemma take_S_d k c : d !! k = Some c -> take (S k) d = take k d ++ [c].
Proof. intros H. by apply take_S_r. Qed.

(** An occurrence of a delimiter that a character completes ends with it. *)
Lemma find_snoc r ch : str_find d r = None -> (forall v, r ++ [ch] <> v ++ d) -> str_find d (r ++ [ch]) = None.
Proof.
  intros Hr Hv. apply str_find_None. intros u v E. destruct v as [|c v _] using rev_ind; [by apply (Hv u); rewrite E, app_nil_r|].
  rewrite !app_assoc in E. apply app_inj_tail in E as [-> _]. rewrite <- !app_assoc in Hr.
  by apply (proj1 (str_find_None _ _) Hr u v).
Qed.

Lemma clear_opened : opened [] 0.
Proof. split; [simpl; lia|done|]. intros j v Hj E. apply (f_equal length) in E. cbn in Hj. cbn [app take length] in E. rewrite length_app, length_take in E. cbn [length] in E. lia. Qed.

(** A character that continues the delimiter. *)
Lemma opened_next u k ch : opened u k -> d !! k = Some ch -> (S k < length d)%nat -> opened u (S k).
Proof.
  intros [Hk Hn Hm] Hc Hs. split; [done| |].
  - rewrite (take_S_d k ch) by done. rewrite app_assoc. apply find_snoc; [done|]. intros v E.
    assert (Hl : exists c, drop (length d - 1) d = [c]).
    { destruct (drop (length d - 1) d) as [|c [|c' l]] eqn:Ed; apply (f_equal length) in Ed; rewrite length_drop in Ed; simpl in Ed; try lia. by exists c. }
    destruct Hl as [c Hl]. replace (v ++ d) with ((v ++ take (length d - 1) d) ++ [c]) in E
      by (rewrite <- app_assoc, <- Hl; by rewrite take_drop). apply app_inj_tail in E as [E _].
    by apply (Hm (length d - 1)%nat v); [lia|].
  - intros j v Hj E. rewrite (take_S_d k ch) in E by done. destruct j as [|j]; [lia|].
    destruct (lookup_lt_is_Some_2 d j) as [c Hcj]; [lia|]. rewrite (take_S_d j c), !app_assoc in E by done.
    apply app_inj_tail in E as [E _]. by apply (Hm j v); [lia|].
Qed.

Lemma full_next u k ch : opened u k -> d !! k = Some ch -> S k = length d -> str_find d (u ++ d) = Some (length u).
Proof.
  intros [Hk Hn Hm] Hc Hs. apply str_find_last; [done|]. replace (length d - 1)%nat with k by lia. done.
Qed.

(** The delimiter does not begin again inside of itself. *)
Lemma no_overlap k j v : (1 <= j < k)%nat -> (k < length d)%nat -> take k d <> v ++ take j d.
Proof.
  intros Hj Hk E. assert (Hv : length v = (k - j)%nat).
  { apply (f_equal length) in E. rewrite length_app, !length_take in E. lia. }
  assert (Hx : take k d !! (k - j)%nat = Some d0).
  { rewrite E, lookup_app_r, Hv, Nat.sub_diag by lia. destruct j; [lia|done]. }
  apply lookup_take_Some in Hx as [Hx _]. replace (k - j)%nat with (S (k - j - 1)) in Hx by lia. cbn [lookup list_lookup] in Hx.
  apply Hd0. by eapply list_elem_of_lookup_2.
Qed.

(** What can end the text after a character that does not continue the delimiter. *)
Lemma mismatch u k ch j v : opened u k -> d !! k <> Some ch -> (0 < j <= length d)%nat -> (u ++ take k d) ++ [ch] = v ++ take j d ->
  j = 1%nat /\ ch = d0 /\ (0 < k)%nat.
Proof.
  intros [Hk Hn Hm] Hc Hj E. destruct j as [|j]; [lia|]. destruct (lookup_lt_is_Some_2 d j) as [c Hcj]; [lia|].
  rewrite (take_S_d j c), !app_assoc in E by done. apply app_inj_tail in E as [E ->].
  destruct (Nat.lt_trichotomy j k) as [Hlt|[->|Hgt]]; [|done|exfalso; by apply (Hm j v); [lia|]].
  destruct j as [|j].
  - split; [done|]. split; [cbn in Hcj; congruence|lia].
  - exfalso. apply (no_overlap k (S j) (drop (length u) v)); [lia|done|].
    apply (f_equal (drop (length u))) in E as E'. rewrite drop_app_length in E'. rewrite E'.
    apply drop_app_le. apply (f_equal length) in E. rewrite !length_app, !length_take in E. lia.
Qed.

Lemma opened_restart u k : opened u k -> d !! k <> Some d0 -> opened (u ++ take k d) 1.
Proof.
  intros Ho Hc. assert (Hk : (0 < k)%nat) by (destruct k; [done|lia]). pose proof (op_k _ _ Ho) as Hk'.
  split; [lia| |]; cbn [take]; rewrite take_0.
  - apply find_snoc; [apply Ho|]. intros v E. assert (E' : (u ++ take k d) ++ [d0] = v ++ take (length d) d) by (by rewrite firstn_all).
    destruct (mismatch u k d0 (length d) v Ho Hc ltac:(lia) E') as [Hl _]. lia.
  - intros j v Hj E. destruct (mismatch _ _ _ _ _ Ho Hc (conj (ltac:(lia) : (0 < j)%nat) (ltac:(lia) : (j <= length d)%nat)) E). lia.
Qed.

Lemma opened_text u k ch : opened u k -> d !! k <> Some ch -> ~ (ch = d0 /\ (0 < k)%nat) -> opened ((u ++ take k d) ++ [ch]) 0.
Proof.
  intros Ho Hc Hn. assert (Hx : forall j v, (0 < j <= length d)%nat -> (u ++ take k d) ++ [ch] <> v ++ take j d).
  { intros j v Hj E. destruct (mismatch _ _ _ _ _ Ho Hc Hj E) as (_ & ? & ?). by apply Hn. }
  split; [simpl; lia| |]; rewrite take_0, app_nil_r.
  - apply find_snoc; [apply Ho|]. intros v E. apply (Hx (length d) v); [simpl; lia|]. by rewrite firstn_all.
  - intros j v Hj. apply Hx. lia.
Qed.

(** The states of the code: after a scan the delimiter may be complete. *)
Inductive scanned (r : bytes) : message_helper -> Prop :=
  | scanned_open u k : opened u k -> r = u ++ take k d -> scanned r (state u k)
  | scanned_full u : str_find d (u ++ d) = Some (length u) -> r = u ++ d -> scanned r (state u (length d)).

Lemma del_push_state u k ch : d !! k = Some ch -> del_push ch (state u k) = state u (S k).
Proof.
  intros H. unfold del_push, state. cbn [message del_message seek_delimeter]. rewrite (take_S_d k ch) by done. f_equal. lia.
Qed.

Lemma char_at_d k : (k < length d)%nat -> d !! k = Some (char_at d (Z.of_nat k)).
Proof. intros Hk. unfold char_at. rewrite Nat2Z.id. by destruct (lookup_lt_is_Some_2 d k Hk) as [c ->]. Qed.

Lemma scan_spec buf : forall u k, opened u k ->
  exists used rest m, buf = used ++ rest /\ (buf <> [] -> used <> []) /\
    scan d (char_at d (Z.of_nat k)) buf (state u k) = (rest, m) /\ scanned ((u ++ take k d) ++ used) m.
Proof.
  induction buf as [|ch buf IH]; intros u k Ho.
  - exists [], [], (state u k). split_and!; [done|done|done|]. rewrite app_nil_r. by apply scanned_open.
  - pose proof (op_k _ _ Ho) as Hk. pose proof (char_at_d k Hk) as Hc. cbn [scan]. destruct (bool_decide_reflect (ch = char_at d (Z.of_nat k))) as [->|Hne].
    { exists [char_at d (Z.of_nat k)], buf, (state u (S k)). split_and!; [done|done|by rewrite (del_push_state u k)|].
      rewrite <- app_assoc, <- (take_S_d k) by done. destruct (decide (S k = length d)) as [E|E].
      - rewrite E, firstn_all. apply scanned_full; [|done]. by eapply full_next.
      - apply scanned_open; [|done]. eapply opened_next; [done|done|lia]. }
    assert (Hck : d !! k <> Some ch) by congruence. cbn [state del_message message seek_delimeter].
    assert (Hflush : (match take k d with
      | [] => (state u k, char_at d (Z.of_nat k))
      | _ :: _ => (MessageHelper (u ++ take k d) [] (-1), char_at d 0) end) = (state (u ++ take k d) 0, d0)).
    { destruct k as [|k]; [|done]. cbn [take]. unfold state. rewrite app_nil_r. done. }
    change (MessageHelper u (take k d) (Z.of_nat k - 1)) with (state u k). rewrite Hflush.
    destruct (bool_decide_reflect (ch = d0)) as [->|Hne0].
    + exists [d0], buf, (state (u ++ take k d) 1). split_and!; [done|done|done|].
      apply scanned_open; [by apply opened_restart|done].
    + destruct (IH ((u ++ take k d) ++ [ch]) 0%nat) as (used & rest & m & -> & _ & E & Hm).
      { apply opened_text; [done|done|]. by intros [? _]. }
      exists (ch :: used), rest, m. split_and!; [done|done| |].
      * cbn [state message del_message seek_delimeter take]. exact E.
      * rewrite take_0, app_nil_r, <- app_assoc in Hm. exact Hm.
Qed.

Lemma add_state u k ret : add_message (state u k) ret = (ret ++ emit u, state [] 0).
Proof. unfold add_message. cbn [state message]. by destruct u; [rewrite app_nil_r|]. Qed.

Lemma loop_spec fuel : forall buf r m ret, scanned r m -> (2 * length buf + 1 <= fuel)%nat ->
  (match m with MessageHelper _ _ k => k + 1 < zlen d \/ (buf <> [] /\ 2 * length buf + 2 <= fuel)%nat end) ->
  exists ms u k, process_read2_loop fuel d buf m ret = Some (ret ++ ms, state u k) /\ opened u k /\ cut d (r ++ buf) ms (u ++ take k d).
Proof.
  induction fuel as [|fuel IH]; intros buf r m ret Hm Hf Hk; [lia|]. cbn [process_read2_loop]. destruct Hm as [u k Ho ->|u Hu ->].
  - destruct buf as [|b buf].
    { exists [], u, k. rewrite !app_nil_r. split; [done|]. split; [done|]. apply cut_none, Ho. }
    cbn [state seek_delimeter] in *. replace (Z.of_nat k - 1 + 1) with (Z.of_nat k) by lia.
    pose proof (op_k _ _ Ho) as Hkl. rewrite (proj2 (Z.ltb_lt _ _)) by lia.
    change (MessageHelper u (take k d) (Z.of_nat k - 1)) with (state u k).
    destruct (scan_spec (b :: buf) u k Ho) as (used & rest & m & Eb & Hused & Es & Hm). rewrite Es, Eb.
    assert (Hl : (length rest < length (b :: buf))%nat).
    { rewrite Eb, length_app. destruct used; [by destruct (Hused ltac:(done))|simpl; lia]. }
    rewrite app_assoc. destruct rest as [|c rest].
    + rewrite app_nil_r. destruct Hm as [u' k' Ho' E'|u' Hu' E'].
      * cbn [state seek_delimeter]. pose proof (op_k _ _ Ho'). replace (Z.of_nat k' - 1 + 1) with (Z.of_nat k') by lia.
        destruct (Z.leb_spec (zlen d) (Z.of_nat k')); [lia|]. change (MessageHelper u' (take k' d) (Z.of_nat k' - 1)) with (state u' k').
        destruct fuel; [simpl in Hl, Hf; lia|]. exists [], u', k'. rewrite app_nil_r. split; [done|]. split; [done|].
        rewrite E'. apply cut_none, Ho'.
      * cbn [state seek_delimeter]. replace (zlen d - 1 + 1) with (zlen d) by lia. rewrite Z.leb_refl.
        change (MessageHelper u' (take (length d) d) (zlen d - 1)) with (state u' (length d)). rewrite add_state.
        destruct fuel; [simpl in Hl, Hf; lia|]. exists (emit u'), [], 0%nat. split; [done|]. split; [apply clear_opened|].
        rewrite E'. by apply cut_one.
    + destruct (IH (c :: rest) _ m ret Hm) as (ms & u' & k' & E1 & Ho' & Hc'); [lia| |by exists ms, u', k'].
      destruct m as [? ? sk]. right. split; [done|]. cbn [length] in Hl, Hf |- *. lia.
  - cbn [state seek_delimeter] in Hk. destruct Hk as [Hk|[Hb Hf']]; [lia|]. destruct buf as [|b buf]; [done|].
    cbn [state seek_delimeter]. replace (zlen d - 1 + 1) with (zlen d) by lia. rewrite Z.ltb_irrefl.
    change (MessageHelper u (take (length d) d) (zlen d - 1)) with (state u (length d)). rewrite add_state.
    destruct (IH (b :: buf) [] (state [] 0) (ret ++ emit u)) as (ms & u' & k' & E1 & Ho' & Hc').
    + apply scanned_open; [apply clear_opened|done].
    + lia.
    + left. simpl. lia.
    + exists (emit u ++ ms), u', k'. rewrite E1, <- app_assoc. split; [done|]. split; [done|].
      eapply cut_app; [by apply cut_one|exact Hc'].
Qed.

(** One packet. *)
Lemma process_read2_cut buf u k : opened u k ->
  exists ms u' k', process_read2 d buf (state u k) = Some (ms, state u' k') /\ opened u' k' /\
    cut d ((u ++ take k d) ++ buf) ms (u' ++ take k' d).
Proof.
  intros Ho. destruct (loop_spec (2 * length buf + 1) buf (u ++ take k d) (state u k) []) as (ms & u' & k' & E & Ho' & Hc).
  - by apply scanned_open.
  - lia.
  - left. cbn [state]. pose proof (op_k _ _ Ho). lia.
  - exists ms, u', k'. done.
Qed.
End server_reader.

(** Several packets. *)
Fixpoint process_reads (det_string : bytes) (bufs : list bytes) (m : message_helper) : option (list bytes * message_helper) :=
  match bufs with
  | [] => Some ([], m)
  | buf :: bufs =>
      '(ms, m) ← process_read2 det_string buf m;
      '(ms', m) ← process_reads det_string bufs m;
      Some (ms ++ ms', m)
  end.

Lemma process_reads_cut d0 ds bufs : d0 ∉ ds -> forall u k, opened d0 ds u k ->
  exists ms u' k', process_reads (d0 :: ds) bufs (state d0 ds u k) = Some (ms, state d0 ds u' k') /\
    cut (d0 :: ds) ((u ++ take k (d0 :: ds)) ++ mjoin bufs) ms (u' ++ take k' (d0 :: ds)).
Proof.
  intros Hd0. induction bufs as [|buf bufs IH]; intros u k Ho.
  - exists [], u, k. split; [done|]. cbn [mjoin list_join]. rewrite app_nil_r. apply cut_none, Ho.
  - destruct (process_read2_cut d0 ds Hd0 buf u k Ho) as (ms & u1 & k1 & E1 & Ho1 & Hc1).
    destruct (IH u1 k1 Ho1) as (ms' & u2 & k2 & E2 & Hc2). exists (ms ++ ms'), u2, k2. split.
    + cbn [process_reads]. rewrite E1. cbn [mbind option_bind]. rewrite E2. done.
    + rewrite join_cons, app_assoc. by eapply cut_app.
Qed.

(** the server takes the bytes of a connection apart at the delimiters.  For a delimiter
    whose first character does not occur again in it, the automaton of [process_read2] gives,
    over any sequence of packets, exactly the messages that the whole text splits into at the
    first occurrences of the delimiter, the empty ones left out, and keeps the rest.  The two
    iterations per byte always suffice. *)
Theorem process_read2_splits (d0 : byte) (ds : bytes) (bufs : list bytes) :
  d0 ∉ ds ->
  exists ms m rest, process_reads (d0 :: ds) bufs helper_clear = Some (ms, m) /\ rest = message m ++ del_message m /\
    cut (d0 :: ds) (mjoin bufs) ms rest.
Proof.
  intros Hd0. destruct (process_reads_cut d0 ds bufs Hd0 [] 0%nat) as (ms & u & k & E & Hc); [apply clear_opened|].
  by exists ms, (state d0 ds u k), (u ++ take k (d0 :: ds)).
Qed.

Lemma process_read2_splits_witness :
  exists ms m rest, process_reads (lit "#!") [lit "#!ab#"; lit "!#"; lit "!c##d#!e"] helper_clear = Some (ms, m) /\
    rest = message m ++ del_message m /\ cut (lit "#!") (mjoin [lit "#!ab#"; lit "!#"; lit "!c##d#!e"]) ms rest.
Proof. apply (process_read2_splits x23 [x21] [lit "#!ab#"; lit "!#"; lit "!c##d#!e"]). by apply (bool_decide_unpack _). Defined.

Example process_reads_check :
  process_reads (lit "#!") [lit "#!ab#"; lit "!#"; lit "!c##d#!e"] helper_clear =
    Some ([lit "ab"; lit "c##d"], MessageHelper (lit "e") [] (-1)).
Proof. by vm_compute. Qed.

(** The condition on the delimiter is needed: after the beginning of a delimiter the automaton
    does not look for another one inside of it. *)
Example overlapping_delimiter_missed :
  process_reads (lit "##!") [lit "a###!"] helper_clear = Some ([], MessageHelper (lit "a###!") [] (-1)) /\
  str_find (lit "##!") (lit "a###!") = Some 2%nat.
Proof. by vm_compute. Qed.

(** ** The reader of the client *)

Section client_reader.
Context (d : bytes) (Hd : d <> []).

(** No delimiter begins before the position from which the next search starts. *)
Definition searched (m : bytes) (s : nat) : Prop := forall u v, m = u ++ d ++ v -> (s <= length u)%nat.

Lemma str_find_skip p u w : (forall k, (k < length u)%nat -> is_prefix p (drop k u ++ w) = false) ->
  str_find p (u ++ w) = (fun i => length u + i)%nat <$> str_find p w.
Proof.
  induction u as [|b u IH]; intros H.
  - cbn [app length]. by destruct (str_find p w).
  - cbn [app str_find]. pose proof (H 0%nat ltac:(simpl; lia)) as H0. cbn [drop app] in H0. rewrite H0. rewrite IH by (intros k Hk; apply (H (S k)); simpl; lia).
    by destruct (str_find p w).
Qed.

Lemma find_searched m s : searched m s -> (s <= length m)%nat -> str_find_at d m s = str_find d m.
Proof.
  intros Hs Hl. unfold str_find_at. destruct (Nat.ltb_spec (length m) s); [lia|].
  rewrite <- (take_drop s m) at 2. rewrite str_find_skip.
  - by rewrite length_take_le.
  - intros k Hk. rewrite length_take_le in Hk by done. destruct (is_prefix d (drop k (take s m) ++ drop s m)) eqn:E; [|done]. exfalso.
    apply is_prefix_spec in E as [v Hv]. specialize (Hs (take k m) v). rewrite length_take_le in Hs by lia.
    enough (s <= k)%nat by lia. apply Hs. rewrite <- (take_drop s m) at 1. rewrite <- Hv, app_assoc. f_equal.
    rewrite <- (take_drop k (take s m)) at 1. by rewrite take_take, Nat.min_l by lia.
Qed.

Record reader_ok (st : reader) : Prop := {
  rd_none : str_find d (r_m st) = None;
  rd_pos : r_s st = 0%nat \/ (r_s st + length d <= length (r_m st))%nat }.

Lemma reader_searched st buf : reader_ok st -> searched (r_m st ++ buf) (r_s st) /\ (r_s st <= length (r_m st ++ buf))%nat.
Proof.
  intros [Hn Hp]. split; [|rewrite length_app; lia]. intros u v E. destruct Hp as [->|Hp]; [lia|].
  destruct (Nat.le_gt_cases (r_s st) (length u)) as [|Hlt]; [done|]. exfalso.
  apply (proj1 (str_find_None _ _) Hn u (take (length (r_m st) - length u - length d) v)).
  apply (f_equal (take (length (r_m st)))) in E. rewrite take_app_length in E.
  rewrite (take_app_ge u), (take_app_ge d) in E by lia. exact E.
Qed.

Lemma check_loop_spec fuel : forall m s ret, searched m s -> (s <= length m)%nat -> (s = 0 \/ s + length d <= length m)%nat ->
  (length m < fuel)%nat ->
  exists ms st, check_loop fuel d (Reader m s) ret = Some (ret ++ ms, st) /\ reader_ok st /\ cut d m ms (r_m st).
Proof.
  assert (Hl : (0 < length d)%nat) by (destruct d; [done|simpl; lia]).
  induction fuel as [|fuel IH]; intros m s ret Hs Hsl Hp Hf; [lia|]. cbn [check_loop]. unfold check. cbn [r_m r_s].
  rewrite find_searched by done. destruct (str_find d m) as [i|] eqn:E.
  - pose proof (str_find_bound _ _ _ E) as Hb. assert (Hz : forall x, searched x 0) by (intros x u v _; lia).
    destruct (Nat.eqb_spec i 0) as [->|Hi].
    + destruct (IH (drop (length d) m) 0%nat ret) as (ms & st & E1 & Ho & Hc); [apply Hz|lia|by left|rewrite length_drop; lia|].
      rewrite app_nil_r. exists ms, st. split; [done|]. split; [done|]. change ms with (emit (take 0 m) ++ ms). by eapply cut_some.
    + assert (Hem : emit (take i m) = [take i m]).
      { destruct (take i m) eqn:Et; [|done]. apply (f_equal length) in Et. rewrite length_take in Et. simpl in Et. lia. }
      destruct (Nat.eqb_spec (i + length d) (length m)) as [Hfull|Hmore].
      * rewrite (drop_ge m) by lia. rewrite app_nil_r.
        destruct (IH [] 0%nat (ret ++ [take i m])) as (ms & st & E1 & Ho & Hc); [apply Hz|lia|by left|simpl; lia|].
        exists (take i m :: ms), st. rewrite E1, <- app_assoc. split; [done|]. split; [done|].
        change (take i m :: ms) with ([take i m] ++ ms). rewrite <- Hem. eapply cut_some; [done|]. by rewrite drop_ge by lia.
      * destruct (IH (drop (i + length d) m) 0%nat (ret ++ [take i m])) as (ms & st & E1 & Ho & Hc);
          [apply Hz|lia|by left|rewrite length_drop; lia|].
        exists (take i m :: ms), st. rewrite E1, <- app_assoc. split; [done|]. split; [done|].
        change (take i m :: ms) with ([take i m] ++ ms). rewrite <- Hem. by eapply cut_some.
  - exists [], (Reader m (if (length d <? length m)%nat then length m - length d else s)%nat). rewrite !app_nil_r. split; [done|].
    split; [|by apply cut_none]. split; [done|]. cbn [r_m r_s]. destruct (Nat.ltb_spec (length d) (length m)); lia.
Qed.

Lemma read_bytes_cut buf st : reader_ok st ->
  exists ms st', read_bytes d buf st = Some (ms, st') /\ reader_ok st' /\ cut d (r_m st ++ buf) ms (r_m st').
Proof.
  intros Ho. destruct (reader_searched st buf Ho) as [Hs Hl]. unfold read_bytes.
  destruct (check_loop_spec (length (r_m st ++ buf) + 1) (r_m st ++ buf) (r_s st) [] Hs Hl) as (ms & st' & E & Ho' & Hc).
  - rewrite length_app. pose proof (rd_pos _ Ho). lia.
  - lia.
  - by exists ms, st'.
Qed.
End client_reader.

Fixpoint read_packets (det_string : bytes) (bufs : list bytes) (st : reader) : option (list bytes * reader) :=
  match bufs with
  | [] => Some ([], st)
  | buf :: bufs =>
      '(ms, st) ← read_bytes det_string buf st;
      '(ms', st) ← read_packets det_string bufs st;
      Some (ms ++ ms', st)
  end.

Lemma read_packets_cut d bufs : d <> [] -> forall st, reader_ok d st ->
  exists ms st', read_packets d bufs st = Some (ms, st') /\ cut d (r_m st ++ mjoin bufs) ms (r_m st').
Proof.
  intros Hd. induction bufs as [|buf bufs IH]; intros st Ho.
  - exists [], st. split; [done|]. cbn [mjoin list_join]. rewrite app_nil_r. apply cut_none, Ho.
  - destruct (read_bytes_cut d Hd buf st Ho) as (ms & st1 & E1 & Ho1 & Hc1). destruct (IH st1 Ho1) as (ms' & st2 & E2 & Hc2).
    exists (ms ++ ms'), st2. split.
    + cbn [read_packets]. rewrite E1. cbn [mbind option_bind]. rewrite E2. done.
    + rewrite join_cons, app_assoc. by eapply cut_app.
Qed.

(** ** The queue of the server *)

(** What a queued message has yet to send. *)
Definition unsent (w : m_write) : bytes := drop (t_size_send w) (msg w).
Definition unsent_all (ws : list m_write) : bytes := mjoin (unsent <$> ws).

Lemma short_messages_spec msgs : forall one n, exists k, let '(one', n') := short_messages msgs one n in
  n' = (n + k)%nat /\ (k <= length msgs)%nat /\ one' = one ++ unsent_all (take k msgs).
Proof.
  assert (Stop : forall (one : bytes) n (ws : list m_write), exists k, n = (n + k)%nat /\ (k <= length ws)%nat /\ one = one ++ unsent_all (take k ws)).
  { intros one n ws. exists 0%nat. split; [lia|]. split; [lia|]. by rewrite take_0, app_nil_r. }
  induction msgs as [|w msgs IH]; intros one n; cbn [short_messages]; [apply Stop|].
  destruct (Nat.eqb_spec (t_size_send w) 0) as [Hz|Hz]; cbn [negb]; [|apply Stop].
  destruct (_ && _); [|apply Stop]. destruct (IH (one ++ msg w) (S n)) as [k Hk].
  destruct (short_messages msgs (one ++ msg w) (S n)) as [one' n']. destruct Hk as (-> & Hk & ->).
  exists (S k). split; [lia|]. split; [simpl; lia|]. cbn [take]. unfold unsent_all. rewrite join_fmap_cons.
  unfold unsent at 2. rewrite Hz, drop_0, <- app_assoc. done.
Qed.

(** Joining short messages does not change what is to be sent. *)
Lemma join_short_unsent msgs : unsent_all (join_short msgs) = unsent_all msgs.
Proof.
  unfold join_short. destruct (short_messages_spec msgs [] 0) as [k Hk]. destruct (short_messages msgs [] 0) as [one n].
  destruct Hk as (-> & Hk & ->). destruct (1 <? 0 + k)%nat; [|done]. unfold unsent_all at 1. rewrite join_fmap_cons. unfold unsent at 1.
  cbn [t_size_send msg app]. rewrite drop_0. rewrite <- (take_drop k msgs) at 3. unfold unsent_all. by rewrite fmap_app, join_app.
Qed.

Lemma send_one_unsent r w out back :
  send_one r w = Some (out, back) -> out ++ from_option unsent [] back = unsent w.
Proof.
  unfold send_one, unsent. destruct (msg w) as [|b l] eqn:Em; [intros [= <- <-]; by rewrite drop_nil|].
  destruct r as [[|n]| |]; [done| |intros [= <- <-]; done|done]. intros E.
  destruct (Nat.eqb_spec (t_size_send w + S n) (length (b :: l))) as [He|He].
  - injection E as <- <-. cbn [from_option]. rewrite app_nil_r. apply take_ge. rewrite length_drop. lia.
  - destruct (Nat.ltb_spec (t_size_send w + S n) (length (b :: l))); [|done]. injection E as <- <-.
    cbn [from_option t_size_send msg]. rewrite <- (take_drop (S n) (drop (t_size_send w) (b :: l))) at 2.
    by rewrite drop_drop.
Qed.

(** A connection of the server: the queue, the message that a thread is sending, the bytes that
    have gone out, and whether it is still open. *)
Record conn := Conn { queue : list m_write; in_flight : option m_write; wire : bytes; alive : bool }.
Definition conn_init : conn := Conn [] None [] true.

(** The steps: a message is queued, a thread takes the front of the queue, the socket can be
    written again, the thread is done. *)
Inductive conn_step (d : bytes) : list bytes -> conn -> conn -> Prop :=
  | conn_push s q f w : conn_step d [s] (Conn q f w true) (Conn (push_message d s q) f w true)
  | conn_start q q' m w : is_on_waiting_epollout <$> head q = Some false -> join_short q = m :: q' ->
      conn_step d [] (Conn q None w true) (Conn q' (Some m) w true)
  | conn_writable m q f w : conn_step d [] (Conn (m :: q) f w true) (Conn (MWrite (t_size_send m) (msg m) false :: q) f w true)
  | conn_finish r m q w : conn_step d [] (Conn q (Some m) w true)
      (match send_one r m with
       | None => Conn q (Some m) w false
       | Some (out, back) => Conn (option_list back ++ q) None (w ++ out) true
       end).

Inductive conn_run (d : bytes) : list bytes -> conn -> Prop :=
  | run_init : conn_run d [] conn_init
  | run_step ms ms' c c' : conn_run d ms c -> conn_step d ms' c c' -> conn_run d (ms ++ ms') c'.

Definition pending (c : conn) : bytes := from_option unsent [] (in_flight c) ++ unsent_all (queue c).

Lemma unsent_all_app q q' : unsent_all (q ++ q') = unsent_all q ++ unsent_all q'.
Proof. unfold unsent_all. by rewrite fmap_app, join_app. Qed.

(** Nothing is lost, doubled or reordered between the queue and the socket. *)
Lemma conn_bytes d ms c : conn_run d ms c -> wire c ++ pending c = mjoin (send_text d <$> ms).
Proof.
  induction 1 as [|ms ms' c c' Hr IH Hs]; [done|]. rewrite fmap_app, join_app, <- IH.
  destruct Hs as [s q f w|q q' m w _ Hj|m q f w|r m q w]; unfold pending in *; cbn [wire queue in_flight] in *.
  - unfold push_message. rewrite unsent_all_app, !app_assoc. f_equal. unfold unsent_all, unsent, send_text. cbn.
    by rewrite !app_nil_r, !drop_0.
  - cbn [from_option]. rewrite app_nil_r. f_equal. cbn [app].
    rewrite <- (join_short_unsent q), Hj. done.
  - by rewrite app_nil_r.
  - destruct (send_one r m) as [[out back]|] eqn:E; cbn [wire queue in_flight]; [|by rewrite app_nil_r].
    apply send_one_unsent in E. cbn [from_option] in IH |- *. rewrite <- E, unsent_all_app, !app_nil_r, <- !app_assoc.
    do 2 f_equal. destruct back; cbn [option_list from_option app]; [|done]. unfold unsent_all. cbn. by rewrite app_nil_r.
Qed.

(** C33: messages from a server arrive at the client in order.  In every reachable state of a
    connection of the server, with partial writes and joined messages, a client that reads
    what is on the wire, in packets of any size, is handed the first of the queued messages,
    unchanged and in order; and all of them once the queue is empty and everything was read. *)
Theorem server_messages_delivered (d : bytes) (ms : list bytes) (c : conn) (bufs : list bytes) (more : bytes) :
  d <> [] -> Forall (sendable d) ms -> conn_run d ms c -> mjoin bufs ++ more = wire c ->
  exists got st rest, read_packets d bufs (Reader [] 0) = Some (got, st) /\ ms = got ++ rest /\
    (queue c = [] -> in_flight c = None -> more = [] -> got = ms).
Proof.
  intros Hd Hms Hr Hw. pose proof (conn_bytes d ms c Hr) as Hb. pose proof (cut_frames d ms Hd Hms) as Hc.
  destruct (read_packets_cut d bufs Hd (Reader [] 0)) as (got & st & E & Hg); [split; [by destruct d|by left]|]. cbn [r_m app] in Hg.
  rewrite <- Hb, <- Hw, <- app_assoc in Hc. destruct (cut_prefix d (mjoin bufs) (more ++ pending c) ms Hd Hc) as (ms1 & r & ms2 & H1 & ->).
  destruct (cut_unique _ _ _ _ H1 _ _ Hg) as [<- <-]. exists got, st, ms2. split; [done|]. split; [done|].
  intros Hq Hf ->. unfold pending in Hc. rewrite Hq, Hf in Hc. cbn [from_option app] in Hc.
  rewrite app_nil_r in Hc. by destruct (cut_unique _ _ _ _ Hg _ _ Hc).
Qed.

(** An example: two messages, the second one sent in two parts. *)
Definition ex_del : bytes := lit "#!".
Definition ex_conn : conn := Conn [MWrite 3 (lit "#!abcd#!#!ef#!") true] None (lit "#!a") true.

Lemma ex_run : conn_run ex_del [lit "abcd"; lit "ef"] ex_conn.
Proof.
  change [lit "abcd"; lit "ef"] with ([lit "abcd"; lit "ef"] ++ []).
  eapply (run_step _ _ [] (Conn [] (Some (MWrite 0 (lit "#!abcd#!#!ef#!") false)) [] true)).
  - change [lit "abcd"; lit "ef"] with ([lit "abcd"; lit "ef"] ++ []). eapply run_step.
    + change [lit "abcd"; lit "ef"] with ([lit "abcd"] ++ [lit "ef"]). eapply run_step; [|apply conn_push].
      change [lit "abcd"] with ([] ++ [lit "abcd"]). eapply run_step; [apply run_init|apply conn_push].
    + by apply conn_start.
  - apply (conn_finish ex_del (Wrote 3)).
Qed.

Lemma server_messages_delivered_witness :
  exists got st rest, read_packets ex_del [lit "#"; lit "!a"] (Reader [] 0) = Some (got, st) /\
    [lit "abcd"; lit "ef"] = got ++ rest /\
    (queue ex_conn = [] -> in_flight ex_conn = None -> @nil byte = [] -> got = [lit "abcd"; lit "ef"]).
Proof.
  apply (server_messages_delivered ex_del [lit "abcd"; lit "ef"] ex_conn [lit "#"; lit "!a"] []).
  - discriminate.
  - repeat constructor; discriminate.
  - exact ex_run.
  - reflexivity.
Defined.
