(* ===== verification/Md5.v ===== *)
(** * MD5 ([libs/md5.cpp])

    The digest from which the keys of connections are made.  The class collects its input in a
    buffer of 64 bytes and transforms whole blocks; [transform] is written out as 64 operations
    on four registers.  It is equivalent to the definition of RFC 1321: the rounds as a loop
    with its formulas for the word, the shift and the function, over the padded text. *)

From S2P Require Import Prelude.
From Stdlib Require Import ZArith Lia Strings.Byte.
From stdpp Require Import base gmap strings numbers list.
Open Scope Z_scope.

(** ** The code *)

Definition not32 (x : Z) : Z := wrap U32 (Z.lnot x).

Definition F (x y z : Z) : Z := Z.lor (Z.land x y) (Z.land (not32 x) z).
Definition G (x y z : Z) : Z := Z.lor (Z.land x z) (Z.land y (not32 z)).
Definition H (x y z : Z) : Z := Z.lxor (Z.lxor x y) z.
Definition I (x y z : Z) : Z := Z.lxor y (Z.lor x (not32 z)).

Definition rotate_left (x n : Z) : Z := Z.lor (wrap U32 (Z.shiftl x n)) (Z.shiftr x (32 - n)).

(** The transformations of the four rounds: the new value of [a]. *)
Inductive round := FF_ | GG_ | HH_ | II_.
Definition round_fun (r : round) : Z -> Z -> Z -> Z := match r with FF_ => F | GG_ => G | HH_ => H | II_ => I end.
Definition xx (r : round) (a b c d x s ac : Z) : Z :=
  wrap U32 (rotate_left (wrap U32 (a + round_fun r b c d + x + ac)) s + b).

Definition S11 := 7.
Definition S12 := 12.
Definition S13 := 17.
Definition S14 := 22.
Definition S21 := 5.
Definition S22 := 9.
Definition S23 := 14.
Definition S24 := 20.
Definition S31 := 4.
Definition S32 := 11.
Definition S33 := 16.
Definition S34 := 23.
Definition S41 := 6.
Definition S42 := 10.
Definition S43 := 15.
Definition S44 := 21.

(** One line of [transform]; the first register names the others, which follow it in the order
    a, b, c, d, a, ... *)
Inductive reg := ra | rb | rc | rd.
Record op := Op { op_round : round; op_reg : reg; op_x : nat; op_s : Z; op_ac : Z }.

Record words := Words { wa : Z; wb : Z; wc : Z; wd : Z }.

Definition run_op (x : list Z) (o : op) (w : words) : words :=
  let xi := nth (op_x o) x 0 in
  let go a b c d := xx (op_round o) a b c d xi (op_s o) (op_ac o) in
  let '(Words a b c d) := w in
  match op_reg o with
  | ra => Words (go a b c d) b c d
  | rd => Words a b c (go d a b c)
  | rc => Words a b (go c d a b) d
  | rb => Words a (go b c d a) c d
  end.

Definition transform_ops : list op :=
  [Op FF_ ra 0 S11 0xd76aa478; Op FF_ rd 1 S12 0xe8c7b756;
   Op FF_ rc 2 S13 0x242070db; Op FF_ rb 3 S14 0xc1bdceee;
   Op FF_ ra 4 S11 0xf57c0faf; Op FF_ rd 5 S12 0x4787c62a;
   Op FF_ rc 6 S13 0xa8304613; Op FF_ rb 7 S14 0xfd469501;
   Op FF_ ra 8 S11 0x698098d8; Op FF_ rd 9 S12 0x8b44f7af;
   Op FF_ rc 10 S13 0xffff5bb1; Op FF_ rb 11 S14 0x895cd7be;
   Op FF_ ra 12 S11 0x6b901122; Op FF_ rd 13 S12 0xfd987193;
   Op FF_ rc 14 S13 0xa679438e; Op FF_ rb 15 S14 0x49b40821;
   Op GG_ ra 1 S21 0xf61e2562; Op GG_ rd 6 S22 0xc040b340;
   Op GG_ rc 11 S23 0x265e5a51; Op GG_ rb 0 S24 0xe9b6c7aa;
   Op GG_ ra 5 S21 0xd62f105d; Op GG_ rd 10 S22 0x2441453;
   Op GG_ rc 15 S23 0xd8a1e681; Op GG_ rb 4 S24 0xe7d3fbc8;
   Op GG_ ra 9 S21 0x21e1cde6; Op GG_ rd 14 S22 0xc33707d6;
   Op GG_ rc 3 S23 0xf4d50d87; Op GG_ rb 8 S24 0x455a14ed;
   Op GG_ ra 13 S21 0xa9e3e905; Op GG_ rd 2 S22 0xfcefa3f8;
   Op GG_ rc 7 S23 0x676f02d9; Op GG_ rb 12 S24 0x8d2a4c8a;
   Op HH_ ra 5 S31 0xfffa3942; Op HH_ rd 8 S32 0x8771f681;
   Op HH_ rc 11 S33 0x6d9d6122; Op HH_ rb 14 S34 0xfde5380c;
   Op HH_ ra 1 S31 0xa4beea44; Op HH_ rd 4 S32 0x4bdecfa9;
   Op HH_ rc 7 S33 0xf6bb4b60; Op HH_ rb 10 S34 0xbebfbc70;
   Op HH_ ra 13 S31 0x289b7ec6; Op HH_ rd 0 S32 0xeaa127fa;
   Op HH_ rc 3 S33 0xd4ef3085; Op HH_ rb 6 S34 0x4881d05;
   Op HH_ ra 9 S31 0xd9d4d039; Op HH_ rd 12 S32 0xe6db99e5;
   Op HH_ rc 15 S33 0x1fa27cf8; Op HH_ rb 2 S34 0xc4ac5665;
   Op II_ ra 0 S41 0xf4292244; Op II_ rd 7 S42 0x432aff97;
   Op II_ rc 14 S43 0xab9423a7; Op II_ rb 5 S44 0xfc93a039;
   Op II_ ra 12 S41 0x655b59c3; Op II_ rd 3 S42 0x8f0ccc92;
   Op II_ rc 10 S43 0xffeff47d; Op II_ rb 1 S44 0x85845dd1;
   Op II_ ra 8 S41 0x6fa87e4f; Op II_ rd 15 S42 0xfe2ce6e0;
   Op II_ rc 6 S43 0xa3014314; Op II_ rb 13 S44 0x4e0811a1;
   Op II_ ra 4 S41 0xf7537e82; Op II_ rd 11 S42 0xbd3af235;
   Op II_ rc 2 S43 0x2ad7d2bb; Op II_ rb 9 S44 0xeb86d391].

(** [decode] and [encode]: words with the low byte first. *)
Definition decode_word (l : bytes) (j : nat) : Z :=
  let at_ i := b2z (nth (j + i) l x00) in
  Z.lor (Z.lor (Z.lor (at_ 0%nat) (Z.shiftl (at_ 1%nat) 8)) (Z.shiftl (at_ 2%nat) 16)) (Z.shiftl (at_ 3%nat) 24).
Definition decode (l : bytes) (len : nat) : list Z := (fun i => decode_word l (4 * i)) <$> seq 0 (len / 4).

Definition encode_word (x : Z) : bytes :=
  z2b <$> [Z.land x 0xff; Z.land (Z.shiftr x 8) 0xff; Z.land (Z.shiftr x 16) 0xff; Z.land (Z.shiftr x 24) 0xff].
Definition encode (l : list Z) : bytes := mjoin (encode_word <$> l).

Definition add_words (w v : words) : words :=
  Words (wrap U32 (wa w + wa v)) (wrap U32 (wb w + wb v)) (wrap U32 (wc w + wc v)) (wrap U32 (wd w + wd v)).

Definition transform (block : bytes) (st : words) : words :=
  add_words st (foldl (fun w o => run_op (decode block 64) o w) st transform_ops).

Record md5 := Md5 { finalized : bool; buffer : bytes; count0 : Z; count1 : Z; digest_state : words; digest : bytes }.

(** [init]; the buffer is not initialized. *)
Definition init (buffer : bytes) : md5 :=
  Md5 false buffer 0 0 (Words 0x67452301 0xefcdab89 0x98badcfe 0x10325476) [].

(** [memcpy(&buffer[index], input, n)]. *)
Definition overwrite (buf : bytes) (index : nat) (input : bytes) : bytes :=
  take index buf ++ input ++ drop (index + length input) buf.

(** The loop of [update] over whole blocks: where it stops, and the state. *)
Fixpoint update_loop (fuel : nat) (input : bytes) (i : Z) (st : words) : option (Z * words) :=
  match fuel with
  | O => None
  | S fuel' =>
      if wrap U32 (i + 64) <=? zlen input then update_loop fuel' input (wrap U32 (i + 64)) (transform (zsub input i 64) st)
      else Some (i, st)
  end.

(** [update]; [length] is a 32-bit number. *)
Definition update (input : bytes) (m : md5) : option md5 :=
  let len := zlen input in
  let index := count0 m / 8 mod 64 in
  let len3 := wrap U32 (Z.shiftl len 3) in
  let c0 := wrap U32 (count0 m + len3) in
  let c1 := if c0 <? len3 then wrap U32 (count1 m + 1) else count1 m in
  let c1 := wrap U32 (c1 + Z.shiftr len 29) in
  let firstpart := 64 - index in
  if firstpart <=? len then
    let buf := overwrite (buffer m) (Z.to_nat index) (zsub input 0 firstpart) in
    '(i, st) ← update_loop (length input + 1) input firstpart (transform buf (digest_state m));
    Some (Md5 (finalized m) (overwrite buf 0 (zsub input i (len - i))) c0 c1 st (digest m))
  else Some (Md5 (finalized m) (overwrite (buffer m) (Z.to_nat index) input) c0 c1 (digest_state m) (digest m)).

Definition padding : bytes := x80 :: replicate 63 x00.

Definition finalize (m : md5) : option md5 :=
  if finalized m then Some m
  else
    let bits := encode [count0 m; count1 m] in
    let index := count0 m / 8 mod 64 in
    let padLen := if index <? 56 then 56 - index else 120 - index in
    m ← update (zsub padding 0 padLen) m;
    m ← update bits m;
    let '(Words a b c d) := digest_state m in
    Some (Md5 true (replicate 64 x00) 0 0 (digest_state m) (encode [a; b; c; d])).

Definition hex_char (n : Z) : byte := z2b (if n <? 10 then 48 + n else 87 + n).

Definition hexdigest (m : md5) : bytes :=
  if finalized m then digest m ≫= fun c => [hex_char (b2z c / 16); hex_char (b2z c mod 16)] else [].

(** [MD5(text)]: the length is converted to 32 bits. *)
Definition md5_of (buffer text : bytes) : option md5 :=
  m ← update (zsub text 0 (wrap U32 (zlen text))) (init buffer); finalize m.

Definition md5_hex (buffer text : bytes) : option bytes := hexdigest <$> md5_of buffer text.

Example md5_hex_check :
  md5_hex (replicate 64 xff) (lit "message digest") = Some (lit "f96b697d7cb7938d525a2f31aaf161d0").
Proof. by vm_compute. Qed.

(** ** The definition of RFC 1321 *)

(** The constants: the integer part of 4294967296 times the sine of the number of the step. *)
Definition T : list Z :=
  [0xd76aa478; 0xe8c7b756; 0x242070db; 0xc1bdceee; 0xf57c0faf; 0x4787c62a; 0xa8304613; 0xfd469501;
   0x698098d8; 0x8b44f7af; 0xffff5bb1; 0x895cd7be; 0x6b901122; 0xfd987193; 0xa679438e; 0x49b40821;
   0xf61e2562; 0xc040b340; 0x265e5a51; 0xe9b6c7aa; 0xd62f105d; 0x2441453; 0xd8a1e681; 0xe7d3fbc8;
   0x21e1cde6; 0xc33707d6; 0xf4d50d87; 0x455a14ed; 0xa9e3e905; 0xfcefa3f8; 0x676f02d9; 0x8d2a4c8a;
   0xfffa3942; 0x8771f681; 0x6d9d6122; 0xfde5380c; 0xa4beea44; 0x4bdecfa9; 0xf6bb4b60; 0xbebfbc70;
   0x289b7ec6; 0xeaa127fa; 0xd4ef3085; 0x4881d05; 0xd9d4d039; 0xe6db99e5; 0x1fa27cf8; 0xc4ac5665;
   0xf4292244; 0x432aff97; 0xab9423a7; 0xfc93a039; 0x655b59c3; 0x8f0ccc92; 0xffeff47d; 0x85845dd1;
   0x6fa87e4f; 0xfe2ce6e0; 0xa3014314; 0x4e0811a1; 0xf7537e82; 0xbd3af235; 0x2ad7d2bb; 0xeb86d391].

Definition round_of (i : nat) : round := nth (i / 16) [FF_; GG_; HH_; II_] FF_.
Definition word_of (i : nat) : nat :=
  match (i / 16)%nat with 0%nat => i | 1%nat => (5 * i + 1) mod 16 | 2%nat => (3 * i + 5) mod 16 | _ => (7 * i) mod 16 end%nat.
Definition shift_of (i : nat) : Z :=
  nth (i mod 4) (nth (i / 16) [[7; 12; 17; 22]; [5; 9; 14; 20]; [4; 11; 16; 23]; [6; 10; 15; 21]] []) 0.

(** A step: the registers move on by one place. *)
Definition rfc_step (x : list Z) (w : words) (i : nat) : words :=
  let '(Words a b c d) := w in
  Words d (xx (round_of i) a b c d (nth (word_of i) x 0) (shift_of i) (nth i T 0)) b c.

Definition rfc_transform (block : bytes) (st : words) : words :=
  add_words st (foldl (rfc_step (decode block 64)) st (seq 0 64)).

(** The whole blocks of a text. *)
Definition block (i : nat) (text : bytes) : bytes := take 64 (drop (64 * i) text).
Definition absorb (f : bytes -> words -> words) (text : bytes) (st : words) : words :=
  foldl (fun st i => f (block i text) st) st (seq 0 (length text / 64)).

(** Padding: a one bit, zeros up to 56 bytes in the last block, the number of bits. *)
Definition pad_length (n : Z) : Z := if n mod 64 <? 56 then 56 - n mod 64 else 120 - n mod 64.
Definition padded (text : bytes) : bytes :=
  text ++ x80 :: replicate (Z.to_nat (pad_length (zlen text) - 1)) x00 ++
  encode [(8 * zlen text) mod 2 ^ 32; (8 * zlen text) / 2 ^ 32].

Definition rfc1321 (text : bytes) : bytes :=
  let '(Words a b c d) := absorb rfc_transform (padded text) (Words 0x67452301 0xefcdab89 0x98badcfe 0x10325476) in
  encode [a; b; c; d] ≫= fun c => [hex_char (b2z c / 16); hex_char (b2z c mod 16)].

(** ** The rounds *)

(** The registers as the definition names them before step [i]. *)
Definition view (i : nat) (w : words) : words :=
  let '(Words a b c d) := w in
  match (i mod 4)%nat with
  | 0%nat => Words a b c d | 1%nat => Words d a b c | 2%nat => Words c d a b | _ => Words b c d a
  end.

Definition rfc_op (i : nat) : op :=
  Op (round_of i) (nth (i mod 4) [ra; rd; rc; rb] ra) (word_of i) (shift_of i) (nth i T 0).

Lemma transform_ops_rfc : transform_ops = rfc_op <$> seq 0 64.
Proof. by vm_compute. Qed.

Lemma run_op_step x i w : view (S i) (run_op x (rfc_op i) w) = rfc_step x (view i w) i.
Proof.
  destruct w as [a b c d]. unfold view, rfc_op, run_op, rfc_step. cbn [op_reg op_round op_x op_s op_ac].
  replace (S i mod 4)%nat with (S (i mod 4) mod 4)%nat by (rewrite <- Nat.add_1_r, <- (Nat.add_1_r i), Nat.Div0.add_mod_idemp_l; done).
  pose proof (Nat.mod_upper_bound i 4). destruct (i mod 4)%nat as [|[|[|[|]]]]; cbn [nth]; try reflexivity. lia.
Qed.

Lemma run_ops_steps x n i w :
  view (i + n) (foldl (fun w o => run_op x o w) w (rfc_op <$> seq i n)) = foldl (rfc_step x) (view i w) (seq i n).
Proof.
  revert i w; induction n as [|n IH]; intros i w; [by rewrite Nat.add_0_r|].
  cbn [seq fmap list_fmap foldl]. rewrite <- run_op_step, <- IH. f_equal. lia.
Qed.

(** The written-out rounds are those of the definition. *)
Lemma transform_rfc b st : transform b st = rfc_transform b st.
Proof.
  unfold transform, rfc_transform. rewrite transform_ops_rfc. pose proof (run_ops_steps (decode b 64) 64 0 st) as E.
  change (view 0 st) with (let '(Words a b c d) := st in Words a b c d) in E.
  set (w := foldl (fun w o => run_op (decode b 64) o w) st (rfc_op <$> seq 0 64)) in *.
  assert (Ev : forall v, view 0 v = v) by (by intros []). change (view (0 + 64) w) with (view 0 w) in E. rewrite Ev in E.
  rewrite E. by destruct st.
Qed.

(** ** The blocks *)

Section absorb.
Context (f : bytes -> words -> words).

Lemma absorb_short text st : (length text < 64)%nat -> absorb f text st = st.
Proof. intros Hl. unfold absorb. by rewrite Nat.div_small. Qed.

Lemma absorb_block b rest st : length b = 64%nat -> absorb f (b ++ rest) st = absorb f rest (f b st).
Proof.
  intros Hb. unfold absorb. rewrite length_app, Hb.
  replace ((64 + length rest) / 64)%nat with (S (length rest / 64)) by (change (64 + length rest)%nat with (1 * 64 + length rest)%nat; rewrite Nat.div_add_l; lia).
  cbn [seq foldl]. assert (Hb0 : block 0 (b ++ rest) = b) by (unfold block; rewrite Nat.mul_0_r, drop_0, take_app_le by lia; by rewrite take_ge by lia).
  rewrite Hb0.
  assert (G : forall n i st, foldl (fun st i => f (block i (b ++ rest)) st) st (seq (S i) n) = foldl (fun st i => f (block i rest) st) st (seq i n)).
  { intros n. induction n as [|n IH]; intros i st'; [done|]. cbn [seq foldl]. rewrite IH. f_equal. f_equal. unfold block.
    rewrite drop_app_ge by lia. do 2 f_equal. lia. }
  apply G.
Qed.

Lemma absorb_app n : forall t rest st, length t = (64 * n)%nat -> absorb f (t ++ rest) st = absorb f rest (absorb f t st).
Proof.
  induction n as [|n IH]; intros t rest st Hl.
  - destruct t; [|simpl in Hl; lia]. done.
  - rewrite <- (take_drop 64 t), <- app_assoc. rewrite (absorb_block (take 64 t) (drop 64 t ++ rest)), (absorb_block (take 64 t) (drop 64 t)) by (rewrite length_take; lia).
    apply IH. rewrite length_drop. lia.
Qed.
End absorb.

(** ** Collecting the input *)

Definition start : words := Words 0x67452301 0xefcdab89 0x98badcfe 0x10325476.

(** After [text] has been read. *)
Record has_read (text : bytes) (m : md5) : Prop := {
  hr_open : finalized m = false;
  hr_buffer : length (buffer m) = 64%nat;
  hr_rest : take (length text mod 64) (buffer m) = drop (64 * (length text / 64)) text;
  hr_c0 : count0 m = (8 * zlen text) mod 2 ^ 32;
  hr_c1 : count1 m = (8 * zlen text) / 2 ^ 32;
  hr_state : digest_state m = absorb transform text start }.

Lemma length_overwrite buf i input : (i + length input <= length buf)%nat -> length (overwrite buf i input) = length buf.
Proof. intros Hl. unfold overwrite. rewrite !length_app, length_take, length_drop. lia. Qed.

Lemma take_overwrite buf i input : (i <= length buf)%nat -> take (i + length input) (overwrite buf i input) = take i buf ++ input.
Proof.
  intros Hl. unfold overwrite. rewrite app_assoc. apply take_app_length'. rewrite length_app, length_take. lia.
Qed.

Lemma update_loop_spec fuel : forall input i st, 0 <= i <= zlen input -> zlen input < 2 ^ 31 -> zlen input - i < 64 * Z.of_nat fuel ->
  exists i', update_loop fuel input i st = Some (i', absorb transform (drop (Z.to_nat i) input) st) /\
    i' = i + 64 * ((zlen input - i) / 64).
Proof.
  induction fuel as [|fuel IH]; intros input i st Hi Hl Hf; [lia|]. cbn [update_loop]. rewrite wrap_id by range_lia.
  destruct (Z.leb_spec (i + 64) (zlen input)) as [Hle|Hgt].
  - destruct (IH input (i + 64) (transform (zsub input i 64) st)) as (i' & E & ->); [lia|lia|lia|].
    exists (i + 64 + 64 * ((zlen input - (i + 64)) / 64)). split; [|dlia]. rewrite E. do 2 f_equal.
    rewrite zsub_take_drop. change (Z.to_nat 64) with 64%nat. rewrite <- (take_drop 64 (drop (Z.to_nat i) input)) at 2.
    rewrite absorb_block by (rewrite length_take, length_drop; lia). f_equal. rewrite drop_drop. f_equal. lia.
  - exists i. split; [|dlia]. rewrite absorb_short; [done|]. rewrite length_drop. lia.
Qed.

Lemma count_update c0 c1 n len :
  0 <= n -> 0 <= len < 2 ^ 29 -> 8 * (n + len) < 2 ^ 64 -> c0 = (8 * n) mod 2 ^ 32 -> c1 = (8 * n) / 2 ^ 32 ->
  let len3 := wrap U32 (Z.shiftl len 3) in
  let c0' := wrap U32 (c0 + len3) in
  c0' = (8 * (n + len)) mod 2 ^ 32 /\
  wrap U32 ((if c0' <? len3 then wrap U32 (c1 + 1) else c1) + Z.shiftr len 29) = (8 * (n + len)) / 2 ^ 32.
Proof.
  intros Hn Hl Hb -> ->. cbv zeta. rewrite Z.shiftl_mul_pow2, Z.shiftr_div_pow2 by lia.
  rewrite (Z.div_small len) by lia. rewrite Z.add_0_r. change (2 ^ 3) with 8. rewrite (wrap_id U32 (len * 8)) by range_lia.
  assert (Hw : forall z, wrap U32 z = z mod 2 ^ 32) by (intros z; unfold wrap; change (min_val U32) with 0; change (bits U32) with 32; rewrite Z.sub_0_r, Z.add_0_r; done).
  rewrite !Hw. change (2 ^ 32) with 4294967296 in *. change (2 ^ 64) with 18446744073709551616 in *. change (2 ^ 29) with 536870912 in *.
  split; [dlia|]. destruct (Z.ltb_spec ((8 * n mod 4294967296 + len * 8) mod 4294967296) (len * 8)); dlia.
Qed.

Lemma index_of n : 0 <= n -> (8 * n) mod 2 ^ 32 / 8 mod 64 = n mod 64.
Proof. intros Hn. change (2 ^ 32) with 4294967296. dlia. Qed.

(** A text is its whole blocks and a rest that is shorter than a block. *)
Lemma split_text (text : bytes) : exists whole tail : bytes, text = whole ++ tail /\ length whole = (64 * (length text / 64))%nat /\
  length tail = (length text mod 64)%nat /\ tail = drop (64 * (length text / 64)) text.
Proof.
  pose proof (Nat.div_mod_eq (length text) 64). exists (take (64 * (length text / 64)) text), (drop (64 * (length text / 64)) text).
  rewrite take_drop, length_take, length_drop. split_and!; [done|lia|lia|done].
Qed.

Lemma absorb_split (whole tail rest : bytes) st n : length whole = (64 * n)%nat -> (length tail < 64)%nat ->
  absorb transform (whole ++ tail ++ rest) st = absorb transform (tail ++ rest) (absorb transform (whole ++ tail) st).
Proof.
  intros Hw Ht. rewrite (absorb_app transform n whole (tail ++ rest) st Hw), (absorb_app transform n whole tail st Hw).
  by rewrite (absorb_short transform tail).
Qed.

Lemma update_reads (text input : bytes) m :
  has_read text m -> zlen input < 2 ^ 29 -> 8 * (zlen text + zlen input) < 2 ^ 64 ->
  exists m', update input m = Some m' /\ has_read (text ++ input) m'.
Proof.
  intros [Hfin Hbuf Hrest Hc0 Hc1 Hst] Hli Hbits. destruct (split_text text) as (whole & tail & Et & Hw & Htl & Htail).
  pose proof (Nat.mod_upper_bound (length text) 64 ltac:(lia)) as Hr. pose proof (Nat.div_mod_eq (length text) 64) as Hq.
  destruct (count_update (count0 m) (count1 m) (zlen text) (zlen input) ltac:(lia) ltac:(lia) Hbits Hc0 Hc1) as [Ec0 Ec1].
  set (r := (length text mod 64)%nat) in *. set (q := (length text / 64)%nat) in *. rewrite <- Htail in Hrest.
  assert (Eidx : count0 m / 8 mod 64 = Z.of_nat r) by (rewrite Hc0, index_of by lia; unfold r; by rewrite Nat2Z.inj_mod).
  assert (Hlen : length (text ++ input) = (64 * q + (r + length input))%nat) by (rewrite length_app; lia).
  assert (Eabs : forall st, absorb transform (text ++ input) st = absorb transform (tail ++ input) (absorb transform text st)).
  { intros st. rewrite Et at 1. rewrite <- app_assoc, (absorb_split whole tail input st q Hw) by lia. by rewrite <- Et. }
  unfold update. rewrite Eidx, Ec1, Ec0. rewrite Nat2Z.id.
  replace (8 * (zlen text + zlen input)) with (8 * zlen (text ++ input)) by (rewrite length_app; lia).
  destruct (Z.leb_spec (64 - Z.of_nat r) (zlen input)) as [Hle|Hgt].
  - set (fp := (64 - r)%nat). replace (64 - Z.of_nat r) with (Z.of_nat fp) by lia.
    replace (zsub input 0 (Z.of_nat fp)) with (take fp input) by (rewrite zsub_take_drop, Nat2Z.id; done).
    assert (Hfp : length (take fp input) = fp) by (rewrite length_take; lia).
    assert (Ebuf : overwrite (buffer m) r (take fp input) = tail ++ take fp input).
    { rewrite <- (take_ge (overwrite _ _ _) (r + length (take fp input))) by (rewrite length_overwrite; lia).
      rewrite take_overwrite by lia. by rewrite Hrest. }
    rewrite Ebuf. set (b := tail ++ take fp input). assert (Hb : length b = 64%nat) by (unfold b; rewrite length_app; lia).
    destruct (update_loop_spec (length input + 1) input (Z.of_nat fp) (transform b (digest_state m))) as (i' & E & Ei');
      [lia|range_lia|lia|]. rewrite E. cbn [mbind option_bind]. eexists. split; [reflexivity|].
    assert (Hi' : Z.of_nat fp <= i' <= zlen input /\ zlen input - i' < 64) by (rewrite Ei'; dlia).
    set (k := Z.to_nat i'). assert (Hk : i' = Z.of_nat k) by lia. set (j := ((length input - fp) / 64)%nat).
    assert (Hkj : k = (fp + 64 * j)%nat).
    { unfold k. rewrite Ei'. unfold j. rewrite Z2Nat.inj_add, Z2Nat.inj_mul by dlia. rewrite Nat2Z.id. change (Z.to_nat 64) with 64%nat.
      do 2 f_equal. rewrite Z2Nat.inj_div by lia. f_equal. lia. }
    assert (Hsub : zsub input i' (zlen input - i') = drop k input).
    { rewrite zsub_take_drop. apply take_ge. rewrite length_drop. lia. }
    rewrite Hsub. assert (Hmod : (length (text ++ input) mod 64 = length (drop k input))%nat).
    { rewrite length_drop. symmetry. apply Nat.mod_unique with (q + 1 + j)%nat; [lia|]. rewrite Hlen. lia. }
    assert (Hdiv : (length (text ++ input) / 64 = q + 1 + j)%nat).
    { symmetry. apply Nat.div_unique with (length (drop k input)); rewrite length_drop; [lia|]. rewrite Hlen. lia. }
    split; cbn [finalized buffer count0 count1 digest_state]; [done| | |done|done|].
    + rewrite length_overwrite; [done|]. rewrite Hb, length_drop. lia.
    + rewrite Hmod. pose proof (take_overwrite b 0 (drop k input) ltac:(lia)) as Eo. rewrite Nat.add_0_l in Eo. rewrite Eo, take_0, app_nil_l.
      rewrite Hdiv. rewrite drop_app_ge by lia. f_equal. lia.
    + rewrite Hst, Nat2Z.id, (Eabs start).
      rewrite <- (take_drop fp input) at 2. rewrite app_assoc. by rewrite (absorb_block transform b).
  - eexists. split; [reflexivity|].
    assert (Hmod : (length (text ++ input) mod 64 = r + length input)%nat).
    { symmetry. apply Nat.mod_unique with q; [lia|]. rewrite Hlen. lia. }
    assert (Hdiv : (length (text ++ input) / 64 = q)%nat).
    { symmetry. apply Nat.div_unique with (r + length input)%nat; [lia|]. rewrite Hlen. lia. }
    split; cbn [finalized buffer count0 count1 digest_state]; [done| | |done|done|].
    + rewrite length_overwrite; [done|lia].
    + rewrite Hmod, take_overwrite, Hrest, Hdiv by lia. rewrite drop_app_le by lia. by rewrite Htail.
    + rewrite Hst, (Eabs start).
      by rewrite (absorb_short transform (tail ++ input)) by (rewrite length_app; lia).
Qed.

Lemma init_reads buf : length buf = 64%nat -> has_read [] (init buf).
Proof. intros Hb. by split. Qed.

Lemma padding_is n : 0 <= n -> zsub padding 0 (pad_length n) = x80 :: replicate (Z.to_nat (pad_length n - 1)) x00.
Proof.
  intros Hn. assert (Hp : 1 <= pad_length n <= 64) by (unfold pad_length; destruct (Z.ltb_spec (n mod 64) 56); dlia).
  rewrite zsub_take_drop. unfold padding. change (Z.to_nat 0) with 0%nat. rewrite drop_0.
  replace (Z.to_nat (pad_length n)) with (S (Z.to_nat (pad_length n - 1))) by lia. cbn [firstn]. f_equal.
  rewrite take_replicate. f_equal. lia.
Qed.

Lemma length_encode ws : length (encode ws) = (4 * length ws)%nat.
Proof. induction ws as [|w ws IH]; [done|]. unfold encode in *. rewrite join_fmap_cons, length_app, IH. cbn [length]. unfold encode_word. cbn [length fmap list_fmap]. lia. Qed.

Lemma absorb_transform text st : absorb transform text st = absorb rfc_transform text st.
Proof. unfold absorb. generalize (seq 0 (length text / 64)). intros l. revert st. induction l as [|i l IH]; intros st; [done|]. cbn [foldl]. by rewrite IH, transform_rfc. Qed.

(** The whole computation, from the buffer as it is before. *)
Lemma md5_hex_rfc1321 (buf text : bytes) (Hbuf : length buf = 64%nat) (Htext : zlen text < 2 ^ 29) :
  md5_hex buf text = Some (rfc1321 text).
Proof.
  unfold md5_hex, md5_of. rewrite wrap_id by range_lia.
  replace (zsub text 0 (zlen text)) with text by (rewrite zsub_take_drop, Nat2Z.id; change (Z.to_nat 0) with 0%nat; rewrite drop_0; by rewrite take_ge by lia).
  destruct (update_reads [] text (init buf) (init_reads buf Hbuf) Htext) as (m1 & E1 & H1); [simpl; lia|].
  rewrite app_nil_l in H1. rewrite E1. cbn [mbind option_bind]. unfold finalize. rewrite (hr_open _ _ H1).
  rewrite (hr_c0 _ _ H1), (hr_c1 _ _ H1), index_of by lia. fold (pad_length (zlen text)). rewrite padding_is by lia.
  set (pad := x80 :: replicate (Z.to_nat (pad_length (zlen text) - 1)) x00). set (bits := encode _).
  assert (Hpad : zlen pad <= 64) by (unfold pad, pad_length; cbn [length]; rewrite length_replicate; destruct (Z.ltb_spec (zlen text mod 64) 56); dlia).
  assert (Hbits : zlen bits = 8) by (unfold bits; by rewrite length_encode).
  destruct (update_reads text pad m1 H1) as (m2 & E2 & H2); [lia|lia|]. rewrite E2. cbn [mbind option_bind].
  destruct (update_reads (text ++ pad) bits m2 H2) as (m3 & E3 & H3); [lia|rewrite length_app; lia|]. rewrite E3. cbn [mbind option_bind].
  rewrite (hr_state _ _ H3), absorb_transform. unfold rfc1321, padded. fold pad bits.
  change (x80 :: replicate (Z.to_nat (pad_length (zlen text) - 1)) x00 ++ bits) with (pad ++ bits). rewrite <- app_assoc. unfold start.
  by destruct (absorb rfc_transform (text ++ pad ++ bits) _).
Qed.

(** C30: The constructor of MD5 and [hexdigest] give the digest of RFC 1321: whatever the buffer holds before, for a text of less than 2^29 bytes
    the 64 unrolled steps, the collection of the input in blocks of 64 bytes, the padding and the count of bits together
    compute the hexadecimal digest of the padded text as the RFC defines it. *)
Theorem md5_is_rfc1321 (buf text : bytes) (Hbuf : length buf = 64%nat) (Htext : zlen text < 2 ^ 29) :
  md5_hex buf text = Some (rfc1321 text).
Proof. by apply md5_hex_rfc1321. Qed.

Lemma md5_is_rfc1321_witness : md5_hex (replicate 64 xff) (lit "abc") = Some (lit "900150983cd24fb0d6963f7d28e17f72").
Proof. rewrite (md5_is_rfc1321 (replicate 64 xff) (lit "abc")); [by vm_compute|reflexivity|reflexivity]. Defined.

Lemma length_hexdigest m : finalized m = true -> length (hexdigest m) = (2 * length (digest m))%nat.
Proof. intros Hf. unfold hexdigest. rewrite Hf. induction (digest m) as [|c l IH]; [done|]. cbn. rewrite IH. lia. Qed.

Lemma length_rfc1321 text : length (rfc1321 text) = 32%nat.
Proof. unfold rfc1321. by destruct (absorb _ _ _). Qed.
