(* ===== verification/Gost.v ===== *)
(** * The cipher GOST 28147-89 ([libs/gost_28147_89/gost_89.cpp])

    The second cipher of a connection.  A message is combined with a stream of words that the
    cipher makes from a counter, so [crypt] and [decrypt] are one function; the key of the
    rounds, the table of substitutions and the start of the counter all come from the key text,
    which is digested when it is shorter than 32 bytes. *)

From S2P Require Import Prelude Bitbase Md5.
From Stdlib Require Import ZArith Lia Strings.Byte.
From stdpp Require Import base gmap strings numbers list.
Open Scope Z_scope.

(** ** The code *)

Record g89 := G89 { SBox : list (list Z); Sync : Z * Z; X : list Z }.

Definition C1 := 0x1010104.
Definition C2 := 0x1010101.
Definition cryptRounds : list nat :=
  [0; 1; 2; 3; 4; 5; 6; 7; 0; 1; 2; 3; 4; 5; 6; 7; 0; 1; 2; 3; 4; 5; 6; 7; 7; 6; 5; 4; 3; 2; 1; 0]%nat.

(** Addition modulo 2^32 - 1. *)
Definition addMod32_1 (x y : Z) : Z :=
  let sum := wrap U32 (x + y) in
  wrap U32 (sum + (if (sum <? x) || (sum <? y) then 1 else 0)).

(** An entry of the table: two rows of the table of the standard, rotated by 11. *)
Definition table_entry (raw : list bytes) (j k : nat) : Z :=
  let at_ row i := b2z (nth i (nth row raw []) x00) in
  let S0 := Z.lor (at_ j (Nat.land k 15)) (Z.shiftl (at_ (j + 1)%nat (Nat.shiftr k 4)) 4) in
  let S1 := wrap U32 (Z.shiftl S0 (4 * Z.of_nat j)) in
  Z.lor (wrap U32 (Z.shiftl S1 11)) (Z.shiftr S1 21).

Definition setTable (raw : list bytes) (g : g89) : g89 :=
  G89 ((fun i => table_entry raw (2 * i) <$> seq 0 256) <$> seq 0 4) (Sync g) (X g).

Definition setSync (sync : Z) (g : g89) : g89 := G89 (SBox g) (wrap U32 sync, wrap U32 (Z.shiftr sync 32)) (X g).

Definition f (g : g89) (word : Z) : Z :=
  let at_ i w := nth (Z.to_nat w) (nth i (SBox g) []) 0 in
  Z.lxor (Z.lxor (Z.lxor (at_ 3%nat (Z.shiftr word 24)) (at_ 2%nat (wrap U8 (Z.shiftr word 16)))) (at_ 1%nat (wrap U8 (Z.shiftr word 8))))
    (at_ 0%nat (wrap U8 word)).

(** Two rounds, and the 32 rounds with the exchange at the end. *)
Definition crypt_round (g : g89) (AB : Z * Z) (i : nat) : Z * Z :=
  let key j := nth (nth j cryptRounds 0%nat) (X g) 0 in
  let B := Z.lxor AB.2 (f g (wrap U32 (AB.1 + key i))) in
  let A := Z.lxor AB.1 (f g (wrap U32 (B + key (i + 1)%nat))) in
  (A, B).
Definition cryptBlock (g : g89) (A B : Z) : Z * Z :=
  let '(A, B) := foldl (fun AB i => crypt_round g AB (2 * i)) (A, B) (seq 0 16) in (B, A).

(** The loop of [cryptData].  [src] is the buffer and what lies behind it in memory, [pos] the
    offset of [src] in it, [last] the offset of [lastBytes]; every pass reads eight bytes. *)
Fixpoint cryptData_loop (fuel : nat) (g : g89) (src : bytes) (last : Z) (remain : nat) (pos : nat) (N3 N4 : Z) (dst : bytes) : option bytes :=
  match fuel with
  | O => None
  | S fuel' =>
      let N4 := addMod32_1 N4 C1 in
      let N3 := wrap U32 (N3 + C2) in
      let '(N1, N2) := cryptBlock g N3 N4 in
      let AB := take 8 (drop pos src) in
      let A := Z.lxor (decode_word AB 0) N1 in
      let B := Z.lxor (decode_word AB 4) N2 in
      let out := encode_word A ++ encode_word B in
      if Z.of_nat (pos + 8) <? last then cryptData_loop fuel' g src last remain (pos + 8) N3 N4 (dst ++ out)
      else Some (dst ++ take remain out)
  end.

Definition set_X (x : list Z) (g : g89) : g89 := G89 (SBox g) (Sync g) x.

(** [cryptData]: what it writes to [dst], and the object with its key erased. *)
Definition cryptData (src beyond password : bytes) (g : g89) : option (bytes * g89) :=
  let size := length src in
  if decide (size = 0%nat) then Some ([], g)
  else
    let g := set_X (Md5.decode password 32) g in
    let remain := if decide (size mod 8 = 0)%nat then 8%nat else (size mod 8)%nat in
    let last := Z.of_nat size - Z.of_nat remain + 1 in
    let '(N3, N4) := cryptBlock g (Sync g).1 (Sync g).2 in
    dst ← cryptData_loop (size + 1) g (src ++ beyond) last remain 0 N3 N4 [];
    Some (dst, set_X (replicate 8 0) g).

(** [prepare]: the key of the rounds, with the table and the counter set in the object. *)
Definition prepare (md5_buffer _k2 : bytes) (g : g89) : option (bytes * g89) :=
  _key ← (if (length _k2 <? 32)%nat then md5_hex md5_buffer _k2 else Some _k2);
  let sz := length _key in
  let _k := take 32 _key in
  let _iv := (fun i => nth (4 * i) _key x00) <$> seq 0 8 in
  let _table := (fun i => (fun j => nth (((i + 1) * j) mod sz) _key x00) <$> seq 0 16) <$> seq 0 8 in
  Some (_k, setSync (le_value _iv) (setTable _table g)).

(** What a call finds in memory that is not initialized: the buffer of the digest, and what
    lies behind the copy of the input. *)
Record memory := Memory { md5_buffer : bytes; beyond : bytes }.

(** [for (auto i = 0u; i < sz; ++i)]: a copy byte by byte.  The counter has 32 bits and the size
    64, so the loop does not end for 2^32 bytes or more. *)
Fixpoint copy (fuel : nat) (src : bytes) (i : Z) (dst : bytes) : option bytes :=
  match fuel with
  | O => None
  | S fuel' => if i <? zlen src then copy fuel' src (wrap U32 (i + 1)) (dst ++ [nth (Z.to_nat i) src x00]) else Some dst
  end.

Definition crypt (mem : memory) (_input _key : bytes) (g : g89) : option (bytes * g89) :=
  '(_k, g) ← prepare (md5_buffer mem) _key g;
  _src ← copy (S (length _input)) _input 0 [];
  '(_dst, g) ← cryptData _src (beyond mem) _k g;
  ret ← copy (S (length _dst)) _dst 0 [];
  Some (ret, g).

Definition decrypt (mem : memory) (_input _key : bytes) (g : g89) : option (bytes * g89) :=
  '(_k, g) ← prepare (md5_buffer mem) _key g;
  _src ← copy (S (length _input)) _input 0 [];
  '(_dst, g) ← cryptData _src (beyond mem) _k g;
  ret ← copy (S (length _dst)) _dst 0 [];
  Some (ret, g).

Definition ex_memory (c : byte) : memory := Memory (replicate 64 c) (replicate 7 c).
Definition ex_g89 : g89 := G89 [] (0, 0) [].

Example crypt_check :
  (m ← crypt (ex_memory x00) (lit "attack at dawn") (lit "secret") ex_g89; m ← decrypt (ex_memory xff) m.1 (lit "secret") m.2; Some m.1)
  = Some (lit "attack at dawn").
Proof. by vm_compute. Qed.

(** ** The stream *)

Definition bxor (a b : byte) : byte := z2b (Z.lxor (b2z a) (b2z b)).

Lemma byte_high_bit a n : 0 <= a < 256 -> 8 <= n -> Z.testbit a n = false.
Proof.
  intros Ha Hn. apply Z.testbit_false; [lia|]. rewrite Z.div_small; [done|].
  pose proof (Z.pow_le_mono_r 2 8 n ltac:(lia) ltac:(lia)). lia.
Qed.

Lemma lxor_byte a b : 0 <= a < 256 -> 0 <= b < 256 -> 0 <= Z.lxor a b < 256.
Proof.
  intros Ha Hb. assert (Hm : Z.lxor a b = Z.lxor a b mod 2 ^ 8).
  { apply Z.bits_inj'. intros n Hn. destruct (Z.ltb_spec n 8) as [Hl|Hg].
    - by rewrite Z.mod_pow2_bits_low by lia.
    - rewrite Z.mod_pow2_bits_high, Z.lxor_spec by lia. by rewrite !byte_high_bit. }
  rewrite Hm. change (2 ^ 8) with 256. dlia.
Qed.

Lemma bxor_bxor a b : bxor (bxor a b) b = a.
Proof.
  apply b2z_inj. unfold bxor. rewrite !b2z_z2b. pose proof (b2z_range a). pose proof (b2z_range b).
  rewrite (Z.mod_small (Z.lxor (b2z a) (b2z b))) by (by apply lxor_byte).
  rewrite Z.lxor_assoc, Z.lxor_nilpotent, Z.lxor_0_r. by rewrite Z.mod_small.
Qed.

Lemma zip_bxor_twice m s : (length m <= length s)%nat -> zip_with bxor (zip_with bxor m s) s = m.
Proof.
  revert s. induction m as [|a m IH]; intros [|b s] Hl; simpl in *; [done..|lia|]. by rewrite bxor_bxor, IH by lia.
Qed.

(** The bytes of a word. *)
Lemma decode_word_byte (b : bytes) (j i : nat) : (i < 4)%nat ->
  Z.land (Z.shiftr (decode_word b j) (8 * Z.of_nat i)) 255 = b2z (nth (j + i) b x00).
Proof.
  intros Hi. unfold decode_word. change 255 with (Z.ones 8).
  pose proof (b2z_range (nth (j + 0) b x00)) as H0. pose proof (b2z_range (nth (j + 1) b x00)) as H1.
  pose proof (b2z_range (nth (j + 2) b x00)) as H2. pose proof (b2z_range (nth (j + 3) b x00)) as H3.
  set (a0 := b2z (nth (j + 0) b x00)) in *. set (a1 := b2z (nth (j + 1) b x00)) in *.
  set (a2 := b2z (nth (j + 2) b x00)) in *. set (a3 := b2z (nth (j + 3) b x00)) in *.
  assert (Hneg : forall a n, n < 0 -> Z.testbit a n = false) by (intros; by apply Z.testbit_neg_r).
  rewrite Z.land_ones by lia. apply Z.bits_inj'. intros n Hn. destruct (Z.ltb_spec n 8) as [Hl|Hg].
  - rewrite Z.mod_pow2_bits_low, Z.shiftr_spec, !Z.lor_spec, !Z.shiftl_spec by lia.
    destruct i as [|[|[|[|i]]]]; [| | | |lia]; fold a0 a1 a2 a3.
    + rewrite (Hneg a1), (Hneg a2), (Hneg a3), !orb_false_r by lia. f_equal. lia.
    + rewrite (byte_high_bit a0), (Hneg a2), (Hneg a3), !orb_false_r by lia. simpl. f_equal. lia.
    + rewrite (byte_high_bit a0), (byte_high_bit a1), (Hneg a3), !orb_false_r by lia. simpl. f_equal. lia.
    + rewrite (byte_high_bit a0), (byte_high_bit a1), (byte_high_bit a2) by lia. simpl. f_equal. lia.
  - rewrite Z.mod_pow2_bits_high by lia. symmetry. apply byte_high_bit; [apply b2z_range|lia].
Qed.

Lemma encode_word_lxor (b : bytes) (j : nat) (n : Z) :
  encode_word (Z.lxor (decode_word b j) n) =
  zip_with bxor [nth j b x00; nth (j + 1) b x00; nth (j + 2) b x00; nth (j + 3) b x00] (encode_word n).
Proof.
  assert (E : forall i, (i < 4)%nat ->
    z2b (Z.land (Z.shiftr (Z.lxor (decode_word b j) n) (8 * Z.of_nat i)) 255) =
    bxor (nth (j + i) b x00) (z2b (Z.land (Z.shiftr n (8 * Z.of_nat i)) 255))).
  { intros i Hi. rewrite Z.shiftr_lxor, land_lxor_distr, decode_word_byte by done. unfold bxor. rewrite b2z_z2b.
    f_equal. f_equal. change 255 with (Z.ones 8). rewrite Z.land_ones by lia. change (2 ^ 8) with 256. by rewrite Z.mod_mod. }
  unfold encode_word. cbn [fmap list_fmap zip_with]. pose proof (E 0%nat ltac:(lia)) as E0. rewrite !Nat.add_0_r, !Z.mul_0_r, !Z.shiftr_0_r in E0.
  rewrite E0. pose proof (E 1%nat ltac:(lia)) as E1. pose proof (E 2%nat ltac:(lia)) as E2. pose proof (E 3%nat ltac:(lia)) as E3.
  change (8 * Z.of_nat 1) with 8 in E1. change (8 * Z.of_nat 2) with 16 in E2. change (8 * Z.of_nat 3) with 24 in E3. by rewrite E1, E2, E3.
Qed.

Lemma crypt_block_bytes (b : bytes) (n1 n2 : Z) : length b = 8%nat ->
  encode_word (Z.lxor (decode_word b 0) n1) ++ encode_word (Z.lxor (decode_word b 4) n2) = zip_with bxor b (encode_word n1 ++ encode_word n2).
Proof.
  intros Hb. do 8 (destruct b as [|? b]; [done|]). destruct b; [|done]. rewrite !encode_word_lxor. done.
Qed.

(** The counter runs on by [C2] and [C1]; every value of it gives eight bytes. *)
Fixpoint stream (g : g89) (n : nat) (N3 N4 : Z) : bytes :=
  match n with
  | O => []
  | S n' =>
      let N4 := addMod32_1 N4 C1 in
      let N3 := wrap U32 (N3 + C2) in
      let '(N1, N2) := cryptBlock g N3 N4 in
      (encode_word N1 ++ encode_word N2) ++ stream g n' N3 N4
  end.

Lemma length_stream g n : forall N3 N4, length (stream g n N3 N4) = (8 * n)%nat.
Proof.
  induction n as [|n IH]; intros N3 N4; [done|]. cbn [stream]. destruct (cryptBlock _ _ _). rewrite !length_app, IH.
  unfold encode_word. rewrite !length_fmap. cbn [length]. lia.
Qed.

(** The blocks the loop has before it, [k] whole ones and a last one of [remain] bytes. *)
Lemma cryptData_loop_spec (g : g89) (src beyond : bytes) (remain : nat) (Hr : (1 <= remain <= 8)%nat) (Hby : (7 <= length beyond)%nat) :
  forall (k fuel pos : nat) (N3 N4 : Z) (dst : bytes), (k < fuel)%nat -> (pos + 8 * k + remain = length src)%nat ->
  cryptData_loop fuel g (src ++ beyond) (zlen src - Z.of_nat remain + 1) remain pos N3 N4 dst =
  Some (dst ++ zip_with bxor (drop pos src) (stream g (S k) N3 N4)).
Proof.
  induction k as [|k IH]; intros [|fuel] pos N3 N4 dst Hf Hp; try lia; cbn [cryptData_loop stream];
    destruct (cryptBlock g _ _) as [N1 N2]; set (b := take 8 (drop pos (src ++ beyond)));
    assert (Hb : length b = 8%nat) by (unfold b; rewrite length_take, length_drop, length_app; lia);
    rewrite (crypt_block_bytes b N1 N2 Hb); set (w := encode_word N1 ++ encode_word N2).
  - destruct (Z.ltb_spec (Z.of_nat (pos + 8)) (zlen src - Z.of_nat remain + 1)); [lia|]. do 2 f_equal.
    rewrite app_nil_r, zip_with_take. unfold b. rewrite drop_app_le by lia.
    rewrite take_take, Nat.min_l by lia. rewrite take_app_le by (rewrite length_drop; lia). rewrite take_ge by (rewrite length_drop; lia).
    apply zip_with_take_r'. rewrite length_drop. lia.
  - destruct (Z.ltb_spec (Z.of_nat (pos + 8)) (zlen src - Z.of_nat remain + 1)); [|lia].
    rewrite IH by lia. rewrite <- app_assoc. do 2 f_equal.
    assert (Eb : b = take 8 (drop pos src)) by (unfold b; rewrite drop_app_le by lia; by rewrite take_app_le by (rewrite length_drop; lia)).
    rewrite <- (take_drop 8 (drop pos src)), drop_drop, <- Eb.
    by rewrite zip_with_app by (rewrite Hb; unfold w; by rewrite length_app).
Qed.

(** ** The cipher of a key *)

(** The text the key is made from, the object as [cryptData] uses it, and its stream. *)
Definition key_text (key : bytes) : bytes := if (length key <? 32)%nat then rfc1321 key else key.

Definition schedule (key : bytes) : g89 :=
  let K := key_text key in
  set_X (Md5.decode (take 32 K) 32)
    (setSync (le_value ((fun i => nth (4 * i) K x00) <$> seq 0 8))
      (setTable ((fun i => (fun j => nth (((i + 1) * j) mod (length K)) K x00) <$> seq 0 16) <$> seq 0 8) (G89 [] (0, 0) []))).

Definition keystream (key : bytes) (n : nat) : bytes :=
  let g := schedule key in
  let '(N3, N4) := cryptBlock g (Sync g).1 (Sync g).2 in stream g n N3 N4.

Lemma length_keystream key n : length (keystream key n) = (8 * n)%nat.
Proof. unfold keystream. destruct (cryptBlock _ _ _). apply length_stream. Qed.

Definition blocks (m : bytes) : nat := ((length m + 7) / 8)%nat.

Lemma blocks_enough m : (length m <= 8 * blocks m)%nat.
Proof. unfold blocks. pose proof (Nat.div_mod_eq (length m + 7) 8). pose proof (Nat.mod_upper_bound (length m + 7) 8). lia. Qed.

Definition memory_ok (mem : memory) : Prop := length (md5_buffer mem) = 64%nat /\ (7 <= length (beyond mem))%nat.

Lemma cryptData_spec (src beyond password : bytes) (g : g89) : (7 <= length beyond)%nat ->
  exists g', cryptData src beyond password g =
    Some (zip_with bxor src (let g := set_X (Md5.decode password 32) g in
                             let '(N3, N4) := cryptBlock g (Sync g).1 (Sync g).2 in stream g (blocks src) N3 N4), g').
Proof.
  intros Hby. unfold cryptData. destruct (decide (length src = 0%nat)) as [E|E].
  { destruct src; [|done]. by exists g. }
  cbv zeta. destruct (cryptBlock _ _ _) as [N3 N4]. eexists. pose proof (Nat.div_mod_eq (length src) 8) as Hd. pose proof (Nat.mod_upper_bound (length src) 8 ltac:(lia)) as Hm.
  set (remain := if decide _ then 8%nat else _). set (k := ((length src - remain) / 8)%nat).
  assert (Hr : (1 <= remain <= 8)%nat /\ (8 * k + remain = length src)%nat).
  { unfold k, remain. destruct (decide _) as [Hz|Hz].
    - split; [lia|]. assert (Hx : ((length src - 8) / 8 = length src / 8 - 1)%nat).
      { symmetry. apply Nat.div_unique with 0%nat; lia. } rewrite Hx. lia.
    - split; [lia|]. assert (Hx : ((length src - length src mod 8) / 8 = length src / 8)%nat) by (symmetry; apply Nat.div_unique with 0%nat; lia).
      rewrite Hx. lia. }
  destruct Hr as [Hr Hk]. rewrite (cryptData_loop_spec _ src beyond remain Hr Hby k) by lia. cbn [mbind option_bind]. rewrite drop_0, app_nil_l.
  replace (blocks src) with (S k); [done|]. unfold blocks. apply Nat.div_unique with (remain - 1)%nat; lia.
Qed.

(** The copies: all of it, or no end. *)
Lemma copy_from src : zlen src < 2 ^ 32 -> forall fuel i, 0 <= i <= zlen src -> zlen src - i < Z.of_nat fuel -> copy fuel src i (take (Z.to_nat i) src) = Some src.
Proof.
  intros Hs. induction fuel as [|fuel IH]; intros i Hi Hf; [lia|]. cbn [copy]. destruct (Z.ltb_spec i (zlen src)) as [Hl|Hl].
  - destruct (lookup_lt_is_Some_2 src (Z.to_nat i)) as [b Hb]; [lia|]. rewrite (nth_lookup_Some _ _ _ _ Hb), <- (take_S_r _ _ _ Hb).
    rewrite wrap_id by range_lia. replace (S (Z.to_nat i)) with (Z.to_nat (i + 1)) by lia. apply IH; lia.
  - f_equal. apply take_ge. lia.
Qed.

Lemma copy_all src : zlen src < 2 ^ 32 -> copy (S (length src)) src 0 [] = Some src.
Proof. intros Hs. apply (copy_from src Hs _ 0); lia. Qed.

Lemma copy_endless src : 2 ^ 32 <= zlen src -> forall fuel i dst, 0 <= i < 2 ^ 32 -> copy fuel src i dst = None.
Proof.
  intros Hs. induction fuel as [|fuel IH]; intros i dst Hi; cbn [copy]; [done|]. rewrite (proj2 (Z.ltb_lt _ _)) by lia. apply IH.
  unfold wrap. change (2 ^ bits U32) with (2 ^ 32). pose proof (Z.mod_pos_bound (i + 1 - min_val U32) (2 ^ 32) ltac:(lia)). change (min_val U32) with 0 in *. lia.
Qed.

(** No amount of time is enough for a message of 2^32 bytes. *)
Lemma crypt_endless mem m key g : 2 ^ 32 <= zlen m -> crypt mem m key g = None.
Proof. intros Hm. unfold crypt. destruct (prepare _ _ _) as [[k g']|]; [|done]. cbn [mbind option_bind]. by rewrite copy_endless by (done || lia). Qed.

Lemma crypt_spec (mem : memory) (m key : bytes) (g : g89) : memory_ok mem -> zlen key < 2 ^ 29 -> zlen m < 2 ^ 32 ->
  exists g', crypt mem m key g = Some (zip_with bxor m (keystream key (blocks m)), g').
Proof.
  intros [Hbuf Hby] Hkey Hm. unfold crypt, prepare.
  assert (E : (if (length key <? 32)%nat then md5_hex (md5_buffer mem) key else Some key) = Some (key_text key)).
  { unfold key_text. destruct (length key <? 32)%nat; [|done]. by apply md5_hex_rfc1321. }
  rewrite E. cbn [mbind option_bind]. rewrite copy_all by done. destruct (cryptData_spec m (beyond mem) (take 32 (key_text key)) 
    (setSync (le_value ((fun i => nth (4 * i) (key_text key) x00) <$> seq 0 8))
      (setTable ((fun i => (fun j => nth (((i + 1) * j) mod (length (key_text key))) (key_text key) x00) <$> seq 0 16) <$> seq 0 8) g)) Hby) as [g' Eg].
  exists g'. cbn [mbind option_bind]. rewrite Eg. cbn [mbind option_bind].
  rewrite copy_all; [done|]. rewrite length_zip_with. lia.
Qed.

Lemma decrypt_crypt_same mem m key g : decrypt mem m key g = crypt mem m key g.
Proof. done. Qed.

(** Any two calls under one key. *)
Lemma decrypt_crypt (mem mem' : memory) (m key : bytes) (g : g89)
  (Hmem : memory_ok mem) (Hmem' : memory_ok mem') (Hkey : zlen key < 2 ^ 29) (Hm : zlen m < 2 ^ 32) :
  exists c g', crypt mem m key g = Some (c, g') /\ length c = length m /\
    forall g2 : g89, exists g3, decrypt mem' c key g2 = Some (m, g3).
Proof.
  destruct (crypt_spec mem m key g Hmem Hkey Hm) as [g' E]. eexists _, g'. split; [exact E|]. pose proof (blocks_enough m) as Hb.
  assert (Hl : length (zip_with bxor m (keystream key (blocks m))) = length m) by (rewrite length_zip_with, length_keystream; lia).
  split; [exact Hl|]. intros g2. rewrite decrypt_crypt_same.
  destruct (crypt_spec mem' (zip_with bxor m (keystream key (blocks m))) key g2 Hmem' Hkey ltac:(rewrite Hl; lia)) as [g3 E3]. exists g3. rewrite E3.
  assert (Hbl : blocks (zip_with bxor m (keystream key (blocks m))) = blocks m) by (unfold blocks at 1; by rewrite Hl).
  rewrite Hbl. by rewrite zip_bxor_twice by (rewrite length_keystream; lia).
Qed.

(** C31: [decrypt] undoes [crypt]: under the same key, on objects in any state and whatever the uninitialized memory holds,
    a message of fewer than 2^32 bytes, also one that does not end on a block, is encrypted to a text of its length, and
    decrypting this text gives the message; a message of 2^32 bytes or more is never encrypted, as the copy of it does not end. *)
Theorem gost_decrypt_crypt (mem mem' : memory) (m key : bytes) (g : g89)
  (Hmem : memory_ok mem) (Hmem' : memory_ok mem') (Hkey : zlen key < 2 ^ 29) :
  if zlen m <? 2 ^ 32 then
    exists c g', crypt mem m key g = Some (c, g') /\ length c = length m /\
      forall g2 : g89, exists g3, decrypt mem' c key g2 = Some (m, g3)
  else crypt mem m key g = None /\ forall fuel, copy fuel m 0 [] = None.
Proof.
  destruct (Z.ltb_spec (zlen m) (2 ^ 32)) as [Hm|Hm]; [by apply decrypt_crypt|]. split; [by apply crypt_endless|]. intros fuel. apply copy_endless; [done|lia].
Qed.

Lemma gost_decrypt_crypt_witness :
  exists c g', crypt (ex_memory x00) (lit "attack at dawn") (lit "secret") ex_g89 = Some (c, g') /\ length c = 14%nat /\
    forall g2 : g89, exists g3, decrypt (ex_memory xff) c (lit "secret") g2 = Some (lit "attack at dawn", g3).
Proof. apply (gost_decrypt_crypt (ex_memory x00) (ex_memory xff) (lit "attack at dawn") (lit "secret") ex_g89); [split; simpl; lia|split; simpl; lia|reflexivity]. Defined.

(** The counter starts from the key alone, so that two messages under one key are combined
    with the same stream: what one knows of one message shows the other. *)
Lemma crypt_one_stream (mem : memory) (m1 m2 key c1 c2 : bytes) (g g1 g2 : g89) : memory_ok mem -> zlen key < 2 ^ 29 -> zlen m1 < 2 ^ 32 -> length m1 = length m2 ->
  crypt mem m1 key g = Some (c1, g1) -> crypt mem m2 key g = Some (c2, g2) -> zip_with bxor c1 m1 = zip_with bxor c2 m2.
Proof.
  intros Hmem Hkey Hm1 Hl E1 E2. destruct (crypt_spec mem m1 key g Hmem Hkey Hm1) as [? F1]. destruct (crypt_spec mem m2 key g Hmem Hkey ltac:(lia)) as [? F2].
  rewrite F1 in E1. rewrite F2 in E2. simplify_eq. unfold blocks. rewrite <- Hl. fold (blocks m1). pose proof (blocks_enough m1) as Hb.
  assert (Hs : (length m1 <= length (keystream key (blocks m1)))%nat) by (rewrite length_keystream; lia).
  assert (G : forall m s : bytes, (length m <= length s)%nat -> zip_with bxor (zip_with bxor m s) m = take (length m) s).
  { intros m. induction m as [|a m IH]; intros [|b s] Hms; simpl in *; [done..|lia|]. rewrite IH by lia. f_equal.
    rewrite <- (bxor_bxor b a) at 2. unfold bxor. by rewrite (Z.lxor_comm (b2z a)). }
  rewrite !G by lia. by rewrite Hl.
Qed.
