(* ===== verification/DhDigits.v ===== *)
(** * Digit strings of the big numbers ([libs/DH/dh.cpp])

    A magnitude is a vector of 32-bit digits, the least significant first; the primitives of
    [DH] work on such vectors in place with 64-bit intermediate values.  Each is shown to
    compute the operation on the values of the vectors, with no 64-bit value wrapping; the long
    division is that of Knuth's algorithm D. *)

From S2P Require Import Prelude.
From Stdlib Require Import ZArith Lia.
From stdpp Require Import base numbers list.
Open Scope Z_scope.

(** ** The code *)

Definition single_bits := 32.
Definition dbase := 2 ^ 32.
Definition single_max := dbase - 1.
Definition onedig (z : Z) : Z := wrap U32 z.
Definition twodig (z : Z) : Z := wrap U64 z.

(** [digit_mul(b, l, d)]: the product, which replaces [b], and the digit that overflows. *)
Fixpoint digit_mul1 (b : list Z) (d p : Z) : list Z * Z :=
  match b with
  | [] => ([], onedig p)
  | x :: b' =>
      let p := twodig (p + twodig (d * x)) in
      let '(r, c) := digit_mul1 b' d (Z.shiftr p single_bits) in (onedig p :: r, c)
  end.

(** [digit_mul(a, la, b, lb, r)]: one pass of the outer loop works on the digits of [r] from
    its place on, and [++r] leaves the first of them as it is.  [r] has a digit for every one
    the loops write. *)
Fixpoint mul_row (d p : Z) (b r : list Z) : list Z :=
  match b, r with
  | [], _ :: r' => onedig p :: r'
  | x :: b', y :: r' =>
      let p := twodig (p + twodig (y + twodig (d * x))) in
      onedig p :: mul_row d (Z.shiftr p single_bits) b' r'
  | _, [] => []
  end.
Fixpoint mul_rows (a b r : list Z) : list Z :=
  match a with
  | [] => r
  | d :: a' => match mul_row d 0 b r with [] => [] | x :: r' => x :: mul_rows a' b r' end
  end.
Definition digit_mul2 (a b : list Z) : list Z := mul_rows a b (replicate (length a + length b) 0).

(** [digit_add(d1, l1, d2, l2, r)] for l1 >= l2: the digits and the carry.  The rest of [d1] is
    copied as soon as there is no carry. *)
Fixpoint digit_add (c : Z) (d1 d2 : list Z) : list Z * Z :=
  match d1, d2 with
  | x :: d1', y :: d2' =>
      let c := twodig (c + twodig (x + y)) in
      let '(r, c') := digit_add (Z.shiftr c single_bits) d1' d2' in (onedig c :: r, c')
  | x :: d1', [] =>
      let c := twodig (c + x) in
      let c' := Z.shiftr c single_bits in
      if c' =? 0 then (onedig c :: d1', 0)
      else let '(r, c'') := digit_add c' d1' [] in (onedig c :: r, c'')
  | [], _ => ([], onedig c)
  end.

(** [digit_sub]: [c] is one when nothing has been borrowed. *)
Fixpoint digit_sub (c : Z) (d1 d2 : list Z) : list Z :=
  match d1, d2 with
  | x :: d1', y :: d2' =>
      let c := twodig (c + twodig (twodig (x + single_max) - y)) in
      onedig c :: digit_sub (Z.shiftr c single_bits) d1' d2'
  | x :: d1', [] =>
      if negb (c =? 0) then x :: d1'
      else let c := twodig (x + single_max) in onedig c :: digit_sub (Z.shiftr c single_bits) d1' []
  | [], _ => []
  end.

(** [digit_div(b, l, d)]: the quotient, which replaces [b], and the remainder; the loop goes
    from the last digit to the first. *)
Fixpoint digit_div1_loop (b : list Z) (d : Z) : list Z * Z :=
  match b with
  | [] => ([], 0)
  | x :: b' =>
      let '(q, r) := digit_div1_loop b' d in
      let r := Z.lor (twodig (Z.shiftl r single_bits)) x in
      (onedig (r / d) :: q, r mod d)
  end.
Definition digit_div1 (b : list Z) (d : Z) : option (list Z * Z) :=
  if (d =? 0) && negb (bool_decide (b = [])) then None else Some (digit_div1_loop b d).

(** [digit_cmp(a, b, n)]: the last digit that differs decides. *)
Fixpoint digit_cmp (a b : list Z) : Z :=
  match a, b with
  | x :: a', y :: b' =>
      let c := digit_cmp a' b' in
      if negb (c =? 0) then c else if x <? y then -1 else if y <? x then 1 else 0
  | _, _ => 0
  end.

(** [guess_q]: [r0], [r1], [r2] are r[0], r[-1], r[-2], and [y0], [y1] are y[0], y[-1].  The
    loop decrements [q] at most twice when [y0] has its highest bit set. *)
Fixpoint guess_loop (fuel : nat) (r0 r1 r2 y0 y1 q : Z) : option Z :=
  match fuel with
  | O => None
  | S fuel' =>
      let p := twodig (q * y1) in
      let t0 := onedig p in
      let p := twodig (Z.shiftr p single_bits + twodig (q * y0)) in
      let t1 := onedig p in
      let t2 := onedig (Z.shiftr p single_bits) in
      if digit_cmp [t0; t1; t2] [r2; r1; r0] <=? 0 then Some q else guess_loop fuel' r0 r1 r2 y0 y1 (onedig (q - 1))
  end.
Definition guess_q (r0 r1 r2 y0 y1 : Z) : option Z :=
  let q := onedig (if y0 =? r0 then single_max else Z.lor (twodig (Z.shiftl r0 single_bits)) r1 / y0) in
  guess_loop 3 r0 r1 r2 y0 y1 q.

(** [multiply_and_subtract(r, y, l, q)]: the first l + 1 digits of [r], and one when nothing
    is borrowed. *)
Fixpoint msub_loop (q p h : Z) (y r : list Z) : list Z * Z :=
  match y, r with
  | x :: y', d :: r' =>
      let p := twodig (p + twodig (q * x)) in
      let h := twodig (h + d) in
      let h := twodig (h + single_max) in
      let h := twodig (h - onedig p) in
      let '(o, c) := msub_loop q (Z.shiftr p single_bits) (Z.shiftr h single_bits) y' r' in (onedig h :: o, c)
  | [], d :: r' =>
      let h := twodig (h + d) in
      let h := twodig (h + single_max) in
      let h := twodig (h - p) in
      (onedig h :: r', onedig (Z.shiftr h single_bits))
  | _, [] => ([], 0)
  end.
Definition multiply_and_subtract (r y : list Z) (q : Z) : list Z * Z := msub_loop q 0 1 y r.

(** [add_back(r, y, l)]. *)
Fixpoint add_back_loop (h : Z) (y r : list Z) : list Z :=
  match y, r with
  | x :: y', d :: r' =>
      let h := twodig (twodig (h + d) + x) in
      onedig h :: add_back_loop (Z.shiftr h single_bits) y' r'
  | [], _ :: r' => 0 :: r'
  | _, [] => []
  end.
Definition add_back (r y : list Z) : list Z := add_back_loop 0 y r.

(** One pass of [digit_div(r, y, yl, q, ql)], at the place of [r], and the loop, which goes
    from the last place to the first. *)
Definition div_step (r y : list Z) : option (list Z * Z) :=
  let yl := length y in
  r0 ← r !! yl; r1 ← r !! (yl - 1)%nat; r2 ← r !! (yl - 2)%nat;
  y0 ← y !! (yl - 1)%nat; y1 ← y !! (yl - 2)%nat;
  qh ← guess_q r0 r1 r2 y0 y1;
  let '(r', c) := multiply_and_subtract r y qh in
  Some (if c =? 0 then (add_back r' y, onedig (qh - 1)) else (r', qh)).
Fixpoint digit_div (y : list Z) (ql : nat) (r : list Z) : option (list Z * list Z) :=
  match ql, r with
  | O, _ => Some (r, [])
  | S ql', x :: r1 =>
      '(r1, q) ← digit_div y ql' r1;
      '(r2, qh) ← div_step (x :: r1) y;
      Some (r2, qh :: q)
  | S _, [] => None
  end.

Example digit_div_check :
  digit_div [1; 0x80000000] 2 [7; 5; 3; 0] = Some ([1; 5; 0; 0], [6; 0]).
Proof. by vm_compute. Qed.

(** ** Values *)

Fixpoint value (l : list Z) : Z := match l with [] => 0 | d :: l' => d + dbase * value l' end.

Definition dig (d : Z) : Prop := 0 <= d < dbase.
Notation digs := (Forall dig).

(** The weight of the place [n]. *)
Definition weight (n : nat) : Z := dbase ^ Z.of_nat n.

Lemma weight_0 : weight 0 = 1.
Proof. done. Qed.
Lemma weight_S n : weight (S n) = dbase * weight n.
Proof. unfold weight. rewrite Nat2Z.inj_succ, Z.pow_succ_r by lia. done. Qed.
Lemma weight_pos n : 0 < weight n.
Proof. unfold weight, dbase. apply Z.pow_pos_nonneg; lia. Qed.
Lemma weight_add m n : weight (m + n) = weight m * weight n.
Proof. unfold weight. rewrite Nat2Z.inj_add, Z.pow_add_r by lia. done. Qed.

Lemma value_app l1 l2 : value (l1 ++ l2) = value l1 + weight (length l1) * value l2.
Proof. induction l1 as [|d l1 IH]; [cbn [app value length]; rewrite weight_0; lia|]. cbn [app value length]. rewrite IH, weight_S. lia. Qed.

Lemma value_range l : digs l -> 0 <= value l < weight (length l).
Proof.
  induction 1 as [|d l Hd Hl IH]; [cbn [value length]; rewrite weight_0; lia|]. cbn [value length]. rewrite weight_S. unfold dig, dbase in *. nia.
Qed.

Lemma value_zeros n : value (replicate n 0) = 0.
Proof. induction n as [|n IH]; [done|]. cbn [replicate value]. rewrite IH. lia. Qed.

Lemma digs_zeros n : digs (replicate n 0).
Proof. apply Forall_replicate. unfold dig, dbase. lia. Qed.

Lemma value_inj l1 : forall l2, digs l1 -> digs l2 -> length l1 = length l2 -> value l1 = value l2 -> l1 = l2.
Proof.
  induction l1 as [|x l1 IH]; intros [|y l2] H1 H2 Hl Hv; try done. apply Forall_cons in H1 as [Hx H1]. apply Forall_cons in H2 as [Hy H2].
  cbn [value length] in *. unfold dig, dbase in *. assert (Hxy : x = y) by lia. rewrite Hxy in *. f_equal. apply IH; [done|done|lia|lia].
Qed.

(** A vector of which the value fits the first [n] digits has zeros after them. *)
Lemma value_small n : forall l, digs l -> value l < weight n -> drop n l = replicate (length l - n) 0.
Proof.
  induction n as [|n IH]; intros [|x l] Hl Hv; try done.
  - rewrite drop_0, Nat.sub_0_r. apply value_inj; [done|apply digs_zeros|by rewrite length_replicate|].
    rewrite value_zeros. pose proof (value_range _ Hl). rewrite weight_0 in Hv. lia.
  - apply Forall_cons in Hl as [Hx Hl]. cbn [drop length value] in *. rewrite weight_S in Hv. apply IH; [done|].
    unfold dig, dbase in *. lia.
Qed.

(** ** Machine values *)

Lemma onedig_mod z : onedig z = z mod dbase.
Proof. unfold onedig, wrap, dbase. change (min_val U32) with 0. change (bits U32) with 32. by rewrite Z.sub_0_r, Z.add_0_r. Qed.
Lemma onedig_dig z : dig (onedig z).
Proof. rewrite onedig_mod. unfold dig, dbase. apply Z.mod_pos_bound. lia. Qed.
Lemma onedig_id z : dig z -> onedig z = z.
Proof. intros Hz. rewrite onedig_mod. apply Z.mod_small. done. Qed.
Lemma twodig_id z : 0 <= z < dbase * dbase -> twodig z = z.
Proof. unfold dbase. intros Hz. apply wrap_id. apply in_range_U64. lia. Qed.
Lemma high_div z : Z.shiftr z single_bits = z / dbase.
Proof. unfold single_bits, dbase. by rewrite Z.shiftr_div_pow2. Qed.
Lemma high_low z : z = onedig z + dbase * (z / dbase).
Proof. rewrite onedig_mod. pose proof (Z.div_mod z dbase). unfold dbase in *. lia. Qed.
Lemma high_dig z : 0 <= z < dbase * dbase -> dig (z / dbase).
Proof. unfold dig, dbase. intros Hz. dlia. Qed.
Lemma mul_dig x y : dig x -> dig y -> 0 <= x * y <= (dbase - 1) * (dbase - 1).
Proof. unfold dig, dbase. intros Hx Hy. nia. Qed.
Lemma join_digits r x : 0 <= r -> dig x -> r < dbase -> Z.lor (twodig (Z.shiftl r single_bits)) x = r * dbase + x.
Proof.
  intros Hr Hx Hb. unfold single_bits. rewrite Z.shiftl_mul_pow2 by lia. change (2 ^ 32) with dbase. rewrite twodig_id by (unfold dbase in *; nia).
  unfold dig, dbase in *. rewrite <- Z.lxor_lor, <- Z.add_nocarry_lxor; try done.
  all: apply Z.bits_inj'; intros n Hn; rewrite Z.land_spec, Z.bits_0, <- Z.shiftl_mul_pow2, Z.shiftl_spec by lia;
    destruct (Z.ltb_spec n 32) as [Hl|Hg]; [by rewrite Z.testbit_neg_r by lia|];
    rewrite (proj2 (Z.testbit_false x n Hn)), andb_false_r; [done|];
    rewrite Z.div_small; [done|]; pose proof (Z.pow_le_mono_r 2 32 n ltac:(lia) ltac:(lia)); lia.
Qed.

(** Unfolds what is known of machine values. *)
Ltac digits := unfold dig, single_max, dbase in *; lia.
#[local] Hint Resolve onedig_dig : core.

(** ** Products *)

Lemma digit_mul1_value b : forall d p, digs b -> dig d -> dig p ->
  let '(r, c) := digit_mul1 b d p in
  length r = length b /\ digs r /\ dig c /\ value r + weight (length b) * c = d * value b + p.
Proof.
  induction b as [|x b IH]; intros d p Hb Hd Hp; cbn [digit_mul1].
  - rewrite onedig_id by done. split_and!; [done|done|done|]. cbn [value length]. rewrite weight_0. lia.
  - apply Forall_cons in Hb as [Hx Hb]. pose proof (mul_dig d x Hd Hx) as Hm.
    rewrite (twodig_id (d * x)), twodig_id by digits. rewrite high_div.
    specialize (IH d ((p + d * x) / dbase) Hb Hd ltac:(apply high_dig; digits)).
    destruct (digit_mul1 b d _) as [r c]. destruct IH as (Hl & Hr & Hc & E). cbn [length value]. rewrite weight_S.
    split_and!; [lia|by constructor|done|]. pose proof (high_low (p + d * x)). nia.
Qed.

Lemma mul_row_value b : forall d p r, digs b -> digs r -> dig d -> dig p -> (length b < length r)%nat -> nth (length b) r 0 = 0 ->
  length (mul_row d p b r) = length r /\ digs (mul_row d p b r) /\ drop (S (length b)) (mul_row d p b r) = drop (S (length b)) r /\
  value (mul_row d p b r) = value r + d * value b + p.
Proof.
  induction b as [|x b IH]; intros d p [|y r] Hb Hr Hd Hp Hl Hn; cbn [length] in *; try lia; cbn [mul_row].
  - cbn [nth] in Hn. apply Forall_cons in Hr as [Hy Hr]. rewrite onedig_id by done. split_and!; [done|by constructor|done|]. cbn [value]. lia.
  - apply Forall_cons in Hb as [Hx Hb]. apply Forall_cons in Hr as [Hy Hr]. pose proof (mul_dig d x Hd Hx) as Hm.
    rewrite (twodig_id (d * x)), (twodig_id (y + d * x)), twodig_id by digits. rewrite high_div.
    destruct (IH d ((p + (y + d * x)) / dbase) r Hb Hr Hd) as (Hl' & Hr' & Hd' & E); [apply high_dig; digits|lia|done|].
    split_and!; [cbn [length]; lia|by constructor|done|]. cbn [value]. rewrite E. pose proof (high_low (p + (y + d * x))). nia.
Qed.

Lemma mul_rows_value a : forall b r, digs a -> digs b -> digs r -> (length r = length a + length b)%nat -> drop (length b) r = replicate (length a) 0 ->
  length (mul_rows a b r) = length r /\ digs (mul_rows a b r) /\ value (mul_rows a b r) = value r + value a * value b.
Proof.
  induction a as [|d a IH]; intros b r Ha Hb Hr Hl Hz; cbn [mul_rows]; [split_and!; [done|done|cbn [value]; lia]|].
  apply Forall_cons in Ha as [Hd Ha]. cbn [length] in *.
  assert (Hn : nth (length b) r 0 = 0).
  { rewrite <- (take_drop (length b) r), app_nth2, length_take, Nat.min_l, Nat.sub_diag, Hz by (rewrite ?length_take; lia). done. }
  destruct (mul_row_value b d 0 r Hb Hr Hd ltac:(digits) ltac:(lia) Hn) as (Hl' & Hr' & Hd' & E).
  destruct (mul_row d 0 b r) as [|x r'] eqn:Em; cbn [length] in *; [lia|]. apply Forall_cons in Hr' as [Hx Hr'].
  destruct (IH b r' Ha Hb Hr' ltac:(lia)) as (Hl2 & Hr2 & E2).
  { cbn [drop] in Hd'. rewrite Hd', <- Nat.add_1_r, <- drop_drop, Hz. done. }
  split_and!; [lia|by constructor|]. cbn [value] in *. nia.
Qed.

(** The product of two vectors. *)
Lemma digit_mul2_value a b : digs a -> digs b ->
  length (digit_mul2 a b) = (length a + length b)%nat /\ digs (digit_mul2 a b) /\ value (digit_mul2 a b) = value a * value b.
Proof.
  intros Ha Hb. destruct (mul_rows_value a b (replicate (length a + length b) 0) Ha Hb (digs_zeros _)) as (Hl & Hr & E).
  - by rewrite length_replicate.
  - rewrite drop_replicate. f_equal. lia.
  - unfold digit_mul2. rewrite Hl, length_replicate, E, value_zeros. done.
Qed.

(** ** Sums and differences *)

Lemma digit_add_value d1 : forall c d2, digs d1 -> digs d2 -> 0 <= c <= 1 -> (length d2 <= length d1)%nat ->
  let '(r, c') := digit_add c d1 d2 in
  length r = length d1 /\ digs r /\ 0 <= c' <= 1 /\ value r + weight (length d1) * c' = value d1 + value d2 + c.
Proof.
  induction d1 as [|x d1 IH]; intros c [|y d2] H1 H2 Hc Hl; cbn [length] in Hl; try lia; cbn [digit_add].
  - rewrite onedig_id by digits. split_and!; [done|done|lia..|]. cbn [value length]. rewrite weight_0. lia.
  - apply Forall_cons in H1 as [Hx H1]. rewrite twodig_id by digits. rewrite high_div. pose proof (high_low (c + x)) as E0.
    assert (Hc' : 0 <= (c + x) / dbase <= 1) by (unfold dig, dbase in *; dlia).
    destruct (Z.eqb_spec ((c + x) / dbase) 0) as [Hz|Hz].
    + split_and!; [done|by constructor|lia..|]. cbn [value]. nia.
    + specialize (IH ((c + x) / dbase) [] H1 H2 Hc' ltac:(simpl; lia)). destruct (digit_add _ d1 []) as [r c'].
      destruct IH as (Hl' & Hr & Hc2 & E). cbn [length value] in *. rewrite weight_S. split_and!; [lia|by constructor|lia..|]. nia.
  - apply Forall_cons in H1 as [Hx H1]. apply Forall_cons in H2 as [Hy H2]. rewrite (twodig_id (x + y)), twodig_id by digits. rewrite high_div.
    pose proof (high_low (c + (x + y))) as E0. assert (Hc' : 0 <= (c + (x + y)) / dbase <= 1) by (unfold dig, dbase in *; dlia).
    specialize (IH ((c + (x + y)) / dbase) d2 H1 H2 Hc' ltac:(lia)). destruct (digit_add _ d1 d2) as [r c'].
    destruct IH as (Hl' & Hr & Hc2 & E). cbn [length value] in *. rewrite weight_S. split_and!; [lia|by constructor|lia..|]. nia.
Qed.

Lemma digit_sub_value d1 : forall c d2, digs d1 -> digs d2 -> 0 <= c <= 1 -> (length d2 <= length d1)%nat -> value d2 <= value d1 + c - 1 ->
  length (digit_sub c d1 d2) = length d1 /\ digs (digit_sub c d1 d2) /\ value (digit_sub c d1 d2) = value d1 - value d2 + c - 1.
Proof.
  induction d1 as [|x d1 IH]; intros c [|y d2] H1 H2 Hc Hl Hv; cbn [length] in Hl; try lia; cbn [digit_sub].
  - cbn [value] in *. split_and!; [done|done|lia].
  - apply Forall_cons in H1 as [Hx H1]. destruct (Z.eqb_spec c 0) as [->|Hz]; cbn [negb].
    + rewrite twodig_id by digits. rewrite high_div. pose proof (high_low (x + single_max)) as E0.
      assert (Hc' : 0 <= (x + single_max) / dbase <= 1) by (unfold dig, single_max, dbase in *; dlia).
      pose proof (onedig_dig (x + single_max)) as Ho. cbn [value] in *.
      destruct (IH ((x + single_max) / dbase) [] H1 H2 Hc' ltac:(simpl; lia)) as (Hl' & Hr & E);
        [cbn [value]; unfold dig, single_max, dbase in *; nia|].
      cbn [length value] in *. split_and!; [lia|by constructor|]. unfold single_max in *. nia.
    + split_and!; [done|by constructor|]. cbn [value]. lia.
  - apply Forall_cons in H1 as [Hx H1]. apply Forall_cons in H2 as [Hy H2]. rewrite (twodig_id (x + single_max)), (twodig_id (x + single_max - y)), twodig_id by digits.
    rewrite high_div. set (s := c + (x + single_max - y)). pose proof (high_low s) as E0.
    assert (Hc' : 0 <= s / dbase <= 1) by (unfold s, dig, single_max, dbase in *; dlia). pose proof (onedig_dig s) as Ho. cbn [value] in *.
    destruct (IH (s / dbase) d2 H1 H2 Hc' ltac:(lia)) as (Hl' & Hr & E); [unfold s, dig, single_max, dbase in *; nia|].
    cbn [length value] in *. split_and!; [lia|by constructor|]. unfold s, single_max in *. nia.
Qed.

(** ** Division by a digit *)

Lemma digit_div1_loop_value b d : digs b -> 0 < d < dbase ->
  let '(q, r) := digit_div1_loop b d in
  length q = length b /\ digs q /\ 0 <= r < d /\ value b = d * value q + r.
Proof.
  intros Hb Hd. induction Hb as [|x b Hx Hb IH]; cbn [digit_div1_loop]; [cbn [value]; split_and!; [done|done|lia..]|].
  destruct (digit_div1_loop b d) as [q r]. destruct IH as (Hl & Hq & Hr & E). rewrite join_digits by digits.
  assert (Hqd : dig ((r * dbase + x) / d)).
  { unfold dig. split; [apply Z.div_pos; digits|]. apply Z.div_lt_upper_bound; [lia|]. unfold dig, dbase in *. nia. }
  rewrite onedig_id by done. pose proof (Z.mod_pos_bound (r * dbase + x) d ltac:(lia)). pose proof (Z.div_mod (r * dbase + x) d ltac:(lia)).
  cbn [length value]. split_and!; [lia|by constructor|lia..|]. rewrite E. nia.
Qed.

Lemma digit_div1_value b d : digs b -> 0 < d < dbase ->
  exists q r, digit_div1 b d = Some (q, r) /\ length q = length b /\ digs q /\ r = value b mod d /\ value q = value b / d.
Proof.
  intros Hb Hd. pose proof (digit_div1_loop_value b d Hb Hd) as Hv. unfold digit_div1.
  destruct (digit_div1_loop b d) as [q r]. destruct Hv as (Hl & Hq & Hr & E). exists q, r. destruct (Z.eqb_spec d 0); [lia|].
  split_and!; [done|done|done| |].
  - apply (Z.mod_unique _ _ (value q)); lia.
  - apply (Z.div_unique _ _ _ r); lia.
Qed.

(** ** Comparison *)

Lemma digit_cmp_value a : forall b, digs a -> digs b -> length a = length b ->
  (digit_cmp a b = -1 /\ value a < value b) \/ (digit_cmp a b = 0 /\ a = b) \/ (digit_cmp a b = 1 /\ value b < value a).
Proof.
  induction a as [|x a IH]; intros [|y b] Ha Hb Hl; try done; [by right; left|]. apply Forall_cons in Ha as [Hx Ha]. apply Forall_cons in Hb as [Hy Hb].
  cbn [digit_cmp value length] in *. unfold dig, dbase in *. destruct (IH b Ha Hb ltac:(lia)) as [[-> Hv]|[[-> ->]|[-> Hv]]]; cbn [Z.eqb negb].
  - left. split; [done|lia].
  - destruct (Z.ltb_spec x y); [left; split; [done|lia]|]. destruct (Z.ltb_spec y x); [right; right; split; [done|lia]|].
    right. left. split; [done|]. f_equal. lia.
  - right. right. split; [done|lia].
Qed.

(** ** Long division *)

Section guess.
Context (r0 r1 r2 y0 y1 : Z) (H0 : dig r0) (H1 : dig r1) (H2 : dig r2) (Hy0 : dig y0) (Hy1 : dig y1) (Hnorm : 2 ^ 31 <= y0).

Let R := (r0 * dbase + r1) * dbase + r2.
Let Y := y0 * dbase + y1.

Lemma guess_test q : dig q ->
  let p := twodig (q * y1) in
  let p' := twodig (Z.shiftr p single_bits + twodig (q * y0)) in
  (digit_cmp [onedig p; onedig p'; onedig (Z.shiftr p' single_bits)] [r2; r1; r0] <=? 0) = (q * Y <=? R).
Proof.
  intros Hq. pose proof (mul_dig q y1 Hq Hy1) as Hm1. pose proof (mul_dig q y0 Hq Hy0) as Hm0. cbv zeta. rewrite !high_div, !(twodig_id (q * _)) by digits.
  pose proof (high_dig (q * y1) ltac:(digits)) as Hh. rewrite twodig_id by digits. set (p' := q * y1 / dbase + q * y0).
  pose proof (high_dig p' ltac:(unfold p'; digits)) as Hh'. rewrite (onedig_id (p' / dbase)) by done.
  pose proof (high_low (q * y1)) as E. pose proof (high_low p') as E'.
  assert (Ev : value [onedig (q * y1); onedig p'; p' / dbase] = q * Y) by (unfold Y; cbn [value]; unfold p' in *; nia).
  assert (Er : value [r2; r1; r0] = R) by (unfold R; cbn [value]; lia).
  destruct (digit_cmp_value [onedig (q * y1); onedig p'; p' / dbase] [r2; r1; r0]) as [[-> Hv]|[[-> Hv]|[-> Hv]]];
    [by rewrite !Forall_cons|by rewrite !Forall_cons|done|..]; rewrite <- Ev, <- Er.
  - symmetry. apply Z.leb_le. lia.
  - rewrite Hv. symmetry. apply Z.leb_le. lia.
  - symmetry. apply Z.leb_gt. lia.
Qed.

Lemma guess_loop_S fuel q : dig q ->
  guess_loop (S fuel) r0 r1 r2 y0 y1 q = if q * Y <=? R then Some q else guess_loop fuel r0 r1 r2 y0 y1 (onedig (q - 1)).
Proof. intros Hq. cbn [guess_loop]. by rewrite (guess_test q Hq). Qed.

Lemma guess_loop_value fuel : forall q, dig q -> q <= R / Y + Z.of_nat fuel -> guess_loop (S fuel) r0 r1 r2 y0 y1 q = Some (Z.min q (R / Y)).
Proof.
  assert (HY : 0 < Y) by (unfold Y, dig, dbase in *; lia). assert (HR : 0 <= R / Y) by (apply Z.div_pos; unfold R, dig, dbase in *; lia).
  induction fuel as [|fuel IH]; intros q Hq Hf; rewrite (guess_loop_S _ q Hq); destruct (Z.leb_spec (q * Y) R) as [Hle|Hgt].
  - f_equal. apply Z.div_le_lower_bound with (a := R) (q := q) in HY as Hx; lia.
  - exfalso. assert (R / Y < q) by (apply Z.div_lt_upper_bound; lia). lia.
  - f_equal. assert (q <= R / Y) by (apply Z.div_le_lower_bound; lia). lia.
  - assert (Hlt : R / Y < q) by (apply Z.div_lt_upper_bound; lia).
    assert (Hq' : dig (q - 1)) by (unfold dig in *; lia). rewrite onedig_id by done.
    rewrite IH by (done || lia). f_equal. lia.
Qed.

(** The guess: at least the quotient of the leading digits, at most their best estimate. *)
Lemma guess_q_value : r0 <= y0 ->
  guess_q r0 r1 r2 y0 y1 = Some (Z.min (if y0 =? r0 then single_max else (r0 * dbase + r1) / y0) (R / Y)).
Proof.
  intros Hr. unfold guess_q. rewrite join_digits by digits. set (q0 := if y0 =? r0 then single_max else _).
  assert (Hq0 : dig q0 /\ q0 * y0 <= r0 * dbase + r1).
  { unfold q0. destruct (Z.eqb_spec y0 r0) as [E|E]; [unfold dig, single_max, dbase in *; nia|]. split.
    - unfold dig. split; [apply Z.div_pos; digits|]. apply Z.div_lt_upper_bound; unfold dig, dbase in *; nia.
    - rewrite Z.mul_comm. apply Z.mul_div_le. lia. }
  destruct Hq0 as [Hq0 Hb]. rewrite onedig_id by done. apply (guess_loop_value 2); [done|].
  assert (q0 - 2 <= R / Y); [|lia]. apply Z.div_le_lower_bound; [unfold Y, dig, dbase in *; lia|].
  assert (Hp : q0 * y1 <= (dbase - 1) * (dbase - 1)) by (by apply mul_dig).
  unfold R, Y, dig, dbase in *. change (2 ^ 31) with 2147483648 in *. change (2 ^ 32) with 4294967296 in *. nia.
Qed.
End guess.

Lemma msub_loop_value y : forall q p h r, digs y -> digs r -> dig q -> dig p -> 0 <= h <= 1 -> (length y < length r)%nat ->
  let '(o, c) := msub_loop q p h y r in
  length o = length r /\ digs o /\ 0 <= c <= 1 /\ drop (S (length y)) o = drop (S (length y)) r /\
  value o + weight (S (length y)) * c = value r + weight (S (length y)) - q * value y - p + h - 1.
Proof.
  induction y as [|x y IH]; intros q p h [|d r] Hy Hr Hq Hp Hh Hl; cbn [length] in Hl; try lia; cbn [msub_loop]; apply Forall_cons in Hr as [Hd Hr].
  - rewrite (twodig_id (h + d)), (twodig_id (h + d + single_max)), (twodig_id (h + d + single_max - p)) by digits. rewrite high_div.
    set (s := h + d + single_max - p). assert (Hs : 0 <= s / dbase <= 1) by (unfold s, dig, single_max, dbase in *; dlia).
    rewrite (onedig_id (s / dbase)) by digits. split_and!; [done|by constructor|lia..|done|]. cbn [length value]. rewrite weight_S, weight_0.
    pose proof (high_low s). unfold s, single_max in *. lia.
  - apply Forall_cons in Hy as [Hx Hy]. pose proof (mul_dig q x Hq Hx) as Hm. rewrite (twodig_id (q * x)), (twodig_id (p + q * x)) by digits.
    set (p' := p + q * x). pose proof (onedig_dig p') as Ho. rewrite (twodig_id (h + d)), (twodig_id (h + d + single_max)), (twodig_id (h + d + single_max - onedig p')) by digits.
    rewrite !high_div. set (s := h + d + single_max - onedig p').
    assert (Hs : 0 <= s / dbase <= 1) by (unfold s; clearbody p'; unfold dig, single_max, dbase in *; dlia).
    specialize (IH q (p' / dbase) (s / dbase) r Hy Hr Hq ltac:(apply high_dig; unfold p'; digits) Hs ltac:(lia)).
    destruct (msub_loop _ _ _ y r) as [o c]. destruct IH as (Hl' & Hdo & Hc & Hdr & E). cbn [length value drop] in *.
    split_and!; [lia|by constructor|lia..|done|]. rewrite (weight_S (S (length y))).
    pose proof (high_low s) as Es. pose proof (high_low p') as Ep. unfold s, p', single_max in *. nia.
Qed.

Lemma add_back_loop_value y : forall h r, digs y -> digs r -> 0 <= h <= 1 -> (length y < length r)%nat ->
  exists o k, add_back_loop h y r = o ++ 0 :: drop (S (length y)) r /\ length o = length y /\ digs o /\
    value o + weight (length y) * k = value (take (length y) r) + value y + h.
Proof.
  induction y as [|x y IH]; intros h [|d r] Hy Hr Hh Hl; cbn [length] in Hl; try lia; cbn [add_back_loop].
  - exists [], h. split_and!; [done|done|done|]. cbn [length take value]. rewrite weight_0. lia.
  - apply Forall_cons in Hy as [Hx Hy]. apply Forall_cons in Hr as [Hd Hr]. rewrite (twodig_id (h + d)), twodig_id by digits. rewrite high_div.
    set (s := h + d + x). assert (Hs : 0 <= s / dbase <= 1) by (unfold s, dig, dbase in *; dlia).
    destruct (IH (s / dbase) r Hy Hr Hs ltac:(lia)) as (o & k & Eo & Hlo & Ho & E). exists (onedig s :: o), k.
    rewrite Eo. split_and!; [done|cbn [length]; lia|by constructor|]. cbn [length value take]. rewrite weight_S. pose proof (high_low s). unfold s in *. nia.
Qed.

(** The estimate from the leading digits: the quotient, or one more. *)
Lemma guess_close (W V w r0 r1 r2 y0 y1 rl yl : Z) :
  0 < w -> dig r0 -> dig r1 -> dig r2 -> dig y0 -> dig y1 -> 2 ^ 31 <= y0 -> 0 <= rl < w -> 0 <= yl < w ->
  V = yl + w * (y0 * dbase + y1) -> W = rl + w * ((r0 * dbase + r1) * dbase + r2) -> W < dbase * V ->
  r0 <= y0 /\
  let q := Z.min (if y0 =? r0 then single_max else (r0 * dbase + r1) / y0) (((r0 * dbase + r1) * dbase + r2) / (y0 * dbase + y1)) in
  dig q /\ W / V <= q <= W / V + 1.
Proof.
  intros Hw H0 H1 H2 Hy0 Hy1 Hn Hrl Hyl EV EW Hlt. set (Y := y0 * dbase + y1) in *. set (R := (r0 * dbase + r1) * dbase + r2) in *.
  assert (HY : 0 < Y) by (unfold Y, dig, dbase in *; lia). assert (HR : 0 <= R) by (unfold R, dig, dbase in *; lia).
  assert (HwY : 0 < w * Y) by (by apply Z.mul_pos_pos). assert (HwR : 0 <= w * R) by (apply Z.mul_nonneg_nonneg; lia).
  assert (HV : 0 < V) by lia. assert (HW : 0 <= W) by lia.
  pose proof (Z.div_pos W V HW HV) as Hq0. assert (HqB : W / V < dbase) by (apply Z.div_lt_upper_bound; lia).
  pose proof (Z.mul_div_le W V HV) as Hle. set (Q := W / V) in *.
  assert (HRB : R < dbase * (Y + 1)).
  { apply (Z.mul_lt_mono_pos_l w); [done|]. assert (Hx : w * (dbase * (Y + 1)) = dbase * (w * Y + w)) by ring. rewrite Hx. unfold dbase in *. lia. }
  assert (Hr0 : r0 <= y0) by (unfold R, Y, dig, dbase in *; lia).
  assert (HYQ : Y * Q <= R).
  { assert (w * (Y * Q) < w * (R + 1)); [|apply Z.mul_lt_mono_pos_l in H; lia].
    assert (w * Y * Q <= V * Q) by (apply Z.mul_le_mono_nonneg_r; lia). rewrite Z.mul_assoc. lia. }
  split; [done|]. cbv zeta. set (g := if y0 =? r0 then single_max else _). assert (Hg : Q <= g /\ g < dbase).
  { unfold g. destruct (Z.eqb_spec y0 r0) as [E|E]; [unfold single_max; lia|]. split.
    - apply Z.div_le_lower_bound; [unfold dig in *; lia|]. assert (Hy : dbase * (y0 * Q) <= R).
      { assert (dbase * y0 * Q <= Y * Q) by (apply Z.mul_le_mono_nonneg_r; unfold Y, dig in *; lia). rewrite Z.mul_assoc. lia. }
      unfold R, dig, dbase in *. lia.
    - apply Z.div_lt_upper_bound; [unfold dig in *; lia|]. unfold dig, dbase in *. lia. }
  assert (Hh : Q <= R / Y) by (by apply Z.div_le_lower_bound).
  set (q := Z.min g (R / Y)). assert (Hq : 0 <= q < dbase) by (unfold q; lia). assert (HqY : Y * q <= R).
  { pose proof (Z.mul_div_le R Y HY). assert (Y * q <= Y * (R / Y)) by (apply Z.mul_le_mono_nonneg_l; unfold q; lia). lia. }
  split; [done|]. split; [unfold q; lia|]. assert (q - 1 <= Q); [|lia]. apply Z.div_le_lower_bound; [done|].
  assert (Hb : yl * q <= w * dbase) by (apply Z.mul_le_mono_nonneg; lia).
  assert (HbV : w * dbase <= w * Y) by (apply Z.mul_le_mono_nonneg_l; unfold Y, dig, dbase in *; lia).
  assert (Hwq : w * (Y * q) <= w * R) by (apply Z.mul_le_mono_nonneg_l; lia).
  rewrite EV at 1. rewrite Z.mul_sub_distr_l, Z.mul_add_distr_r, <- Z.mul_assoc. lia.
Qed.

Lemma split_low2 (l : list Z) : (2 <= length l)%nat -> exists low a b, l = low ++ [a; b].
Proof.
  intros Hl. destruct l as [|b l _] using rev_ind; [simpl in Hl; lia|]. destruct l as [|a l _] using rev_ind; [simpl in Hl; lia|].
  exists l, a, b. by rewrite <- app_assoc.
Qed.

Lemma split_window (r : list Z) (n : nat) : (n + 3 <= length r)%nat -> exists low r2 r1 r0 rest, r = low ++ r2 :: r1 :: r0 :: rest /\ length low = n.
Proof.
  intros Hl. exists (take n r). destruct (drop n r) as [|r2 [|r1 [|r0 rest]]] eqn:E; try (apply (f_equal length) in E; rewrite length_drop in E; simpl in E; lia).
  exists r2, r1, r0, rest. rewrite <- E, take_drop. split; [done|]. rewrite length_take. lia.
Qed.

Lemma lookup_app_add {A} (l1 l2 : list A) (i : nat) : (l1 ++ l2) !! (length l1 + i)%nat = l2 !! i.
Proof. rewrite lookup_app_r by lia. f_equal. lia. Qed.

Definition normal (y : list Z) : Prop := exists d, last y = Some d /\ 2 ^ 31 <= d.

(** What [multiply_and_subtract] and [add_back] do with a guess that is the quotient or one more. *)
Lemma correct_guess (y r : list Z) (q : Z) : digs y -> digs r -> dig q -> (length y < length r)%nat -> value (drop (S (length y)) r) = 0 ->
  0 < value y -> value r / value y <= q <= value r / value y + 1 ->
  let '(r', c) := multiply_and_subtract r y q in
  let '(r'', q') := if c =? 0 then (add_back r' y, onedig (q - 1)) else (r', q) in
  length r'' = length r /\ digs r'' /\ dig q' /\ q' = value r / value y /\ value r'' = value r mod value y.
Proof.
  intros Hy Hr Hq Hl Hz HV Hc. pose proof (msub_loop_value y q 0 1 r Hy Hr Hq ltac:(digits) ltac:(lia) Hl) as Hm. unfold multiply_and_subtract.
  destruct (msub_loop q 0 1 y r) as [o c]. destruct Hm as (Hlo & Ho & Hc01 & Hdr & E). set (l := length y) in *. set (W := value r) in *. set (V := value y) in *.
  assert (Hvo : 0 <= value o < weight (S l)).
  { pose proof (value_range (take (S l) o) ltac:(by apply Forall_take)) as Ht. rewrite length_take, Nat.min_l in Ht by lia.
    rewrite <- (take_drop (S l) o), value_app, Hdr, Hz. lia. }
  pose proof (Z.div_mod W V ltac:(lia)) as Hdm. pose proof (Z.mod_pos_bound W V ltac:(lia)) as Hmb. pose proof (weight_pos (S l)) as Hwp.
  destruct (Z.eqb_spec c 0) as [->|Hc1].
  - assert (Hq1 : q = W / V + 1) by nia. assert (Hq' : dig (q - 1)) by (unfold dig in *; pose proof (Z.div_pos W V); pose proof (value_range r Hr); lia).
    rewrite onedig_id by done. destruct (add_back_loop_value y 0 o Hy Ho ltac:(lia) ltac:(unfold l in *; lia)) as (o' & k & Eo & Hlo' & Ho' & Ek).
    unfold add_back. rewrite Eo. fold l in Hlo', Ek |- *. fold V in Ek. rewrite Hdr.
    assert (Hlen : length (o' ++ 0 :: drop (S l) r) = length r) by (rewrite length_app; cbn [length]; rewrite length_drop; lia).
    split_and!; [done| |done|lia|].
    + apply Forall_app. split; [done|]. apply Forall_cons. split; [digits|]. by apply Forall_drop.
    + rewrite value_app. cbn [value]. rewrite Hz. pose proof (value_range o' Ho') as Hvo'. rewrite Hlo' in Hvo'. fold l in Hvo'.
      pose proof (value_range y Hy) as HVr. fold V l in HVr.
      assert (Esp : value o = value (take l o) + weight l * value (drop l o)) by (rewrite <- (take_drop l o) at 1; rewrite value_app, length_take, Nat.min_l by lia; done).
      rewrite weight_S in E. set (m := value (drop l o)) in *. assert (Hx : value o' - W mod V = weight l * (dbase - m - k)) by nia.
      assert (dbase - m - k = 0) by nia. lia.
  - assert (c = 1) as -> by lia. assert (Hq1 : q = W / V) by nia. split_and!; [done|done|done|done|]. nia.
Qed.

Lemma div_step_window (rlow rest ylow : list Z) (r0 r1 r2 y0 y1 : Z) : length rlow = length ylow ->
  div_step (rlow ++ r2 :: r1 :: r0 :: rest) (ylow ++ [y1; y0]) =
  qh ← guess_q r0 r1 r2 y0 y1;
  let '(r', c) := multiply_and_subtract (rlow ++ r2 :: r1 :: r0 :: rest) (ylow ++ [y1; y0]) qh in
  Some (if c =? 0 then (add_back r' (ylow ++ [y1; y0]), onedig (qh - 1)) else (r', qh)).
Proof.
  intros Hl. unfold div_step. set (r := rlow ++ _). set (y := ylow ++ _).
  assert (Ey : length y = (length ylow + 2)%nat) by (unfold y; by rewrite length_app). cbv zeta. rewrite Ey.
  assert (E0 : r !! (length ylow + 2)%nat = Some r0) by (unfold r; by rewrite <- Hl, lookup_app_add).
  assert (E1 : r !! (length ylow + 2 - 1)%nat = Some r1) by (replace (length ylow + 2 - 1)%nat with (length rlow + 1)%nat by lia; unfold r; by rewrite lookup_app_add).
  assert (E2 : r !! (length ylow + 2 - 2)%nat = Some r2) by (replace (length ylow + 2 - 2)%nat with (length rlow + 0)%nat by lia; unfold r; by rewrite lookup_app_add).
  assert (F0 : y !! (length ylow + 2 - 1)%nat = Some y0) by (replace (length ylow + 2 - 1)%nat with (length ylow + 1)%nat by lia; unfold y; by rewrite lookup_app_add).
  assert (F1 : y !! (length ylow + 2 - 2)%nat = Some y1) by (replace (length ylow + 2 - 2)%nat with (length ylow + 0)%nat by lia; unfold y; by rewrite lookup_app_add).
  by rewrite E0, E1, E2, F0, F1, !bind_Some_eq.
Qed.

Lemma div_step_value (y r : list Z) : digs y -> digs r -> (2 <= length y)%nat -> normal y -> (length y < length r)%nat -> value r < dbase * value y ->
  exists r' qh, div_step r y = Some (r', qh) /\ length r' = length r /\ digs r' /\ dig qh /\ qh = value r / value y /\ value r' = value r mod value y.
Proof.
  intros Hy Hr Hl2 (top & Htop & Hn) Hlr Hv. destruct (split_low2 y Hl2) as (ylow & y1 & y0 & ->).
  rewrite last_app in Htop. cbn [last] in Htop. injection Htop as <-. rewrite length_app in *. cbn [length] in *. set (n := length ylow) in *.
  destruct (split_window r n ltac:(lia)) as (rlow & r2 & r1 & r0 & rest & -> & Hrl).
  assert (Hys : digs ylow /\ dig y1 /\ dig y0) by (rewrite Forall_app, !Forall_cons in Hy; tauto). destruct Hys as (Hyl & Hy1 & Hy0).
  assert (Hrs : digs rlow /\ dig r2 /\ dig r1 /\ dig r0 /\ digs rest) by (rewrite Forall_app, !Forall_cons in Hr; tauto). destruct Hrs as (Hrd & H2 & H1 & H0 & Hrest).
  assert (HV : value (ylow ++ [y1; y0]) = value ylow + weight n * (y0 * dbase + y1)) by (rewrite value_app; cbn [value]; unfold n; lia).
  assert (Hzero : value rest = 0).
  { pose proof (value_range rest Hrest). pose proof (value_range _ Hy) as HVr. rewrite value_app in Hv. rewrite length_app in HVr. cbn [length value] in Hv, HVr.
    rewrite Hrl in Hv. rewrite weight_add, !weight_S, weight_0 in HVr. fold n in HVr. pose proof (value_range rlow Hrd). pose proof (weight_pos n). unfold dig, dbase in *. nia. }
  set (W := value (rlow ++ r2 :: r1 :: r0 :: rest)) in *. set (V := value (ylow ++ [y1; y0])) in *.
  assert (EW : W = value rlow + weight n * ((r0 * dbase + r1) * dbase + r2)) by (unfold W; rewrite value_app, Hrl; cbn [value]; lia).
  pose proof (value_range rlow Hrd) as HA. rewrite Hrl in HA. pose proof (value_range ylow Hyl) as HB. fold n in HB.
  destruct (guess_close W V (weight n) r0 r1 r2 y0 y1 (value rlow) (value ylow) (weight_pos n) H0 H1 H2 Hy0 Hy1 Hn HA HB HV EW Hv) as (Hr0 & Hq & Hclose).
  pose proof (guess_q_value r0 r1 r2 y0 y1 H0 H1 H2 Hy0 Hy1 Hn Hr0) as Eg. set (q := Z.min _ _) in *.
  pose proof (correct_guess (ylow ++ [y1; y0]) (rlow ++ r2 :: r1 :: r0 :: rest) q Hy Hr Hq) as Hcorr. fold W V in Hcorr.
  rewrite !length_app, Hrl in Hcorr. cbn [length] in Hcorr. fold n in Hcorr.
  assert (Hdrop : drop (S (n + 2)) (rlow ++ r2 :: r1 :: r0 :: rest) = rest).
  { rewrite drop_app_ge, Hrl by lia. replace (S (n + 2) - n)%nat with 3%nat by lia. done. }
  rewrite Hdrop in Hcorr. specialize (Hcorr ltac:(lia) Hzero). pose proof (weight_pos n) as Hw.
  assert (HVpos : 0 < V) by (unfold dig, dbase in *; nia). specialize (Hcorr HVpos Hclose).
  rewrite (div_step_window rlow rest ylow r0 r1 r2 y0 y1 ltac:(unfold n in *; lia)), Eg, bind_Some_eq.
  destruct (multiply_and_subtract _ _ q) as [r' c]. destruct (if c =? 0 then _ else _) as [r'' q'].
  exists r'', q'. rewrite length_app, Hrl. cbn [length]. split; [done|]. exact Hcorr.
Qed.

(** The loop: the remainder stays below the divisor from the last place on. *)
Lemma digit_div_value (y : list Z) (ql : nat) : forall r, digs y -> digs r -> (2 <= length y)%nat -> normal y ->
  (length r = ql + length y)%nat -> value (drop ql r) < value y ->
  exists r' q, digit_div y ql r = Some (r', q) /\ length r' = length r /\ length q = ql /\ digs r' /\ digs q /\
    value q = value r / value y /\ value r' = value r mod value y.
Proof.
  induction ql as [|ql IH]; intros r Hy Hr H2 Hn Hl Hlt; cbn [digit_div].
  - rewrite drop_0 in Hlt. pose proof (value_range r Hr). exists r, []. split_and!; try done; cbn [value]; [by rewrite Z.div_small by lia|by rewrite Z.mod_small by lia].
  - destruct r as [|x r]; [cbn [length] in Hl; lia|]. apply Forall_cons in Hr as [Hx Hr]. cbn [drop length] in *.
    destruct (IH r Hy Hr H2 Hn ltac:(lia) Hlt) as (r1 & q & E & Hl1 & Hlq & Hr1 & Hq & Eq & Er). rewrite E. cbn [mbind option_bind].
    pose proof (value_range r Hr) as Hrr. pose proof (value_range r1 Hr1) as Hrr1. assert (HV : 0 < value y).
    { pose proof (value_range (drop ql r) ltac:(by apply Forall_drop)). lia. }
    pose proof (Z.mod_pos_bound (value r) (value y) HV) as Hmb. pose proof (Z.div_mod (value r) (value y) ltac:(lia)) as Hdm.
    destruct (div_step_value y (x :: r1) Hy ltac:(by constructor) H2 Hn) as (r2 & qh & E2 & Hl2 & Hr2 & Hqh & Eqh & Er2);
      [cbn [length]; lia|cbn [value]; unfold dig in *; nia|].
    rewrite E2. cbn [mbind option_bind]. exists r2, (qh :: q). cbn [length value] in *. rewrite Er in Eqh, Er2.
    set (V := value y) in *. set (W1 := value r) in *. pose proof (Z.div_mod (x + dbase * (W1 mod V)) V ltac:(lia)) as Hd2.
    pose proof (Z.mod_pos_bound (x + dbase * (W1 mod V)) V HV) as Hm2.
    split_and!; [done|lia|lia|done|by constructor| |].
    + apply (Z.div_unique _ _ _ (value r2)); [lia|]. rewrite Eqh, Er2, Eq. nia.
    + apply (Z.mod_unique _ _ (qh + dbase * value q)); [lia|]. rewrite Eqh, Er2, Eq. nia.
Qed.
