(* ===== verification/Dh.v ===== *)
(** * The big numbers of the key exchange ([libs/DH/dh.cpp], [libs/DH/dh.h])

    A number is a sign and a vector of digits with a capacity.  [pow] is the modular power of
    the exchange; numbers are read from and written as decimal texts.  An operation is [None]
    where the code would write behind a vector or divide by zero.  Capacities are counted
    without the 32-bit limit, which a number of less than 2^30 digits does not reach. *)

From S2P Require Import Prelude BasefuncStd DhDigits.
From Stdlib Require Import ZArith Lia Strings.Byte.
From stdpp Require Import base strings numbers list.
Open Scope Z_scope.

(** ** The code *)

(** [size] is the capacity of the vector, of which [digit] is the used part. *)
Record DH := mkDH { size : nat; digit : list Z; positive : bool }.

Definition len (x : DH) : nat := length (digit x).
Definition is_zero (x : DH) : bool := bool_decide (digit x = []).
Definition is_odd (x : DH) : bool := match digit x with [] => false | d :: _ => negb (Z.land d 1 =? 0) end.
Definition small : nat := 2.
Definition is_ulong (x : DH) : bool := (len x <=? small)%nat.

Definition adjust_size (n : nat) : nat :=
  let n := if (n <=? small)%nat then (small + 1)%nat else n in
  (((n * 4 + 8 + (32 - 1)) / 32 * 32 - 8) / 4)%nat.

(** [DH()], the copy, [resize], [reallocate]. *)
Definition new_DH : DH := mkDH (adjust_size small) [] true.
Definition copy (y : DH) : DH := mkDH (adjust_size (len y)) (digit y) (positive y).
Definition resize (n : nat) (x : DH) : DH := if (size x <? n)%nat then mkDH (adjust_size n) (digit x) (positive x) else x.
Definition reallocate (n : nat) (x : DH) : DH := resize n x.

(** The vector becomes [l], which must fit. *)
Definition set_digits (l : list Z) (x : DH) : option DH :=
  if (length l <=? size x)%nat then Some (mkDH (size x) l (positive x)) else None.
(** [digit[length++] = d]. *)
Definition push (d : Z) (x : DH) : option DH := set_digits (digit x ++ [d]) x.

(** [adjust]: no zeros at the end; zero is positive. *)
Fixpoint strip (l : list Z) : list Z :=
  match l with
  | [] => []
  | d :: l' => match strip l' with [] => if d =? 0 then [] else [d] | t => d :: t end
  end.
Definition adjust (x : DH) : DH :=
  let l := strip (digit x) in mkDH (size x) l (if bool_decide (l = []) then true else positive x).
Definition set_zero (x : DH) : DH := mkDH (size x) [] true.
Definition negate (x : DH) : DH := if is_zero x then x else mkDH (size x) (digit x) (negb (positive x)).

(** [scan_on]: a digit of the text, and the loop.  A character that is no digit ends the scan
    there and then. *)
Definition toupper (c : Z) : Z := if (97 <=? c) && (c <=? 122) then c - 32 else c.
Definition scan_digit (c : byte) (b : Z) : option Z :=
  let c := toupper (b2z c) in
  let dig := if c <? 48 then None else if c <=? 57 then Some (c - 48) else if c <? 65 then None
             else if c <=? 90 then Some (c - 65 + 10) else None in
  d ← dig; if b <=? d then None else Some d.
Fixpoint scan_on (s : bytes) (b : Z) (x : DH) : option DH :=
  match s with
  | [] => Some (adjust x)
  | c :: s' =>
      if decide (c = x00) then Some (adjust x)
      else match scan_digit c b with
           | None => Some x
           | Some dig =>
               let '(l, r) := digit_mul1 (digit x) b 0 in
               x ← set_digits l x;
               x ← (if r =? 0 then Some x else push r (resize (len x + 1) x));
               x ← (if bool_decide (digit x = []) then set_digits [dig] x
                    else
                      let '(l, r) := digit_add 0 (digit x) [dig] in
                      x ← set_digits l x;
                      if r =? 0 then Some x else push r (resize (len x + 1) x));
               scan_on s' b x
           end
  end.
Definition scan (s : bytes) (b : Z) (x : DH) : option DH :=
  match s with
  | c :: s' =>
      if decide (c = x2d) then scan_on s' b (mkDH (size x) (digit x) false)
      else if decide (c = x2b) then scan_on s' b x else scan_on s b x
  | [] => scan_on s b x
  end.
(** [DH(s, b)]. *)
Definition DH_of (s : bytes) (b : Z) : option DH := scan s b new_DH.

Definition ucompare (x y : DH) : Z :=
  if (len x <? len y)%nat then -1 else if (len y <? len x)%nat then 1 else digit_cmp (digit x) (digit y).
Definition compare (x y : DH) : Z :=
  if negb (positive x) && positive y then -1 else if positive x && negb (positive y) then 1
  else let result := ucompare x y in if positive x then result else - result.

Definition to_ulong (x : DH) : Z := foldr (fun d ul => Z.lor (wrap U64 (Z.shiftl ul single_bits)) d) 0 (digit x).
Definition digit_set (ul : Z) : list Z :=
  if ul =? 0 then [] else onedig ul :: (let ul := Z.shiftr ul single_bits in if ul =? 0 then [] else [onedig ul]).

(** The digits of dividend and divisor, multiplied so that the last digit of the divisor has
    its highest bit set, and with a digit for the estimate; [1 + b[bl - 1]] is a 32-bit sum. *)
Definition scale_of (b : list Z) : option Z :=
  top ← last b; let d := wrap U32 (1 + top) in if d =? 0 then None else Some (onedig (dbase / d)).
Definition scaled (a b : list Z) (scale : Z) : option (list Z * list Z) :=
  let '(a, b) :=
    if negb (scale =? 1) then
      let '(a', c) := digit_mul1 a scale 0 in ((if c =? 0 then a' else a' ++ [c]), (digit_mul1 b scale 0).1)
    else (a, b) in
  ta ← last a; tb ← last b;
  Some (if tb <=? ta then a ++ [0] else a, b).

(** [operator%=]. *)
Definition mod_eq (x y : DH) : option DH :=
  let cmp := ucompare x y in
  if cmp <? 0 then Some x
  else if cmp =? 0 then Some (set_zero x)
  else match digit y with
  | [] => Some x
  | y0 :: y' =>
      if is_ulong x then
        let m := to_ulong y in
        if m =? 0 then Some x else x ← set_digits (digit_set (to_ulong x mod m)) x; Some (adjust x)
      else match y' with
      | [] => '(_, r) ← digit_div1 (digit x) y0; x ← set_digits [r] x; Some (adjust x)
      | _ =>
          let x := resize (len x + 2) x in
          scale ← scale_of (digit y);
          '(a, b) ← scaled (digit x) (digit y) scale;
          x ← set_digits a x;
          '(r, _) ← digit_div b (length a - length b) a;
          x ← set_digits (take (length b) r) x;
          let x := adjust x in
          x ← (if scale =? 1 then Some x else '(q, _) ← digit_div1 (digit x) scale; set_digits q x);
          Some (adjust x)
      end
  end.

(** [operator/=]. *)
Definition set_sign (y x : DH) : DH := if positive y then x else negate x.
Definition div_eq (x y : DH) : option DH :=
  let cmp := ucompare x y in
  if cmp <? 0 then Some (set_zero x)
  else if cmp =? 0 then x ← set_digits [1] x; Some (set_sign y x)
  else match digit y with
  | [] => Some x
  | y0 :: y' =>
      if is_ulong x then
        let m := to_ulong y in
        if m =? 0 then Some x else x ← set_digits (digit_set (to_ulong x / m)) x; Some (set_sign y (adjust x))
      else match y' with
      | [] => '(q, _) ← digit_div1 (digit x) y0; x ← set_digits q x; Some (set_sign y (adjust x))
      | _ =>
          scale ← scale_of (digit y);
          '(a, b) ← scaled (digit x) (digit y) scale;
          '(_, q) ← digit_div b (length a - length b) a;
          x ← set_digits q x;
          Some (set_sign y (adjust x))
      end
  end.
(** [operator/=(ullong_t)]: the divisor refers to a vector on the stack. *)
Definition of_ulong (uy : Z) : DH := mkDH 0 (digit_set uy) true.
Definition div_eq_ulong (x : DH) (uy : Z) : option DH := div_eq x (of_ulong uy).

(** [mul] and [operator*=]. *)
Definition mul (x : DH) (dig : list Z) (pos : bool) : option DH :=
  let sign x := if pos then x else mkDH (size x) (digit x) (if is_zero x then true else negb (positive x)) in
  match dig with
  | [] => Some (set_zero x)
  | [d] =>
      if d =? 0 then Some (set_zero x)
      else if d =? 1 then Some (sign x)
      else
        let '(l, c) := digit_mul1 (digit x) d 0 in
        x ← set_digits l x;
        x ← (if c =? 0 then Some x else push c (resize (len x + 1) x));
        Some (sign x)
  | _ =>
      match digit x with
      | [] => Some (set_zero x)
      | [d] =>
          if d =? 0 then Some (set_zero x)
          else
            let x := reallocate (length dig + 1) x in
            x ← set_digits dig x;
            x ← (if d =? 1 then Some x
                 else let '(l, c) := digit_mul1 dig d 0 in x ← set_digits l x; if c =? 0 then Some x else push c x);
            Some (sign x)
      | _ =>
          let r := if (len x <? length dig)%nat then digit_mul2 (digit x) dig else digit_mul2 dig (digit x) in
          x ← set_digits r (mkDH (adjust_size (len x + length dig)) [] (positive x));
          Some (sign (adjust x))
      end
  end.
Definition mul_eq (x y : DH) : option DH := mul x (digit y) (positive y).

(** [pow]. *)
Fixpoint pow_loop (fuel : nat) (a b r m : DH) : option DH :=
  match fuel with
  | O => None
  | S fuel' =>
      a ← mod_eq a m;
      r ← (if is_odd b then r ← mul_eq r a; mod_eq r m else Some r);
      b ← div_eq_ulong b 2;
      if is_zero b then Some r else a ← mul_eq a a; pow_loop fuel' a b r m
  end.
Definition pow (x y m : DH) : option DH :=
  if is_zero m then DH_of (lit "0") 10
  else r ← DH_of (lit "1") 10; pow_loop (S (32 * len y)) (copy x) (copy y) r m.

(** [add] and [operator+=]. *)
Definition add (x : DH) (dig : list Z) (pos : bool) : option DH :=
  let x := resize (Nat.max (len x) (length dig) + 1) x in
  let gt := (length dig <? len x)%nat || ((len x =? length dig)%nat && (0 <=? digit_cmp (digit x) dig)) in
  let '(d1, d2) := if gt then (digit x, dig) else (dig, digit x) in
  if Bool.eqb (positive x) pos then
    let '(l, c) := digit_add 0 d1 d2 in
    x ← set_digits l x; if c =? 0 then Some x else push c x
  else
    x ← set_digits (digit_sub 1 d1 d2) x;
    Some (adjust (if gt then x else mkDH (size x) (digit x) pos)).
Definition add_eq (x y : DH) : option DH := add x (digit y) (positive y).
Definition add_eq_ulong (x : DH) (uy : Z) : option DH := add x (digit_set uy) true.

(** [digits], [as_string] and [get_string]: the buffer is filled from its end; [acc] is what it
    holds. *)
Definition digits_of (x : DH) (b : Z) : Z :=
  let bits := Z.log2 b in (32 * Z.of_nat (len x) + bits - 1) / bits.
Fixpoint as_string_loop (l : nat) (dig : list Z) (b : Z) (acc : bytes) : option (nat * bytes) :=
  match l with
  | O => None
  | S l' =>
      '(q, r) ← digit_div1 dig b;
      let acc := z2b (if r <? 10 then r + 48 else 65 + r - 10) :: acc in
      let q := match last q with Some 0 => take (length q - 1) q | _ => q end in
      if bool_decide (q = []) then Some (l', acc) else as_string_loop l' q b acc
  end.
Definition as_string (x : DH) (l : nat) (b : Z) : option bytes :=
  if (l <? 2)%nat then None
  else match strip (digit x) with
       | [] => Some [x30]
       | dig =>
           '(l, acc) ← as_string_loop (l - 1) dig b [];
           if positive x then Some acc else match l with O => None | S _ => Some (x2d :: acc) end
       end.
Definition get_string (x : DH) (b : Z) : bytes := default [] (as_string x (Z.to_nat (digits_of x b + 2)) b).

Example pow_check :
  (x ← DH_of (lit "5") 10; y ← DH_of (lit "123456789123456789123") 10; m ← DH_of (lit "170141183460469231731687303715884105727") 10;
   r ← pow x y m; Some (get_string r 10)) = Some (lit "153722804114281457701894206301604280957").
Proof. by vm_compute. Qed.

(** The scale of a divisor of which the last digit has all bits set is a division by zero. *)
Example pow_all_ones :
  (x ← DH_of (lit "1267650600228229401496703205376") 10; y ← DH_of (lit "2") 10; m ← DH_of (lit "18446744073709551557") 10; pow x y m) = None.
Proof. by vm_compute. Qed.

(** A text that does not end in a digit is not adjusted: its zero is not the number zero, and
    dividing a long number by it is a division by zero. *)
Example pow_zero_text :
  (x ← DH_of (lit "1267650600228229401496703205376") 10; y ← DH_of (lit "2") 10; m ← DH_of (lit "0x") 10; pow x y m) = None.
Proof. by vm_compute. Qed.
