(* ===== verification/DhFacts.v ===== *)
(** * Arithmetic of the big numbers

    The operators of [DH] compute the operations of the integers: on numbers in normal form
    they give numbers in normal form, write inside their vectors, and [%=] and [/=] are the
    remainder and the quotient that round towards zero.  The divisor must not have a last
    digit of all ones, for which the code divides by zero. *)

From Stdlib Require Import ZArith Lia Strings.Byte.
From stdpp Require Import base strings numbers list.
From S2P Require Import Prelude BasefuncStd DhDigits Dh.
Open Scope Z_scope.

(** ** Normal form *)

Definition normal_digits (l : list Z) : Prop := Forall dig l /\ last l <> Some 0.

Record wf (x : DH) : Prop := {
  wf_digits : normal_digits (digit x);
  wf_zero : digit x = [] -> positive x = true;
  wf_len : (len x <= size x)%nat;
  wf_size : (3 <= size x)%nat }.

Definition mag (x : DH) : Z := value (digit x).
Definition num (x : DH) : Z := if positive x then mag x else - mag x.

Lemma adjust_size_ge n : (n <= adjust_size n /\ 3 <= adjust_size n)%nat.
Proof.
  unfold adjust_size. set (m := if (n <=? small)%nat then _ else n).
  assert (Hm : (n <= m /\ 3 <= m)%nat) by (unfold m, small; destruct (Nat.leb_spec n 2); lia). clearbody m.
  pose proof (Nat.div_mod_eq (m * 4 + 8 + (32 - 1)) 32) as E. pose proof (Nat.mod_upper_bound (m * 4 + 8 + (32 - 1)) 32 ltac:(lia)).
  set (q := ((m * 4 + 8 + (32 - 1)) / 32)%nat) in *. assert (m <= (q * 32 - 8) / 4)%nat by (apply Nat.div_le_lower_bound; lia). lia.
Qed.

Lemma last_app_one {A} (l : list A) x : last (l ++ [x]) = Some x.
Proof. by rewrite last_snoc. Qed.

Lemma strip_spec l : Forall dig l -> normal_digits (strip l) /\ value (strip l) = value l /\ (length (strip l) <= length l)%nat.
Proof.
  induction 1 as [|d l Hd Hl IH]; [done|]. destruct IH as ((Hs & Hlast) & Hv & Hlen). cbn [strip]. destruct (strip l) as [|e t] eqn:E.
  - cbn [value] in Hv. destruct (Z.eqb_spec d 0) as [->|Hz]; cbn [value length].
    + split_and!; [done|lia|lia].
    + split_and!; [split; [by constructor|cbn; congruence]|lia|lia].
  - split_and!; [|cbn [value] in *; lia|cbn [length] in *; lia]. split; [by constructor|]. by rewrite last_cons_cons.
Qed.

Lemma strip_normal l : normal_digits l -> strip l = l.
Proof.
  intros [Hd Hlast]. induction l as [|d l IH]; [done|]. apply Forall_cons in Hd as [Hd Hl]. cbn [strip].
  destruct l as [|e l]; [cbn [strip]; destruct (Z.eqb_spec d 0); [subst; done|done]|]. rewrite IH; [done|done|]. by rewrite last_cons_cons in Hlast.
Qed.

Lemma normal_value_ge l : normal_digits l -> l <> [] -> weight (length l - 1) <= value l.
Proof.
  intros [Hd Hlast] Hne. destruct l as [|d l _] using rev_ind; [done|]. rewrite last_app_one in Hlast. apply Forall_app in Hd as [Hl Hd].
  apply Forall_cons in Hd as [Hd _]. rewrite value_app, length_app. cbn [length value]. replace (length l + 1 - 1)%nat with (length l) by lia.
  pose proof (value_range l Hl). pose proof (weight_pos (length l)). assert (d <> 0) by congruence. unfold dig in *. nia.
Qed.

Lemma normal_nil l : normal_digits l -> value l = 0 -> l = [].
Proof.
  intros Hn Hv. destruct (decide (l = [])) as [E|E]; [done|]. pose proof (normal_value_ge l Hn E). pose proof (weight_pos (length l - 1)). lia.
Qed.

Lemma weight_le m n : (m <= n)%nat -> weight m <= weight n.
Proof. intros Hl. unfold weight. apply Z.pow_le_mono_r; [unfold dbase|]; lia. Qed.

Lemma ucompare_spec x y : normal_digits (digit x) -> normal_digits (digit y) ->
  (ucompare x y = -1 /\ mag x < mag y) \/ (ucompare x y = 0 /\ digit x = digit y) \/ (ucompare x y = 1 /\ mag y < mag x).
Proof.
  intros Nx Ny. unfold ucompare, len, mag.
  pose proof (value_range _ (proj1 Nx)) as Rx. pose proof (value_range _ (proj1 Ny)) as Ry.
  destruct (Nat.ltb_spec (length (digit x)) (length (digit y))) as [Hl|Hl].
  - left. split; [done|]. pose proof (normal_value_ge _ Ny ltac:(by destruct (digit y); [simpl in Hl; lia|])).
    pose proof (weight_le (length (digit x)) (length (digit y) - 1) ltac:(lia)). lia.
  - destruct (Nat.ltb_spec (length (digit y)) (length (digit x))) as [Hl2|Hl2].
    + right. right. split; [done|]. pose proof (normal_value_ge _ Nx ltac:(by destruct (digit x); [simpl in Hl2; lia|])).
      pose proof (weight_le (length (digit y)) (length (digit x) - 1) ltac:(lia)). lia.
    + by apply digit_cmp_value; [apply Nx|apply Ny|lia].
Qed.

Lemma set_digits_Some l x : (length l <= size x)%nat -> set_digits l x = Some (mkDH (size x) l (positive x)).
Proof. intros Hl. unfold set_digits. destruct (Nat.leb_spec (length l) (size x)); [done|lia]. Qed.

Lemma adjust_wf x : Forall dig (digit x) -> (len x <= size x)%nat -> (3 <= size x)%nat -> wf (adjust x) /\ mag (adjust x) = mag x.
Proof.
  intros Hd Hl Hs. destruct (strip_spec (digit x) Hd) as (Hn & Hv & Hlen). split; [|done]. unfold len in *.
  split; cbn [adjust digit positive size]; [done|..|cbn [adjust size]; unfold len, adjust; cbn [digit]; lia|done].
  intros E. unfold adjust in E |- *. cbn [digit positive] in *. by rewrite bool_decide_eq_true_2.
Qed.

Lemma adjust_positive x : positive (adjust x) = if bool_decide (strip (digit x) = []) then true else positive x.
Proof. done. Qed.

Lemma adjust_num x : Forall dig (digit x) -> num (adjust x) = if positive x then mag x else - mag x.
Proof.
  intros Hd. destruct (strip_spec (digit x) Hd) as (Hn & Hv & Hlen). unfold num. rewrite adjust_positive. unfold mag, adjust. cbn [digit].
  rewrite Hv. case_bool_decide as E; [|done]. rewrite E in Hv. cbn [value] in Hv. destruct (positive x); lia.
Qed.

Lemma to_ulong_value x : Forall dig (digit x) -> (len x <= 2)%nat -> to_ulong x = mag x.
Proof.
  unfold len, to_ulong, mag. intros Hd Hl.
  assert (J : forall r d, dig r -> dig d -> Z.lor (wrap U64 (Z.shiftl r single_bits)) d = r * dbase + d) by (intros r d [Hr Hr'] Hd'; by apply join_digits).
  assert (H0 : dig 0) by (unfold dig, dbase; lia).
  destruct (digit x) as [|a [|b [|c l]]]; cbn [length foldr value] in *; try lia.
  - apply Forall_cons in Hd as [Ha _]. rewrite J by done. lia.
  - apply Forall_cons in Hd as [Ha Hd]. apply Forall_cons in Hd as [Hb _]. rewrite (J 0 b), Z.mul_0_l, Z.add_0_l, J by done. lia.
Qed.

Lemma digit_set_value ul : 0 <= ul < dbase * dbase -> normal_digits (digit_set ul) /\ value (digit_set ul) = ul /\ (length (digit_set ul) <= 2)%nat.
Proof.
  intros Hu. unfold digit_set. rewrite high_div. pose proof (high_low ul) as E. pose proof (high_dig ul Hu) as Hh. pose proof (onedig_dig ul) as Ho.
  destruct (Z.eqb_spec ul 0) as [->|Hz]; [split_and!; [by split|done|cbn; lia]|]. destruct (Z.eqb_spec (ul / dbase) 0) as [H0|H0].
  - rewrite H0 in E. split_and!; [split; [by constructor|]|cbn [value]; lia|cbn; lia]. cbn. intros [= E0]. lia.
  - rewrite (onedig_id (ul / dbase)) by done. split_and!; [split; [by rewrite !Forall_cons|]|cbn [value]; lia|cbn; lia]. cbn. intros [= E0]. lia.
Qed.

(** ** Scaling *)

(** The divisors the long division takes. *)
Definition divisor_ok (l : list Z) : Prop := (2 <= length l)%nat -> last l <> Some single_max.

Lemma scale_bounds top s : 1 <= top < dbase - 1 -> s = dbase / (1 + top) -> 1 <= s < dbase /\ s * (1 + top) <= dbase /\ 2 ^ 31 <= s * top.
Proof.
  intros Ht ->. set (s := dbase / (1 + top)). pose proof (Z.div_mod dbase (1 + top) ltac:(lia)) as Hd. pose proof (Z.mod_pos_bound dbase (1 + top) ltac:(lia)) as Hm.
  fold s in Hd. assert (Hs : 1 <= s) by (apply Z.div_le_lower_bound; unfold dbase in *; lia).
  assert (Hs2 : s < dbase) by (apply Z.div_lt_upper_bound; unfold dbase in *; lia). split; [lia|]. split; [lia|].
  change (2 ^ 31) with 2147483648. unfold dbase in *. change (2 ^ 32) with 4294967296 in *.
  destruct (Z.eq_dec top 1) as [->|H1]; [lia|]. destruct (Z.eq_dec s 1) as [E|H2]; [rewrite E in *; lia|]. destruct (Z.eq_dec s 2) as [E|H3]; [rewrite E in *; lia|].
  assert (0 <= (s - 3) * (1 + top - 3)) by (apply Z.mul_nonneg_nonneg; lia). lia.
Qed.

Lemma last_dig l d : Forall dig l -> last l = Some d -> dig d.
Proof. intros Hl E. apply last_Some in E as [l' ->]. apply Forall_app in Hl as [_ Hd]. by apply Forall_cons in Hd as [? _]. Qed.

Lemma scale_of_spec b : normal_digits b -> (2 <= length b)%nat -> divisor_ok b ->
  exists s top, scale_of b = Some s /\ last b = Some top /\ 1 <= s < dbase /\ s * (1 + top) <= dbase /\ 2 ^ 31 <= s * top.
Proof.
  intros [Hd Hl] H2 Hok. specialize (Hok H2). unfold scale_of. destruct (last b) as [top|] eqn:E; [|apply last_None in E; subst; simpl in H2; lia].
  pose proof (last_dig b top Hd E) as Ht. assert (Htop : 1 <= top < dbase - 1).
  { unfold dig in Ht. assert (top <> 0) by congruence. assert (top <> single_max) by congruence. unfold single_max in *. lia. }
  rewrite bind_Some_eq. rewrite wrap_id by (apply in_range_U32; unfold dbase in *; lia). destruct (Z.eqb_spec (1 + top) 0); [lia|].
  destruct (scale_bounds top _ Htop eq_refl) as (Hs & Hm & Hn). exists (dbase / (1 + top)), top. rewrite onedig_id by (unfold dig; lia). done.
Qed.

(** Leading digits below those of [b] make a smaller number. *)
Lemma last_lt_value l b tl tb : Forall dig l -> Forall dig b -> length l = length b -> last l = Some tl -> last b = Some tb -> tl < tb -> value l < value b.
Proof.
  intros Hl Hb Hlen El Eb Hlt. apply last_Some in El as [l' ->]. apply last_Some in Eb as [b' ->].
  rewrite !length_app in Hlen. cbn [length] in Hlen. apply Forall_app in Hl as [Hl _]. apply Forall_app in Hb as [Hb _].
  pose proof (value_range l' Hl) as Rl. pose proof (value_range b' Hb) as Rb. rewrite !value_app. cbn [value].
  replace (length b') with (length l') in * by lia. assert (weight (length l') * (tl + 1) <= weight (length l') * tb) by (apply Z.mul_le_mono_nonneg_l; lia). lia.
Qed.

(** The product of the divisor and the scale keeps its length and becomes normal. *)
Lemma scale_divisor b s top : Forall dig b -> last b = Some top -> 1 <= s < dbase -> s * (1 + top) <= dbase -> 2 ^ 31 <= s * top ->
  let b' := (digit_mul1 b s 0).1 in length b' = length b /\ Forall dig b' /\ value b' = s * value b /\ normal b'.
Proof.
  intros Hb E Hs Hm Hn. pose proof (digit_mul1_value b s 0 Hb ltac:(unfold dig; lia) ltac:(unfold dig, dbase; lia)) as Hv.
  destruct (digit_mul1 b s 0) as [b' c]. destruct Hv as (Hl & Hb' & Hc & Ev). cbn [fst]. cbv zeta.
  pose proof E as E0. apply last_Some in E0 as [low Eb]. pose proof (last_dig b top Hb E) as Ht.
  assert (Hlow : Forall dig low) by (rewrite Eb in Hb; by apply Forall_app in Hb as [? _]). pose proof (value_range low Hlow) as Rlow.
  assert (Vb : value b = value low + weight (length low) * top) by (rewrite Eb, value_app; cbn [value]; lia).
  assert (Hlb : length b = S (length low)) by (rewrite Eb, length_app; simpl; lia). set (w := weight (length low)) in *.
  assert (Hws : weight (length b) = dbase * w) by (by rewrite Hlb, weight_S).
  assert (Hub : s * value b < dbase * w).
  { assert (s * value b < s * (w * (1 + top))) by (apply Z.mul_lt_mono_pos_l; lia). assert (w * (s * (1 + top)) <= w * dbase) by (apply Z.mul_le_mono_nonneg_l; lia).
    replace (s * (w * (1 + top))) with (w * (s * (1 + top))) in * by ring. lia. }
  pose proof (value_range b' Hb') as Rb'. assert (Hc0 : c = 0).
  { unfold dig in Hc. rewrite Hws in Ev. assert (0 < dbase * w) by (apply Z.mul_pos_pos; unfold dbase; lia). nia. }
  subst c. split_and!; [done|done|lia|]. destruct (last b') as [t|] eqn:El; [|apply last_None in El; subst b'; simpl in Hl; lia].
  exists t. split; [done|]. pose proof (last_dig b' t Hb' El) as Htd. pose proof El as El'. apply last_Some in El' as [low' Eb'].
  assert (Hlow' : length low' = length low) by (rewrite Eb', length_app in Hl; simpl in Hl; lia).
  assert (Vb' : value b' = value low' + w * t) by (rewrite Eb', value_app, Hlow'; cbn [value]; fold w; lia).
  assert (Rlow' : 0 <= value low' < w). { assert (Forall dig low') by (rewrite Eb' in Hb'; by apply Forall_app in Hb' as [? _]). pose proof (value_range low' H). rewrite Hlow' in *. done. }
  assert (w * (s * top) < w * (t + 1)); [|apply Z.mul_lt_mono_pos_l in H; lia].
  assert (0 <= s * value low) by (apply Z.mul_nonneg_nonneg; lia). replace (w * (s * top)) with (s * (w * top)) by ring.
  assert (s * value b = s * value low + s * (w * top)) by (rewrite Vb; ring). lia.
Qed.

Lemma scaled_spec a b s top : Forall dig a -> Forall dig b -> (2 <= length b <= length a)%nat -> last b = Some top -> last a <> Some 0 ->
  1 <= s < dbase -> s * (1 + top) <= dbase -> 2 ^ 31 <= s * top ->
  exists a' b', scaled a b s = Some (a', b') /\ Forall dig a' /\ Forall dig b' /\ value a' = s * value a /\ value b' = s * value b /\ normal b' /\
    length b' = length b /\ (length b' <= length a' <= length a + 2)%nat /\ value (drop (length a' - length b') a') < value b'.
Proof.
  intros Ha Hb Hl Et Hla Hs Hm Hn. destruct (scale_divisor b s top Hb Et Hs Hm Hn) as (Hlb & Hb' & Vb & Nb).
  pose proof (digit_mul1_value a s 0 Ha ltac:(unfold dig; lia) ltac:(unfold dig, dbase; lia)) as Hv. unfold scaled.
  set (ab := if negb (s =? 1) then _ else _).
  assert (Hab : Forall dig ab.1 /\ value ab.1 = s * value a /\ (length a <= length ab.1 <= length a + 1)%nat /\
    Forall dig ab.2 /\ value ab.2 = s * value b /\ length ab.2 = length b /\ normal ab.2).
  { unfold ab. destruct (Z.eqb_spec s 1) as [->|H1]; cbn [negb].
    - cbn [fst snd]. split_and!; try done; try lia. exists top. split; [done|lia].
    - destruct (digit_mul1 a s 0) as [a' c]. destruct Hv as (Hl' & Ha' & Hc & Ev). cbn [fst snd]. destruct (Z.eqb_spec c 0) as [->|Hc0].
      + split_and!; try done; lia.
      + rewrite length_app, value_app, Hl'. cbn [length value]. split_and!; try done; try lia. apply Forall_app. by split; [|constructor]. }
  destruct ab as [a1 b1]. cbn [fst snd] in Hab. destruct Hab as (Ha1 & Va1 & Hla1 & Hb1 & Vb1 & Hlb1 & (tb & Etb & Htb)). cbn [fst snd].
  destruct (last a1) as [ta|] eqn:Eta; [|apply last_None in Eta; subst a1; simpl in *; lia]. rewrite Etb, !bind_Some_eq.
  pose proof (last_dig b1 tb Hb1 Etb) as Htbd. destruct (Z.leb_spec tb ta) as [Hle|Hgt].
  - exists (a1 ++ [0]), b1. rewrite length_app, value_app. cbn [length value]. split_and!; try done; try lia.
    + apply Forall_app. split; [done|]. constructor; [unfold dig, dbase; lia|done].
    + by exists tb.
    + apply (last_lt_value _ b1 0 tb); try done.
      * apply Forall_drop, Forall_app. split; [done|]. constructor; [unfold dig, dbase; lia|done].
      * rewrite length_drop, length_app. cbn [length]. lia.
      * rewrite last_drop by (rewrite length_app; simpl; lia). by rewrite last_app_one.
      * change (2 ^ 31) with 2147483648 in *. lia.
  - exists a1, b1. split_and!; try done; try lia; [by exists tb|]. apply (last_lt_value _ b1 ta tb); try done.
    + by apply Forall_drop.
    + rewrite length_drop. lia.
    + rewrite last_drop by lia. done.
Qed.

(** ** Remainder and quotient *)

(** What an operation promises: a number in normal form with this value. *)
Definition gives (r : option DH) (n : Z) : Prop := exists x, r = Some x /\ wf x /\ num x = n.

Lemma adjust_gives x : Forall dig (digit x) -> (len x <= size x)%nat -> (3 <= size x)%nat -> gives (Some (adjust x)) (if positive x then mag x else - mag x).
Proof. intros Hd Hl Hs. exists (adjust x). split; [done|]. split; [by apply adjust_wf|by apply adjust_num]. Qed.

Lemma mag_nonneg x : wf x -> 0 <= mag x.
Proof. intros Hx. apply value_range. apply (wf_digits x Hx). Qed.

Lemma num_eq x : num x = if positive x then mag x else - mag x.
Proof. done. Qed.

(** The remainder has the sign of the dividend. *)
Lemma rem_sign (p : bool) (v : Z) (y : DH) : 0 <= v -> 0 < mag y -> (if p then v mod mag y else - (v mod mag y)) = Z.rem (if p then v else - v) (num y).
Proof.
  intros Hv Hy. rewrite num_eq. destruct p, (positive y); rewrite ?Z.rem_opp_r, ?Z.rem_opp_l, ?Z.rem_mod_nonneg by lia; done.
Qed.
Lemma quot_sign (p : bool) (v : Z) (y : DH) : 0 <= v -> 0 < mag y -> (if Bool.eqb p (positive y) then v / mag y else - (v / mag y)) = Z.quot (if p then v else - v) (num y).
Proof.
  intros Hv Hy. rewrite num_eq. destruct p, (positive y); cbn [Bool.eqb]; rewrite ?Z.quot_opp_r, ?Z.quot_opp_l, ?Z.quot_div_nonneg by lia; lia.
Qed.

(** The capacity after [resize]. *)
Lemma resize_spec n x : (3 <= size x)%nat ->
  digit (resize n x) = digit x /\ positive (resize n x) = positive x /\ (n <= size (resize n x))%nat /\ (size x <= size (resize n x))%nat.
Proof.
  intros Hs. unfold resize. destruct (Nat.ltb_spec (size x) n) as [Hl|Hl]; [|split_and!; [done|done|lia|lia]]. pose proof (adjust_size_ge n). cbn [digit positive size]. split_and!; [done|done|lia|lia].
Qed.

(** The long division of the digits, scaled. *)
Lemma long_division a b : normal_digits a -> normal_digits b -> (2 <= length b <= length a)%nat -> divisor_ok b ->
  exists s a' b' r q, scale_of b = Some s /\ scaled a b s = Some (a', b') /\ digit_div b' (length a' - length b') a' = Some (r, q) /\
    1 <= s < dbase /\ length b' = length b /\ (length a' <= length a + 2)%nat /\ length r = length a' /\ (length q <= length a - length b + 2)%nat /\
    Forall dig q /\ Forall dig (take (length b') r) /\ value q = value a / value b /\ value (take (length b') r) = s * (value a mod value b).
Proof.
  intros [Ha La] Nb Hl Hok. destruct (scale_of_spec b Nb ltac:(lia) Hok) as (s & top & Es & Et & Hs & Hm & Hn). destruct Nb as [Hb Lb].
  destruct (scaled_spec a b s top Ha Hb Hl Et La Hs Hm Hn) as (a' & b' & Esc & Ha' & Hb' & Va & Vb & Nb & Hlb & Hla & Hlt).
  destruct (digit_div_value b' (length a' - length b') a' Hb' Ha' ltac:(lia) Nb ltac:(lia) Hlt) as (r & q & Ed & Hlr & Hlq & Hr & Hq & Vq & Vr).
  assert (HVb : 0 < value b').
  { pose proof (value_range (drop (length a' - length b') a') ltac:(by apply Forall_drop)). lia. }
  assert (Hvb : 0 < value b) by (pose proof (value_range b Hb); nia).
  exists s, a', b', r, q. split_and!; try done; try lia.
  - by apply Forall_take.
  - rewrite Vq, Va, Vb. by rewrite Z.div_mul_cancel_l by lia.
  - assert (Hz : drop (length b') r = replicate (length r - length b') 0).
    { apply value_small; [done|]. pose proof (value_range b' Hb'). pose proof (Z.mod_pos_bound (value a') (value b') HVb). lia. }
    rewrite <- (take_drop (length b') r), Hz, value_app, value_zeros in Vr. rewrite Va, Vb, Z.mul_mod_distr_l in Vr by lia. lia.
Qed.

Lemma cmp_le x y : normal_digits (digit x) -> normal_digits (digit y) -> mag y < mag x -> (len y <= len x)%nat.
Proof.
  intros Hx Hy Hlt. unfold len, mag in *. destruct (Nat.le_gt_cases (length (digit y)) (length (digit x))) as [Hle|Hgt]; [done|].
  pose proof (normal_value_ge _ Hy ltac:(by destruct (digit y); [simpl in Hgt; lia|])).
  pose proof (value_range _ (proj1 Hx)). pose proof (weight_le (length (digit x)) (length (digit y) - 1) ltac:(lia)). lia.
Qed.

Lemma mag_pos y : normal_digits (digit y) -> digit y <> [] -> 0 < mag y.
Proof. intros Hn Hne. pose proof (normal_value_ge _ Hn Hne). pose proof (weight_pos (length (digit y) - 1)). unfold mag. lia. Qed.

Lemma length_dbase2 l : (length l <= 2)%nat -> Forall dig l -> 0 <= value l < dbase * dbase.
Proof.
  intros Hl Hd. pose proof (value_range l Hd) as Hr. pose proof (weight_le (length l) 2 Hl) as Hw. change (weight 2) with (dbase * dbase) in Hw. lia.
Qed.

Lemma set_adjust_gives l x v : Forall dig l -> (length l <= size x)%nat -> (3 <= size x)%nat -> value l = v ->
  gives (x' ← set_digits l x; Some (adjust x')) (if positive x then v else - v).
Proof.
  intros Hd Hl Hs <-. rewrite set_digits_Some, bind_Some_eq by done. by apply (adjust_gives (mkDH (size x) l (positive x))).
Qed.

Lemma negate_spec x : wf x -> wf (negate x) /\ num (negate x) = - num x.
Proof.
  intros Hx. unfold negate, is_zero. case_bool_decide as E.
  - split; [done|]. rewrite num_eq, (wf_zero x Hx E). unfold mag. by rewrite E.
  - split; [|unfold num, mag; cbn [positive digit]; destruct (positive x); cbn [negb]; lia]. destruct Hx as [H1 H2 H3 H4]. by split.
Qed.

Lemma set_sign_gives y r v : gives r v -> gives (x ← r; Some (set_sign y x)) (if positive y then v else - v).
Proof.
  intros (x & -> & Hx & <-). rewrite bind_Some_eq. unfold set_sign. destruct (positive y); [by exists x|]. destruct (negate_spec x Hx). by exists (negate x).
Qed.

Lemma sign_eqb (p q : bool) (v : Z) : (if q then if p then v else - v else - (if p then v else - v)) = if Bool.eqb p q then v else - v.
Proof. destruct p, q; cbn [Bool.eqb]; lia. Qed.

(** A divisor with its digits, in the cases of the code. *)
Lemma is_ulong_true x : (len x <= 2)%nat -> is_ulong x = true.
Proof. intros. unfold is_ulong, small. by apply Nat.leb_le. Qed.
Lemma is_ulong_false x : (2 < len x)%nat -> is_ulong x = false.
Proof. intros. unfold is_ulong, small. by apply Nat.leb_gt. Qed.

Lemma one_digit_div x y0 : normal_digits (digit x) -> normal_digits [y0] ->
  exists q r, digit_div1 (digit x) y0 = Some (q, r) /\ length q = len x /\ Forall dig q /\ dig r /\ r = mag x mod y0 /\ value q = mag x / y0.
Proof.
  intros Nx [Hd Hl]. apply Forall_cons in Hd as [Hd _]. assert (y0 <> 0) by (cbn in Hl; congruence).
  destruct (digit_div1_value (digit x) y0 (proj1 Nx)) as (q & r & E & Hlq & Hq & Er & Eq); [unfold dig in Hd; lia|].
  exists q, r. split_and!; try done. rewrite Er. pose proof (Z.mod_pos_bound (value (digit x)) y0). unfold dig in *. lia.
Qed.

(** The end of the long remainder: the scale is divided out of the digits. *)
Lemma unscale_gives x l s v p : Forall dig l -> (length l <= size x)%nat -> (3 <= size x)%nat -> 1 <= s < dbase -> value l = s * v -> positive x = p ->
  gives (x ← set_digits l x; let x := adjust x in x ← (if s =? 1 then Some x else '(q, _) ← digit_div1 (digit x) s; set_digits q x); Some (adjust x))
    (if p then v else - v).
Proof.
  intros Hd Hl Hs Hsc Hv <-. rewrite set_digits_Some, bind_Some_eq by done. cbv zeta. set (x1 := adjust _).
  destruct (adjust_wf (mkDH (size x) l (positive x)) Hd Hl Hs) as [Hw Hm]. fold x1 in Hw, Hm. unfold mag at 2 in Hm. cbn [digit] in Hm.
  assert (Hp : positive x1 = positive x \/ v = 0).
  { unfold x1, adjust. cbn [positive digit]. case_bool_decide as E; [|by left]. right. destruct (strip_spec l Hd) as (_ & Vs & _). rewrite E in Vs. cbn [value] in Vs. nia. }
  assert (Hgoal : (if positive x then v else - v) = if positive x1 then v else - v) by (destruct Hp as [->| ->]; [done|by destruct (positive x), (positive x1)]).
  rewrite Hgoal. destruct (Z.eqb_spec s 1) as [->|H1].
  - rewrite bind_Some_eq. replace v with (mag x1) by lia. apply adjust_gives; [apply Hw|apply (wf_len x1 Hw)|apply (wf_size x1 Hw)].
  - destruct (digit_div1_value (digit x1) s (proj1 (wf_digits x1 Hw)) ltac:(lia)) as (q & r & E & Hlq & Hq & _ & Vq). rewrite E, bind_Some_eq.
    apply set_adjust_gives; [done|rewrite Hlq; apply (wf_len x1 Hw)|apply (wf_size x1 Hw)|]. rewrite Vq. change (value (digit x1)) with (mag x1). rewrite Hm, Hv, Z.mul_comm. apply Z.div_mul. lia.
Qed.

(** [%=] *)
Lemma mod_eq_spec x y : wf x -> normal_digits (digit y) -> digit y <> [] -> divisor_ok (digit y) -> gives (mod_eq x y) (Z.rem (num x) (num y)).
Proof.
  intros Hx Ny Hne Hok. pose proof (mag_pos y Ny Hne) as Hy. pose proof (mag_nonneg x Hx) as Hv. pose proof (wf_digits x Hx) as Nx.
  pose proof (wf_len x Hx) as Hlen. pose proof (wf_size x Hx) as Hsz.
  rewrite (num_eq x), <- (rem_sign (positive x) (mag x) y) by done. unfold mod_eq.
  destruct (ucompare_spec x y Nx Ny) as [[-> Hc]|[[-> Hc]|[-> Hc]]]; cbn [Z.ltb Z.eqb Z.compare].
  { exists x. split_and!; [done|done|]. by rewrite Z.mod_small by lia. }
  { exists (set_zero x). split_and!; [done| |].
    - split; [by split|done|unfold len; simpl; lia|done].
    - unfold mag. rewrite Hc, Z.mod_same by (unfold mag in Hy; lia). by destruct (positive x). }
  pose proof (cmp_le x y Nx Ny Hc) as Hle. pose proof (Z.mod_pos_bound (mag x) (mag y) Hy) as Hm.
  destruct (digit y) as [|y0 y'] eqn:Ey; [done|]. destruct (Nat.le_gt_cases (len x) 2) as [H2|H2].
  { rewrite (is_ulong_true x H2), !to_ulong_value by (try apply Nx; try lia; rewrite Ey; apply Ny). destruct (Z.eqb_spec (mag y) 0); [lia|].
    pose proof (length_dbase2 (digit x) H2 (proj1 Nx)) as Hb. destruct (digit_set_value (mag x mod mag y)) as (Hn & Hval & Hl2); [unfold mag in *; lia|].
    apply set_adjust_gives; [apply Hn|lia|done|done]. }
  rewrite (is_ulong_false x H2). destruct y' as [|y1 y'].
  { destruct (one_digit_div x y0 Nx Ny) as (q & r & E & _ & _ & Hr & Er & _). rewrite E, bind_Some_eq.
    assert (mag y = y0) as -> by (unfold mag; rewrite Ey; cbn [value]; lia). apply set_adjust_gives; [by constructor|simpl; lia|done|cbn [value]; lia]. }
  destruct (resize_spec (len x + 2) x Hsz) as (Ed & Ep & Hs1 & Hs2). rewrite Ed.
  destruct (long_division (digit x) (digit y) Nx) as (s & a' & b' & r & q & Es & Esc & Edd & Hs & Hlb & Hla & Hlr & _ & _ & Hr & _ & Vr);
    [by rewrite Ey|unfold len in *; rewrite Ey in *; cbn [length] in *; lia|by rewrite Ey|].
  rewrite <- Ey, Es, bind_Some_eq, Esc, bind_Some_eq. fold (mag x) (mag y) in Vr. unfold len in *.
  rewrite set_digits_Some, bind_Some_eq by lia. rewrite Edd, bind_Some_eq.
  apply (unscale_gives (mkDH _ _ _)); cbn [size positive digit]; [done|rewrite length_take; lia|lia|lia|lia|by rewrite Ep].
Qed.

(** [/=] *)
Lemma set_adjust_sign_gives l x y v : Forall dig l -> (length l <= size x)%nat -> (3 <= size x)%nat -> value l = v ->
  gives (x' ← set_digits l x; Some (set_sign y (adjust x'))) (if Bool.eqb (positive x) (positive y) then v else - v).
Proof.
  intros Hd Hl Hs Hv. rewrite <- sign_eqb. pose proof (set_sign_gives y _ _ (set_adjust_gives l x v Hd Hl Hs Hv)) as G.
  rewrite set_digits_Some, !bind_Some_eq in G |- * by done. exact G.
Qed.

Lemma div_eq_spec x y : wf x -> normal_digits (digit y) -> digit y <> [] -> divisor_ok (digit y) -> gives (div_eq x y) (Z.quot (num x) (num y)).
Proof.
  intros Hx Ny Hne Hok. pose proof (mag_pos y Ny Hne) as Hy. pose proof (mag_nonneg x Hx) as Hv. pose proof (wf_digits x Hx) as Nx.
  pose proof (wf_len x Hx) as Hlen. pose proof (wf_size x Hx) as Hsz.
  rewrite (num_eq x), <- (quot_sign (positive x) (mag x) y) by done. unfold div_eq.
  destruct (ucompare_spec x y Nx Ny) as [[-> Hc]|[[-> Hc]|[-> Hc]]]; cbn [Z.ltb Z.eqb Z.compare].
  { exists (set_zero x). split_and!; [done| |].
    - split; [by split|done|unfold len; simpl; lia|done].
    - rewrite Z.div_small by lia. by destruct (Bool.eqb _ _). }
  { rewrite <- sign_eqb. apply set_sign_gives with (r := set_digits [1] x). rewrite set_digits_Some by (simpl; lia).
    exists (mkDH (size x) [1] (positive x)). unfold mag. rewrite Hc, Z.div_same by (unfold mag in Hy; lia). split_and!; [done| |done].
    split; [|done|unfold len; simpl; lia|done]. split; [constructor; [unfold dig, dbase; lia|done]|done]. }
  pose proof (cmp_le x y Nx Ny Hc) as Hle. destruct (digit y) as [|y0 y'] eqn:Ey; [done|]. destruct (Nat.le_gt_cases (len x) 2) as [H2|H2].
  { rewrite (is_ulong_true x H2), !to_ulong_value by (try apply Nx; try lia; rewrite Ey; apply Ny). destruct (Z.eqb_spec (mag y) 0); [lia|].
    pose proof (length_dbase2 (digit x) H2 (proj1 Nx)) as Hb. destruct (digit_set_value (mag x / mag y)) as (Hn & Hval & Hl2).
    { split; [apply Z.div_pos; lia|]. apply Z.div_lt_upper_bound; [lia|]. unfold mag, dbase in *. nia. }
    apply set_adjust_sign_gives; [apply Hn|lia|done|done]. }
  rewrite (is_ulong_false x H2). destruct y' as [|y1 y'].
  { destruct (one_digit_div x y0 Nx Ny) as (q & r & E & Hlq & Hq & _ & _ & Vq). rewrite E, bind_Some_eq.
    assert (mag y = y0) as -> by (unfold mag; rewrite Ey; cbn [value]; lia). apply set_adjust_sign_gives; [done|lia|done|done]. }
  destruct (long_division (digit x) (digit y) Nx) as (s & a' & b' & r & q & Es & Esc & Edd & Hs & Hlb & Hla & Hlr & Hlq & Hq & _ & Vq & _);
    [by rewrite Ey|unfold len in *; rewrite Ey in *; cbn [length] in *; lia|by rewrite Ey|].
  rewrite <- Ey, Es, bind_Some_eq, Esc, bind_Some_eq, Edd, bind_Some_eq.
  apply set_adjust_sign_gives; [done| |done|done]. rewrite Ey in Hlq. unfold len in *. cbn [length] in *. lia.
Qed.

(** ** Product *)

Lemma mul_value l d : Forall dig l -> dig d -> let '(r, c) := digit_mul1 l d 0 in
  Forall dig r /\ dig c /\ length r = length l /\ value r + weight (length l) * c = value l * d.
Proof.
  intros Hl Hd. pose proof (digit_mul1_value l d 0 Hl Hd ltac:(unfold dig, dbase; lia)) as Hv. destruct (digit_mul1 l d 0). destruct Hv as (? & ? & ? & E).
  split_and!; try done. lia.
Qed.

(** The digits of a product by a digit, with the overflow when there is one. *)
Definition mul_digits (l : list Z) (d : Z) : list Z := let '(r, c) := digit_mul1 l d 0 in if c =? 0 then r else r ++ [c].

Lemma mul_digits_spec l d : normal_digits l -> dig d -> d <> 0 ->
  normal_digits (mul_digits l d) /\ value (mul_digits l d) = value l * d /\ (length l <= length (mul_digits l d) <= length l + 1)%nat.
Proof.
  intros [Hl Hlast] Hd Hz. pose proof (mul_value l d Hl Hd) as Hm. unfold mul_digits. destruct (digit_mul1 l d 0) as [r c]. destruct Hm as (Hr & Hc & Hlr & Ev).
  destruct (Z.eqb_spec c 0) as [->|Hc0].
  - assert (Ev' : value r = value l * d) by lia. split_and!; [|done|lia|lia]. split; [done|]. intros E.
    destruct (decide (l = [])) as [->|Hne]; [destruct r; [done|simpl in Hlr; lia]|]. pose proof (normal_value_ge l (conj Hl Hlast) Hne) as Hge.
    apply last_Some in E as [r' Er]. rewrite Er in Hr, Ev', Hlr. apply Forall_app in Hr as [Hr _]. pose proof (value_range r' Hr) as Rr.
    rewrite value_app in Ev'. cbn [value] in Ev'. rewrite length_app in Hlr. cbn [length] in Hlr. replace (length l - 1)%nat with (length r') in Hge by lia.
    assert (value l * 1 <= value l * d) by (apply Z.mul_le_mono_nonneg_l; unfold dig in *; lia). lia.
  - rewrite length_app, value_app, Hlr. cbn [length value]. split_and!; [|lia|lia|lia]. split; [apply Forall_app; by split; [|constructor]|].
    rewrite last_app_one. congruence.
Qed.

(** The vector [x] becomes the product of [l] and [d], and grows when there is an overflow. *)
Lemma mul_push l d x : normal_digits l -> dig d -> d <> 0 -> (length l <= size x)%nat -> (3 <= size x)%nat ->
  exists n, (let '(r, c) := digit_mul1 l d 0 in x ← set_digits r x; if c =? 0 then Some x else push c (resize (len x + 1) x)) =
    Some (mkDH n (mul_digits l d) (positive x)) /\ (3 <= n)%nat /\ (length (mul_digits l d) <= n)%nat.
Proof.
  intros Nl Hd Hz Hl Hs. pose proof (mul_value l d (proj1 Nl) Hd) as Hm. unfold mul_digits. destruct (digit_mul1 l d 0) as [r c]. destruct Hm as (_ & _ & Hlr & _).
  rewrite set_digits_Some, bind_Some_eq by lia. destruct (Z.eqb_spec c 0); [exists (size x); split_and!; [done|done|lia]|].
  set (x1 := mkDH (size x) r (positive x)). destruct (resize_spec (len x1 + 1) x1 Hs) as (Ed & Ep & Hs1 & Hs2). unfold push. rewrite Ed.
  rewrite set_digits_Some by (rewrite length_app; unfold len, x1 in *; cbn [digit length] in *; lia). rewrite Ep. eexists. split; [done|].
  rewrite length_app. unfold len, x1 in *. cbn [digit size length] in *. lia.
Qed.

Lemma number_gives n l p v : normal_digits l -> (length l <= n)%nat -> (3 <= n)%nat -> (l = [] -> p = true) -> value l = v -> gives (Some (mkDH n l p)) (if p then v else - v).
Proof. intros Nl Hl Hn Hp <-. eexists. split; [done|]. split; [by split|done]. Qed.

Definition mul_sign (pos : bool) (x : DH) : DH := if pos then x else mkDH (size x) (digit x) (if is_zero x then true else negb (positive x)).

Lemma mul_sign_gives pos r v : gives r v -> gives (x ← r; Some (mul_sign pos x)) (if pos then v else - v).
Proof.
  intros (x & -> & Hx & <-). rewrite bind_Some_eq. unfold mul_sign. destruct pos; [by exists x|]. destruct (negate_spec x Hx) as [Hn En]. exists (negate x).
  split_and!; [|done|done]. unfold negate, is_zero in *. case_bool_decide as E; [|done]. f_equal. pose proof (wf_zero x Hx E). destruct x as [a b c]. cbn in *. by subst.
Qed.

Lemma set_zero_gives x : (3 <= size x)%nat -> gives (Some (set_zero x)) 0.
Proof. intros Hs. exists (set_zero x). split_and!; [done| |done]. split; [by split|done|unfold len; simpl; lia|done]. Qed.

(** The magnitudes, before the sign of the second factor is taken. *)
Definition mul_mag (x : DH) (dig : list Z) : option DH :=
  match dig with
  | [] => Some (set_zero x)
  | [d] =>
      if d =? 1 then Some x
      else let '(l, c) := digit_mul1 (digit x) d 0 in x ← set_digits l x; if c =? 0 then Some x else push c (resize (len x + 1) x)
  | _ =>
      match digit x with
      | [] => Some (set_zero x)
      | [d] =>
          let x := reallocate (length dig + 1) x in
          x ← set_digits dig x;
          if d =? 1 then Some x else let '(l, c) := digit_mul1 dig d 0 in x ← set_digits l x; if c =? 0 then Some x else push c x
      | _ =>
          let r := if (len x <? length dig)%nat then digit_mul2 (digit x) dig else digit_mul2 dig (digit x) in
          x ← set_digits r (mkDH (adjust_size (len x + length dig)) [] (positive x)); Some (adjust x)
      end
  end.

Lemma mul_unfold x dig pos : normal_digits dig -> normal_digits (digit x) ->
  mul x dig pos = x' ← mul_mag x dig; Some (mul_sign (if bool_decide (dig = [] \/ (digit x = [] /\ 2 <= length dig)%nat) then true else pos) x').
Proof.
  intros [_ Hl] [_ Hx]. unfold mul, mul_mag. destruct dig as [|d [|e dig]]; [done|..].
  - rewrite bool_decide_eq_false_2 by (intros [?|[_ ?]]; [done|simpl in *; lia]). destruct (Z.eqb_spec d 0) as [->|_]; [done|].
    destruct (d =? 1); [done|]. destruct (digit_mul1 (digit x) d 0) as [l c]. by destruct (set_digits l x).
  - destruct (digit x) as [|a [|b t]].
    + rewrite bool_decide_eq_true_2 by (right; simpl; split; [done|lia]). done.
    + rewrite bool_decide_eq_false_2 by (intros [?|[? _]]; done). destruct (Z.eqb_spec a 0) as [->|_]; [done|].
      destruct (set_digits _ _) as [x'|]; [|done]. rewrite !bind_Some_eq. destruct (a =? 1); [done|].
      destruct (digit_mul1 (d :: e :: dig) a 0) as [l c]. by destruct (set_digits l x').
    + rewrite bool_decide_eq_false_2 by (intros [?|[? _]]; done). cbv zeta. by destruct (set_digits _ _).
Qed.

Lemma mul_mag_spec x dig : wf x -> normal_digits dig -> gives (mul_mag x dig) (num x * value dig).
Proof.
  intros Hx Nd. pose proof (wf_digits x Hx) as Nx. pose proof (wf_len x Hx) as Hlen. pose proof (wf_size x Hx) as Hsz. unfold mul_mag.
  assert (Hsg : forall v, v = mag x * value dig -> (if positive x then v else - v) = num x * value dig) by (intros v ->; rewrite num_eq; destruct (positive x); lia).
  destruct dig as [|d [|e dig]].
  { cbn [value]. rewrite Z.mul_0_r. by apply set_zero_gives. }
  { destruct Nd as [Hd Hl]. apply Forall_cons in Hd as [Hd _]. assert (Hz : d <> 0) by (cbn in Hl; congruence). cbn [value] in *. destruct (Z.eqb_spec d 1) as [->|H1].
    - exists x. split_and!; [done|done|]. lia.
    - destruct (mul_push (digit x) d x Nx Hd Hz Hlen Hsz) as (n & -> & Hn & Hln). destruct (mul_digits_spec (digit x) d Nx Hd Hz) as (Nm & Vm & Hlm).
      rewrite <- (Hsg (mag x * d)) by lia. apply number_gives; [done|done|done| |done]. intros E. apply (wf_zero x Hx). rewrite E in Hlm. by destruct (digit x); [|simpl in Hlm; lia]. }
  set (l := d :: e :: dig) in *. assert (Hl2 : (2 <= length l)%nat) by (unfold l; simpl; lia). destruct (digit x) as [|a [|b t]] eqn:Ex.
  { assert (Hn0 : num x = 0) by (rewrite num_eq; unfold mag; rewrite Ex; by destruct (positive x)). rewrite Hn0, Z.mul_0_l. by apply set_zero_gives. }
  { destruct Nx as [Ha Hl]. apply Forall_cons in Ha as [Ha _]. assert (Hz : a <> 0) by (cbn in Hl; congruence).
    assert (Hm : mag x = a) by (unfold mag; rewrite Ex; cbn [value]; lia). destruct (resize_spec (length l + 1) x Hsz) as (_ & Ep & Hs1 & Hs2). unfold reallocate. cbv zeta.
    rewrite set_digits_Some, bind_Some_eq, Ep by lia. assert (Hne : l = [] -> positive x = true) by done. destruct (Z.eqb_spec a 1) as [->|H1].
    - rewrite <- (Hsg (value l)) by lia. apply number_gives; [done|lia|lia|done|done].
    - destruct (mul_digits_spec l a Nd Ha Hz) as (Nm & Vm & Hlm). pose proof (mul_value l a (proj1 Nd) Ha) as Hv. unfold mul_digits in Nm, Vm, Hlm.
      destruct (digit_mul1 l a 0) as [r c]. destruct Hv as (_ & _ & Hlr & _). rewrite set_digits_Some, bind_Some_eq by (cbn [size]; lia). rewrite <- (Hsg (value l * a)) by lia. destruct (Z.eqb_spec c 0).
      + apply number_gives; [done|cbn [size]; lia|cbn [size]; lia|cbn [positive]; by destruct r; [simpl in *; lia|]|done].
      + unfold push. cbn [digit size positive]. rewrite set_digits_Some by (cbn [size]; lia). apply number_gives; [done|cbn [size]; lia|cbn [size]; lia| |done]. by destruct r. }
  rewrite <- Ex in *. clear Ex a b t. set (r := if (len x <? length l)%nat then _ else _).
  assert (Hr : Forall DhDigits.dig r /\ value r = mag x * value l /\ length r = (len x + length l)%nat).
  { destruct (digit_mul2_value (digit x) l (proj1 Nx) (proj1 Nd)) as (L1 & D1 & V1). destruct (digit_mul2_value l (digit x) (proj1 Nd) (proj1 Nx)) as (L2 & D2 & V2).
    unfold r, len, mag. destruct (_ <? _)%nat; split_and!; try done; lia. }
  destruct Hr as (Dr & Vr & Lr). pose proof (adjust_size_ge (len x + length l)) as [Hs1 Hs2]. rewrite <- (Hsg (value r)) by lia.
  exact (set_adjust_gives r (mkDH (adjust_size (len x + length l)) [] (positive x)) (value r) Dr ltac:(cbn [size]; lia) Hs2 eq_refl).
Qed.

(** [*=] *)
Lemma mul_spec x l pos : wf x -> normal_digits l -> gives (mul x l pos) (num x * (if pos then value l else - value l)).
Proof.
  intros Hx Nl. rewrite mul_unfold by (done || apply (wf_digits x Hx)). pose proof (mul_sign_gives (if bool_decide (l = [] \/ (digit x = [] /\ 2 <= length l)%nat) then true else pos) _ _ (mul_mag_spec x l Hx Nl)) as G.
  destruct pos; [by case_bool_decide|]. case_bool_decide as E; [|by rewrite Z.mul_opp_r].
  assert (Hz : num x * value l = 0). { destruct E as [->|[E _]]; [cbn [value]; lia|]. rewrite num_eq. unfold mag. rewrite E. by destruct (positive x). }
  by rewrite Z.mul_opp_r, Hz in *.
Qed.

Lemma mul_eq_spec x y : wf x -> wf y -> gives (mul_eq x y) (num x * num y).
Proof. intros Hx Hy. exact (mul_spec x (digit y) (positive y) Hx (wf_digits y Hy)). Qed.

(** ** Sum *)

Lemma normal_of_value l : Forall dig l -> (l <> [] -> weight (length l - 1) <= value l) -> normal_digits l.
Proof.
  intros Hl Hge. split; [done|]. intros E. apply last_Some in E as [l' ->]. specialize (Hge ltac:(by destruct l')). apply Forall_app in Hl as [Hl _].
  pose proof (value_range l' Hl). rewrite value_app, length_app in Hge. cbn [length value] in Hge. replace (length l' + 1 - 1)%nat with (length l') in Hge by lia. lia.
Qed.

(** The greater of two magnitudes comes first. *)
Lemma greater_first x l : normal_digits (digit x) -> normal_digits l ->
  let gt := (length l <? len x)%nat || ((len x =? length l)%nat && (0 <=? digit_cmp (digit x) l)) in
  if gt then value l <= mag x /\ (length l <= len x)%nat else mag x < value l /\ (len x <= length l)%nat.
Proof.
  intros Nx Nl. cbv zeta. pose proof (ucompare_spec x (mkDH 0 l true) Nx Nl) as Hc. unfold ucompare, len in *. cbn [digit] in Hc. change (mag (mkDH 0 l true)) with (value l) in Hc.
  destruct (Nat.ltb_spec (length l) (length (digit x))) as [H1|H1]; cbn [orb].
  - destruct (Nat.ltb_spec (length (digit x)) (length l)); [lia|]. destruct Hc as [[? _]|[[? _]|[_ Hc]]]; [done|done|]. split; lia.
  - destruct (Nat.eqb_spec (length (digit x)) (length l)) as [H2|H2]; cbn [andb].
    + destruct (Nat.ltb_spec (length (digit x)) (length l)); [lia|]. destruct Hc as [[-> Hc]|[[-> Hc]|[-> Hc]]]; cbn [Z.leb Z.compare]; unfold mag in *; [|rewrite Hc|]; split; lia.
    + destruct (Nat.ltb_spec (length (digit x)) (length l)); [|lia]. destruct Hc as [[_ Hc]|[[? _]|[? _]]]; [|done|done]. split; [done|lia].
Qed.

Lemma add_spec x l pos : wf x -> normal_digits l -> gives (add x l pos) (num x + (if pos then value l else - value l)).
Proof.
  intros Hx Nl. pose proof (wf_digits x Hx) as Nx. pose proof (wf_size x Hx) as Hsz. pose proof (greater_first x l Nx Nl) as Hgt. unfold add.
  destruct (resize_spec (Nat.max (len x) (length l) + 1) x Hsz) as (Ed & Ep & Hs1 & Hs2). set (x1 := resize _ x) in *. unfold len in *. rewrite Ed in *. rewrite Ep.
  cbv zeta in Hgt. set (gt := (_ || _)%bool) in *. set (d := if gt then (digit x, l) else (l, digit x)).
  assert (Hd : normal_digits d.1 /\ normal_digits d.2 /\ value d.2 <= value d.1 /\ (length d.2 <= length d.1)%nat /\ value d.1 + value d.2 = mag x + value l /\
    (length d.1 <= Nat.max (length (digit x)) (length l))%nat /\ value d.1 - value d.2 = if gt then mag x - value l else value l - mag x).
  { unfold d, mag in *. destruct gt; cbn [fst snd]; split_and!; try done; lia. }
  destruct d as [d1 d2]. cbn [fst snd] in Hd. destruct Hd as (N1 & N2 & Hle & Hll & Hsum & Hmax & Hdiff). rewrite num_eq. destruct (Bool.eqb (positive x) pos) eqn:Es.
  - apply Bool.eqb_prop in Es. pose proof (digit_add_value d1 0 d2 (proj1 N1) (proj1 N2) ltac:(lia) Hll) as Ha. destruct (digit_add 0 d1 d2) as [r c]. destruct Ha as (Hlr & Hr & Hc & Ev).
    rewrite set_digits_Some, bind_Some_eq by lia. pose proof (value_range d2 (proj1 N2)) as R2.
    assert (Hneed : (if positive x then mag x else - mag x) + (if pos then value l else - value l) = if positive x then mag x + value l else - (mag x + value l)) by (rewrite <- Es; destruct (positive x); lia).
    rewrite Hneed, Ep. destruct (Z.eqb_spec c 0) as [->|Hc0].
    + apply number_gives; [|lia|lia| |lia].
      * apply normal_of_value; [done|]. intros Hne. rewrite Hlr. pose proof (normal_value_ge d1 N1 ltac:(by destruct d1, r)). lia.
      * intros ->. destruct d1; [|simpl in Hlr; lia]. destruct d2; [|simpl in Hll; lia]. apply (wf_zero x Hx). apply (normal_nil _ Nx). cbn [value] in *.
        pose proof (value_range _ (proj1 Nx)). pose proof (value_range _ (proj1 Nl)). unfold mag in *. lia.
    + unfold push. cbn [digit size positive]. rewrite set_digits_Some by (rewrite length_app; cbn [length size]; lia). apply number_gives.
      * split; [apply Forall_app; split; [done|]; constructor; [unfold dig, dbase; lia|done]|]. rewrite last_app_one. congruence.
      * rewrite length_app. cbn [length size]. lia.
      * cbn [size]. lia.
      * by destruct r.
      * rewrite value_app, Hlr. cbn [value]. lia.
  - apply Bool.eqb_false_iff in Es. destruct (digit_sub_value d1 1 d2 (proj1 N1) (proj1 N2) ltac:(lia) Hll ltac:(lia)) as (Hlr & Hr & Ev).
    rewrite set_digits_Some, bind_Some_eq by lia. rewrite Ep. set (x2 := if gt then _ else _).
    assert (H2 : digit x2 = digit_sub 1 d1 d2 /\ size x2 = size x1 /\ positive x2 = if gt then positive x else pos) by (unfold x2; by destruct gt).
    destruct H2 as (E1 & E2 & E3). pose proof (adjust_gives x2 ltac:(by rewrite E1) ltac:(unfold len; rewrite E1, E2; lia) ltac:(rewrite E2; lia)) as G.
    assert (Hv : mag x2 = value d1 - value d2) by (unfold mag; rewrite E1; lia). rewrite Hv, E3, Hdiff in G.
    replace ((if positive x then mag x else - mag x) + (if pos then value l else - value l)) with
      (if (if gt then positive x else pos) then if gt then mag x - value l else value l - mag x else - (if gt then mag x - value l else value l - mag x)); [done|].
    destruct gt, (positive x), pos; try done; lia.
Qed.

Lemma add_eq_spec x y : wf x -> wf y -> gives (add_eq x y) (num x + num y).
Proof. intros Hx Hy. exact (add_spec x (digit y) (positive y) Hx (wf_digits y Hy)). Qed.

Lemma compare_spec x y : wf x -> wf y -> (compare x y < 0 <-> num x < num y) /\ (compare x y = 0 <-> num x = num y).
Proof.
  intros Hx Hy. pose proof (mag_nonneg x Hx) as Mx. pose proof (mag_nonneg y Hy) as My. pose proof (wf_zero x Hx) as Zx. pose proof (wf_zero y Hy) as Zy.
  assert (Px : positive x = false -> 0 < mag x) by (intros Hp; apply mag_pos; [apply (wf_digits x Hx)|intros E; rewrite Zx in Hp by done; done]).
  assert (Py : positive y = false -> 0 < mag y) by (intros Hp; apply mag_pos; [apply (wf_digits y Hy)|intros E; rewrite Zy in Hp by done; done]).
  unfold compare. rewrite !num_eq. destruct (ucompare_spec x y (wf_digits x Hx) (wf_digits y Hy)) as [[-> Hc]|[[-> Hc]|[-> Hc]]];
    try (assert (Hm : mag x = mag y) by (unfold mag; by rewrite Hc));
    destruct (positive x), (positive y); cbn [negb andb]; try specialize (Px eq_refl); try specialize (Py eq_refl); lia.
Qed.
