(* ===== verification/DhPow.v ===== *)
(** * The modular power and the texts of the big numbers

    [pow] is the power modulo a number, [scan] reads a decimal text and [get_string] writes
    one; they are inverse, so that two sides of an exchange that compute the same number hold
    the same text. *)

From Stdlib Require Import ZArith Zpow_facts Lia Strings.Byte.
From stdpp Require Import base strings numbers list.
From S2P Require Import Prelude BasefuncStd DhDigits Dh DhFacts.
Open Scope Z_scope.

(** ** The power *)

Lemma wf_normal x : wf x -> normal_digits (digit x).
Proof. apply wf_digits. Qed.

Lemma normal_inj l1 l2 : normal_digits l1 -> normal_digits l2 -> value l1 = value l2 -> l1 = l2.
Proof.
  intros N1 N2 E.
  assert (L : forall l l', normal_digits l -> normal_digits l' -> value l = value l' -> (length l <= length l')%nat).
  { intros l l' N N' Ev. destruct (decide (l = [])) as [->|Hne]; [simpl; lia|]. pose proof (normal_value_ge l N Hne) as Hge.
    pose proof (value_range l' (proj1 N')) as Hr. destruct (Nat.le_gt_cases (length l) (length l')) as [Hle|Hgt]; [done|].
    pose proof (weight_le (length l') (length l - 1) ltac:(lia)). lia. }
  apply value_inj; [apply N1|apply N2| |done]. apply Nat.le_antisymm; by apply L.
Qed.

Lemma num_zero x : wf x -> is_zero x = true <-> num x = 0.
Proof.
  intros Hx. unfold is_zero. rewrite bool_decide_eq_true, num_eq. unfold mag. split; [intros ->; by destruct (positive x)|].
  intros E. apply (normal_nil _ (wf_digits x Hx)). destruct (positive x); lia.
Qed.

Lemma num_odd x : wf x -> 0 <= num x -> is_odd x = Z.odd (num x).
Proof.
  intros Hx Hn. assert (E : num x = mag x) by (pose proof (mag_nonneg x Hx); rewrite num_eq in *; destruct (positive x); lia). rewrite E. unfold is_odd, mag.
  destruct (digit x) as [|d l]; [done|]. cbn [value]. rewrite Z.odd_add, Z.odd_mul. change (Z.odd dbase) with false. rewrite andb_false_l, xorb_false_r.
  change 1 with (Z.ones 1). rewrite Z.land_ones by lia. change (2 ^ 1) with 2. rewrite Zmod_odd. by destruct (Z.odd d).
Qed.

Lemma copy_wf x : wf x -> wf (copy x) /\ num (copy x) = num x.
Proof. intros Hx. pose proof (adjust_size_ge (len x)) as [H1 H2]. split; [|done]. destruct Hx as [A B C D]. by split. Qed.

Lemma of_ulong_2 : normal_digits (digit (of_ulong 2)) /\ digit (of_ulong 2) <> [] /\ divisor_ok (digit (of_ulong 2)) /\ num (of_ulong 2) = 2.
Proof. change (of_ulong 2) with (mkDH 0 [2] true). split_and!; [|done| |done]; [|intros Hl; simpl in Hl; lia]. split; [|done]. constructor; [unfold dig, dbase; lia|done]. Qed.

Section power.
Context (m : DH) (Hm : wf m) (Hpos : 1 < num m) (Hok : divisor_ok (digit m)).
Let M := num m.

Lemma modulus_nonempty : digit m <> [].
Proof. intros E. unfold num, mag in Hpos. rewrite E in Hpos. cbn [value] in Hpos. destruct (positive m); lia. Qed.

Lemma mod_m x : wf x -> 0 <= num x -> gives (mod_eq x m) (num x mod M).
Proof. intros Hx Hn. rewrite <- Z.rem_mod_nonneg by (unfold M; lia). apply mod_eq_spec; [done|by apply wf_digits|apply modulus_nonempty|done]. Qed.

(** One turn of the loop: the exponent is halved and the product of the rest stays the same modulo [m]. *)
Lemma power_turn (r a b : Z) : 0 <= r < M -> 0 <= a -> 0 <= b ->
  let a1 := a mod M in
  let r1 := if Z.odd b then (r * a1) mod M else r in
  0 <= r1 < M /\ (r1 * (a1 * a1) ^ (b / 2)) mod M = (r * a ^ b) mod M.
Proof.
  intros Hr Ha Hb. cbv zeta. assert (HM : 1 < M) by done. split; [destruct (Z.odd b); [apply Z.mod_pos_bound|]; lia|].
  assert (Hpow : forall e, 0 <= e -> (a mod M) ^ e mod M = a ^ e mod M) by (intros e He; symmetry; apply Zpower_mod; lia).
  assert (Hsq : (a mod M * (a mod M)) ^ (b / 2) = (a mod M) ^ (2 * (b / 2))) by (rewrite <- Z.pow_2_r, <- Z.pow_mul_r by (try apply Z.div_pos; lia); done).
  rewrite Hsq. pose proof (Z.div_pos b 2 Hb ltac:(lia)) as Hb2. destruct (Z.odd b) eqn:Eo.
  - assert (Eb : b = 2 * (b / 2) + 1) by (pose proof (Zmod_odd b) as Em; rewrite Eo in Em; pose proof (Z.div_mod b 2); lia).
    rewrite Z.mul_mod_idemp_l by lia. rewrite <- Z.mul_assoc, <- (Z.pow_succ_r (a mod M)) by lia. replace (Z.succ (2 * (b / 2))) with b by lia.
    rewrite <- Z.mul_mod_idemp_r, Hpow, Z.mul_mod_idemp_r by lia. done.
  - assert (Eb : b = 2 * (b / 2)) by (pose proof (Zmod_odd b) as Em; rewrite Eo in Em; pose proof (Z.div_mod b 2); lia).
    rewrite <- Eb. rewrite <- Z.mul_mod_idemp_r, Hpow, Z.mul_mod_idemp_r by lia. done.
Qed.

Lemma pow_loop_spec fuel : forall a b r, wf a -> wf b -> wf r -> 0 <= num a -> 0 <= num b < 2 ^ Z.of_nat fuel -> 0 <= num r < M -> (0 < fuel)%nat ->
  gives (pow_loop fuel a b r m) ((num r * num a ^ num b) mod M).
Proof.
  induction fuel as [|fuel IH]; intros a b r Ha Hb Hr Hna Hnb Hnr Hf; [lia|]. cbn [pow_loop].
  destruct (mod_m a Ha Hna) as (a1 & -> & Ha1 & Ea1). rewrite bind_Some_eq.
  assert (Hna1 : 0 <= num a1 < M) by (rewrite Ea1; apply Z.mod_pos_bound; unfold M; lia).
  destruct (power_turn (num r) (num a) (num b) Hnr Hna ltac:(lia)) as [Hr1 Et]. rewrite <- Ea1 in Hr1, Et.
  assert (Hr' : gives (if is_odd b then r ← mul_eq r a1; mod_eq r m else Some r) (if Z.odd (num b) then (num r * num a1) mod M else num r)).
  { rewrite num_odd by (done || lia). destruct (Z.odd (num b)); [|by exists r]. destruct (mul_eq_spec r a1 Hr Ha1) as (p & -> & Hp & Ep). rewrite bind_Some_eq, <- Ep.
    apply mod_m; [done|]. rewrite Ep. apply Z.mul_nonneg_nonneg; lia. }
  destruct Hr' as (r1 & -> & Hwr1 & Er1). rewrite bind_Some_eq. rewrite <- Er1 in Hr1, Et.
  destruct of_ulong_2 as (N2 & Ne2 & Ok2 & E2). destruct (div_eq_spec b (of_ulong 2) Hb N2 Ne2 Ok2) as (b1 & Eb & Hb1 & Eb1). unfold div_eq_ulong. rewrite Eb, bind_Some_eq.
  rewrite E2, Z.quot_div_nonneg in Eb1 by lia. rewrite <- Et, <- Eb1. destruct (is_zero b1) eqn:Ez.
  - apply num_zero in Ez; [|done]. rewrite Ez, Z.pow_0_r, Z.mul_1_r, Z.mod_small by done. by exists r1.
  - assert (Hnz : num b1 <> 0) by (intros E; apply num_zero in E; [congruence|done]).
    destruct (mul_eq_spec a1 a1 Ha1 Ha1) as (a2 & -> & Ha2 & Ea2). rewrite bind_Some_eq, <- Ea2.
    assert (Hb1' : 0 <= num b1 < 2 ^ Z.of_nat fuel). { rewrite Nat2Z.inj_succ, Z.pow_succ_r in Hnb by lia. rewrite Eb1. split; [apply Z.div_pos; lia|]. apply Z.div_lt_upper_bound; lia. }
    apply IH; try done; [rewrite Ea2; apply Z.mul_nonneg_nonneg; lia|]. destruct fuel; [simpl in Hb1'; lia|lia].
Qed.

(** [pow] *)
Lemma pow_spec x y : wf x -> wf y -> 0 <= num x -> 0 <= num y -> gives (pow x y m) (num x ^ num y mod num m).
Proof.
  intros Hx Hy Hnx Hny. unfold pow. destruct (is_zero m) eqn:Ez; [apply num_zero in Ez; [lia|done]|].
  change (DH_of (lit "1") 10) with (Some (mkDH 6 [1] true)). rewrite bind_Some_eq. destruct (copy_wf x Hx) as [Cx Ex]. destruct (copy_wf y Hy) as [Cy Ey].
  assert (H1 : wf (mkDH 6 [1] true)) by (split; cbn; [split; [constructor; [unfold dig, dbase; lia|done]|done]|done|unfold len; simpl; lia|lia]).
  replace (num x ^ num y) with (num (mkDH 6 [1] true) * num (copy x) ^ num (copy y)) by (rewrite Ex, Ey; unfold num, mag; cbn [digit positive value]; lia).
  apply pow_loop_spec; try done; try lia. rewrite Ey. split; [lia|].
  assert (E : num y = mag y) by (pose proof (mag_nonneg y Hy); rewrite num_eq in *; destruct (positive y); lia).
  pose proof (value_range (digit y) (proj1 (wf_digits y Hy))) as Hr. fold (mag y) in Hr. rewrite E. fold (len y) in Hr.
  assert (Hw : weight (len y) = 2 ^ (32 * Z.of_nat (len y))) by (unfold weight, dbase; by rewrite <- Z.pow_mul_r by lia). rewrite Hw in Hr.
  pose proof (Z.pow_le_mono_r 2 (32 * Z.of_nat (len y)) (Z.of_nat (S (32 * len y))) ltac:(lia) ltac:(lia)). lia.
Qed.
End power.

(** ** Reading *)

Definition text_value_from (v : Z) (s : bytes) : Z := foldl (fun v c => 10 * v + digit_val c) v s.
Definition text_value (s : bytes) : Z := text_value_from 0 s.
Notation all_digits := (Forall (fun c => is_digit c = true)).

Lemma is_digit_range c : is_digit c = true -> 0 <= digit_val c < 10 /\ c <> x00 /\ c <> x2d /\ c <> x2b.
Proof.
  unfold is_digit, digit_val. intros Hd. apply andb_true_iff in Hd as [H1 H2]. apply Z.leb_le in H1, H2. split; [lia|].
  split_and!; intros ->; vm_compute in H1; done.
Qed.

Lemma scan_digit_digit c : is_digit c = true -> scan_digit c 10 = Some (digit_val c).
Proof.
  unfold is_digit, scan_digit, digit_val, toupper. intros Hd. apply andb_true_iff in Hd as [H1 H2]. apply Z.leb_le in H1, H2.
  destruct (Z.leb_spec 97 (b2z c)); [lia|]. cbn [andb]. destruct (Z.ltb_spec (b2z c) 48); [lia|]. destruct (Z.leb_spec (b2z c) 57); [|lia].
  rewrite bind_Some_eq. destruct (Z.leb_spec 10 (b2z c - 48)); [lia|done].
Qed.

(** A number as the scan builds it, which may have zeros at its end. *)
Record scanned (x : DH) (v : Z) : Prop := {
  sc_digits : Forall dig (digit x);
  sc_len : (len x <= size x)%nat;
  sc_size : (3 <= size x)%nat;
  sc_positive : positive x = true;
  sc_value : mag x = v }.

Lemma grow l c x : Forall dig l -> dig c -> length l = len x -> (len x <= size x)%nat -> (3 <= size x)%nat -> positive x = true ->
  exists x', (x ← set_digits l x; if c =? 0 then Some x else push c (resize (len x + 1) x)) = Some x' /\ scanned x' (value l + weight (length l) * c).
Proof.
  intros Hl Hc Hlen Hx Hs Hp. rewrite set_digits_Some, bind_Some_eq by lia. set (x1 := mkDH (size x) l (positive x)). destruct (Z.eqb_spec c 0) as [->|Hc0].
  - exists x1. split; [done|]. split; [done|unfold len in *; cbn; lia|done|done|unfold mag; cbn; lia].
  - destruct (resize_spec (len x1 + 1) x1 Hs) as (Ed & Ep & Hs1 & Hs2). unfold push. rewrite Ed.
    assert (Hfit : (length (digit x1 ++ [c]) <= size (resize (len x1 + 1) x1))%nat) by (rewrite length_app; unfold len in *; cbn [x1 digit length] in *; lia).
    rewrite set_digits_Some by done. eexists. split; [done|]. split; cbn [digit size positive].
    + apply Forall_app. by split; [|constructor].
    + unfold len. cbn [digit]. done.
    + cbn [x1 size] in Hs2. lia.
    + by rewrite Ep.
    + unfold mag. cbn [x1 digit]. rewrite value_app. cbn [value]. lia.
Qed.

Lemma scan_on_spec s : forall x v, all_digits s -> scanned x v -> gives (scan_on s 10 x) (text_value_from v s).
Proof.
  induction s as [|c s IH]; intros x v Hs Hx; cbn [scan_on].
  - pose proof (adjust_gives x (sc_digits x v Hx) (sc_len x v Hx) (sc_size x v Hx)) as G. rewrite (sc_positive x v Hx), (sc_value x v Hx) in G. exact G.
  - apply Forall_cons in Hs as [Hc Hs]. destruct (is_digit_range c Hc) as (Hd & Hnul & _). rewrite decide_False by done. rewrite scan_digit_digit by done.
    destruct Hx as [Xd Xl Xs Xp Xv]. assert (Hdd : dig (digit_val c)) by (unfold dig, dbase; lia).
    pose proof (digit_mul1_value (digit x) 10 0 Xd ltac:(unfold dig, dbase; lia) ltac:(unfold dig, dbase; lia)) as Hm.
    destruct (digit_mul1 (digit x) 10 0) as [l r]. destruct Hm as (Hll & Hl & Hr & Ev). fold (mag x) in Ev. fold (len x) in Hll.
    destruct (grow l r x Hl Hr Hll Xl Xs Xp) as (x1 & E1 & [Yd Yl Ys Yp Yv]). unfold len in Hll. rewrite Hll in Yv. rewrite Ev in Yv.
    assert (E1' : exists x0, set_digits l x = Some x0 /\ (if r =? 0 then Some x0 else push r (resize (len x0 + 1) x0)) = Some x1).
    { destruct (set_digits l x) as [x0|]; [|done]. by exists x0. }
    destruct E1' as (x0 & -> & E2). rewrite bind_Some_eq, E2, bind_Some_eq. cbn [text_value_from foldl].
    assert (H3 : exists x3, (if bool_decide (digit x1 = []) then set_digits [digit_val c] x1 else let '(l0, r0) := digit_add 0 (digit x1) [digit_val c] in
        x ← set_digits l0 x1; if r0 =? 0 then Some x else push r0 (resize (len x + 1) x)) = Some x3 /\ scanned x3 (10 * v + digit_val c)).
    { case_bool_decide as En.
      - rewrite set_digits_Some by (simpl; lia). eexists. split; [done|]. unfold mag in Yv. rewrite En in Yv. cbn [value] in Yv. fold (mag x) in Yv.
        split; cbn [digit size positive]; [by constructor|unfold len; simpl; lia|done|done|unfold mag; cbn [digit value]; lia].
      - pose proof (digit_add_value (digit x1) 0 [digit_val c] Yd ltac:(by constructor) ltac:(lia) ltac:(destruct (digit x1); [done|simpl; lia])) as Ha.
        destruct (digit_add 0 (digit x1) [digit_val c]) as [l2 c2]. destruct Ha as (Hl2 & Hd2 & Hc2 & Ev2). cbn [value] in Ev2. fold (mag x1) in Ev2.
        destruct (grow l2 c2 x1 Hd2 ltac:(unfold dig, dbase; lia) Hl2 Yl Ys Yp) as (x3 & E3 & Hx3). exists x3. split; [exact E3|]. rewrite Hl2 in Hx3.
        replace (10 * v + digit_val c) with (value l2 + weight (length (digit x1)) * c2) by lia. done. }
    destruct H3 as (x3 & -> & Hx3). rewrite bind_Some_eq. by apply IH.
Qed.

(** A decimal text is read as its value. *)
Lemma DH_of_spec s : all_digits s -> gives (DH_of s 10) (text_value s).
Proof.
  intros Hs. unfold DH_of, scan. assert (H0 : scanned new_DH 0) by (split; [constructor|unfold len; simpl; lia|vm_compute; lia|done|done]).
  destruct s as [|c s]; [by apply scan_on_spec|]. pose proof Hs as Hs'. apply Forall_cons in Hs' as [Hc _]. destruct (is_digit_range c Hc) as (_ & _ & H1 & H2).
  rewrite !decide_False by done. by apply scan_on_spec.
Qed.

(** ** Writing *)

(** A text without leading zeros. *)
Definition canonical (s : bytes) : Prop := all_digits s /\ s <> [] /\ (head s = Some x30 -> s = [x30]).

Lemma text_value_from_add s : forall v, text_value_from v s = v * 10 ^ Z.of_nat (length s) + text_value s.
Proof.
  unfold text_value. induction s as [|c s IH]; intros v; [cbn [text_value_from foldl length]; simpl; lia|].
  change (text_value_from v (c :: s)) with (text_value_from (10 * v + digit_val c) s). change (text_value_from 0 (c :: s)) with (text_value_from (10 * 0 + digit_val c) s).
  rewrite IH, (IH (10 * 0 + digit_val c)). cbn [length]. rewrite Nat2Z.inj_succ, Z.pow_succ_r by lia. lia.
Qed.

Lemma text_value_cons c s : text_value (c :: s) = digit_val c * 10 ^ Z.of_nat (length s) + text_value s.
Proof. change (text_value (c :: s)) with (text_value_from (10 * 0 + digit_val c) s). rewrite text_value_from_add. f_equal. Qed.

Lemma text_value_range s : all_digits s -> 0 <= text_value s < 10 ^ Z.of_nat (length s).
Proof.
  induction 1 as [|c s Hc Hs IH]; [done|]. rewrite text_value_cons. cbn [length]. rewrite Nat2Z.inj_succ, Z.pow_succ_r by lia.
  destruct (is_digit_range c Hc) as [Hd _]. nia.
Qed.

Lemma text_value_inj s1 : forall s2, all_digits s1 -> all_digits s2 -> length s1 = length s2 -> text_value s1 = text_value s2 -> s1 = s2.
Proof.
  induction s1 as [|c s1 IH]; intros [|d s2] H1 H2 Hl Hv; try done. apply Forall_cons in H1 as [Hc H1]. apply Forall_cons in H2 as [Hd H2]. cbn [length] in Hl.
  rewrite !text_value_cons in Hv. replace (length s2) with (length s1) in Hv by lia. pose proof (text_value_range s1 H1) as R1. pose proof (text_value_range s2 H2) as R2.
  replace (length s2) with (length s1) in R2 by lia. destruct (is_digit_range c Hc) as [Rc _]. destruct (is_digit_range d Hd) as [Rd _].
  assert (E : digit_val c = digit_val d) by nia. f_equal; [apply b2z_inj; unfold digit_val in E; lia|]. apply IH; [done|done|lia|rewrite E in Hv; lia].
Qed.

Lemma canonical_ge s : canonical s -> s <> [x30] -> 10 ^ Z.of_nat (length s - 1) <= text_value s.
Proof.
  intros (Hs & Hne & Hh) H0. destruct s as [|c s]; [done|]. apply Forall_cons in Hs as [Hc Hs]. rewrite text_value_cons. cbn [length].
  replace (S (length s) - 1)%nat with (length s) by lia. pose proof (text_value_range s Hs). destruct (is_digit_range c Hc) as [Rc _].
  assert (digit_val c <> 0); [|nia]. intros E. apply H0, Hh. cbn [head]. f_equal. apply b2z_inj. unfold digit_val in E. change (b2z x30) with 48. lia.
Qed.

Lemma canonical_inj s1 s2 : canonical s1 -> canonical s2 -> text_value s1 = text_value s2 -> s1 = s2.
Proof.
  intros C1 C2 E.
  assert (Z0 : forall s, canonical s -> text_value s = 0 -> s = [x30]).
  { intros s C Ez. destruct (decide (s = [x30])) as [->|Hn]; [done|]. pose proof (canonical_ge s C Hn). pose proof (Z.pow_pos_nonneg 10 (Z.of_nat (length s - 1))). lia. }
  destruct (Z.eq_dec (text_value s1) 0) as [H0|H0]; [rewrite (Z0 s1), (Z0 s2) by (done || lia); done|].
  assert (N : forall s, text_value s <> 0 -> s <> [x30]) by (intros s Hn ->; by apply Hn).
  assert (L : forall s t, canonical s -> canonical t -> text_value s = text_value t -> text_value s <> 0 -> (length s <= length t)%nat).
  { intros s t Cs Ct Ev Hn. pose proof (canonical_ge s Cs (N s Hn)) as Hge. pose proof (text_value_range t (proj1 Ct)) as Rt.
    destruct (Nat.le_gt_cases (length s) (length t)) as [Hle|Hgt]; [done|]. pose proof (Z.pow_le_mono_r 10 (Z.of_nat (length t)) (Z.of_nat (length s - 1)) ltac:(lia) ltac:(lia)). lia. }
  apply text_value_inj; [apply C1|apply C2| |done]. apply Nat.le_antisymm; apply L; try done; lia.
Qed.

(** The digits after a division by ten: at most one zero is to be dropped. *)
Definition drop_zero (q : list Z) : list Z := match last q with Some 0 => take (length q - 1) q | _ => q end.

Lemma drop_zero_spec (l q : list Z) : normal_digits l -> l <> [] -> Forall dig q -> length q = length l -> value q = value l / 10 ->
  normal_digits (drop_zero q) /\ value (drop_zero q) = value l / 10.
Proof.
  intros Nl Hne Hq Hlen Vq. pose proof (normal_value_ge l Nl Hne) as Hge. unfold drop_zero. destruct (last q) as [z|] eqn:Ez; [|apply last_None in Ez; subst q; done].
  destruct (Z.eq_dec z 0) as [->|Hz]; [|destruct z; [done|split; [by split; [|congruence]|done]..]].
  apply last_Some in Ez as [q0 ->]. apply Forall_app in Hq as [Hq0 _]. rewrite length_app in *. cbn [length] in *. replace (length q0 + 1 - 1)%nat with (length q0) by lia. rewrite take_app_length.
  rewrite value_app in Vq. cbn [value] in Vq. assert (Vq' : value q0 = value l / 10) by lia. split; [|done]. split; [done|]. intros E. apply last_Some in E as [q1 ->].
  apply Forall_app in Hq0 as [Hq1 _]. rewrite length_app in Hlen. cbn [length] in Hlen. pose proof (value_range q1 Hq1) as R1. rewrite value_app in Vq'. cbn [value] in Vq'.
  replace (length l - 1)%nat with (S (length q1)) in Hge by lia. rewrite weight_S in Hge.
  assert (weight (length q1) <= value l / 10) by (apply Z.div_le_lower_bound; [lia|]; unfold dbase in *; lia). lia.
Qed.

Lemma text_value_snoc t c : text_value (t ++ [c]) = 10 * text_value t + digit_val c.
Proof. unfold text_value, text_value_from. by rewrite foldl_app. Qed.

Lemma as_string_loop_spec l : forall ds acc, normal_digits ds -> ds <> [] -> value ds < 10 ^ Z.of_nat l ->
  exists l' t, as_string_loop l ds 10 acc = Some (l', t ++ acc) /\ canonical t /\ text_value t = value ds.
Proof.
  induction l as [|l IH]; intros ds acc Nd Hne Hv; pose proof (normal_value_ge ds Nd Hne) as Hge; pose proof (weight_pos (length ds - 1)) as Hw; [simpl in Hv; lia|].
  cbn [as_string_loop]. destruct (digit_div1_value ds 10 (proj1 Nd) ltac:(unfold dbase; lia)) as (q & r & -> & Hlq & Hq & Er & Vq). rewrite bind_Some_eq.
  assert (Hr : 0 <= r < 10) by (rewrite Er; apply Z.mod_pos_bound; lia). destruct (Z.ltb_spec r 10); [|lia]. rewrite Z.add_comm. fold (digit_char r). fold (drop_zero q).
  destruct (drop_zero_spec ds q Nd Hne Hq Hlq Vq) as [Nq Vq']. set (q' := drop_zero q) in *. set (c := digit_char r).
  assert (Hc : is_digit c = true) by (by apply is_digit_digit_char). assert (Hcv : digit_val c = r) by (by apply digit_val_digit_char).
  pose proof (Z.div_mod (value ds) 10 ltac:(lia)) as Hdm. case_bool_decide as Eq.
  - exists l, [c]. rewrite Eq in Vq'. cbn [value] in Vq'. split_and!; [done| |].
    + split_and!; [by constructor|done|]. intros [= ->]. done.
    + rewrite text_value_cons. cbn [length]. unfold text_value, text_value_from. cbn [foldl]. lia.
  - assert (Hlt : value q' < 10 ^ Z.of_nat l). { rewrite Vq'. apply Z.div_lt_upper_bound; [lia|]. rewrite Nat2Z.inj_succ, Z.pow_succ_r in Hv by lia. lia. }
    destruct (IH q' (c :: acc) Nq Eq Hlt) as (l' & t & E & (Ht & Htn & Hth) & Vt). exists l', (t ++ [c]). rewrite E, <- app_assoc. split_and!; [done| |].
    + split_and!; [apply Forall_app; by split; [|constructor]|by destruct t|]. intros Hh. destruct t as [|a t]; [done|]. cbn [head app] in Hh. specialize (Hth Hh).
      exfalso. rewrite Hth in Vt. assert (value q' = 0) as V0 by (rewrite <- Vt; done). apply Eq, (normal_nil _ Nq V0).
    + rewrite text_value_snoc. lia.
Qed.

(** The buffer of [get_string] is large enough. *)
Lemma get_string_spec x : wf x -> 0 <= num x -> canonical (get_string x 10) /\ text_value (get_string x 10) = num x.
Proof.
  intros Hx Hn. pose proof (wf_digits x Hx) as Nx. unfold get_string, as_string, digits_of. change (Z.log2 10) with 3.
  set (d := (32 * Z.of_nat (len x) + 3 - 1) / 3). assert (Hd : 32 * Z.of_nat (len x) <= 3 * d /\ 0 <= d) by (unfold d; dlia).
  destruct (Nat.ltb_spec (Z.to_nat (d + 2)) 2); [lia|]. rewrite strip_normal by done. destruct (digit x) as [|e l] eqn:Ex.
  - split; [split_and!; [by constructor|done|done]|]. rewrite num_eq. unfold mag. rewrite Ex. by destruct (positive x).
  - rewrite <- Ex in *. assert (Hne : digit x <> []) by (rewrite Ex; done). clear e l Ex.
    destruct (as_string_loop_spec (Z.to_nat (d + 2) - 1) (digit x) [] Nx Hne) as (l' & t & -> & Ct & Vt).
    + pose proof (value_range (digit x) (proj1 Nx)) as Hr. fold (len x) in Hr. assert (Hw : weight (len x) = 2 ^ (32 * Z.of_nat (len x))) by (unfold weight, dbase; by rewrite <- Z.pow_mul_r by lia).
      replace (Z.of_nat (Z.to_nat (d + 2) - 1)) with (d + 1) by lia. pose proof (Z.pow_le_mono_r 2 (32 * Z.of_nat (len x)) (3 * d) ltac:(lia) ltac:(lia)).
      rewrite (Z.pow_mul_r 2 3 d) in * by lia. pose proof (Z.pow_le_mono_l 8 10 d ltac:(lia)). pose proof (Z.pow_le_mono_r 10 d (d + 1) ltac:(lia) ltac:(lia)). change (2 ^ 3) with 8 in *. lia.
    + rewrite bind_Some_eq. rewrite app_nil_r. assert (Hp : positive x = true).
      { pose proof (mag_pos x Nx Hne). rewrite num_eq in Hn. destruct (positive x); [done|lia]. }
      rewrite Hp. unfold default. cbn [from_option]. unfold id. split; [done|]. rewrite Vt, num_eq, Hp. done.
Qed.

Lemma get_string_num x y : wf x -> wf y -> 0 <= num x -> num x = num y -> get_string x 10 = get_string y 10.
Proof.
  intros Hx Hy Hn E. destruct (get_string_spec x Hx Hn) as [C1 V1]. destruct (get_string_spec y Hy ltac:(lia)) as [C2 V2]. apply canonical_inj; [done|done|lia].
Qed.

(** ** The claims *)

(** The numbers of the exchange, and the moduli [pow] takes. *)
Definition natural (x : DH) : Prop := wf x /\ 0 <= num x.
Definition modulus (m : DH) : Prop := wf m /\ 1 < num m /\ divisor_ok (digit m).

Definition dh_check : DH := default new_DH (DH_of (lit "340282366920938463463374607431768211456") 10).

Lemma pow_natural x y m : natural x -> natural y -> modulus m -> exists r, pow x y m = Some r /\ natural r /\ num r = num x ^ num y mod num m.
Proof.
  intros [Hx Hnx] [Hy Hny] (Hm & H1 & Hok). destruct (pow_spec m Hm H1 Hok x y Hx Hy Hnx Hny) as (r & E & Hr & Hv). exists r. split_and!; [done| |done].
  split; [done|]. rewrite Hv. apply Z.mod_pos_bound. lia.
Qed.

(** C16: [pow(x, y, m)] is the modular power: for numbers in normal form that are not negative and a modulus above one of which the last digit is not all ones,
    the loop of squarings returns, nothing is written behind a vector, no division by zero is made, and the result is a number in normal form with the
    value x^y mod m.  Each [%=] in the loop is a long division by Knuth's algorithm D when the modulus has two digits or more. *)
Theorem pow_is_power (x y m : DH) (Hx : natural x) (Hy : natural y) (Hm : modulus m) :
  exists r, pow x y m = Some r /\ natural r /\ num r = num x ^ num y mod num m.
Proof. by apply pow_natural. Qed.

Lemma dh_check_wf : wf dh_check /\ num dh_check = 2 ^ 128 /\ divisor_ok (digit dh_check).
Proof.
  destruct (DH_of_spec (lit "340282366920938463463374607431768211456")) as (x & E & Hx & Hn); [by repeat constructor|].
  unfold dh_check. rewrite E. cbn [from_option default]. unfold id. split_and!; [done|by rewrite Hn|].
  assert (digit x = [0; 0; 0; 0; 1]) as -> by (vm_compute in E; by injection E as <-). intros _. cbn. discriminate.
Qed.

Lemma pow_is_power_witness : exists r, pow dh_check dh_check dh_check = Some r /\ natural r /\ num r = num dh_check ^ num dh_check mod num dh_check.
Proof.
  destruct dh_check_wf as (Hw & Hn & Hok). apply (pow_is_power dh_check dh_check dh_check); [split; [exact Hw|rewrite Hn; lia]|split; [exact Hw|rewrite Hn; lia]|split; [exact Hw|split; [rewrite Hn; reflexivity|exact Hok]]].
Defined.

(** A number in normal form that is not negative is written as its decimal text without leading zeros, for which the buffer on the stack is large enough,
    and reading this text gives the number again; a decimal text without leading zeros is read as a number that is written as the same text. *)
Theorem dh_text_round_trip (x : DH) (s : bytes) (Hx : natural x) (Hs : canonical s) :
  text_value (get_string x 10) = num x /\
  (exists y, DH_of (get_string x 10) 10 = Some y /\ wf y /\ num y = num x) /\
  (exists y, DH_of s 10 = Some y /\ wf y /\ num y = text_value s /\ get_string y 10 = s).
Proof.
  destruct Hx as [Hx Hn]. destruct (get_string_spec x Hx Hn) as [C V]. split; [done|]. split.
  - destruct (DH_of_spec (get_string x 10) (proj1 C)) as (y & E & Hy & Hv). exists y. split_and!; [done|done|lia].
  - destruct (DH_of_spec s (proj1 Hs)) as (y & E & Hy & Hv). exists y. pose proof (text_value_range s (proj1 Hs)). destruct (get_string_spec y Hy ltac:(lia)) as [Cy Vy].
    split_and!; [done|done|done|]. apply canonical_inj; [done|done|lia].
Qed.

Lemma dh_text_round_trip_witness :
  text_value (get_string dh_check 10) = num dh_check /\
  (exists y, DH_of (get_string dh_check 10) 10 = Some y /\ wf y /\ num y = num dh_check) /\
  (exists y, DH_of (lit "18446744073709551617") 10 = Some y /\ wf y /\ num y = text_value (lit "18446744073709551617") /\ get_string y 10 = lit "18446744073709551617").
Proof.
  destruct dh_check_wf as (Hw & Hn & _). apply (dh_text_round_trip dh_check (lit "18446744073709551617")); [split; [exact Hw|rewrite Hn; lia]|].
  split_and!; [by repeat constructor|discriminate|discriminate].
Defined.
