(* ===== verification/Session.v ===== *)
(** * An encrypted connection ([libs/network/tcp_client.cpp], [libs/network/epoll_v2.cpp])

    A client that uses encryption sends the numbers of a Diffie-Hellman exchange when it
    connects ([tcp_client::connect]); the server answers from its thread pool
    ([epoll_v2::process_message]), the client proves the common key with an encrypted word and
    the server confirms it; from then on both sides encrypt every message with AES and, when
    it is switched on, with GOST below it.  The two sides and the messages under way between
    them are a transition system.

    The libraries of the ciphers of AES and of the compression are parameters. *)

From Stdlib Require Import ZArith Lia Strings.Byte.
From stdpp Require Import base strings numbers list relations.
From S2P Require Import Prelude Bitbase BasefuncStd Md5 Gost DhDigits Dh DhFacts DhPow.
Open Scope Z_scope.

(** ** The libraries *)

(** [aes_encrypt text key iv] and [aes_decrypt] of Crypto++ in CBC mode, [None] for an
    exception; zlib. *)
Class Libraries := {
  aes_encrypt : bytes -> bytes -> bytes -> option bytes;
  aes_decrypt : bytes -> bytes -> bytes -> option bytes;
  compress_string : bytes -> bytes;
  decompress_string : bytes -> option bytes }.

(** What they document: with a key of 32 bytes and a block of 16 to start from, a text is
    encrypted and decrypted again; what is compressed is decompressed. *)
Class LibraryLaws `{Libraries} := {
  aes_law : forall text key iv, length key = 32%nat -> length iv = 16%nat ->
    exists c, aes_encrypt text key iv = Some c /\ aes_decrypt c key iv = Some text;
  zlib_law : forall text, decompress_string (compress_string text) = Some text }.

Section session.
Context `{Libraries}.

(** ** [cryptopp_] *)

(** [memcpy] of [n] bytes from [c_str()]; [None] when it would read behind the text. *)
Definition memcpy_c_str (s : bytes) (n : nat) : option bytes :=
  if (n <=? length s + 1)%nat then Some (take n (s ++ [x00])) else None.

(** [encrypt] and [decrypt] with 32 bytes of key and without base64; an exception gives an
    empty text. *)
Definition encrypt (text key_ iv_ : bytes) : option bytes :=
  key ← memcpy_c_str key_ 32; iv ← memcpy_c_str iv_ 16; Some (default [] (aes_encrypt text key iv)).
Definition decrypt_aes (text key_ iv_ : bytes) : option bytes :=
  key ← memcpy_c_str key_ 32; iv ← memcpy_c_str iv_ 16; Some (default [] (aes_decrypt text key iv)).

(** ** What both sides keep of the encryption *)

Record secure := Secure { is_aes : bool; is_gost : bool; aes_key : bytes; aes_iv : bytes }.
Definition new_secure : secure := Secure false false [] [].

(** Memory and object a cipher finds when it is called. *)
Record place := Place { p_memory : memory; p_object : g89 }.

Definition gost_crypt (at_ : place) (s : secure) (msg : bytes) : option bytes :=
  fst <$> crypt (p_memory at_) msg (aes_key s ++ aes_iv s) (p_object at_).
Definition gost_decrypt (at_ : place) (s : secure) (msg : bytes) : option bytes :=
  fst <$> decrypt (p_memory at_) msg (aes_key s ++ aes_iv s) (p_object at_).

(** A message as it is sent once the connection is encrypted, and as it is read. *)
Definition protect (at_ : place) (s : secure) (msg : bytes) : option bytes :=
  msg ← (if is_gost s then gost_crypt at_ s msg else Some msg); encrypt msg (aes_key s) (aes_iv s).
Definition unprotect (at_ : place) (s : secure) (str : bytes) : option bytes :=
  str ← decrypt_aes str (aes_key s) (aes_iv s); if is_gost s then gost_decrypt at_ s str else Some str.

Definition ok_aes : bytes := lit "ok_aes".

(** ** The client *)

Inductive socket_status := connected | not_connected | waiting_for_encryption_established | waiting_for_auth.
#[export] Instance socket_status_eq_dec : EqDecision socket_status.
Proof. solve_decision. Defined.
Record client := Client { cl_s : secure; cl_a : bytes; cl_p : bytes; cl_state : socket_status }.

Record config := Config { is_gost_enc : bool; skip_aes : bool; auth_string : bytes; echo_string : bytes }.

(** The digits of a secret number: the texts of the random numbers, one after the other. *)
Definition secret (rands : list Z) : bytes := mjoin (to_string <$> rands).

(** [connect] with encryption: the client as it waits, and the message it sends. *)
Definition connect (p_ g_ a_ : bytes) : option (client * bytes) :=
  g ← DH_of g_ 10; p ← DH_of p_ 10; a ← DH_of a_ 10; A ← pow g a p;
  let sz_p := numeric_to_chars_sz (zlen p_) 4 ++ g_ ++ p_ ++ get_string A 10 in
  Some (Client new_secure a_ p_ waiting_for_encryption_established, compress_string (compress_number sz_p)).

(** [send] *)
Definition client_send (at_ : place) (c : client) (msg : bytes) (aes_en : bool) : option bytes :=
  if is_aes (cl_s c) || aes_en then protect at_ (cl_s c) msg else Some msg.

(** [set_aes_key_iv] and the flags. *)
Definition set_key (key : bytes) (s : secure) : secure := Secure (is_aes s) (is_gost s) key (take 16 key).
Definition set_aes (gost : bool) (s : secure) : secure := Secure true (if gost then true else is_gost s) (aes_key s) (aes_iv s).
Definition with_s (s : secure) (st : socket_status) (c : client) : client := Client s (cl_a c) (cl_p c) st.

(** [pr] of [read_bytes]: what the client sends, and what it gives to its callbacks. *)
Definition client_read (cfg : config) (at_ : place) (str : bytes) (c : client) : option (client * list bytes * list bytes) :=
  let s := cl_s c in
  if negb (is_aes s) then
    if bool_decide (aes_key s = []) then
      let B_ := uncompress_number str in
      p ← DH_of (cl_p c) 10; a ← DH_of (cl_a c) 10; B ← DH_of B_ 10;
      K ← pow B a p;
      key ← md5_hex (md5_buffer (p_memory at_)) (get_string K 10);
      let c := with_s (set_key key s) (cl_state c) c in
      m ← client_send at_ c ok_aes true;
      Some (c, [m], [])
    else
      str ← decrypt_aes str (aes_key s) (aes_iv s);
      if bool_decide (str = ok_aes) then
        let c := with_s (set_aes (is_gost_enc cfg) s) (cl_state c) c in
        sent ← (if bool_decide (auth_string cfg = []) then Some [] else m ← client_send at_ c (auth_string cfg) false; Some [m]);
        Some (with_s (cl_s c) connected c, sent, [])
      else Some (with_s s not_connected c, [], [])
  else
    dec_str ← decrypt_aes str (aes_key s) (aes_iv s);
    str ← (if negb (bool_decide (str = [])) && bool_decide (dec_str = []) && skip_aes cfg then Some str
           else if is_gost s then gost_decrypt at_ s dec_str else Some dec_str);
    let is_echo := negb (bool_decide (echo_string cfg = [])) && bool_decide (echo_string cfg = str) in
    Some (c, [], if is_echo then [] else [str]).

(** ** The server *)

(** [responser::item::sub] *)
Record sub := Sub { sub_str : bytes; is_crypted : bool; is_key_generation : bool }.

(** The client's entry, the tasks of the pool for it, and what waits in the responser. *)
Record server := Server { sv_s : secure; sv_tasks : list bytes; sv_resp : list sub }.
Definition new_server : server := Server new_secure [] [].

(** [push_message]: the text that is queued for the socket. *)
Definition push_message_s (at_ : place) (s : secure) (m : sub) : option bytes :=
  if negb (is_crypted m) && is_aes s then protect at_ s (sub_str m) else Some (sub_str m).

(** [process_message]: what is queued for the socket, and what is given to [on_message]. *)
Definition process_message (cfg : config) (at_ : place) (str : bytes) (v : server) : option (server * list bytes * list bytes) :=
  let s := sv_s v in
  if negb (is_aes s) then
    if bool_decide (aes_key s = []) then Some (Server s (sv_tasks v ++ [str]) (sv_resp v), [], [])
    else
      msg ← decrypt_aes str (aes_key s) (aes_iv s);
      if bool_decide (msg = ok_aes) then
        m ← push_message_s at_ (Secure true (is_gost s) (aes_key s) (aes_iv s)) (Sub ok_aes false false);
        Some (Server (set_aes (is_gost_enc cfg) s) (sv_tasks v) (sv_resp v), [m], [])
      else Some (v, [], [])
  else
    str ← unprotect at_ s str; Some (v, [], [str]).

(** The task of the pool.  An exception ends it with no answer.  The key and the number go to the
    responser one after the other; here they are added in one step. *)
Definition key_task (at_ : place) (rands : list Z) (str : bytes) : option (list sub) :=
  match decompress_string str with
  | None => Some []
  | Some z =>
      let keys := uncompress_number z in
      if 4 <? zlen keys then
        let size_of_p := chars_to_numeric I32 (take 4 keys) in
        if wrap U64 (wrap I32 (7 + size_of_p)) <? zlen keys then
          let g_ := zsub keys 4 1 in
          let p_ := zsub keys 5 (wrap U64 size_of_p) in
          let pos := wrap U64 (5 + size_of_p) in
          if zlen keys <? pos then Some []
          else
            let A_ := zsub keys pos (zlen keys) in
            g ← DH_of g_ 10; p ← DH_of p_ 10; b ← DH_of (secret rands) 10; A ← DH_of A_ 10;
            B ← pow g b p; K ← pow A b p;
            key ← md5_hex (md5_buffer (p_memory at_)) (get_string K 10);
            Some [Sub key false true; Sub (compress_number (get_string B 10)) false false]
        else Some []
      else Some []
  end.

(** The part of the loop of [listen] that empties the responser. *)
Fixpoint send_responses (at_ : place) (l : list sub) (s : secure) : option (secure * list bytes) :=
  match l with
  | [] => Some (s, [])
  | m :: l' =>
      if is_key_generation m then send_responses at_ l' (set_key (sub_str m) s)
      else o ← push_message_s at_ s m; '(s, out) ← send_responses at_ l' s; Some (s, o :: out)
  end.

(** [responser::add_impl] with the encryption data of the client. *)
Definition add_impl (at_ : place) (s : secure) (msg : bytes) : option sub :=
  if is_aes s && negb (bool_decide (aes_key s = [])) then m ← protect at_ s msg; Some (Sub m true false) else Some (Sub msg false false).

(** ** The connection *)

(** Both sides, the messages under way in each direction, and the application's messages: what
    each side has sent and what it has got. *)
Record sys := Sys {
  the_client : client; the_server : server; to_server : list bytes; to_client : list bytes;
  c_sent : list bytes; s_got : list bytes; s_sent : list bytes; c_got : list bytes }.

Definition place_ok (at_ : place) : Prop := memory_ok (p_memory at_).
Definition rands_ok (rands : list Z) : Prop := Forall (fun r => 1000000000 <= r <= 2147483647) rands.

(** The client's first message, when it has a text to authorize with. *)
Definition auth_sent (cfg : config) (c c' : client) : list bytes :=
  if bool_decide (cl_state c <> connected /\ cl_state c' = connected /\ auth_string cfg <> []) then [auth_string cfg] else [].

Inductive step (cfg : config) : sys -> sys -> Prop :=
  | server_reads c v m ms tc cs sg ss cg at_ v' out got :
      place_ok at_ -> process_message cfg at_ m v = Some (v', out, got) ->
      step cfg (Sys c v (m :: ms) tc cs sg ss cg) (Sys c v' ms (tc ++ out) cs (sg ++ got) ss cg)
  | pool_runs c s t ts r ms tc cs sg ss cg at_ rands subs :
      place_ok at_ -> rands_ok rands -> key_task at_ rands t = Some subs ->
      step cfg (Sys c (Server s (t :: ts) r) ms tc cs sg ss cg) (Sys c (Server s ts (r ++ subs)) ms tc cs sg ss cg)
  | server_writes c s ts r ms tc cs sg ss cg at_ s' out :
      place_ok at_ -> send_responses at_ r s = Some (s', out) ->
      step cfg (Sys c (Server s ts r) ms tc cs sg ss cg) (Sys c (Server s' ts []) ms (tc ++ out) cs sg ss cg)
  | client_reads c v ms m tc cs sg ss cg at_ c' out got :
      place_ok at_ -> client_read cfg at_ m c = Some (c', out, got) ->
      step cfg (Sys c v ms (m :: tc) cs sg ss cg)
        (Sys c' v (ms ++ out) tc (cs ++ auth_sent cfg c c') sg ss (cg ++ got))
  | client_sends c v ms tc cs sg ss cg at_ msg o :
      place_ok at_ -> cl_state c = connected -> client_send at_ c msg false = Some o ->
      step cfg (Sys c v ms tc cs sg ss cg) (Sys c v (ms ++ [o]) tc (cs ++ [msg]) sg ss cg)
  | server_responds c s ts r ms tc cs sg ss cg at_ msg o :
      place_ok at_ -> is_aes s = true -> add_impl at_ s msg = Some o ->
      step cfg (Sys c (Server s ts r) ms tc cs sg ss cg) (Sys c (Server s ts (r ++ [o])) ms tc cs sg (ss ++ [msg]) cg).

(** The connection when the client has connected. *)
Definition start (c : client) (hello : bytes) : sys := Sys c new_server [hello] [] [] [] [] [].

End session.
