(* ===== verification/SessionFacts.v ===== *)
(** * The encrypted connection keeps its promises

    Both sides reach the same key, in whatever order the steps come, and what one side sends
    the other gets unchanged and in order; the exchange never gets stuck before the client is
    connected. *)

From Stdlib Require Import ZArith Zpow_facts Lia Strings.Byte.
From stdpp Require Import base strings numbers list relations.
From S2P Require Import Prelude Bitbase BasefuncStd Md5 Gost DhDigits Dh DhFacts DhPow Session.
Open Scope Z_scope.

Notation all_digits := (Forall (fun c => is_digit c = true)).

(** ** The ciphers *)

Section ciphers.
Context `{LibraryLaws}.

Definition key_ok (s : secure) : Prop := length (aes_key s) = 32%nat /\ aes_iv s = take 16 (aes_key s).

Lemma memcpy_all s n : length s = n -> memcpy_c_str s n = Some s.
Proof. intros <-. unfold memcpy_c_str. destruct (Nat.leb_spec (length s) (length s + 1)); [|lia]. by rewrite take_app_length. Qed.

Lemma encrypt_ok text key iv : length key = 32%nat -> length iv = 16%nat -> exists c, encrypt text key iv = Some c /\ decrypt_aes c key iv = Some text.
Proof.
  intros Hk Hi. destruct (aes_law text key iv Hk Hi) as (c & E & D). exists c. unfold encrypt, decrypt_aes. rewrite !memcpy_all, !bind_Some_eq by done.
  rewrite E, D. done.
Qed.

(** [c] is a message [m] under the keys of [s]. *)
Definition carries (s : secure) (c m : bytes) : Prop := forall at_, place_ok at_ -> unprotect at_ s c = Some m.

Lemma key_lengths s : key_ok s -> length (aes_key s) = 32%nat /\ length (aes_iv s) = 16%nat /\ zlen (aes_key s ++ aes_iv s) < 2 ^ 29.
Proof. intros [Hk Hi]. rewrite Hi, length_app, length_take, Hk. split_and!; [done|done|]. done. Qed.

(** A message that the ciphers can take: GOST never ends on 2^32 bytes. *)
Definition sealable (s : secure) (m : bytes) : Prop := is_gost s = true -> zlen m < 2 ^ 32.

Lemma protect_ok at_ s m : key_ok s -> place_ok at_ -> sealable s m -> exists c, protect at_ s m = Some c /\ carries s c m.
Proof.
  intros Hk Hat Hfit. destruct (key_lengths s Hk) as (Lk & Li & Lg). unfold protect, carries, unprotect, sealable in *. destruct (is_gost s).
  - specialize (Hfit eq_refl).
    destruct (decrypt_crypt (p_memory at_) (p_memory at_) m (aes_key s ++ aes_iv s) (p_object at_) Hat Hat Lg Hfit) as (g & g' & E & _ & _).
    unfold gost_crypt. rewrite E. cbn [fmap option_fmap option_map fst]. rewrite bind_Some_eq. destruct (encrypt_ok g _ _ Lk Li) as (c & Ec & Dc).
    exists c. split; [done|]. intros at' Hat'. rewrite Dc, bind_Some_eq. unfold gost_decrypt.
    destruct (decrypt_crypt (p_memory at_) (p_memory at') m (aes_key s ++ aes_iv s) (p_object at_) Hat Hat' Lg Hfit) as (g2 & g2' & E2 & _ & D2).
    rewrite E in E2. injection E2 as <- <-. destruct (D2 (p_object at')) as [g3 D3]. by rewrite D3.
  - rewrite bind_Some_eq. destruct (encrypt_ok m _ _ Lk Li) as (c & Ec & Dc). exists c. split; [done|]. intros at' _. by rewrite Dc.
Qed.

(** What the ciphers took they can give back. *)
Lemma protect_fits at_ s m c : protect at_ s m = Some c -> sealable s m.
Proof.
  unfold protect, sealable. intros E Hg. rewrite Hg in E. destruct (Z.lt_ge_cases (zlen m) (2 ^ 32)) as [Hm|Hm]; [done|].
  unfold gost_crypt in E. by rewrite crypt_endless in E.
Qed.

Lemma protect_carries at_ s m c : key_ok s -> place_ok at_ -> protect at_ s m = Some c -> carries s c m.
Proof.
  intros Hk Hat E. destruct (protect_ok at_ s m Hk Hat (protect_fits _ _ _ _ E)) as (c' & E' & Hc). rewrite E in E'. by injection E' as <-.
Qed.
End ciphers.

(** ** The exchange of keys *)

Lemma text_natural s : all_digits s -> exists x, DH_of s 10 = Some x /\ natural x /\ num x = text_value s.
Proof.
  intros Hs. destruct (DH_of_spec s Hs) as (x & E & Hx & Hn). exists x. split_and!; [done|split; [done|]|done]. rewrite Hn. by apply text_value_range.
Qed.

Lemma natural_text x : natural x -> exists y, DH_of (get_string x 10) 10 = Some y /\ natural y /\ num y = num x.
Proof.
  intros [Hx Hn]. destruct (get_string_spec x Hx Hn) as [C V]. destruct (text_natural _ (proj1 C)) as (y & E & Hy & Hv). exists y. split_and!; [done|done|lia].
Qed.

Lemma get_string_same x y : natural x -> natural y -> num x = num y -> get_string x 10 = get_string y 10.
Proof. intros [Hx Hn] [Hy _] E. by apply get_string_num. Qed.

(** Each side raises the number of the other to its own secret. *)
Lemma common_power g a b p : 0 <= a -> 0 <= b -> 0 < p -> (g ^ b mod p) ^ a mod p = (g ^ a mod p) ^ b mod p.
Proof. intros Ha Hb Hp. rewrite <- !Zpower_mod by done. rewrite <- !Z.pow_mul_r by done. f_equal. f_equal. lia. Qed.

(** The text of a number below a number of [n] digits. *)
Lemma canonical_length s n : canonical s -> text_value s < 10 ^ Z.of_nat n -> (length s <= Nat.max 1 n)%nat.
Proof.
  intros C Hv. destruct (decide (s = [x30])) as [->|Hn]; [simpl; lia|]. pose proof (canonical_ge s C Hn) as Hge.
  destruct (Nat.le_gt_cases (length s) (Nat.max 1 n)) as [Hle|Hgt]; [done|]. pose proof (Z.pow_le_mono_r 10 (Z.of_nat n) (Z.of_nat (length s - 1)) ltac:(lia) ltac:(lia)). lia.
Qed.

(** What the numbers of the client must be like. *)
Record exchange_ok (p_ g_ a_ : bytes) : Prop := {
  ex_p : all_digits p_;
  ex_modulus : exists m, DH_of p_ 10 = Some m /\ modulus m;
  ex_len : zlen p_ < 2 ^ 28;
  ex_size : no_letter_codes (numeric_to_chars_sz (zlen p_) 4);
  ex_g : all_digits g_ /\ length g_ = 1%nat;
  ex_a : all_digits a_;
  ex_A : 100 <= text_value g_ ^ text_value a_ mod text_value p_ }.

Lemma digit_no_letter s : all_digits s -> no_letter_codes s.
Proof.
  intros Hs. unfold no_letter_codes. apply (Forall_impl _ _ _ Hs). intros c Hc. unfold is_digit in Hc. unfold is_letter_code. lia.
Qed.

Lemma secret_digits rands : rands_ok rands -> all_digits (secret rands).
Proof.
  unfold rands_ok, secret. induction 1 as [|r rs Hr Hrs IH]; [constructor|]. rewrite (join_fmap_cons to_string). apply Forall_app. split; [|done].
  unfold to_string. destruct (Z.ltb_spec r 0); [lia|]. apply dec_loop_digits. lia.
Qed.

Lemma md5_key mem text : memory_ok mem -> zlen text < 2 ^ 29 -> md5_hex (md5_buffer mem) text = Some (rfc1321 text).
Proof. intros [Hb _] Ht. by apply md5_hex_rfc1321. Qed.

Section exchange.
Context (p_ g_ a_ : bytes) (Hex : exchange_ok p_ g_ a_).

(** The text of a power modulo [p], and the numbers of the client. *)
Lemma power_text x y m : natural x -> natural y -> modulus m -> num m = text_value p_ ->
  exists r, pow x y m = Some r /\ natural r /\ num r = num x ^ num y mod text_value p_ /\ canonical (get_string r 10) /\
    text_value (get_string r 10) = num r /\ zlen (get_string r 10) < 2 ^ 29.
Proof.
  intros Hx Hy Hm Em. destruct (pow_natural x y m Hx Hy Hm) as (r & E & Hr & Ev). exists r. rewrite Em in Ev. destruct Hr as [Hr Hn].
  destruct (get_string_spec r Hr Hn) as [C V]. split_and!; try done. pose proof (text_value_range p_ (ex_p _ _ _ Hex)) as Rp. destruct Hm as (_ & H1 & _). rewrite Em in H1.
  pose proof (Z.mod_pos_bound (num x ^ num y) (text_value p_) ltac:(lia)) as Hb. pose proof (canonical_length _ (length p_) C ltac:(lia)) as Hl. pose proof (ex_len _ _ _ Hex) as Hpl.
  change (2 ^ 28) with 268435456 in Hpl. change (2 ^ 29) with 536870912. lia.
Qed.
Context `{LibraryLaws} (cfg : config).

Definition c0 : client := Client new_secure a_ p_ waiting_for_encryption_established.

(** What the client's message holds before it is compressed. *)
Definition hello_text (A : DH) : bytes := numeric_to_chars_sz (zlen p_) 4 ++ g_ ++ p_ ++ get_string A 10.

Lemma connect_ok : exists A, natural A /\ num A = text_value g_ ^ text_value a_ mod text_value p_ /\
  connect p_ g_ a_ = Some (c0, compress_string (compress_number (hello_text A))).
Proof.
  destruct (text_natural g_ (proj1 (ex_g _ _ _ Hex))) as (g & Eg & Hg & Vg). destruct (text_natural a_ (ex_a _ _ _ Hex)) as (a & Ea & Ha & Va).
  destruct (text_natural p_ (ex_p _ _ _ Hex)) as (p & Ep & Hp & Vp). destruct (ex_modulus _ _ _ Hex) as (m & Em & Hm). rewrite Ep in Em. injection Em as <-.
  destruct (power_text g a p Hg Ha Hm Vp) as (A & EA & HA & VA & _). exists A. rewrite Vg, Va in VA. split_and!; [done|done|].
  unfold connect. by rewrite Eg, bind_Some_eq, Ep, bind_Some_eq, Ea, bind_Some_eq, EA, bind_Some_eq.
Qed.

(** The answer that gives the client the key, whatever its memory holds: it answers with the
    word under this key. *)
Definition shares (key reply : bytes) : Prop :=
  length key = 32%nat /\
  forall at_, place_ok at_ -> exists m, client_read cfg at_ reply c0 = Some (with_s (set_key key new_secure) waiting_for_encryption_established c0, [m], []) /\
    decrypt_aes m key (take 16 key) = Some ok_aes.

Lemma hello_parts A : natural A -> 100 <= num A ->
  let keys := hello_text A in
  uncompress_number (compress_number keys) = keys /\ 4 < zlen keys /\ chars_to_numeric I32 (take 4 keys) = zlen p_ /\ 7 + zlen p_ < zlen keys /\
  zsub keys 4 1 = g_ /\ zsub keys 5 (zlen p_) = p_ /\ zsub keys (5 + zlen p_) (zlen keys) = get_string A 10.
Proof.
  intros [HA HnA] Hbig keys. destruct (get_string_spec A HA HnA) as [CA VA]. destruct (ex_g _ _ _ Hex) as [Dg Lg].
  assert (LA : (2 < length (get_string A 10))%nat).
  { pose proof (text_value_range _ (proj1 CA)) as Rt. destruct (Nat.le_gt_cases (length (get_string A 10)) 2) as [Hle|]; [|done].
    pose proof (Z.pow_le_mono_r 10 (zlen (get_string A 10)) 2 ltac:(lia) ltac:(lia)). change (10 ^ 2) with 100 in *. lia. }
  set (t := get_string A 10) in *. set (sz := numeric_to_chars_sz (zlen p_) 4). assert (Lsz : length sz = 4%nat) by apply length_to_chars_loop.
  assert (Lk : zlen keys = 4 + 1 + zlen p_ + zlen t) by (unfold keys, hello_text; fold sz t; rewrite !length_app, Lsz, Lg; lia).
  assert (Ek : keys = sz ++ g_ ++ p_ ++ t) by done. split_and!.
  - apply uncompress_compress_number. unfold no_letter_codes. rewrite Ek, !Forall_app. split_and!; [apply (ex_size _ _ _ Hex)|by apply digit_no_letter|apply digit_no_letter, (ex_p _ _ _ Hex)|apply digit_no_letter, CA].
  - lia.
  - rewrite Ek, take_app_le, take_ge by lia. change sz with (numeric_to_chars I32 (zlen p_)). apply chars_to_numeric_to_chars. apply in_range_I32. pose proof (ex_len _ _ _ Hex) as Hl. change (2 ^ 28) with 268435456 in Hl. lia.
  - lia.
  - rewrite Ek, zsub_skip by lia. rewrite Lsz. apply zsub_head. lia.
  - rewrite Ek, zsub_skip by lia. rewrite zsub_skip by lia. rewrite Lsz, Lg. by apply zsub_head.
  - rewrite Ek. rewrite zsub_skip, zsub_skip, zsub_skip by lia. replace (5 + zlen p_ - zlen sz - zlen g_ - zlen p_) with 0 by lia. apply zsub_all. rewrite <- Ek. lia.
Qed.

(** The task of the pool answers with a key and a number from which the client gets the same key. *)
Lemma key_task_ok A at_ rands : natural A -> num A = text_value g_ ^ text_value a_ mod text_value p_ -> place_ok at_ -> rands_ok rands ->
  exists key reply, key_task at_ rands (compress_string (compress_number (hello_text A))) = Some [Sub key false true; Sub reply false false] /\ shares key reply.
Proof.
  intros HA VA Hat Hr. pose proof (ex_A _ _ _ Hex) as HbigA. destruct (hello_parts A HA ltac:(lia)) as (Eu & H4 & Esz & H7 & Eg & Ep & EA). set (keys := hello_text A) in *.
  pose proof (ex_len _ _ _ Hex) as Hpl. change (2 ^ 28) with 268435456 in Hpl.
  destruct (text_natural g_ (proj1 (ex_g _ _ _ Hex))) as (g & Ed_g & Hg & Vg). destruct (text_natural a_ (ex_a _ _ _ Hex)) as (a & Ed_a & Ha & Va).
  destruct (text_natural p_ (ex_p _ _ _ Hex)) as (p & Ed_p & Hp & Vp). destruct (ex_modulus _ _ _ Hex) as (m & Em & Hm). rewrite Ed_p in Em. injection Em as <-.
  destruct (text_natural _ (secret_digits rands Hr)) as (b & Ed_b & Hb & Vb). destruct (natural_text A HA) as (A' & Ed_A & HA' & VA').
  destruct (power_text g b p Hg Hb Hm Vp) as (B & EB & HB & VB & CB & VtB & _). destruct (power_text A' b p HA' Hb Hm Vp) as (K & EK & HK & VK & _ & _ & LK).
  exists (rfc1321 (get_string K 10)), (compress_number (get_string B 10)). split.
  - unfold key_task. rewrite zlib_law, Eu. rewrite (proj2 (Z.ltb_lt 4 (zlen keys)) H4), Esz. rewrite (wrap_id I32 (7 + zlen p_)), (wrap_id U64 (7 + zlen p_)), (wrap_id U64 (zlen p_)), (wrap_id U64 (5 + zlen p_)) by range_lia.
    rewrite (proj2 (Z.ltb_lt _ _) H7), Eg, Ep. destruct (Z.ltb_spec (zlen keys) (5 + zlen p_)); [lia|]. rewrite EA.
    rewrite Ed_g, bind_Some_eq, Ed_p, bind_Some_eq, Ed_b, bind_Some_eq, Ed_A, bind_Some_eq, EB, bind_Some_eq, EK, bind_Some_eq. by rewrite md5_key, bind_Some_eq.
  - split; [apply length_rfc1321|]. intros at' Hat'. destruct (natural_text B HB) as (B' & Ed_B & HB' & VB'). destruct (power_text B' a p HB' Ha Hm Vp) as (K' & EK' & HK' & VK' & _ & _ & LK').
    assert (Hs : get_string K' 10 = get_string K 10).
    { apply get_string_same; [done|done|]. rewrite VK, VK', VA', VB', VA, VB, Vg. destruct Hm as (_ & Hm1 & _). rewrite <- Va. apply common_power; [apply Ha|apply Hb|lia]. }
    set (key := rfc1321 (get_string K 10)). assert (Lkey : length key = 32%nat) by apply length_rfc1321.
    destruct (encrypt_ok ok_aes key (take 16 key) Lkey ltac:(rewrite length_take; lia)) as (mm & Emm & Dmm). exists mm. split; [|done].
    unfold client_read. cbn [cl_s c0 new_secure is_aes aes_key negb]. rewrite bool_decide_eq_true_2 by done. rewrite uncompress_compress_number by (apply digit_no_letter, CB). cbn [cl_p cl_a c0].
    rewrite Ed_p, bind_Some_eq, Ed_a, bind_Some_eq, Ed_B, bind_Some_eq, EK', bind_Some_eq. rewrite md5_key, bind_Some_eq by done. rewrite Hs. fold key.
    unfold client_send, protect. cbn [with_s set_key cl_s is_aes is_gost aes_key aes_iv orb new_secure]. rewrite bind_Some_eq, Emm, bind_Some_eq. done.
Qed.
End exchange.
