(* ===== verification/SessionRun.v ===== *)
(** * Runs of an encrypted connection

    The states a connection passes, as an invariant of the steps; safety and progress. *)

From Stdlib Require Import ZArith Lia Strings.Byte.
From stdpp Require Import base strings numbers list relations.
From S2P Require Import Prelude Bitbase BasefuncStd Md5 Gost DhDigits Dh DhFacts DhPow Session SessionFacts.
Open Scope Z_scope.

Section run.
Context `{LibraryLaws} (cfg : config) (p_ g_ a_ : bytes) (Hex : exchange_ok p_ g_ a_) (Hskip : skip_aes cfg = false).

Abbreviation c0 := (SessionFacts.c0 p_ a_).
Abbreviation shares := (SessionFacts.shares p_ a_ cfg).

(** The data of the encryption before and after the word has been confirmed. *)
Definition key_sec (key : bytes) : secure := set_key key new_secure.
Definition open_sec (key : bytes) : secure := set_aes (is_gost_enc cfg) (key_sec key).

Lemma open_sec_ok key : length key = 32%nat -> key_ok (open_sec key).
Proof. done. Qed.

(** The client gives to its callbacks every message but the echo. *)
Definition heard (m : bytes) : bool := negb (negb (bool_decide (echo_string cfg = [])) && bool_decide (echo_string cfg = m)).
Definition crypted (m : sub) : Prop := is_crypted m = true /\ is_key_generation m = false.
Definition auth_list : list bytes := if bool_decide (auth_string cfg = []) then [] else [auth_string cfg].

(** ** The operations in each state *)

(** The text to authorize with can be encrypted. *)
Definition auth_fits : Prop := is_gost_enc cfg = true -> zlen (auth_string cfg) < 2 ^ 32.

Lemma auth_fits_open key : auth_fits -> sealable (open_sec key) (auth_string cfg).
Proof. unfold auth_fits, sealable, open_sec, set_aes. cbn. by destruct (is_gost_enc cfg). Qed.

Lemma client_confirm_reads key m at_ : length key = 32%nat -> decrypt_aes m key (take 16 key) = Some ok_aes ->
  client_read cfg at_ m (with_s (key_sec key) waiting_for_encryption_established c0) =
    (sent ← (if bool_decide (auth_string cfg = []) then Some [] else o ← protect at_ (open_sec key) (auth_string cfg); Some [o]);
     Some (with_s (open_sec key) connected c0, sent, [])).
Proof.
  intros Lk Hm. unfold client_read. cbn [with_s cl_s key_sec set_key new_secure is_aes aes_key aes_iv negb]. rewrite bool_decide_eq_false_2 by (by intros ->).
  by rewrite Hm, bind_Some_eq, bool_decide_eq_true_2 by done.
Qed.

Lemma client_reads_confirm key m at_ c out got : length key = 32%nat -> decrypt_aes m key (take 16 key) = Some ok_aes -> place_ok at_ ->
  client_read cfg at_ m (with_s (key_sec key) waiting_for_encryption_established c0) = Some (c, out, got) ->
  c = with_s (open_sec key) connected c0 /\ got = [] /\ Forall2 (carries (open_sec key)) out auth_list.
Proof.
  intros Lk Hm Hat. rewrite client_confirm_reads by done. unfold auth_list. case_bool_decide.
  - intros [= <- <- <-]. split_and!; [done|done|constructor].
  - destruct (protect _ _ _) as [o|] eqn:E; [|done]. intros [= <- <- <-]. split_and!; [done|done|]. constructor; [|constructor].
    by eapply protect_carries; [apply (open_sec_ok key Lk)|exact Hat|].
Qed.

Lemma client_can_confirm key m at_ : auth_fits -> length key = 32%nat -> decrypt_aes m key (take 16 key) = Some ok_aes -> place_ok at_ ->
  exists out, client_read cfg at_ m (with_s (key_sec key) waiting_for_encryption_established c0) = Some (with_s (open_sec key) connected c0, out, []).
Proof.
  intros Hfit Lk Hm Hat. rewrite client_confirm_reads by done. case_bool_decide; [by eexists|].
  destruct (protect_ok at_ (open_sec key) (auth_string cfg) (open_sec_ok key Lk) Hat (auth_fits_open key Hfit)) as (c & -> & _). by eexists.
Qed.

Lemma server_reads_proof key m at_ : length key = 32%nat -> decrypt_aes m key (take 16 key) = Some ok_aes -> place_ok at_ ->
  exists m', process_message cfg at_ m (Server (key_sec key) [] []) = Some (Server (open_sec key) [] [], [m'], []) /\ decrypt_aes m' key (take 16 key) = Some ok_aes.
Proof.
  intros Lk Hm Hat. destruct (encrypt_ok ok_aes key (take 16 key) Lk ltac:(rewrite length_take; lia)) as (m' & Em & Dm). exists m'. split; [|done].
  unfold process_message. cbn [sv_s key_sec set_key new_secure is_aes aes_key aes_iv negb is_gost]. rewrite bool_decide_eq_false_2 by (by intros ->).
  rewrite Hm, bind_Some_eq, bool_decide_eq_true_2 by done. unfold push_message_s, protect. cbn [is_crypted is_aes is_gost negb andb sub_str aes_key aes_iv]. by rewrite bind_Some_eq, Em.
Qed.

Lemma server_reads_open key c m r at_ : carries (open_sec key) c m -> place_ok at_ ->
  process_message cfg at_ c (Server (open_sec key) [] r) = Some (Server (open_sec key) [] r, [], [m]).
Proof. intros Hc Hat. unfold process_message. cbn [sv_s]. change (is_aes (open_sec key)) with true. cbn [negb]. by rewrite (Hc at_ Hat). Qed.

Lemma client_reads_open key c m at_ : carries (open_sec key) c m -> place_ok at_ ->
  client_read cfg at_ c (with_s (open_sec key) connected c0) = Some (with_s (open_sec key) connected c0, [], if heard m then [m] else []).
Proof.
  intros Hc Hat. specialize (Hc at_ Hat). unfold unprotect in Hc. unfold client_read. cbn [with_s cl_s]. change (is_aes (open_sec key)) with true. cbn [negb].
  destruct (decrypt_aes c _ _) as [d|]; [|done]. rewrite bind_Some_eq in Hc. rewrite bind_Some_eq. rewrite Hskip, andb_false_r, Hc, bind_Some_eq. unfold heard.
  by destruct (negb (bool_decide (echo_string cfg = [])) && bool_decide (echo_string cfg = m)).
Qed.

Lemma send_crypted at_ r s : Forall crypted r -> send_responses at_ r s = Some (s, sub_str <$> r).
Proof. induction 1 as [|m r [Hc Hk] Hr IH]; [done|]. cbn [send_responses]. rewrite Hk. unfold push_message_s. rewrite Hc. cbn [negb andb]. by rewrite bind_Some_eq, IH. Qed.

Lemma responds_open key msg at_ o : length key = 32%nat -> place_ok at_ -> add_impl at_ (open_sec key) msg = Some o ->
  crypted o /\ carries (open_sec key) (sub_str o) msg.
Proof.
  intros Lk Hat. unfold add_impl. change (is_aes (open_sec key)) with true. change (aes_key (open_sec key)) with key. rewrite bool_decide_eq_false_2 by (by intros ->).
  cbn [negb andb]. destruct (protect _ _ _) as [c|] eqn:E; [|done]. intros [= <-]. split; [done|]. by eapply protect_carries; [apply (open_sec_ok key Lk)|exact Hat|].
Qed.

Lemma client_sends_open key msg at_ o : length key = 32%nat -> place_ok at_ ->
  client_send at_ (with_s (open_sec key) connected c0) msg false = Some o -> carries (open_sec key) o msg.
Proof. intros Lk Hat. exact (protect_carries at_ (open_sec key) msg o (open_sec_ok key Lk) Hat). Qed.

(** ** The states *)

Context (A : DH) (HA : natural A) (VA : num A = text_value g_ ^ text_value a_ mod text_value p_).
Definition hello : bytes := compress_string (compress_number (hello_text p_ g_ A)).

Inductive inv : sys -> Prop :=
  | inv_hello : inv (start c0 hello)
  | inv_task : inv (Sys c0 (Server new_secure [hello] []) [] [] [] [] [] [])
  | inv_answer key reply : shares key reply -> inv (Sys c0 (Server new_secure [] [Sub key false true; Sub reply false false]) [] [] [] [] [] [])
  | inv_reply key reply : shares key reply -> inv (Sys c0 (Server (key_sec key) [] []) [] [reply] [] [] [] [])
  | inv_proof key m : length key = 32%nat -> decrypt_aes m key (take 16 key) = Some ok_aes ->
      inv (Sys (with_s (key_sec key) waiting_for_encryption_established c0) (Server (key_sec key) [] []) [m] [] [] [] [] [])
  | inv_confirm key m r tc ss : length key = 32%nat -> decrypt_aes m key (take 16 key) = Some ok_aes -> Forall crypted r ->
      Forall2 (carries (open_sec key)) (tc ++ (sub_str <$> r)) ss ->
      inv (Sys (with_s (key_sec key) waiting_for_encryption_established c0) (Server (open_sec key) [] r) [] (m :: tc) [] [] ss [])
  | inv_open key r ms tc sg d u w : length key = 32%nat -> Forall crypted r -> Forall2 (carries (open_sec key)) ms u ->
      Forall2 (carries (open_sec key)) (tc ++ (sub_str <$> r)) w ->
      inv (Sys (with_s (open_sec key) connected c0) (Server (open_sec key) [] r) ms tc (sg ++ u) sg (d ++ w) (filter heard d)).

(** An empty responser sends nothing. *)
Lemma send_nothing at_ s s' out : send_responses at_ [] s = Some (s', out) -> s' = s /\ out = [].
Proof. intros E. by injection E as <- <-. Qed.

Ltac nothing_sent := match goal with E : send_responses _ [] _ = Some _ |- _ => apply send_nothing in E as [-> ->]; rewrite ?app_nil_r end.

Lemma step_hello s' : step cfg (start c0 hello) s' -> inv s'.
Proof.
  unfold start. intros Hs. inversion Hs; subst; try done.
  - match goal with E : process_message _ _ _ _ = _ |- _ => injection E as <- <- <- end. apply inv_task.
  - nothing_sent. apply inv_hello.
Qed.

Lemma step_task s' : step cfg (Sys c0 (Server new_secure [hello] []) [] [] [] [] [] []) s' -> inv s'.
Proof.
  intros Hs. inversion Hs; subst; try done.
  - match goal with E : key_task _ _ _ = _, Hp : place_ok _, Hr : rands_ok _ |- _ =>
      destruct (key_task_ok p_ g_ a_ Hex cfg A _ _ HA VA Hp Hr) as (key & reply & E' & Hsh); unfold hello in E; rewrite E' in E; injection E as <- end.
    by apply inv_answer.
  - nothing_sent. apply inv_task.
Qed.

Lemma step_answer key reply s' : shares key reply ->
  step cfg (Sys c0 (Server new_secure [] [Sub key false true; Sub reply false false]) [] [] [] [] [] []) s' -> inv s'.
Proof.
  intros Hsh Hs. inversion Hs; subst; try done.
  match goal with E : send_responses _ _ _ = _ |- _ => injection E as <- <- end. by apply (inv_reply key reply).
Qed.

Lemma step_reply key reply s' : shares key reply -> step cfg (Sys c0 (Server (key_sec key) [] []) [] [reply] [] [] [] []) s' -> inv s'.
Proof.
  intros Hsh Hs. inversion Hs; subst; try done.
  - nothing_sent. by apply inv_reply.
  - match goal with E : client_read _ _ _ _ = _, Hp : place_ok _ |- _ => destruct (proj2 Hsh _ Hp) as (m' & E' & Dm); rewrite E' in E; injection E as <- <- <- end.
    unfold auth_sent. rewrite bool_decide_eq_false_2 by (cbn; naive_solver). apply inv_proof; [apply Hsh|done].
Qed.

Lemma step_proof key m s' : length key = 32%nat -> decrypt_aes m key (take 16 key) = Some ok_aes ->
  step cfg (Sys (with_s (key_sec key) waiting_for_encryption_established c0) (Server (key_sec key) [] []) [m] [] [] [] [] []) s' -> inv s'.
Proof.
  intros Lk Dm Hs. inversion Hs; subst; try done.
  - match goal with E : process_message _ _ _ _ = _, Hp : place_ok _ |- _ => destruct (server_reads_proof key m _ Lk Dm Hp) as (m' & E' & Dm'); rewrite E' in E; injection E as <- <- <- end.
    by apply (inv_confirm key m' [] [] []).
  - nothing_sent. by apply inv_proof.
Qed.

(** What is under way to the client grows at its end. *)
Lemma carried_more S (tc : list bytes) (r : list sub) ss o msg : Forall2 (carries S) (tc ++ (sub_str <$> r)) ss -> carries S (sub_str o) msg ->
  Forall2 (carries S) (tc ++ (sub_str <$> (r ++ [o]))) (ss ++ [msg]).
Proof. intros Hf Ho. rewrite fmap_app, app_assoc. apply Forall2_app; [done|]. by constructor. Qed.

Lemma step_confirm key m r tc ss s' : length key = 32%nat -> decrypt_aes m key (take 16 key) = Some ok_aes -> Forall crypted r ->
  Forall2 (carries (open_sec key)) (tc ++ (sub_str <$> r)) ss ->
  step cfg (Sys (with_s (key_sec key) waiting_for_encryption_established c0) (Server (open_sec key) [] r) [] (m :: tc) [] [] ss []) s' -> inv s'.
Proof.
  intros Lk Dm Hr Hf Hs. inversion Hs; subst; try done.
  - match goal with E : send_responses _ _ _ = _ |- _ => rewrite send_crypted in E by done; injection E as <- <- end.
    apply (inv_confirm key m []); [done|done|constructor|]. cbn [fmap list_fmap]. by rewrite app_nil_r.
  - match goal with E : client_read _ _ _ _ = _, Hp : place_ok _ |- _ => destruct (client_reads_confirm key m _ _ _ _ Lk Dm Hp E) as (-> & -> & Ho) end.
    unfold auth_sent. cbn [with_s cl_state]. unfold auth_list in Ho. case_bool_decide as Ea.
    + rewrite bool_decide_eq_false_2 by naive_solver. rewrite ?app_nil_r. by apply (inv_open key r _ tc [] [] [] ss).
    + rewrite bool_decide_eq_true_2 by done. by apply (inv_open key r _ tc [] [] [auth_string cfg] ss).
  - match goal with E : add_impl _ _ _ = _, Hp : place_ok _ |- _ => destruct (responds_open key msg _ _ Lk Hp E) as [Hc Ho] end.
    apply inv_confirm; [done|done|apply Forall_app; by split; [|constructor]|by apply carried_more].
Qed.

Lemma step_open key r ms tc sg d u w s' : length key = 32%nat -> Forall crypted r -> Forall2 (carries (open_sec key)) ms u ->
  Forall2 (carries (open_sec key)) (tc ++ (sub_str <$> r)) w ->
  step cfg (Sys (with_s (open_sec key) connected c0) (Server (open_sec key) [] r) ms tc (sg ++ u) sg (d ++ w) (filter heard d)) s' -> inv s'.
Proof.
  intros Lk Hr Hm Hf Hs. inversion Hs; subst; try done.
  - inversion Hm as [|? msg ? u' Hc Hm']; subst. match goal with E : process_message _ _ _ _ = _, Hp : place_ok _ |- _ => rewrite (server_reads_open key _ msg r _ Hc Hp) in E; injection E as <- <- <- end.
    rewrite app_nil_r. replace (sg ++ msg :: u') with ((sg ++ [msg]) ++ u') by (by rewrite <- app_assoc). by apply inv_open.
  - match goal with E : send_responses _ _ _ = _ |- _ => rewrite send_crypted in E by done; injection E as <- <- end.
    apply inv_open; [done|constructor|done|]. cbn [fmap list_fmap]. by rewrite app_nil_r.
  - inversion Hf as [|? msg ? w' Hc Hf']; subst. match goal with E : client_read _ _ _ _ = _, Hp : place_ok _ |- _ => rewrite (client_reads_open key _ msg _ Hc Hp) in E; injection E as <- <- <- end.
    unfold auth_sent. rewrite bool_decide_eq_false_2 by naive_solver. rewrite !app_nil_r. replace (d ++ msg :: w') with ((d ++ [msg]) ++ w') by (by rewrite <- app_assoc).
    replace (filter heard d ++ (if heard msg then [msg] else [])) with (filter heard (d ++ [msg])); [by apply inv_open|]. rewrite filter_app. f_equal. cbn. by destruct (heard msg).
  - match goal with E : client_send _ _ _ _ = _, Hp : place_ok _ |- _ => pose proof (client_sends_open key msg _ _ Lk Hp E) as Ho end.
    rewrite <- app_assoc. apply inv_open; [done|done|apply Forall2_app; [done|by constructor]|done].
  - match goal with E : add_impl _ _ _ = _, Hp : place_ok _ |- _ => destruct (responds_open key msg _ _ Lk Hp E) as [Hc Ho] end.
    rewrite <- app_assoc. apply inv_open; [done|apply Forall_app; by split; [|constructor]|done|by apply carried_more].
Qed.

Lemma session_inv_step s s' : inv s -> step cfg s s' -> inv s'.
Proof.
  intros Hi Hs. destruct Hi; [by apply step_hello|by apply step_task|by eapply step_answer|by eapply step_reply|by eapply step_proof|by eapply step_confirm|].
  eapply step_open; [..|exact Hs]; done.
Qed.

Lemma session_inv_reachable s : rtc (step cfg) (start c0 hello) s -> inv s.
Proof.
  assert (G : forall x y, rtc (step cfg) x y -> inv x -> inv y) by (induction 1 as [|x y z Hxy _ IH]; [done|]; intros Hx; apply IH; by eapply session_inv_step).
  intros Hr. by apply (G _ _ Hr), inv_hello.
Qed.

(** ** Progress *)

(** How far the exchange of keys is from its end. *)
Definition rank (s : sys) : nat :=
  if bool_decide (cl_state (the_client s) = connected) then 0
  else if is_aes (sv_s (the_server s)) then 1
  else if bool_decide (aes_key (cl_s (the_client s)) <> []) then 2
  else if bool_decide (to_client s <> []) then 3
  else if bool_decide (sv_resp (the_server s) <> []) then 4
  else if bool_decide (sv_tasks (the_server s) <> []) then 5 else 6.

Definition a_place : place := Place (Memory (replicate 64 x00) (replicate 7 x00)) (G89 [] (0, 0) []).
Lemma a_place_ok : place_ok a_place.
Proof. split; simpl; lia. Qed.

Ltac ranks := unfold rank; cbn; repeat case_bool_decide; simplify_eq; try done; lia.

Lemma progress_step s : auth_fits -> inv s -> cl_state (the_client s) <> connected -> exists s', step cfg s s' /\ (rank s' < rank s)%nat.
Proof.
  intros Hfit Hi Hc. pose proof a_place_ok as Hp. destruct Hi as [| |key reply Hsh|key reply Hsh|key m Lk Dm|key m r tc ss Lk Dm Hr Hf|]; [..|done].
  - eexists. split; [by eapply (server_reads cfg); [exact Hp|reflexivity]|]. ranks.
  - destruct (key_task_ok p_ g_ a_ Hex cfg A a_place [] HA VA Hp ltac:(by constructor)) as (key & reply & E & _).
    eexists. split; [by eapply (pool_runs cfg); [exact Hp|by apply Forall_nil|exact E]|]. ranks.
  - eexists. split; [by eapply (server_writes cfg); [exact Hp|reflexivity]|]. ranks.
  - destruct (proj2 Hsh a_place Hp) as (m & E & _). eexists. split; [by eapply (client_reads cfg); [exact Hp|exact E]|]. pose proof (proj1 Hsh). destruct key; [done|]. ranks.
  - destruct (server_reads_proof key m a_place Lk Dm Hp) as (m' & E & _). eexists. split; [by eapply (server_reads cfg); [exact Hp|exact E]|]. destruct key; [done|]. ranks.
  - destruct (client_can_confirm key m a_place Hfit Lk Dm Hp) as (out & E). eexists. split; [by eapply (client_reads cfg); [exact Hp|exact E]|]. ranks.
Qed.
(** Every state that is reached can be continued until the client is connected. *)
Lemma reaches_connected s : auth_fits -> inv s -> exists s', rtc (step cfg) s s' /\ cl_state (the_client s') = connected.
Proof.
  intros Hfit. remember (rank s) as n eqn:En. revert s En. induction n as [n IH] using lt_wf_ind. intros s -> Hi.
  destruct (decide (cl_state (the_client s) = connected)) as [Hc|Hc]; [by exists s|]. destruct (progress_step s Hfit Hi Hc) as (s1 & Hs & Hlt).
  destruct (IH (rank s1) Hlt s1 eq_refl (session_inv_step s s1 Hi Hs)) as (s' & Hr & Hd). exists s'. split; [by eapply rtc_l|done].
Qed.
End run.

(** ** The claims *)

(** Libraries for which the laws hold. *)
Definition ex_libraries : Libraries := {|
  aes_encrypt text key iv := Some (text ++ take 1 key);
  aes_decrypt c key iv := Some (take (length c - 1) c);
  compress_string text := text; decompress_string text := Some text |}.

Lemma ex_library_laws : @LibraryLaws ex_libraries.
Proof.
  split; [|done]. intros text key iv Hk _. eexists. split; [reflexivity|]. cbn. rewrite length_app, length_take, Hk. cbn.
  replace (length text + 1 - 1)%nat with (length text) by lia. by rewrite take_app_length.
Qed.

(** C14: An encrypted connection is safe in every run: in whatever order the messages, the tasks of the pool and the responses are handled,
    the server gets a prefix of what the client has sent, unchanged and in order, the client gets the messages of a prefix of what the server has sent
    (without its echo text), and once the client is connected both sides hold the same key of 32 characters and the same flags. *)
Theorem session_safe {L : Libraries} {Laws : LibraryLaws} (cfg : config) (p_ g_ a_ : bytes) (c : client) (hello : bytes) (s : sys)
  (Hex : exchange_ok p_ g_ a_) (Hskip : skip_aes cfg = false) (Hc : connect p_ g_ a_ = Some (c, hello)) (Hr : rtc (step cfg) (start c hello) s) :
  s_got s `prefix_of` c_sent s /\
  (exists d, d `prefix_of` s_sent s /\ c_got s = filter (heard cfg) d) /\
  (cl_state (the_client s) = connected -> cl_s (the_client s) = sv_s (the_server s) /\ is_aes (sv_s (the_server s)) = true /\ length (aes_key (sv_s (the_server s))) = 32%nat).
Proof.
  destruct (connect_ok p_ g_ a_ Hex) as (A & HA & VA & E). rewrite E in Hc. apply (inj Some), pair_equal_spec in Hc as [<- <-].
  pose proof (session_inv_reachable cfg p_ g_ a_ Hex Hskip A HA VA s Hr) as Hi. destruct Hi; cbn [start s_got c_sent s_sent c_got the_client the_server cl_state cl_s sv_s with_s SessionFacts.c0];
    try (split_and!; [apply prefix_nil|exists []; split; [apply prefix_nil|done]|done]).
  split_and!; [by apply prefix_app_r|exists d; split; [by apply prefix_app_r|done]|done].
Qed.

(** C15: The exchange of keys does not get stuck: [connect] with usable numbers sends its message, and in every state that a run reaches before the client is connected
    there is a step, without a failure of the arithmetic or of a cipher, that brings the connection closer to its end; at most six such steps lead to the
    connected state, which every run can still reach.  With GOST the text to authorize with has fewer than 2^32 bytes, as its encryption does not end otherwise. *)
Theorem session_progress {L : Libraries} {Laws : LibraryLaws} (cfg : config) (p_ g_ a_ : bytes) (Hex : exchange_ok p_ g_ a_) (Hskip : skip_aes cfg = false) (Hfit : auth_fits cfg) :
  exists c hello, connect p_ g_ a_ = Some (c, hello) /\ rank (start c hello) = 6%nat /\
    forall s, rtc (step cfg) (start c hello) s ->
      (cl_state (the_client s) <> connected -> exists s', step cfg s s' /\ (rank s' < rank s)%nat) /\
      exists s', rtc (step cfg) s s' /\ cl_state (the_client s') = connected.
Proof.
  destruct (connect_ok p_ g_ a_ Hex) as (A & HA & VA & E). eexists _, _. split; [exact E|]. split; [done|]. intros s Hr.
  pose proof (session_inv_reachable cfg p_ g_ a_ Hex Hskip A HA VA s Hr) as Hi. split; [intros Hn; by eapply (progress_step cfg p_ g_ a_ Hex A HA VA)|].
  by apply (reaches_connected cfg p_ g_ a_ Hex Hskip A HA VA).
Qed.

(** A client with small numbers. *)
Definition ex_config : config := Config true false (lit "auth") (lit "00").
Definition ex_prime : bytes := lit "170141183460469231731687303715884105727".

Lemma ex_exchange_ok : exchange_ok ex_prime (lit "5") (lit "17").
Proof.
  assert (Hd : Forall (fun c => is_digit c = true) ex_prime) by (by repeat constructor). destruct (text_natural ex_prime Hd) as (m & E & [Hm Hn] & Hv).
  split; [done| |reflexivity|by repeat constructor|split; [by repeat constructor|done]|by repeat constructor|].
  - exists m. split; [done|]. split; [done|]. split; [rewrite Hv; reflexivity|]. vm_compute in E. injection E as <-. intros _. cbn. discriminate.
  - vm_compute. discriminate.
Qed.

Lemma session_progress_witness :
  exists c hello, @connect ex_libraries ex_prime (lit "5") (lit "17") = Some (c, hello) /\ rank (start c hello) = 6%nat /\
    forall s, rtc (@step ex_libraries ex_config) (start c hello) s ->
      (cl_state (the_client s) <> connected -> exists s', @step ex_libraries ex_config s s' /\ (rank s' < rank s)%nat) /\
      exists s', rtc (@step ex_libraries ex_config) s s' /\ cl_state (the_client s') = connected.
Proof. exact (@session_progress ex_libraries ex_library_laws ex_config ex_prime (lit "5") (lit "17") ex_exchange_ok eq_refl (fun _ => eq_refl)). Defined.

(** A run to a connected state. *)
Lemma ex_session_run : exists c hello s, @connect ex_libraries ex_prime (lit "5") (lit "17") = Some (c, hello) /\
  rtc (@step ex_libraries ex_config) (start c hello) s /\ cl_state (the_client s) = connected.
Proof.
  destruct (@connect_ok ex_prime (lit "5") (lit "17") ex_exchange_ok ex_libraries) as (A & HA & VA & E). eexists _, _.
  destruct (@reaches_connected ex_libraries ex_library_laws ex_config ex_prime (lit "5") (lit "17") ex_exchange_ok eq_refl A HA VA _ (fun _ => eq_refl) (inv_hello _ _ _ _ A)) as (s & Hr & Hd).
  exists s. split; [exact E|]. split; [exact Hr|exact Hd].
Qed.

Lemma session_safe_witness : exists s, cl_state (the_client s) = connected /\ cl_s (the_client s) = sv_s (the_server s) /\ length (aes_key (sv_s (the_server s))) = 32%nat.
Proof.
  destruct ex_session_run as (c & hello & s & E & Hr & Hd). exists s. split; [exact Hd|].
  destruct (proj2 (proj2 (@session_safe ex_libraries ex_library_laws ex_config ex_prime (lit "5") (lit "17") c hello s ex_exchange_ok eq_refl E Hr)) Hd) as (E1 & _ & E2).
  split; [exact E1|exact E2].
Defined.
