(* ===== verification/Hstf.v ===== *)
(** * Replication log ([rssdisk/rssdisk/hstf.h], [rssdisk/rssdisk/hstf.cpp])

    A server keeps a log of its writes in segments of 88 bytes: the number of the write, the
    timestamp and the checksum of the file and 64 bytes of its name.  Another server polls it
    over HTTP with the number of the last write it knows; the answer is a JSON object with the
    current number and, base64-encoded, the segments after that number that the log still
    holds, which the client reads with [Json::Reader] and hands to [remove_file_by_tms] one by
    one. *)

From S2P Require Import Prelude Bitbase BasefuncStd Base64 DateTime Json JsonReader JsonReaderFacts.
From Stdlib Require Import ZArith Lia Strings.Byte.
From stdpp Require Import base gmap strings numbers list.
Open Scope Z_scope.

Definition max_size : Z := 10000000.
Definition ssgmt : Z := 88.

(** ** The server side *)

(** [size] is the bound from the configuration, [h_file] the copy of [content] on disk. *)
Record hstf := Hstf { size : Z; content : bytes; p : Z; h_file : option bytes }.

(** [init] with the configured size and the file that the previous run left. *)
Definition init (oplog_size_bytes : Z) (file : option bytes) : hstf :=
  let sz := wrap U64 oplog_size_bytes in
  let sz := if max_size <? sz then max_size else sz in
  match file with
  | None => Hstf sz [] 0 None
  | Some c =>
      if negb (Z.rem (zlen c) ssgmt =? 0) then Hstf sz [] 0 None
      else match c with
           | [] => Hstf sz [] 0 (Some [])
           | _ => Hstf sz c (chars_to_numeric U64 (zsub c (zlen c - ssgmt) 8)) (Some c)
           end
  end.

(** [if (a.size() > ssgmt) a = a.substr(0, ssgmt); while (a.size() < ssgmt) a += '\0']. *)
Definition segment (n tms crc32 : Z) (filename : bytes) : bytes :=
  let a := numeric_to_chars U64 n ++ numeric_to_chars I64 tms ++ numeric_to_chars I64 crc32 ++ filename in
  let a := if ssgmt <? zlen a then zsub a 0 ssgmt else a in
  a ++ replicate (Z.to_nat (ssgmt - zlen a)) x00.

Arguments segment : simpl never.

Definition add (filename : bytes) (tms crc32 : Z) (h : hstf) : hstf :=
  let n := wrap U64 (p h + 1) in
  let a := segment n tms crc32 filename in
  Hstf (size h) (content h ++ a) n (Some (default [] (h_file h) ++ a)).

Definition clear (h : hstf) : hstf :=
  if size h <? zlen (content h) then
    let d := Z.quot (zlen (content h) - size h) ssgmt in
    let c := drop (Z.to_nat (d * ssgmt)) (content h) in
    Hstf (size h) c (p h) (Some c)
  else h.

(** The number in the query. *)
Definition query_number (qry : bytes) : Z :=
  match str_find (lit "p=") qry with
  | None => 0
  | Some f =>
      let s := match str_find_at (lit "&") qry (f + 2) with
               | None => drop (f + 2) qry
               | Some fe => take (fe - (f + 2)) (drop (f + 2) qry)
               end in
      default 0 (stoi U64 s)
  end.

(** What the answer holds: the current number and the base64 text of the segments. *)
Record reply := Reply { r_p : Z; r_d : option bytes }.

(** [std::int64_t sb { (p - c) * ssgmt }] and the rest of the selection; [None] when
    [content.substr(from)] throws. *)
Definition select (c : Z) (h : hstf) : option reply :=
  if c <? p h then
    let sb := wrap I64 (wrap U64 (wrap U64 (p h - c) * ssgmt)) in
    let from := wrap I64 (zlen (content h) - sb) in
    let from := if from <? 0 then 0 else from in
    if zlen (content h) <? from then None
    else Some (Reply (p h) (Some (base64_encode (drop (Z.to_nat from) (content h)))))
  else Some (Reply (p h) None).

Definition quote : bytes := [x22].

Definition render (r : reply) : bytes :=
  lit "{" ++ quote ++ lit "p" ++ quote ++ lit ":" ++ to_string (r_p r) ++
  (match r_d r with
   | None => []
   | Some d => lit "," ++ quote ++ lit "d" ++ quote ++ lit ":" ++ quote ++ d ++ quote ++
               lit "," ++ quote ++ lit "ssgmt" ++ quote ++ lit ":" ++ to_string ssgmt
   end) ++ lit "}".

Definition get (qry : bytes) (h : hstf) : option bytes := render <$> select (query_number qry) h.

(** ** The client side *)

(** A call of [remove_file_by_tms]. *)
Record removal := Removal { rm_name : bytes; rm_tms : Z; rm_crc32 : Z }.

(** [filename.find('\0')]. *)
Fixpoint until_nul (s : bytes) : bytes :=
  match s with [] => [] | c :: s' => if bool_decide (c = x00) then [] else c :: until_nul s' end.

(** [process]: [None] when a [substr] throws. *)
Definition process (v : bytes) : option removal :=
  a ← substr v 8 8; b ← substr v 16 8; f ← substr_from v 24;
  Some (Removal (until_nul f) (chars_to_numeric I64 a) (chars_to_numeric I64 b)).

(** The loop over the segments of an answer, with the segment size of the answer.  The second
    component is false when [process] threw, which ends the handling of the answer; [None]:
    still running after [fuel] iterations. *)
Fixpoint segments_loop (fuel : nat) (d : bytes) (sg el : Z) : option (list removal * bool) :=
  match fuel with
  | O => None
  | S fuel' =>
      if wrap U64 (wrap I32 (sg * (el + 1))) <=? zlen d then
        match process (zsub d (wrap I32 (sg * el)) (wrap U64 sg)) with
        | None => Some ([], false)
        | Some r => '(rs, ok) ← segments_loop fuel' d sg (el + 1); Some (r :: rs, ok)
        end
      else Some ([], true)
  end.

(** One poll with the answer [r]: the calls made and the new value of [remote].  An answer that
    is not an object changes nothing; neither does what comes after an exception. *)
Definition poll (fuel : nat) (r : bytes) (remote : Z) : option (list removal * Z) :=
  match parse r with
  | Some (objectValue root) =>
      '(rs, ok) ← match member (lit "d") root, member (lit "ssgmt") root with
                  | Some d, Some sg =>
                      match json_asInt sg, json_asString d with
                      | Some sg, Some d => segments_loop fuel (base64_decode d) sg 0
                      | _, _ => Some ([], false)
                      end
                  | _, _ => Some ([], true)
                  end;
      Some (rs, match member (lit "p") root with
                | Some v => if (ok : bool) then match json_asInt64 v with Some up => wrap U64 up | None => remote end else remote
                | None => remote
                end)
  | _ => Some ([], remote)
  end.

(** ** The log as a list of writes *)

Lemma length_segment n tms crc32 name : length (segment n tms crc32 name) = 88%nat.
Proof.
  unfold segment, ssgmt. set (a := numeric_to_chars U64 n ++ _).
  assert (24 <= length a)%nat by (unfold a; len). destruct (Z.ltb_spec 88 (zlen a)).
  - rewrite length_app, length_replicate. pose proof (length_zsub a 0 88). lia.
  - rewrite length_app, length_replicate. lia.
Qed.

Lemma until_nul_pad s k : until_nul (s ++ replicate k x00) = until_nul s.
Proof.
  induction s as [|c s IH]; simpl; [by destruct k|]. case_bool_decide; [done|]. by rewrite IH.
Qed.

(** What the client makes of a logged write: 64 bytes of the name, up to a NUL. *)
Definition logged (e : removal) : removal := Removal (until_nul (take 64 (rm_name e))) (rm_tms e) (rm_crc32 e).

Definition entry_ok (e : removal) : Prop := in_range I64 (rm_tms e) /\ in_range I64 (rm_crc32 e).

(** The segment as consecutive fields. *)
Lemma segment_fields n tms crc32 name :
  segment n tms crc32 name =
    numeric_to_chars U64 n ++ numeric_to_chars I64 tms ++ numeric_to_chars I64 crc32 ++
    take 64 name ++ replicate (64 - length name) x00.
Proof.
  unfold segment, ssgmt. set (a := numeric_to_chars U64 n ++ _).
  assert (Ha : length a = (24 + length name)%nat) by (unfold a; len).
  assert (E : (if 88 <? zlen a then zsub a 0 88 else a) =
    numeric_to_chars U64 n ++ numeric_to_chars I64 tms ++ numeric_to_chars I64 crc32 ++ take 64 name).
  { destruct (Z.ltb_spec 88 (zlen a)).
    - rewrite zsub_take_drop. change (Z.to_nat 88) with (8 + (8 + (8 + 64)))%nat. change (drop (Z.to_nat 0) a) with a. unfold a.
      rewrite !take_app_add'; rewrite ?length_numeric_to_chars; done.
    - unfold a. rewrite (take_ge name) by lia. done. }
  rewrite E, <- !app_assoc. do 4 f_equal. f_equal. rewrite !length_app, !length_numeric_to_chars, length_take. cbn [sizeof]. lia.
Qed.

Lemma process_segment n e : entry_ok e ->
  process (segment n (rm_tms e) (rm_crc32 e) (rm_name e)) = Some (logged e).
Proof.
  intros [H1 H2]. unfold process. rewrite !substr_Some, substr_from_Some by (rewrite length_segment; lia).
  rewrite segment_fields. cbn [mbind option_bind].
  set (A := numeric_to_chars U64 n). set (B := numeric_to_chars I64 (rm_tms e)). set (C := numeric_to_chars I64 (rm_crc32 e)).
  set (D := take 64 (rm_name e) ++ _).
  assert (HA : length A = 8%nat) by apply length_numeric_to_chars.
  assert (HB : length B = 8%nat) by apply length_numeric_to_chars.
  assert (HC : length C = 8%nat) by apply length_numeric_to_chars.
  assert (D8 : drop 8 (A ++ B ++ C ++ D) = B ++ C ++ D) by (by apply drop_app_length').
  assert (D16 : drop 16 (A ++ B ++ C ++ D) = C ++ D)
    by (rewrite app_assoc; apply drop_app_length'; rewrite length_app; lia).
  assert (D24 : drop 24 (A ++ B ++ C ++ D) = D)
    by (rewrite (app_assoc B), app_assoc; apply drop_app_length'; rewrite !length_app; lia).
  rewrite D8, D16, D24, (take_app_length' B), (take_app_length' C) by done.
  unfold B, C. rewrite !chars_to_numeric_to_chars by done. unfold D, logged. by rewrite until_nul_pad.
Qed.

Fixpoint enc_log (n : Z) (es : list removal) : bytes :=
  match es with
  | [] => []
  | e :: es' => segment (n + 1) (rm_tms e) (rm_crc32 e) (rm_name e) ++ enc_log (n + 1) es'
  end.

Lemma length_enc_log n es : length (enc_log n es) = (88 * length es)%nat.
Proof.
  revert n; induction es as [|e es IH]; intros n; cbn [enc_log length]; [done|].
  rewrite length_app, length_segment, IH. lia.
Qed.

Lemma enc_log_app n es1 es2 : enc_log n (es1 ++ es2) = enc_log n es1 ++ enc_log (n + zlen es1) es2.
Proof.
  revert n; induction es1 as [|e es1 IH]; intros n; cbn [enc_log app length]; [f_equal; lia|].
  rewrite IH, <- app_assoc. do 3 f_equal. lia.
Qed.

Lemma drop_enc_log n es k :
  (k <= length es)%nat -> drop (88 * k) (enc_log n es) = enc_log (n + Z.of_nat k) (drop k es).
Proof.
  intros Hk. rewrite <- (take_drop k es) at 1. rewrite enc_log_app.
  rewrite drop_app_length' by (rewrite length_enc_log, length_take; lia). f_equal. rewrite length_take. lia.
Qed.

(** The state of a server whose log holds the writes [es] after the first [n0]. *)
Record log_ok (n0 : Z) (es : list removal) (h : hstf) : Prop := {
  log_content : content h = enc_log n0 es;
  log_p : p h = n0 + zlen es;
  log_n0 : 0 <= n0;
  log_bound : p h < 2 ^ 56;
  log_file : h_file h = Some (content h) \/ (h_file h = None /\ content h = []);
  log_entries : Forall entry_ok es }.

Lemma segments_loop_log pre n es fuel el :
  Forall entry_ok es -> zlen pre = 88 * el -> zlen (pre ++ enc_log n es) + 88 < 2 ^ 31 -> (length es < fuel)%nat ->
  segments_loop fuel (pre ++ enc_log n es) 88 el = Some (logged <$> es, true).
Proof.
  intros He. revert pre n fuel el. induction He as [|e es He Hes IH]; intros pre n fuel el Hp Hl Hf;
    (destruct fuel as [|fuel]; [simpl in Hf; lia|]); cbn [segments_loop enc_log].
  - rewrite app_nil_r in *. rewrite (wrap_id I32), (wrap_id U64) by range_lia.
    by rewrite (proj2 (Z.leb_gt _ _)) by lia.
  - cbn [enc_log] in Hl. rewrite !length_app, length_segment in Hl.
    rewrite !(wrap_id I32), !(wrap_id U64) by range_lia.
    rewrite (proj2 (Z.leb_le _ _)) by (rewrite !length_app, length_segment; lia).
    assert (F : zsub (pre ++ segment (n + 1) (rm_tms e) (rm_crc32 e) (rm_name e) ++ enc_log (n + 1) es) (88 * el) 88 =
      segment (n + 1) (rm_tms e) (rm_crc32 e) (rm_name e)).
    { rewrite zsub_skip by lia. replace (88 * el - zlen pre) with 0 by lia. apply zsub_head. by rewrite length_segment. }
    rewrite F, process_segment by done. rewrite app_assoc, IH; [done| | |simpl in Hf; lia];
      rewrite ?length_app, ?length_segment; lia.
Qed.

(** ** The log is kept by every operation *)

Lemma log_ok_length n0 es h : log_ok n0 es h -> zlen (content h) = 88 * zlen es /\ zlen es < 2 ^ 56.
Proof. intros [Hc Hp Hn Hb _ _]. rewrite Hc, length_enc_log. lia. Qed.

Lemma log_ok_add n0 es h e :
  log_ok n0 es h -> p h + 1 < 2 ^ 56 -> entry_ok e ->
  log_ok n0 (es ++ [e]) (add (rm_name e) (rm_tms e) (rm_crc32 e) h).
Proof.
  intros H Hb He. pose proof H as [Hc Hp Hn _ Hf Hes]. pose proof (log_ok_length _ _ _ H).
  assert (Hw : wrap U64 (p h + 1) = p h + 1) by (apply wrap_id; range_lia). unfold add. rewrite Hw.
  split; cbn [content p h_file].
  - rewrite enc_log_app, Hc. f_equal. cbn [enc_log]. rewrite app_nil_r. by rewrite Hp.
  - rewrite length_app. simpl. lia.
  - done.
  - done.
  - left. f_equal. destruct Hf as [->|[-> ->]]; done.
  - apply Forall_app. split; [done|]. by constructor.
Qed.

(** [clear] drops whole segments from the front until at most one segment exceeds the bound. *)
Lemma log_ok_clear n0 es h :
  log_ok n0 es h -> 0 <= size h ->
  exists k, (k <= length es)%nat /\ log_ok (n0 + Z.of_nat k) (drop k es) (clear h) /\
    zlen (content (clear h)) < size h + 88.
Proof.
  intros H Hs. pose proof H as [Hc Hp Hn Hb Hf Hes]. destruct (log_ok_length _ _ _ H) as [Hl _]. unfold clear.
  destruct (Z.ltb_spec (size h) (zlen (content h))) as [Hlt|Hge].
  - unfold ssgmt. set (d := Z.quot (zlen (content h) - size h) 88).
    assert (Hd : 88 * d <= zlen (content h) - size h < 88 * (d + 1) /\ 0 <= d) by (unfold d; rewrite Z.quot_div_nonneg by lia; dlia).
    exists (Z.to_nat d). assert (Hk : (Z.to_nat d <= length es)%nat) by lia.
    replace (Z.to_nat (d * 88)) with (88 * Z.to_nat d)%nat by lia. rewrite Hc, drop_enc_log by done.
    split; [done|]. split; [split; cbn [content p h_file]|cbn [content]].
    + done.
    + rewrite length_drop. lia.
    + lia.
    + done.
    + by left.
    + by apply Forall_drop.
    + rewrite length_enc_log, length_drop. lia.
  - exists 0%nat. split; [lia|]. replace (n0 + Z.of_nat 0) with n0 by lia. rewrite drop_0. split; [done|lia].
Qed.

(** A restart reads the log back with its number; an empty log starts again from 0. *)
Lemma log_ok_restart n0 es h sz :
  log_ok n0 es h -> log_ok (match es with [] => 0 | _ => n0 end) es (init sz (h_file h)).
Proof.
  intros H. pose proof H as [Hc Hp Hn Hb Hf Hes]. destruct (log_ok_length _ _ _ H) as [Hl Hl2].
  destruct es as [|e es'] eqn:Ees.
  - rewrite Hc in Hf. assert (E : exists sz', init sz (h_file h) = Hstf sz' [] 0 (h_file h)).
    { destruct Hf as [->|[-> _]]; eexists; reflexivity. }
    destruct E as [sz' ->]. split; cbn; [done|done|lia|lia|destruct Hf as [->|[-> _]]; auto|done].
  - rewrite <- Ees in *. assert (Hne : content h <> []).
    { intros E. rewrite E in Hl. rewrite Ees in Hl. simpl in Hl. lia. }
    destruct Hf as [Hf|[_ E]]; [|done]. rewrite Hf. unfold init, ssgmt.
    assert (Hr : Z.rem (zlen (content h)) 88 = 0) by (rewrite Hl, Z.mul_comm; apply Z.rem_mul; lia).
    rewrite Hr. cbn [Z.eqb negb].
    assert (Hlast : chars_to_numeric U64 (zsub (content h) (zlen (content h) - 88) 8) = p h).
    { destruct (exists_last (l := es)) as (es0 & e0 & E0); [by rewrite Ees|].
      rewrite Hc, E0, enc_log_app. cbn [enc_log]. rewrite app_nil_r, length_app, length_segment, length_enc_log.
      rewrite zsub_skip by (rewrite length_enc_log; lia).
      replace (Z.of_nat (88 * length es0 + 88) - 88 - zlen (enc_log n0 es0)) with 0 by (rewrite length_enc_log; lia).
      rewrite segment_fields, zsub_head by (by rewrite length_numeric_to_chars).
      assert (Hq : n0 + zlen es0 + 1 = p h) by (rewrite Hp, E0, length_app; simpl; lia).
      rewrite Hq. apply chars_to_numeric_to_chars. range_lia. }
    rewrite Hlast. destruct (content h) as [|b c'] eqn:Ec; [done|].
    split; cbn [content p h_file]; [done|done|done|done|by left|done].
Qed.

(** ** Replication *)

Lemma query_number_of c : 0 <= c < 2 ^ 64 -> query_number (lit "p=" ++ to_string c) = c.
Proof.
  intros Hc. unfold query_number. change (lit "p=") with [x70; x3d]. cbn [app].
  replace (str_find [x70; x3d] (x70 :: x3d :: to_string c)) with (Some 0%nat) by done.
  unfold str_find_at. cbn [length Nat.add Nat.ltb Nat.leb drop]. 
  change (lit "&") with [x26]. rewrite str_find_char_None by (by apply to_string_not_elem). cbn [fmap option_fmap option_map].
  rewrite drop_0, stoi_to_string; [done|done|]. range_lia.
Qed.

Lemma select_log n0 es h c :
  log_ok n0 es h -> 0 <= c < p h ->
  select c h = Some (Reply (p h) (Some (base64_encode
    (enc_log (n0 + Z.of_nat (Z.to_nat (c - n0))) (drop (Z.to_nat (c - n0)) es))))).
Proof.
  intros H Hc. pose proof H as [Hco Hp Hn Hb _ _]. destruct (log_ok_length _ _ _ H) as [Hl Hl2].
  unfold select, ssgmt. rewrite (proj2 (Z.ltb_lt _ _)) by lia.
  rewrite (wrap_id U64 (p h - c)) by range_lia. rewrite (wrap_id U64 ((p h - c) * 88)) by range_lia.
  rewrite (wrap_id I64 ((p h - c) * 88)) by range_lia.
  rewrite (wrap_id I64 (zlen (content h) - (p h - c) * 88)) by range_lia.
  set (from := zlen (content h) - (p h - c) * 88).
  assert (Hf : (if from <? 0 then 0 else from) = 88 * Z.of_nat (Z.to_nat (c - n0))) by (unfold from; cmp; lia).
  rewrite Hf. rewrite (proj2 (Z.ltb_ge _ _)) by lia.
  replace (Z.to_nat (88 * Z.of_nat (Z.to_nat (c - n0)))) with (88 * Z.to_nat (c - n0))%nat by lia.
  rewrite Hco, drop_enc_log by lia. done.
Qed.

(** The text of an answer is that of a json object, though not with its members in order. *)
Definition answer_json (r : reply) : list (bytes * json) :=
  (lit "p", (if r_p r <=? max_val I32 then intValue else uintValue) (r_p r)) ::
  match r_d r with
  | Some d => [(lit "d", stringValue d); (lit "ssgmt", intValue ssgmt)]
  | None => []
  end.

Lemma base64_plain b : valueToQuotedStringN (base64_encode b) = quote ++ base64_encode b ++ quote.
Proof.
  assert (Hall : forall c, b64_text c -> needs_escape c = false) by (intros c [Hc| ->]; [destruct c; try done|done]).
  unfold valueToQuotedStringN. pose proof (base64_encode_plain b) as Hf. rewrite (proj2 (forallb_forall _ _)).
  - rewrite c_str_id; [done|]. intros Hin. rewrite Forall_forall in Hf. by destruct (Hf _ Hin).
  - intros c Hc%list_elem_of_In. rewrite Forall_forall in Hf. by rewrite Hall by (by apply Hf).
Qed.

(** Both sides as lists that end alike. *)
Ltac flat :=
  repeat match goal with |- context [lit ?t] => let l := eval compute in (lit t) in change (lit t) with l end;
  unfold quote; repeat (progress (cbn [app]; rewrite <- ?app_assoc)); reflexivity.

Lemma render_json r : (forall d, r_d r = Some d -> exists b, d = base64_encode b) -> render r = toString (objectValue (answer_json r)).
Proof.
  intros Hd. destruct r as [n d]. unfold render, answer_json. cbn [r_d r_p] in *.
  assert (Hn : toString ((if n <=? max_val I32 then intValue else uintValue) n) = to_string n) by (by destruct (_ <=? _)).
  rewrite toString_object_cons. unfold member_text at 1. cbn [fst snd]. rewrite Hn.
  change (valueToQuotedStringN (lit "p")) with (quote ++ lit "p" ++ quote). destruct d as [d|].
  - destruct (Hd d eq_refl) as [b ->]. unfold more_members, member_text. cbn [fmap list_fmap fst snd toString]. rewrite base64_plain.
    cbn [mjoin list_join]. change (valueToQuotedStringN (lit "d")) with (quote ++ lit "d" ++ quote).
    change (valueToQuotedStringN (lit "ssgmt")) with (quote ++ lit "ssgmt" ++ quote). flat.
  - cbn [more_members fmap list_fmap mjoin list_join]. flat.
Qed.

(** What the reader finds in the answer that a server sent. *)
Lemma parse_render r : 0 <= r_p r <= max_val U64 -> (forall d, r_d r = Some d -> exists b, d = base64_encode b) ->
  parse (render r) = Some (objectValue (set_members [] (answer_json r))).
Proof.
  intros Hp Hd. rewrite render_json by done. apply parse_members.
  - apply Forall_cons. split.
    + cbn [snd]. destruct (Z.leb_spec (r_p r) (max_val I32)); (split; [|done]); unfold canonical; cbn [json_all canonical_node]; rewrite andb_true_r;
        apply andb_true_iff; rewrite ?Z.leb_le, ?Z.ltb_lt; change (min_val I64) with (-9223372036854775808); lia.
    + destruct (r_d r); repeat constructor.
  - unfold answer_json. destruct (r_d r), (r_p r <=? max_val I32); by vm_compute.
Qed.

(** C27: replication is exact.  A client that knows the write number [c] and polls a server whose
    log holds the writes [es] after the first [n0] handles exactly the writes of the log after
    [c], in order, each with its timestamp, its checksum and the first 64 bytes of its name,
    and then knows the server's current number.  The answer travels as the text that the server
    puts together and is read by [Json::Reader]. *)
Theorem hstf_replication_exact n0 es h c fuel :
  log_ok n0 es h -> 0 <= c < 2 ^ 64 -> zlen (content h) + 88 < 2 ^ 31 -> (length es < fuel)%nat ->
  exists text, get (lit "p=" ++ to_string c) h = Some text /\
    poll fuel text c =
      Some (logged <$> (if c <? p h then drop (Z.to_nat (c - n0)) es else []), p h).
Proof.
  intros H Hc Hs Hf. pose proof H as [Hco Hp Hn Hb _ Hes]. destruct (log_ok_length _ _ _ H) as [Hl Hl2].
  assert (Hpr : 0 <= p h <= max_val U64) by (change (max_val U64) with 18446744073709551615; lia).
  assert (Hi : forall f : Z -> json, f = (if p h <=? max_val I32 then intValue else uintValue) -> json_asInt64 (f (p h)) = Some (p h)).
  { intros f ->. destruct (p h <=? max_val I32); unfold json_asInt64, convert_to; by rewrite bool_decide_true by range_lia. }
  specialize (Hi _ eq_refl). unfold get. rewrite query_number_of by done. destruct (Z.ltb_spec c (p h)) as [Hlt|Hge].
  - rewrite (select_log n0 es h c H) by lia.
    eexists. split; [reflexivity|]. unfold poll. rewrite parse_render by (done || (intros d [= <-]; by eexists)).
    unfold answer_json. cbn [r_d r_p]. set (u := (if p h <=? max_val I32 then intValue else uintValue) (p h)) in *. clearbody u.
    set (k := Z.to_nat (c - n0)) in *. set (d := base64_encode _).
    change (set_members [] _) with [(lit "d", stringValue d); (lit "p", u); (lit "ssgmt", intValue ssgmt)].
    change (member (lit "d") _) with (Some (stringValue d)). change (member (lit "ssgmt") _) with (Some (intValue ssgmt)).
    change (member (lit "p") _) with (Some u). cbn [json_asString]. change (json_asInt (intValue ssgmt)) with (Some ssgmt). subst d.
    assert (Hlen : length (enc_log (n0 + Z.of_nat k) (drop k es)) = (88 * (length es - k))%nat) by (by rewrite length_enc_log, length_drop).
    rewrite base64_round_trip by (rewrite Hlen; dlia).
    pose proof (segments_loop_log [] (n0 + Z.of_nat k) (drop k es) fuel 0 (Forall_drop _ _ _ Hes) eq_refl) as El.
    cbn [app] in El. unfold ssgmt. rewrite El; [|rewrite Hlen; lia|rewrite length_drop; lia]. cbn [mbind option_bind].
    rewrite Hi. by rewrite wrap_id by range_lia.
  - assert (E : select c h = Some (Reply (p h) None)) by (unfold select; by rewrite (proj2 (Z.ltb_ge _ _))).
    rewrite E. eexists. split; [reflexivity|]. unfold poll. rewrite parse_render by done.
    unfold answer_json. cbn [r_d r_p]. set (u := (if p h <=? max_val I32 then intValue else uintValue) (p h)) in *. clearbody u.
    change (set_members [] _) with [(lit "p", u)]. change (member (lit "p") [(lit "p", u)]) with (Some u).
    change (member (lit "d") _) with (@None json). cbn [mbind option_bind]. rewrite Hi. by rewrite wrap_id by range_lia.
Qed.

Definition example_log : hstf :=
  add (lit "b") 8 9 (add (lit "sub/a") 5 (-6) (init 1000 None)).

Lemma example_log_ok : log_ok 0 [Removal (lit "sub/a") 5 (-6); Removal (lit "b") 8 9] example_log.
Proof.
  assert (H0 : log_ok 0 [] (init 1000 None)) by (split; try done; try (right; done); vm_compute; done).
  pose proof (log_ok_add 0 [] _ (Removal (lit "sub/a") 5 (-6)) H0 ltac:(by vm_compute) ltac:(by vm_compute)) as H1.
  exact (log_ok_add 0 _ _ (Removal (lit "b") 8 9) H1 ltac:(by vm_compute) ltac:(by vm_compute)).
Qed.

Lemma hstf_replication_exact_witness :
  exists text, get (lit "p=" ++ to_string 1) example_log = Some text /\
    poll 3 text 1 = Some (logged <$> (if 1 <? p example_log then [Removal (lit "b") 8 9] else []), p example_log).
Proof.
  apply (hstf_replication_exact 0 [Removal (lit "sub/a") 5 (-6); Removal (lit "b") 8 9] example_log 1 3).
  - exact example_log_ok.
  - split; reflexivity || discriminate.
  - by vm_compute.
  - simpl; lia.
Defined.

(** ** Every sequence of writes, clean-ups and restarts *)

(** The state of a server with the writes it was given since its first start. *)
Inductive step : hstf * list removal -> hstf * list removal -> Prop :=
  | step_add h es e : p h + 1 < 2 ^ 56 -> entry_ok e ->
      step (h, es) (add (rm_name e) (rm_tms e) (rm_crc32 e) h, es ++ [e])
  | step_clear h es : step (h, es) (clear h, es)
  | step_restart h es sz : 0 <= sz -> step (h, es) (init sz (h_file h), es).

Lemma size_init sz file : 0 <= size (init sz file) <= max_size.
Proof.
  pose proof (wrap_in_range U64 sz) as Hr. unfold init, max_size.
  set (s := if 10000000 <? wrap U64 sz then 10000000 else wrap U64 sz).
  assert (0 <= s <= 10000000) by (unfold s; cmp; range_lia).
  destruct file as [[|b c]|]; simpl; [done| |done]. by destruct (negb _).
Qed.

Lemma size_step s s' : step s s' -> 0 <= size s.1 <= max_size -> 0 <= size s'.1 <= max_size.
Proof.
  destruct 1; simpl; intros Hs; [done| |apply size_init]. unfold clear. by destruct (_ <? _).
Qed.

Lemma log_step s s' n0 es :
  step s s' -> 0 <= size s.1 -> log_ok n0 es s.1 -> es `suffix_of` s.2 ->
  exists n0' es', log_ok n0' es' s'.1 /\ es' `suffix_of` s'.2.
Proof.
  destruct 1 as [h hist e Hb He|h hist|h hist sz Hsz]; cbn [fst snd]; intros Hs H Hsuf.
  - exists n0, (es ++ [e]). split; [by apply log_ok_add|]. destruct Hsuf as [u ->]. exists u. by rewrite app_assoc.
  - destruct (log_ok_clear n0 es h H Hs) as (k & _ & Hk & _). eexists _, _. split; [exact Hk|].
    etrans; [|exact Hsuf]. rewrite <- (take_drop k es) at 2. by exists (take k es).
  - eexists _, es. split; [by apply (log_ok_restart n0)|done].
Qed.

(** C37: after any sequence of writes, clean-ups and restarts the log is a sequence of whole
    88-byte segments that encode the latest writes in order, numbered consecutively up to the
    current number, and the file on disk is the log in memory. *)
Theorem hstf_log_invariant sz h hist :
  0 <= sz -> rtc step (init sz None, []) (h, hist) ->
  exists n0 es, log_ok n0 es h /\ es `suffix_of` hist /\ Z.rem (zlen (content h)) ssgmt = 0.
Proof.
  intros Hsz Hr.
  assert (G : forall s s', rtc step s s' -> 0 <= size s.1 <= max_size ->
    (exists n0 es, log_ok n0 es s.1 /\ es `suffix_of` s.2) ->
    exists n0 es, log_ok n0 es s'.1 /\ es `suffix_of` s'.2).
  { induction 1 as [|s s1 s' Hs Hr' IH]; intros Hsize Hlog; [done|]. apply IH; [by eapply size_step|].
    destruct Hlog as (n0 & es & Hl & Hsuf). eapply log_step; [done|lia|done|done]. }
  destruct (G _ _ Hr) as (n0 & es & Hl & Hsuf).
  - apply size_init.
  - exists 0, []. split; [split; cbn; (done || lia || (by right) || constructor)|apply suffix_nil].
  - exists n0, es. split; [done|]. split; [done|]. cbn [fst] in Hl. destruct (log_ok_length _ _ _ Hl) as [-> _].
    unfold ssgmt. rewrite Z.mul_comm. apply Z.rem_mul. lia.
Qed.

Lemma hstf_log_invariant_witness :
  rtc step (init 100 None, [])
    (init 100 (h_file (clear (add (lit "b") 8 9 (add (lit "a") 5 (-6) (init 100 None))))),
     [Removal (lit "a") 5 (-6); Removal (lit "b") 8 9]) /\
  exists n0 es, log_ok n0 es (init 100 (h_file (clear (add (lit "b") 8 9 (add (lit "a") 5 (-6) (init 100 None)))))) /\
    es `suffix_of` [Removal (lit "a") 5 (-6); Removal (lit "b") 8 9] /\
    Z.rem (zlen (content (init 100 (h_file (clear (add (lit "b") 8 9 (add (lit "a") 5 (-6) (init 100 None)))))))) ssgmt = 0.
Proof.
  assert (H : rtc step (init 100 None, [])
    (init 100 (h_file (clear (add (lit "b") 8 9 (add (lit "a") 5 (-6) (init 100 None))))),
     [Removal (lit "a") 5 (-6); Removal (lit "b") 8 9])).
  { eapply rtc_l; [apply (step_add _ [] (Removal (lit "a") 5 (-6))); by vm_compute|].
    eapply rtc_l; [apply (step_add _ _ (Removal (lit "b") 8 9)); by vm_compute|].
    eapply rtc_l; [apply step_clear|]. apply rtc_once. apply step_restart. lia. }
  split; [exact H|]. exact (hstf_log_invariant 100 _ _ ltac:(lia) H).
Defined.
