(* ===== verification/WType.v ===== *)
(** * The protocol's enumerations and the file header ([rssdisk/client/rssdisk_w_type.hpp])

    Kinds of writes, statuses of answers with their texts, read options, and [fetch_content],
    with which a client takes apart a file it was sent: the kind, the timestamp and checksum
    of the kinds that have them, the date and the time to live that [write_file_to_disk] put
    before the content. *)

From S2P Require Import Prelude Bitbase BasefuncStd DateTime DiskHelper.
From Stdlib Require Import ZArith Lia Strings.Byte.
From stdpp Require Import base gmap strings numbers list.
Open Scope Z_scope.

(** ** Enumerations *)

(** An enumeration with a fixed underlying type holds any of its values: [w_other]. *)
Inductive w_type :=
  | insert_only | updatable | insert_only_without_compress | updatable_without_compress
  | jdb | jdb_formed | jdb_data | w_none | edb | ajdb | cdb | cdbm | appendable | w_other (n : Z).

#[export] Instance w_type_eq_dec : EqDecision w_type.
Proof. solve_decision. Defined.

Definition w_code (w : w_type) : Z :=
  match w with
  | insert_only => 0 | updatable => 1 | insert_only_without_compress => 2
  | updatable_without_compress => 3 | jdb => 4 | jdb_formed => 5 | jdb_data => 6 | w_none => 7
  | edb => 8 | ajdb => 9 | cdb => 10 | cdbm => 11 | appendable => 12 | w_other n => n
  end.

(** [static_cast<w_type>(n)]. *)
Definition w_cast (n : Z) : w_type :=
  match n with
  | 0 => insert_only | 1 => updatable | 2 => insert_only_without_compress
  | 3 => updatable_without_compress | 4 => jdb | 5 => jdb_formed | 6 => jdb_data | 7 => w_none
  | 8 => edb | 9 => ajdb | 10 => cdb | 11 => cdbm | 12 => appendable | _ => w_other n
  end.

Definition enum_to_string (w : w_type) : bytes :=
  match w with
  | insert_only => lit "w_type::insert_only" | updatable => lit "w_type::updatable"
  | insert_only_without_compress => lit "w_type::insert_only_without_compress"
  | updatable_without_compress => lit "w_type::updatable_without_compress"
  | jdb => lit "w_type::jdb" | jdb_formed => lit "w_type::jdb_formed" | jdb_data => lit "w_type::jdb_data"
  | w_none => lit "w_type::none" | edb => lit "w_type::edb" | ajdb => lit "w_type::ajdb"
  | cdb => lit "w_type::cdb" | cdbm => lit "w_type::cdbm" | appendable => lit "w_type::appendable"
  | w_other _ => []
  end.

(** [read_options] and their union. *)
Definition ro_none : Z := 0.
Definition ro_no_compress : Z := Z.shiftl 1 0.
Definition ro_no_header : Z := Z.shiftl 1 1.
Definition ro_or (a b : Z) : Z := Z.lor a b.

Inductive status :=
  | ok | cant_read_file | file_not_found | file_name_must_not_be_empty | file_busy
  | all_directories_are_full | cant_write_file_to_disk | to_small_content_size | too_long_filename
  | auth_failed | incorrect_secure_key | write_is_disabled | read_is_disabled | subfolder_not_found
  | setting_not_found | errorstr.

#[export] Instance status_eq_dec : EqDecision status.
Proof. solve_decision. Defined.

Definition status_code (s : status) : Z :=
  match s with
  | ok => 1 | cant_read_file => 6 | file_not_found => 7 | file_name_must_not_be_empty => 5
  | file_busy => 8 | all_directories_are_full => 3 | cant_write_file_to_disk => 4
  | to_small_content_size => 2 | too_long_filename => 9 | auth_failed => 10
  | incorrect_secure_key => 11 | write_is_disabled => 12 | read_is_disabled => 13
  | subfolder_not_found => 14 | setting_not_found => 15 | errorstr => 16
  end.

(** [server_response::get]. *)
Definition status_text (s : Z) : bytes :=
  match s with
  | 1 => lit "ok" | 2 => lit "to_small_content_size" | 3 => lit "all_directories_are_full"
  | 4 => lit "cant_write_file_to_disk" | 5 => lit "file_name_must_not_be_empty"
  | 6 => lit "cant_read_file" | 7 => lit "file_not_found" | 8 => lit "file_busy"
  | 9 => lit "too_long_filename" | 10 => lit "auth_failed" | 11 => lit "incorrect_secure_key"
  | 12 => lit "write_is_disabled" | 13 => lit "read_is_disabled" | 14 => lit "subfolder_not_found"
  | 15 => lit "setting_not_found" | 16 => lit "errorstr" | _ => []
  end.

(** Two digits: [std::to_string(n)] with a zero in front of a single digit. *)
Definition pad2 (n : Z) : bytes := let s := to_string n in if (length s =? 1)%nat then x30 :: s else s.

(** ** Taking a file apart *)

Record read_info := ReadInfo {
  file_type : w_type; file_tms : Z; file_crc32 : Z; file_created : date_time; ttl_days : Z;
  header : bytes; ri_content : bytes }.

Definition read_info_init : read_info := ReadInfo insert_only 0 0 date_time_init (-1) [] [].

(** The loop [for (i = start_from, n = 0; i < message_.size(), n < 10; ...)], whose condition is
    [n < 10] alone: [Some] new start and the characters of the time to live, [None] when it
    reads past the terminating NUL. *)
Fixpoint ttl_loop (n : nat) (m : bytes) (start_from : nat) (ttl : bytes) : option (nat * bytes) :=
  match n with
  | O => Some (start_from, ttl)
  | S n' =>
      if (length m <? start_from)%nat then None
      else let c := default x00 (m !! start_from) in
           if bool_decide (c = x20) then Some (S start_from, ttl)
           else ttl_loop n' m (S start_from) (ttl ++ [c])
  end.

(** [fetch_content]: [None] when a [substr] throws or the loop leaves the string. *)
Definition fetch_content (m : bytes) (start_from : nat) (ri : read_info) : option read_info :=
  ty ← substr m start_from 2;
  let file_type := w_cast (default 0 (stoi I32 ty)) in
  let start_from := (start_from + 2)%nat in
  if bool_decide (file_type = cdb) then
    t ← substr m 16 8; c ← substr m 24 8; rest ← substr_from m 32;
    Some (ReadInfo file_type (chars_to_numeric I64 t) (chars_to_numeric I64 c) (file_created ri) (ttl_days ri)
            (header ri) rest)
  else
    '(tms, crc, start_from) ←
      (if bool_decide (file_type ∈ [updatable; updatable_without_compress; jdb; ajdb]) then
         t ← substr m start_from 8; c ← substr m (start_from + 8) 8;
         Some (chars_to_numeric I64 t, chars_to_numeric I64 c, (start_from + 16)%nat)
       else if bool_decide (file_type = appendable) then
         t ← substr m start_from 8; Some (chars_to_numeric I64 t, file_crc32 ri, (start_from + 8)%nat)
       else Some (file_tms ri, file_crc32 ri, start_from));
    d ← substr m start_from 19;
    let created := (parse_date_time d default_format date_and_time (file_created ri)).2 in
    '(start_from, ttl) ← ttl_loop 10 m (start_from + 19) [];
    let ttl_days := default (ttl_days ri) (stoi I16 ttl) in
    if (start_from <? length m)%nat then
      Some (ReadInfo file_type tms crc created ttl_days (take start_from m) (drop start_from m))
    else Some (ReadInfo file_type tms crc created ttl_days (header ri) (ri_content ri)).

(** ** A written file is taken apart again *)

Lemma w_cast_code w : match w with w_other n => True | _ => w_cast (w_code w) = w end.
Proof. by destruct w. Qed.

Lemma ttl_loop_text (pre ttl rest acc : bytes) n :
  x20 ∉ ttl -> (length ttl < n)%nat ->
  ttl_loop n (pre ++ ttl ++ x20 :: rest) (length pre) acc = Some ((length pre + length ttl + 1)%nat, acc ++ ttl).
Proof.
  revert pre acc n; induction ttl as [|c ttl IH]; intros pre acc n Hs Hn; (destruct n as [|n]; [simpl in Hn; lia|]); cbn [ttl_loop].
  - cbn [app]. rewrite (proj2 (Nat.ltb_ge _ _)) by len. rewrite list_lookup_middle by done. simpl.
    rewrite app_nil_r. do 2 f_equal. lia.
  - cbn [app]. rewrite (proj2 (Nat.ltb_ge _ _)) by len. rewrite list_lookup_middle by done. cbn [default from_option id].
    rewrite bool_decide_false by set_solver.
    specialize (IH (pre ++ [c]) (acc ++ [c]) n). rewrite <- !app_assoc in IH. cbn [app] in IH.
    rewrite length_app in IH. cbn [length] in IH. replace (S (length pre)) with (length pre + 1)%nat by lia.
    rewrite IH; [|set_solver|simpl in Hn; lia]. do 2 f_equal. simpl. lia.
Qed.

Lemma length_dec_loop_le k fuel n :
  0 <= n < 10 ^ Z.of_nat (S k) -> (length (dec_loop fuel n []) <= S k)%nat.
Proof.
  revert fuel n; induction k as [|k IH]; intros [|fuel] n Hn; cbn [dec_loop length]; try lia.
  - rewrite (proj2 (Z.ltb_lt n 10)) by (change (10 ^ Z.of_nat 1) with 10 in Hn; lia). simpl; lia.
  - destruct (Z.ltb_spec n 10); [simpl; lia|]. rewrite dec_loop_app, length_app.
    pose proof (IH fuel (n / 10)) as H'. rewrite (Nat2Z.inj_succ (S k)), Z.pow_succ_r in Hn by lia.
    simpl. assert (length (dec_loop fuel (n / 10) []) <= S k)%nat; [apply H'; dlia|lia].
Qed.

Lemma length_ttl ttl : in_range I16 ttl -> (length (to_string ttl) <= 6)%nat.
Proof.
  intros Hr. unfold to_string.
  assert (H : forall n, 0 <= n <= 32768 -> (length (dec_loop 20 n []) <= 5)%nat).
  { intros n Hn. apply (length_dec_loop_le 4). change (10 ^ Z.of_nat 5) with 100000. lia. }
  destruct (Z.ltb_spec ttl 0); cbn [length].
  - pose proof (H (- ttl) ltac:(range_lia)). lia.
  - pose proof (H ttl ltac:(range_lia)). lia.
Qed.

(** The headers that a write of each kind gives to its file, and what they say. *)
Definition headers_of (w : w_type) (tms crc : Z) : list bytes :=
  match w with
  | updatable | updatable_without_compress | jdb | ajdb =>
      [pad2 (w_code w); numeric_to_chars I64 tms; numeric_to_chars I64 crc]
  | appendable => [pad2 (w_code w); numeric_to_chars I64 tms]
  | _ => [pad2 (w_code w)]
  end.

Definition stamps_of (w : w_type) (tms crc : Z) : Z * Z :=
  match w with
  | updatable | updatable_without_compress | jdb | ajdb => (tms, crc)
  | appendable => (tms, 0)
  | _ => (0, 0)
  end.

(** The kinds that are stored in files. *)
Definition file_kind (w : w_type) : bool :=
  match w with cdb | w_other _ => false | _ => true end.

Lemma length_pad2 w : file_kind w = true -> length (pad2 (w_code w)) = 2%nat.
Proof. by destruct w. Qed.

Lemma stoi_pad2 w : file_kind w = true -> w_cast (default 0 (stoi I32 (pad2 (w_code w)))) = w.
Proof. by destruct w. Qed.

Lemma substr_at (u v w : bytes) k n : k = length u -> n = length v -> substr (u ++ v ++ w) k n = Some v.
Proof. intros ->. apply substr_app. Qed.

Section fetch.
Context (now : date_time) (Hn : normal now) (Hy : 1000 <= year (date_ now) <= 9999).
Context (ttl : Z) (Ht : in_range I16 ttl).

Lemma fetch_date (u content : bytes) :
  substr (u ++ get_date_time now ++ to_string ttl ++ x20 :: content) (length u) 19 = Some (get_date_time now).
Proof. apply substr_at; [done|]. by rewrite length_get_date_time. Qed.

Lemma fetch_ttl (u content : bytes) :
  ttl_loop 10 (u ++ get_date_time now ++ to_string ttl ++ x20 :: content) (length u + 19) [] =
    Some (length (u ++ get_date_time now ++ to_string ttl ++ [x20]), to_string ttl).
Proof.
  pose proof (length_ttl ttl Ht) as Hl. pose proof (length_get_date_time now Hn Hy) as Hd.
  rewrite app_assoc. replace (length u + 19)%nat with (length (u ++ get_date_time now)) by (rewrite length_app; lia).
  rewrite ttl_loop_text by (lia || by apply to_string_not_elem). rewrite !length_app. simpl. do 2 f_equal. lia.
Qed.

(** The date that the file was written at, as the client parses it. *)
Definition created : date_time := (parse_date_time (get_date_time now) default_format date_and_time date_time_init).2.

(** The part of [fetch_content] after the stamps. *)
Lemma fetch_rest (u content : bytes) w tms crc :
  content <> [] ->
  (d ← substr (u ++ get_date_time now ++ to_string ttl ++ x20 :: content) (length u) 19;
   let created := (parse_date_time d default_format date_and_time date_time_init).2 in
   '(start_from, t) ← ttl_loop 10 (u ++ get_date_time now ++ to_string ttl ++ x20 :: content) (length u + 19) [];
   let ttl_days := default (-1) (stoi I16 t) in
   if (start_from <? length (u ++ get_date_time now ++ to_string ttl ++ x20 :: content))%nat then
     Some (ReadInfo w tms crc created ttl_days
       (take start_from (u ++ get_date_time now ++ to_string ttl ++ x20 :: content))
       (drop start_from (u ++ get_date_time now ++ to_string ttl ++ x20 :: content)))
   else Some (ReadInfo w tms crc created ttl_days [] [])) =
  Some (ReadInfo w tms crc created ttl (u ++ get_date_time now ++ to_string ttl ++ [x20]) content).
Proof.
  intros Hc. rewrite fetch_date. cbn [mbind option_bind]. rewrite fetch_ttl. cbn [mbind option_bind].
  rewrite stoi_to_string by done. cbn [default from_option id].
  set (h := u ++ get_date_time now ++ to_string ttl ++ [x20]).
  assert (E : u ++ get_date_time now ++ to_string ttl ++ x20 :: content = h ++ content)
    by (unfold h; by rewrite <- !app_assoc).
  rewrite E, take_app_length, drop_app_length. rewrite (proj2 (Nat.ltb_lt _ _)); [done|].
  rewrite length_app. destruct content; [done|simpl; lia].
Qed.

Context (w : w_type) (pre content : bytes) (Hw : file_kind w = true) (Hc : content <> []).
Let kind := pad2 (w_code w).
Let tail := get_date_time now ++ to_string ttl ++ x20 :: content.

Lemma fetch_kind st :
  (ty ← substr ((pre ++ kind ++ st) ++ tail) (length pre) 2; Some (w_cast (default 0 (stoi I32 ty)))) = Some w.
Proof.
  rewrite <- !app_assoc, (substr_at pre kind) by (done || unfold kind; by rewrite length_pad2).
  cbn [mbind option_bind]. unfold kind. by rewrite stoi_pad2.
Qed.

Lemma length_kind st : length (pre ++ kind ++ st) = (length pre + 2 + length st)%nat.
Proof. unfold kind. rewrite !length_app, length_pad2 by done. lia. Qed.

(** A field [v] of the stamps [v1 ++ v ++ v2]. *)
Lemma fetch_field v1 v v2 k n :
  k = (length pre + 2 + length v1)%nat -> n = length v ->
  substr ((pre ++ kind ++ v1 ++ v ++ v2) ++ tail) k n = Some v.
Proof.
  intros -> ->. replace ((pre ++ kind ++ v1 ++ v ++ v2) ++ tail) with ((pre ++ kind ++ v1) ++ v ++ v2 ++ tail)
    by (by rewrite <- !app_assoc). apply substr_at; [by rewrite length_kind|done].
Qed.

Lemma fetch_stamped tms crc :
  in_range I64 tms -> in_range I64 crc -> w ∈ [updatable; updatable_without_compress; jdb; ajdb] ->
  let u := pre ++ kind ++ numeric_to_chars I64 tms ++ numeric_to_chars I64 crc in
  fetch_content (u ++ tail) (length pre) read_info_init =
    Some (ReadInfo w tms crc created ttl (u ++ get_date_time now ++ to_string ttl ++ [x20]) content).
Proof.
  intros Ht1 Ht2 Hs u. pose proof (fetch_kind (numeric_to_chars I64 tms ++ numeric_to_chars I64 crc)) as Hk.
  fold u in Hk. unfold fetch_content. destruct (substr (u ++ tail) (length pre) 2) as [ty|]; [|done].
  cbn [mbind option_bind] in Hk |- *. apply (inj Some) in Hk. rewrite !Hk. rewrite (bool_decide_false (w = cdb)) by (by intros ->).
  rewrite bool_decide_true by done.
  pose proof (fetch_field [] (numeric_to_chars I64 tms) (numeric_to_chars I64 crc) (length pre + 2) 8) as E1.
  pose proof (fetch_field (numeric_to_chars I64 tms) (numeric_to_chars I64 crc) [] (length pre + 2 + 8) 8) as E2.
  rewrite app_nil_r in E2. cbn [app] in E1. fold u in E1, E2.
  rewrite E1, E2 by (rewrite ?length_numeric_to_chars; simpl; lia). cbn [mbind option_bind].
  rewrite !chars_to_numeric_to_chars by done.
  replace (length pre + 2 + 16)%nat with (length u)
    by (unfold u; rewrite length_kind, length_app, !length_numeric_to_chars; reflexivity).
  by apply (fetch_rest u content w tms crc).
Qed.

Lemma fetch_appendable tms :
  in_range I64 tms -> w = appendable ->
  let u := pre ++ kind ++ numeric_to_chars I64 tms in
  fetch_content (u ++ tail) (length pre) read_info_init =
    Some (ReadInfo w tms 0 created ttl (u ++ get_date_time now ++ to_string ttl ++ [x20]) content).
Proof.
  intros Ht1 Hs u. pose proof (fetch_kind (numeric_to_chars I64 tms)) as Hk. fold u in Hk.
  unfold fetch_content. destruct (substr (u ++ tail) (length pre) 2) as [ty|]; [|done].
  cbn [mbind option_bind] in Hk |- *. apply (inj Some) in Hk. rewrite !Hk. rewrite (bool_decide_false (w = cdb)) by congruence.
  rewrite bool_decide_false by (rewrite Hs; by apply (bool_decide_unpack _)). rewrite bool_decide_true by done.
  pose proof (fetch_field [] (numeric_to_chars I64 tms) [] (length pre + 2) 8) as E1.
  rewrite app_nil_r in E1. cbn [app] in E1. fold u in E1.
  rewrite E1 by (rewrite ?length_numeric_to_chars; simpl; lia). cbn [mbind option_bind].
  rewrite !chars_to_numeric_to_chars by done.
  replace (length pre + 2 + 8)%nat with (length u)
    by (unfold u; rewrite length_kind, length_numeric_to_chars; reflexivity).
  by apply (fetch_rest u content w tms 0).
Qed.

Lemma fetch_plain :
  w ∉ [updatable; updatable_without_compress; jdb; ajdb] -> w <> appendable ->
  let u := pre ++ kind in
  fetch_content (u ++ tail) (length pre) read_info_init =
    Some (ReadInfo w 0 0 created ttl (u ++ get_date_time now ++ to_string ttl ++ [x20]) content).
Proof.
  intros Hs Ha u. pose proof (fetch_kind []) as Hk. rewrite app_nil_r in Hk. fold u in Hk.
  unfold fetch_content. destruct (substr (u ++ tail) (length pre) 2) as [ty|]; [|done].
  cbn [mbind option_bind] in Hk |- *. apply (inj Some) in Hk. rewrite !Hk. rewrite (bool_decide_false (w = cdb)) by (by intros ->).
  rewrite !bool_decide_false by done. cbn [mbind option_bind].
  pose proof (length_kind []) as El. rewrite app_nil_r, Nat.add_0_r in El. fold u in El. rewrite <- El.
  by apply (fetch_rest u content w 0 0).
Qed.
End fetch.

Lemma fetch_written w now ttl tms crc (pre content : bytes) :
  file_kind w = true -> normal now -> 1000 <= year (date_ now) <= 9999 -> in_range I16 ttl ->
  in_range I64 tms -> in_range I64 crc -> content <> [] ->
  fetch_content (pre ++ file_header now ttl (headers_of w tms crc) ++ content) (length pre) read_info_init =
    Some (ReadInfo w (stamps_of w tms crc).1 (stamps_of w tms crc).2 (created now) ttl
            (pre ++ file_header now ttl (headers_of w tms crc)) content).
Proof.
  intros Hw Hn Hy Ht Htms Hcrc Hc.
  assert (E : forall hs, pre ++ file_header now ttl hs ++ content =
    (pre ++ mjoin hs) ++ get_date_time now ++ to_string ttl ++ x20 :: content)
    by (intros; unfold file_header; by rewrite <- !app_assoc).
  assert (E' : forall hs, pre ++ file_header now ttl hs = (pre ++ mjoin hs) ++ get_date_time now ++ to_string ttl ++ [x20])
    by (intros; unfold file_header; by rewrite <- !app_assoc).
  rewrite E, E'. clear E E'.
  pose proof (fetch_stamped now Hn Hy ttl Ht w pre content Hw Hc tms crc Htms Hcrc) as F1.
  pose proof (fetch_appendable now Hn Hy ttl Ht w pre content Hw Hc tms Htms) as F2.
  pose proof (fetch_plain now Hn Hy ttl Ht w pre content Hw Hc) as F3.
  destruct w; try done; cbn [headers_of stamps_of mjoin list_join fst snd] in *; rewrite ?app_nil_r in *;
    first [apply F1; apply (bool_decide_unpack _); reflexivity | by apply F2
          | apply F3; [by apply (bool_decide_unpack _)|done]].
Qed.

(** A client takes a stored file apart into exactly what was written: for every kind of
    file, every prefix that the answer puts before it, and every content that is not empty,
    [fetch_content] finds the kind, the timestamp and checksum of the kinds that have them,
    the date (to the second), the time to live and the content. *)
Theorem fetch_content_of_written w now ttl tms crc (pre content : bytes) :
  file_kind w = true -> normal now -> 1000 <= year (date_ now) <= 9999 -> in_range I16 ttl ->
  in_range I64 tms -> in_range I64 crc -> content <> [] ->
  fetch_content (pre ++ file_header now ttl (headers_of w tms crc) ++ content) (length pre) read_info_init =
    Some (ReadInfo w (stamps_of w tms crc).1 (stamps_of w tms crc).2 (created now) ttl
            (pre ++ file_header now ttl (headers_of w tms crc)) content).
Proof. apply fetch_written. Qed.

Lemma fetch_content_of_written_witness :
  fetch_content (lit "123456789" ++ file_header example_dt 30 (headers_of updatable 77 (-8)) ++ lit "data") 9 read_info_init =
    Some (ReadInfo updatable 77 (-8) (created example_dt) 30
            (lit "123456789" ++ file_header example_dt 30 (headers_of updatable 77 (-8))) (lit "data")).
Proof.
  apply (fetch_content_of_written updatable example_dt 30 77 (-8) (lit "123456789") (lit "data")).
  - reflexivity.
  - unfold normal, date_normal, time_normal. simpl. change (count_days_in_month 12 2023) with 31. lia.
  - simpl; lia.
  - range_lia.
  - range_lia.
  - range_lia.
  - discriminate.
Defined.
