(* ===== verification/JdbInterface.v ===== *)
(** * What the file server needs of the json database

    The result type of [JDatabaseManager::createDatabaseContent] ([extentions/j_manager.hpp])
    and the two operations the server calls, as a class.  The handlers of [DiskServer] are
    written against it; [JManager] gives the instance.  An operation that throws returns
    [None]. *)

From S2P Require Import Prelude DiskHelper WType.
From Stdlib Require Import ZArith.
From stdpp Require Import base gmap strings list.
Open Scope Z_scope.

Definition j_extension_name : bytes := lit ".jdb_data".

Record DatabaseContent := DbContent { title : bytes; body : bytes; version : Z; append : bool; errorOccurred : bool }.

Class JdbEngine := {
  createDatabaseContent : fs -> bytes -> bytes -> bytes -> w_type -> option DatabaseContent;
  jdb_fetch : fs -> bytes -> bytes -> Z -> option bytes }.
