(* ===== verification/JManager.v ===== *)
(** * The json database ([rssdisk/rssdisk/extentions/j_manager.cpp], [j_manager.hpp])

    [createDatabaseContent] turns an array of json objects into the title of a database file
    (format, headers, indexes) and its body; [fetch] answers a json query from such files with
    the help of the indexes of [JIndex] and the conditions of [BSearch].

    What is not code of the program is a member of the class [JEnv]: [std::hash], [mktime], the
    zlib functions, and the order in which an [unordered_map] is visited.  A
    call that throws, or that would read outside of a string, returns [None]. *)

From S2P Require Import Prelude Bitbase BasefuncStd BTree JIndex DateTime Json JsonReader BSearch DiskHelper WType JdbInterface.
From Stdlib Require Import ZArith Lia Strings.Byte.
From stdpp Require Import base gmap strings numbers list.
Open Scope Z_scope.

Class JEnv := {
  hash : bytes -> Z;
  mktime : Z -> Z -> Z -> Z -> Z -> Z -> Z;
  compress_string : bytes -> bytes;
  decompress_string : bytes -> bytes;
  visit : forall A, gmap bytes A -> list (bytes * A);
  visit_offsets : gmap Z Z -> list (Z * Z) }.

Arguments visit {_ _} _.

(** What the members promise: an [unordered_map] is visited once per entry, and zlib restores
    what it compressed. *)
Class JEnvLaws (E : JEnv) := {
  visit_perm : forall A (m : gmap bytes A), visit m ≡ₚ map_to_list m;
  visit_offsets_perm : forall m : gmap Z Z, visit_offsets m ≡ₚ map_to_list m;
  decompress_compress : forall s, decompress_string (compress_string s) = s }.

Definition internal_idx : bytes := lit "_idxCfull".
Definition defaultCompressionThreshold : Z := 10000.

(** ** Reading a file: [MemoryMappedItem] *)

Record m_item := MItem {
  currentFileSize : Z; m_data : bytes; decompressedData : bytes; decompressedOffset : Z; isCompressed : bool }.

(** [read]. *)
Definition m_read (data : bytes) : m_item := MItem (zlen data) data [] 0 false.

(** [append_string]: the text it appends; a loop that runs past the data reads out of bounds. *)
Definition append_string (m : m_item) (offset size : Z) : option bytes :=
  if isCompressed m && (decompressedOffset m <=? offset) then
    let offset := offset - decompressedOffset m in
    if wrap U64 (offset + size) <=? zlen (decompressedData m)
    then Some (zsub (decompressedData m) offset size) else Some []
  else if offset <? currentFileSize m then
    let n := Z.min size (currentFileSize m - offset) in
    if offset + n <=? zlen (m_data m) then Some (zsub (m_data m) offset n) else None
  else Some [].

(** [retrieve_uint32_t_c]: the number read at [l]. *)
Definition retrieve_uint32 (m : m_item) (l : Z) : option Z := chars_to_numeric U32 <$> append_string m l 4.

Section manager.
Context `{JEnv}.

Definition decompressed (offset size : Z) (m : m_item) : option m_item :=
  c ← append_string m offset size;
  let d := decompress_string c in
  Some (MItem (wrap U64 (wrap U64 (currentFileSize m - size) + zlen d)) (m_data m) d offset true).

(** [parseJsonData]: an empty text leaves the value null; an exception of the reader is a failure. *)
Definition parseJsonData (data : bytes) : option json :=
  match data with [] => Some nullValue | _ => parse data end.

(** The end of the time to live: at most ten characters from position 37; past the end of the
    string the terminating NUL is read. *)
Fixpoint skip_ttl (n : nat) (data : bytes) (l : nat) : nat :=
  match n with
  | O => l
  | S n' => if bool_decide (data !! l = Some x20) then S l else skip_ttl n' data (S l)
  end.

(** ** Headers *)

(** The state of the loop over the headers: the position, the searches (of which the indexed
    ones are marked), the location of every index, their order, and whether a search is
    indexed.  The type byte of a header is read and never used. *)
Record headers := Headers {
  h_l : Z; h_searches : gmap bytes search.t; h_sizes : gmap bytes b_base.t; h_queue : list bytes; h_indexed : bool }.

Definition idx_at (sizes : gmap bytes b_base.t) (name : bytes) : b_base.t := default b_base.init (sizes !! name).

Fixpoint read_headers (fuel : nat) (m : m_item) (header_size : Z) (h : headers) : option headers :=
  match fuel with
  | O => Some h
  | S fuel' =>
      if 0 <? header_size then
        ind_f_sz ← retrieve_uint32 m (h_l h);
        let l := h_l h + 4 in
        name ← append_string m l ind_f_sz;
        let l := l + ind_f_sz in
        let '(searches, indexed) :=
          match h_searches h !! name with
          | Some s => (<[name := set_indexed s]> (h_searches h), true)
          | None => (h_searches h, h_indexed h)
          end in
        size ← retrieve_uint32 m l;
        let d := idx_at (h_sizes h) name in
        let sizes := <[name := b_base.mk (b_base.tp d) (b_base.offset d) size (b_base.rebuilded d)]> (h_sizes h) in
        _ ← append_string m (l + 4) 1;
        read_headers fuel' m (header_size - 9 - ind_f_sz)
          (Headers (l + 5) searches sizes (h_queue h ++ [name]) indexed)
      else Some h
  end.

(** The indexes lie one after the other in the order of their headers. *)
Fixpoint place_indexes (queue : list bytes) (l : Z) (sizes : gmap bytes b_base.t) : Z * gmap bytes b_base.t :=
  match queue with
  | [] => (l, sizes)
  | t :: q =>
      let d := idx_at sizes t in
      place_indexes q (l + b_base.size d)
        (<[t := b_base.mk (b_base.tp d) (wrap U32 l) (b_base.size d) (b_base.rebuilded d)]> sizes)
  end.

(** The headers from [l] on and the locations of the indexes: every header takes at least nine
    bytes of [header_size]. *)
Definition read_index_table (m : m_item) (l : Z) (searches : gmap bytes search.t) : option headers :=
  header_size ← retrieve_uint32 m l;
  h ← read_headers (Z.to_nat header_size) m header_size (Headers (l + 4) searches ∅ [] false);
  let '(l, sizes) := place_indexes (h_queue h) (h_l h) (h_sizes h) in
  Some (Headers l (h_searches h) sizes (h_queue h) (h_indexed h)).

(** The bytes of an index. *)
Definition load_index (m : m_item) (compress_index : bool) (sizes : gmap bytes b_base.t) (name : bytes) : option bytes :=
  let i_d := idx_at sizes name in
  tmp ← append_string m (b_base.offset i_d) (b_base.size i_d);
  Some (if compress_index then decompress_string tmp else tmp).

(** ** [retrieveCompressedData] *)

Record Metadata := Meta { md_size : Z; md_indices : gmap bytes bytes }.

Fixpoint load_indices (m : m_item) (compress_index : bool) (sizes : gmap bytes b_base.t) (queue : list bytes)
    (acc : gmap bytes bytes) : option (gmap bytes bytes) :=
  match queue with
  | [] => Some acc
  | t :: q => i ← load_index m compress_index sizes t; load_indices m compress_index sizes q (<[t := i]> acc)
  end.

Definition retrieveCompressedData (f : fs) (file : bytes) : option Metadata :=
  let none := Meta 0 ∅ in
  match f !! file with
  | None => Some none
  | Some data =>
      let m := m_read data in
      let l := Z.of_nat (skip_ttl 10 data 37) in
      if currentFileSize m <=? l then Some none
      else
        tmp ← append_string m l 3;
        if negb (bool_decide (tmp = lit "jdb")) then Some none
        else
          v_jdb ← retrieve_uint32 m (l + 3);
          if (Z.land v_jdb 255 =? 2) && isBitSetted U32 v_jdb 9 then
            t ← read_index_table m (l + 7) ∅;
            indices ← load_indices m (isBitSetted U32 v_jdb 10) (h_sizes t) (h_queue t) ∅;
            Some (Meta (match f !! (file ++ j_extension_name) with Some d => zlen d | None => 0 end) indices)
          else Some none
  end.

(** ** [fetch] *)

(** The conditions of a query: those of an object, or of the objects of an array. *)
Fixpoint array_searches (l : list json) (searches : gmap bytes search.t) : option (gmap bytes search.t) :=
  match l with
  | [] => Some searches
  | it :: l' =>
      s ← (if isObject it then f_search hash mktime it searches else Some searches);
      array_searches l' s
  end.

Definition query_searches (json_search : json) : option (gmap bytes search.t) :=
  match json_search with
  | arrayValue l => array_searches l ∅
  | objectValue _ => f_search hash mktime json_search ∅
  | _ => Some ∅
  end.

(** Pieces of text with commas between them. *)
Fixpoint commas (l : list bytes) : bytes :=
  match l with
  | [] => []
  | [x] => x
  | x :: l' => x ++ lit "," ++ commas l'
  end.

(** The pieces at the given locations of the data. *)
Definition record_at (d : m_item) (part : bool) (l : Z) (it : Z * Z) : option bytes :=
  if part then decompress_string <$> append_string d (l + it.1) it.2 else append_string d (l + it.1 + 1) it.2.

Definition records_at (d : m_item) (part : bool) (l : Z) (locs : list (Z * Z)) : option bytes :=
  commas <$> mapM (record_at d part l) locs.

(** All records: the body without its first comma, or every compressed block. *)
Definition all_records (m d : m_item) (part compress_index : bool) (sizes : gmap bytes b_base.t) (l : Z) : option bytes :=
  if part then
    tmp ← load_index m compress_index sizes internal_idx;
    records_at d true l ((fun f => (b_base.offset (search.dd f), b_base.size (search.dd f))) <$> fetchAllIndexedData tmp)
  else
    let sz := wrap U64 (currentFileSize d - l) in
    let sz := if 0 <? sz then sz - 1 else sz in
    append_string d (l + 1) sz.

(** The loop over the indexed searches ([f_first]): the locations that every index allows.  A
    search is done with unless the data is in blocks or its index is a hash. *)
Fixpoint index_passes (fuel : nat) (m : m_item) (part compress_index : bool) (sizes : gmap bytes b_base.t)
    (searches : gmap bytes search.t) (passes : gset bytes) (offsets : option (gmap Z Z)) :
    option (gmap bytes search.t * gmap Z Z) :=
  match fuel with
  | O => Some (searches, default ∅ offsets)
  | S fuel' =>
      match list_find (fun x => search.is_indexed x.2 = true /\ x.1 ∉ passes) (visit searches) with
      | Some (_, (c :: name', srch)) =>
          let name := c :: name' in
          tmp ← load_index m compress_index sizes name;
          let offsets := fetchIndexedData tmp offsets srch in
          let searches := if negb part && negb (bool_decide (search.tp srch = b_base.string))
                          then delete name searches else searches in
          index_passes fuel' m part compress_index sizes searches ({[name]} ∪ passes) (Some offsets)
      | _ => Some (searches, default ∅ offsets)
      end
  end.

(** The records of a json array that match, printed. *)
Fixpoint matching_records (items : list json) (searches : gmap bytes search.t) : option (list bytes) :=
  match items with
  | [] => Some []
  | item :: l =>
      b ← matching hash mktime item (visit searches);
      r ← matching_records l searches;
      Some (if (b : bool) then toString item :: r else r)
  end.

Definition brackets (s : bytes) : bytes := lit "[" ++ s ++ lit "]".

(** The answer to the searches that are left, from the text of the candidate records. *)
Definition filter_records (content : bytes) (searches : gmap bytes search.t) : option bytes :=
  let array := match parseJsonData (brackets content) with Some v => elements_of v | None => [] end in
  brackets ∘ commas <$> matching_records array searches.

Definition select (m d : m_item) (part compress_index : bool) (l : Z) (t : headers) : option bytes :=
  let searches := h_searches t in
  if bool_decide (searches = ∅) then brackets <$> all_records m d part compress_index (h_sizes t) l
  else if h_indexed t then
    '(searches, offsets) ← index_passes (S (size searches)) m part compress_index (h_sizes t) searches ∅ None;
    content ← records_at d part l (visit_offsets offsets);
    if bool_decide (searches = ∅) then Some (brackets content) else filter_records content searches
  else
    content ← all_records m d part compress_index (h_sizes t) l;
    filter_records content searches.

(** The content of a database file from [l] on; [None] inside: the data file is missing. *)
Definition fetch_content_jdb (f : fs) (file : bytes) (m : m_item) (l : Z) (searches : gmap bytes search.t) :
    option (option bytes) :=
  tmp ← append_string m l 3;
  if negb (bool_decide (tmp = lit "jdb")) then Some (Some [])
  else
    v_jdb ← retrieve_uint32 m (l + 3);
    let v := Z.land v_jdb 255 in
    let part := isBitSetted U32 v_jdb 9 in
    let compress_index := isBitSetted U32 v_jdb 10 in
    if (v =? 1) || (v =? 2) then
      match (if v =? 2 then m_read <$> f !! (file ++ j_extension_name) else Some m) with
      | None => Some None
      | Some d =>
          t ← read_index_table m (l + 7) searches;
          let l := if v =? 2 then 0 else h_l t in
          d ← (if isBitSetted U32 v_jdb 8 then decompressed l (wrap U64 (currentFileSize d - l)) d else Some d);
          let m := if v =? 2 then m else d in
          Some <$> select m d part compress_index l t
      end
    else Some (Some []).

Definition fetch (f : fs) (file json_search : bytes) (ro : Z) : option bytes :=
  match f !! file, parseJsonData json_search with
  | Some data, Some js =>
      searches ← query_searches js;
      let m := m_read data in
      let l := Z.of_nat (skip_ttl 10 data 37) in
      if currentFileSize m <=? l then Some []
      else
        ret ← (if isBitSettedByNumber ro 2 then Some [] else append_string m 0 l);
        content ← fetch_content_jdb f file m l searches;
        match content with
        | None => Some []
        | Some [] => Some ret
        | Some content => Some (ret ++ if isBitSettedByNumber ro 1 then content else compress_string content)
        end
  | _, _ => Some []
  end.

(** ** [createDatabaseContent] *)

(** The settings of a write. *)
Record settings := Settings {
  indexed_fields : gmap bytes b_base.type; compress_data : bool; compress_index : bool;
  compress_particularly_data : Z; db_version : Z }.

Definition index_type (item : list (bytes * json)) : b_base.type :=
  match member (lit "t") item with
  | Some (stringValue t) =>
      if bool_decide (t = lit "date") then b_base.date
      else if bool_decide (t = lit "string") then b_base.string else b_base.numeric
  | _ => b_base.numeric
  end.

(** [indexed_fields.insert] keeps the first type of a name. *)
Definition insert_new {A} (k : bytes) (v : A) (m : gmap bytes A) : gmap bytes A :=
  match m !! k with Some _ => m | None => <[k := v]> m end.

Definition add_field (fields : gmap bytes b_base.type) (item : json) : gmap bytes b_base.type :=
  match item with
  | objectValue l =>
      match member (lit "n") l with
      | Some (stringValue n) => insert_new n (index_type l) fields
      | _ => fields
      end
  | _ => fields
  end.

Definition read_settings (json_settings : json) : settings :=
  match json_settings with
  | objectValue l =>
      Settings
        (match member (lit "index") l with Some (arrayValue items) => foldl add_field ∅ items | _ => ∅ end)
        (match member (lit "compress_data") l with Some (booleanValue b) => b | _ => false end)
        (match member (lit "compress_index") l with Some (booleanValue b) => b | _ => false end)
        (match member (lit "compress_particularly_data") l with Some v => if isInt v then asInt64 v else 0 | None => 0 end)
        (match member (lit "v") l with Some v => if isInt v then asInt64 v else 1 | None => 1 end)
  | _ => Settings ∅ false false 0 1
  end.

(** [std::multimap::insert]: after the entries of the same key. *)
Definition multimap := list (Z * b_base.t).

Fixpoint mm_insert (k : Z) (v : b_base.t) (m : multimap) : multimap :=
  match m with
  | [] => [(k, v)]
  | (k', v') :: m' => if k' <=? k then (k', v') :: mm_insert k v m' else (k, v) :: (k', v') :: m'
  end.

(** The variables of the loop over the records. *)
Record build := Build {
  b_json : bytes; b_body : bytes; b_offset : Z; b_block : Z;
  b_struct : gmap bytes multimap; b_rebuild : gmap Z (list (bytes * Z)); b_blocks : list (Z * Z) }.

(** One member of a record: its index entry, when its name is indexed and its value fits. *)
Definition index_member (s : settings) (item : json) (b : build) (name : bytes) : option build :=
  match indexed_fields s !! name with
  | None => Some b
  | Some tp =>
      '(t, ind_val) ← try_make_index_parameter hash mktime item name 0 tp;
      if bool_decide (t = b_base.none) then Some b
      else
        let plain := compress_particularly_data s =? 0 in
        let i_data := if plain then b_base.mk tp (b_offset b) (wrap U32 (zlen (b_json b))) false
                      else b_base.mk tp (b_block b) 0 false in
        let rebuild := if plain then b_rebuild b
                       else <[b_block b := default [] (b_rebuild b !! b_block b) ++ [(name, ind_val)]]> (b_rebuild b) in
        Some (Build (b_json b) (b_body b) (b_offset b) (b_block b)
                (<[name := mm_insert ind_val i_data (default [] (b_struct b !! name))]> (b_struct b)) rebuild (b_blocks b))
  end.

Fixpoint index_members (s : settings) (item : json) (names : list bytes) (b : build) : option build :=
  match names with
  | [] => Some b
  | n :: l => b ← index_member s item b n; index_members s item l b
  end.

(** A full block is compressed. *)
Definition flush_block (next : Z) (b : build) : build :=
  let comp := compress_string (b_json b) in
  Build [] (b_body b ++ comp) (b_offset b) next (b_struct b) (b_rebuild b) (b_blocks b ++ [(b_block b, zlen comp)]).

(** One record. *)
Definition add_record (s : settings) (b : build) (item : json) : option build :=
  let plain := compress_particularly_data s =? 0 in
  let js := if plain then [] else b_json b in
  let js := (match js with [] => [] | _ => js ++ lit "," end) ++ toString item in
  names ← getMemberNames item;
  b ← index_members s item names (Build js (b_body b) (b_offset b) (b_block b) (b_struct b) (b_rebuild b) (b_blocks b));
  Some (if plain then
          Build js (b_body b ++ lit "," ++ js) (wrap U32 (wrap U32 (b_offset b + 1) + zlen js)) (b_block b)
            (b_struct b) (b_rebuild b) (b_blocks b)
        else if wrap U64 (compress_particularly_data s) <=? zlen js then flush_block (wrap U32 (b_block b + 1)) b
        else b).

Fixpoint add_records (s : settings) (items : list json) (b : build) : option build :=
  match items with
  | [] => Some b
  | item :: l => b ← add_record s b item; add_records s l b
  end.

(** The entries of the key [k] that still hold the block number [bn] get the place of the block. *)
Definition rebuild_entry (bn offset size k : Z) (e : Z * b_base.t) : Z * b_base.t :=
  let d := e.2 in
  if (e.1 =? k) && negb (b_base.rebuilded d) && (b_base.offset d =? bn)
  then (e.1, b_base.mk (b_base.tp d) offset (wrap U32 size) true) else e.

Definition rebuild_item (bn offset size : Z) (st : gmap bytes multimap) (b : bytes * Z) : gmap bytes multimap :=
  match st !! b.1 with
  | Some m => <[b.1 := rebuild_entry bn offset size b.2 <$> m]> st
  | None => st
  end.

(** The loop over the blocks: the actual places, and the entry of the internal index. *)
Fixpoint place_blocks (blocks : list (Z * Z)) (rebuild : gmap Z (list (bytes * Z))) (offset : Z)
    (st : gmap bytes multimap) : gmap bytes multimap :=
  match blocks with
  | [] => st
  | (bn, size) :: l =>
      let st := foldl (rebuild_item bn offset size) st (default [] (rebuild !! bn)) in
      let st := <[internal_idx := mm_insert bn (b_base.mk b_base.numeric offset (wrap U32 size) true)
                                    (default [] (st !! internal_idx))]> st in
      place_blocks l rebuild (wrap U32 (offset + size)) st
  end.

(** A built index from a multimap, and the entries added to an existing index. *)
Definition index_bytes (m : multimap) : bytes :=
  mjoin ((fun e => enc_entry e.1 (b_base.offset e.2) (b_base.size e.2)) <$> m).

Fixpoint add_to_index (ind : bytes) (m : multimap) : option bytes :=
  match m with
  | [] => Some ind
  | (k, d) :: m' => ind ← addToIndex ind k d; add_to_index ind m'
  end.

Definition compressed_index (s : settings) (ind : bytes) : bytes :=
  if compress_index s then compress_string ind else ind.

Fixpoint extend_indexes (s : settings) (old : list (bytes * bytes)) (st : gmap bytes multimap) : option (list (bytes * bytes)) :=
  match old with
  | [] => Some []
  | (name, ind) :: l =>
      ind ← match st !! name with Some m => add_to_index ind m | None => Some ind end;
      r ← extend_indexes s l st;
      Some ((name, compressed_index s ind) :: r)
  end.

Definition build_indexes (s : settings) (fields : gmap bytes b_base.type) (st : gmap bytes multimap) : list (bytes * bytes) :=
  (fun x => (x.1, compressed_index s (index_bytes (default [] (st !! x.1))))) <$> visit fields.

(** The headers of the built indexes. *)
Definition header_of (fields : gmap bytes b_base.type) (x : bytes * bytes) : bytes :=
  numeric_to_chars U32 (zlen x.1) ++ x.1 ++ numeric_to_chars U32 (zlen x.2) ++
  numeric_to_chars U8 (match fields !! x.1 with Some t => b_base.type_code t | None => 0 end).

Definition title_of (version : Z) (fields : gmap bytes b_base.type) (built : list (bytes * bytes)) : bytes :=
  let headers := mjoin (header_of fields <$> built) in
  lit "jdb" ++ numeric_to_chars U32 version ++ numeric_to_chars U32 (zlen headers) ++ headers ++ mjoin built.*2.

(** The format number with its flags. *)
Definition version_bits (s : settings) : Z :=
  let v := wrap U32 (db_version s) in
  let v := if compress_data s then setBit U32 v 8 else v in
  let v := if negb (compress_particularly_data s =? 0) then setBit U32 v 9 else v in
  if compress_index s then setBit U32 v 10 else v.

(** The existing database of an append: its metadata, the first block number, whether the
    write appends, and the settings in force. *)
Definition start_append (f : fs) (file : bytes) (w : w_type) (s : settings) : option (Metadata * Z * bool * settings) :=
  '(ex, block, app, cpd) ←
    (if bool_decide (w = ajdb) then
       ex ← retrieveCompressedData f file;
       let cpd := if compress_particularly_data s =? 0 then defaultCompressionThreshold else compress_particularly_data s in
       Some (if 0 <? md_size ex then
               let ind := default [] (md_indices ex !! internal_idx) in
               (Meta (md_size ex) (<[internal_idx := ind]> (md_indices ex)), wrap U32 (calculateIndexSize ind), true, cpd)
             else (ex, 0, false, cpd))
     else Some (Meta 0 ∅, 0, false, compress_particularly_data s));
  Some (ex, block, app,
    Settings (indexed_fields s) (if negb (cpd =? 0) then false else compress_data s) (compress_index s) cpd (db_version s)).

(** The flush of the last block and the places of the blocks. *)
Definition finish_blocks (s : settings) (app : bool) (ex : Metadata) (b : build) : build :=
  if compress_particularly_data s =? 0 then b
  else
    let b := match b_json b with [] => b | _ => flush_block (b_block b) b end in
    Build (b_json b) (b_body b) (b_offset b) (b_block b)
      (place_blocks (b_blocks b) (b_rebuild b) (if app then wrap U32 (md_size ex) else 0) (b_struct b))
      (b_rebuild b) (b_blocks b).

Definition create (f : fs) (file json_data_ json_settings_ : bytes) (w : w_type) : option DatabaseContent :=
  match parseJsonData json_settings_, parseJsonData json_data_ with
  | Some json_settings, Some json_data =>
      '(ex, block, app, s) ← start_append f file w (read_settings json_settings);
      match json_data with
      | arrayValue items =>
          b ← add_records s (filter (fun v => isObject v = true) items) (Build [] [] 0 block ∅ ∅ []);
          let b := finish_blocks s app ex b in
          '(fields, built) ←
            (if (app : bool) then r ← extend_indexes s (visit (md_indices ex)) (b_struct b); Some (indexed_fields s, r)
             else
               let fields := if compress_particularly_data s =? 0 then indexed_fields s
                             else insert_new internal_idx b_base.none (indexed_fields s) in
               Some (fields, build_indexes s fields (b_struct b)));
          Some (DbContent (title_of (version_bits s) fields built)
                  (if compress_data s then compress_string (b_body b) else b_body b) (db_version s) app false)
      | _ => Some (DbContent (lit "jdb" ++ numeric_to_chars U32 (version_bits s)) [] (db_version s) app true)
      end
  | _, _ => Some (DbContent [] [] 1 false false)
  end.

(** [deleteFile]. *)
Definition deleteFile (f : fs) (file : bytes) : fs := delete (file ++ j_extension_name) (delete file f).
End manager.

(** The database behind the server's interface. *)
#[export] Instance jdb_engine `{JEnv} : JdbEngine := {| createDatabaseContent := create; jdb_fetch := fetch |}.
