(* ===== verification/JManagerFacts.v ===== *)
(** * Theorems about the json database

    What [createDatabaseContent] writes, [fetch] reads: the headers give every index its place,
    and a query for integer values returns exactly the records that satisfy it, whichever
    fields are indexed. *)

From S2P Require Import Prelude Bitbase BasefuncStd BTree JIndex JIndexFacts DateTime Json JsonReader JsonReaderFacts BSearch DiskHelper WType JdbInterface JManager.
From Stdlib Require Import ZArith Lia Strings.Byte.
From stdpp Require Import base gmap strings numbers sorting list.
Open Scope Z_scope.

(** ** Reading parts of a file *)

Ltac zl := rewrite ?length_app, ?length_numeric_to_chars; cbn [sizeof length]; lia.

Lemma append_mid a b c : append_string (m_read (a ++ b ++ c)) (zlen a) (zlen b) = Some b.
Proof.
  unfold append_string, m_read. cbn [isCompressed andb currentFileSize m_data]. rewrite !length_app.
  destruct (Z.ltb_spec (zlen a) (Z.of_nat (length a + (length b + length c)))) as [Hl|Hl].
  - rewrite Z.min_l by lia. rewrite (proj2 (Z.leb_le _ _)) by lia. f_equal. zfield.
  - destruct b; [done|]. cbn in Hl. lia.
Qed.

Lemma append_at data a b c l n :
  data = a ++ b ++ c -> l = zlen a -> n = zlen b -> append_string (m_read data) l n = Some b.
Proof. intros -> -> ->. apply append_mid. Qed.

Lemma retrieve_at data a n c l :
  data = a ++ numeric_to_chars U32 n ++ c -> l = zlen a -> in_range U32 n -> retrieve_uint32 (m_read data) l = Some n.
Proof.
  intros Hd Hl Hn. unfold retrieve_uint32. rewrite (append_at data a (numeric_to_chars U32 n) c); [|done|done|by len].
  cbn. by rewrite chars_to_numeric_to_chars.
Qed.

(** ** The headers *)

Section headers.
Context `{JEnv}.
Context (fields : gmap bytes b_base.type).

Definition mark_search (ss : gmap bytes search.t) (name : bytes) : gmap bytes search.t :=
  match ss !! name with Some s => <[name := set_indexed s]> ss | None => ss end.

Definition add_size (sizes : gmap bytes b_base.t) (x : bytes * bytes) : gmap bytes b_base.t :=
  let d := idx_at sizes x.1 in <[x.1 := b_base.mk (b_base.tp d) (b_base.offset d) (zlen x.2) (b_base.rebuilded d)]> sizes.

Definition is_named (ss : gmap bytes search.t) (x : bytes * bytes) : bool := bool_decide (is_Some (ss !! x.1)).

Lemma mark_search_named ss name x : is_named (mark_search ss name) x = is_named ss x.
Proof.
  unfold is_named, mark_search. apply bool_decide_ext. destruct (ss !! name) eqn:E; [|done].
  destruct (decide (x.1 = name)) as [->|]; [rewrite lookup_insert_eq, E; naive_solver|by rewrite lookup_insert_ne].
Qed.

Lemma length_header x : zlen (header_of fields x) = 9 + zlen x.1.
Proof. unfold header_of. rewrite !length_app, !length_numeric_to_chars. cbn. lia. Qed.

(** Names and indexes short enough for their 32-bit lengths. *)
Definition fits (x : bytes * bytes) : Prop := in_range U32 (zlen x.1) /\ in_range U32 (zlen x.2).

Lemma read_headers_spec built : forall fuel pre post h data,
  data = pre ++ mjoin (header_of fields <$> built) ++ post -> h_l h = zlen pre ->
  (length built <= fuel)%nat -> Forall fits built ->
  read_headers fuel (m_read data) (zlen (mjoin (header_of fields <$> built))) h =
  Some (Headers (zlen pre + zlen (mjoin (header_of fields <$> built))) (foldl mark_search (h_searches h) built.*1)
          (foldl add_size (h_sizes h) built) (h_queue h ++ built.*1) (h_indexed h || existsb (is_named (h_searches h)) built)).
Proof.
  induction built as [|[name idx] built IH]; intros fuel pre post h data Hd Hl Hf Hok.
  { cbn. rewrite Z.add_0_r, app_nil_r, orb_false_r, <- Hl. destruct h, fuel; reflexivity. }
  destruct fuel as [|fuel]; [cbn in Hf; lia|]. inversion_clear Hok as [|? ? [Hn Hi] Hok']. cbn [fst snd] in Hn, Hi.
  cbn [fmap list_fmap mjoin list_join] in Hd |- *. pose proof (length_header (name, idx)) as Hh. cbn [fst] in Hh.
  cbn [read_headers]. rewrite length_app, Nat2Z.inj_add, Hh. rewrite (proj2 (Z.ltb_lt _ _)) by lia.
  set (ty := numeric_to_chars U8 (match fields !! name with Some t => b_base.type_code t | None => 0 end)).
  assert (Hty : zlen ty = 1) by (unfold ty; by len).
  assert (Hhd : header_of fields (name, idx) = numeric_to_chars U32 (zlen name) ++ name ++ numeric_to_chars U32 (zlen idx) ++ ty)
    by done.
  set (rest := mjoin (header_of fields <$> built)) in *. rewrite Hhd, <- !app_assoc in Hd.
  rewrite (retrieve_at data pre (zlen name) (name ++ numeric_to_chars U32 (zlen idx) ++ ty ++ rest ++ post)) by done.
  cbn [mbind option_bind].
  rewrite (append_at data (pre ++ numeric_to_chars U32 (zlen name)) name (numeric_to_chars U32 (zlen idx) ++ ty ++ rest ++ post)
    (h_l h + 4) (zlen name));
    [|by rewrite Hd, <- !app_assoc|zl|done]. cbn [mbind option_bind].
  rewrite (retrieve_at data (pre ++ numeric_to_chars U32 (zlen name) ++ name) (zlen idx) (ty ++ rest ++ post)
    (h_l h + 4 + zlen name));
    [|by rewrite Hd, <- !app_assoc|zl|done].
  rewrite (append_at data (pre ++ numeric_to_chars U32 (zlen name) ++ name ++ numeric_to_chars U32 (zlen idx)) ty (rest ++ post)
    (h_l h + 4 + zlen name + 4) 1);
    [|by rewrite Hd, <- !app_assoc|zl|done].
  assert (Hs : (match h_searches h !! name with
      | Some s => (<[name := set_indexed s]> (h_searches h), true) | None => (h_searches h, h_indexed h) end) =
    (mark_search (h_searches h) name, h_indexed h || is_named (h_searches h) (name, idx))).
  { unfold mark_search, is_named. cbn [fst]. destruct (h_searches h !! name); cbn; by rewrite ?orb_true_r, ?orb_false_r. }
  rewrite Hs. cbn [mbind option_bind]. replace (9 + zlen name + zlen rest - 9 - zlen name) with (zlen rest) by lia.
  rewrite (IH fuel (pre ++ header_of fields (name, idx)) post); cbn [h_l h_searches h_sizes h_queue h_indexed];
    [|by rewrite Hd, Hhd, <- !app_assoc|rewrite length_app, Nat2Z.inj_add, Hh; cbn [fst]; lia|cbn in Hf; lia|done].
  f_equal. cbn [fst snd foldl existsb fmap list_fmap]. f_equal.
  - rewrite length_app, Nat2Z.inj_add, Hh. cbn [fst]. lia.
  - by rewrite <- app_assoc.
  - rewrite <- orb_assoc. do 2 f_equal. clear. induction built as [|x l IHl]; [done|]. cbn. by rewrite mark_search_named, IHl.
Qed.

(** The size an index has in the table. *)
Lemma add_sizes_size (built : list (bytes * bytes)) : forall (sizes : gmap bytes b_base.t) (name : bytes),
  NoDup built.*1 ->
  (forall idx, (name, idx) ∈ built -> b_base.size (idx_at (foldl add_size sizes built) name) = zlen idx) /\
  (name ∉ built.*1 -> idx_at (foldl add_size sizes built) name = idx_at sizes name).
Proof.
  induction built as [|[n i] built IH]; intros sizes name Hnd; cbn [foldl]; [set_solver|].
  apply NoDup_cons in Hnd as [Hn Hnd]. destruct (IH (add_size sizes (n, i)) name Hnd) as [IH1 IH2]. split.
  - intros idx [[= -> ->]|Hin]%elem_of_cons; [|by apply IH1]. rewrite IH2 by done.
    unfold add_size, idx_at. cbn. by rewrite lookup_insert_eq.
  - intros Hne. rewrite IH2 by set_solver. unfold add_size, idx_at. cbn. rewrite lookup_insert_ne by set_solver. done.
Qed.

Lemma place_indexes_spec (built : list (bytes * bytes)) : forall (l : Z) (sizes : gmap bytes b_base.t),
  NoDup built.*1 -> (forall x : bytes * bytes, x ∈ built -> b_base.size (idx_at sizes x.1) = zlen x.2) ->
  let '(l', sizes') := place_indexes built.*1 l sizes in
  l' = l + zlen (mjoin built.*2) /\
  (forall n, n ∉ built.*1 -> idx_at sizes' n = idx_at sizes n) /\
  (forall (b1 : list (bytes * bytes)) (x : bytes * bytes) b2, built = b1 ++ x :: b2 ->
     b_base.offset (idx_at sizes' x.1) = wrap U32 (l + zlen (mjoin b1.*2)) /\ b_base.size (idx_at sizes' x.1) = zlen x.2).
Proof.
  induction built as [|[n i] built IH]; intros l sizes Hnd Hsz; rewrite ?fmap_cons; cbn [place_indexes fst].
  { split; [cbn; lia|]. split; [done|]. intros [|? ?] x b2 E; discriminate. }
  rewrite fmap_cons in Hnd. apply NoDup_cons in Hnd as [Hn Hnd]. cbn [fst] in Hn. pose proof (Hsz (n, i) ltac:(left)) as Hi. cbn in Hi. rewrite Hi.
  set (sizes1 := <[n := _]> sizes).
  assert (H1 : forall k, k <> n -> idx_at sizes1 k = idx_at sizes k)
    by (intros; unfold sizes1, idx_at; by rewrite lookup_insert_ne).
  specialize (IH (l + zlen i) sizes1 Hnd). destruct (place_indexes built.*1 (l + zlen i) sizes1) as [l' sizes'].
  destruct IH as (IHl & IHn & IHs).
  { intros x Hx. rewrite H1; [apply Hsz; by right|]. intros E. apply Hn. rewrite <- E. apply list_elem_of_fmap. by exists x. }
  split; [rewrite join_cons, length_app; cbn [snd]; lia|].
  split; [intros k Hk; rewrite IHn by set_solver; apply H1; set_solver|].
  intros [|y b1] x b2 E; injection E as E1 E2.
  - subst x. cbn [fst snd]. rewrite IHn by done. unfold sizes1, idx_at. rewrite lookup_insert_eq. cbn. by rewrite Z.add_0_r.
  - subst y. destruct (IHs b1 x b2 E2) as [Ho Hs]. rewrite Ho, Hs. split; [|done]. f_equal.
    rewrite fmap_cons, join_cons, length_app. cbn [snd]. lia.
Qed.

(** The table of a title: its end, the searches that it marks, and the bytes of every index. *)
Lemma read_index_table_spec built pre post searches data ci :
  data = pre ++ numeric_to_chars U32 (zlen (mjoin (header_of fields <$> built))) ++ mjoin (header_of fields <$> built) ++
         mjoin built.*2 ++ post ->
  zlen data < 2 ^ 32 -> NoDup built.*1 ->
  exists t, read_index_table (m_read data) (zlen pre) searches = Some t /\
    h_l t = zlen data - zlen post /\ h_searches t = foldl mark_search searches built.*1 /\
    h_indexed t = existsb (is_named searches) built /\
    forall name idx, (name, idx) ∈ built ->
      load_index (m_read data) ci (h_sizes t) name = Some (if ci then decompress_string idx else idx).
Proof.
  intros Hd Hlen Hnd. set (hs := mjoin (header_of fields <$> built)) in *.
  assert (Hls : zlen data = zlen pre + 4 + zlen hs + zlen (mjoin built.*2) + zlen post) by (rewrite Hd; zl).
  assert (Hfit : Forall fits built).
  { apply Forall_forall. intros [n i] (b1 & b2 & Hb)%list_elem_of_split. unfold hs in Hls. rewrite Hb in Hls.
    rewrite !fmap_app, !fmap_cons, !join_app, !join_cons, !length_app in Hls.
    pose proof (length_header (n, i)). cbn [fst snd] in *. unfold fits; cbn [fst snd]. range_lia. }
  assert (Hcnt : (length built <= length hs)%nat).
  { unfold hs. clear -built. induction built as [|x l IH]; [done|].
    rewrite fmap_cons, join_cons, length_app. pose proof (length_header x). cbn [length]. lia. }
  unfold read_index_table. rewrite (retrieve_at data pre (zlen hs) (hs ++ mjoin built.*2 ++ post)); [|done|done|range_lia].
  cbn [mbind option_bind]. rewrite Nat2Z.id.
  rewrite (read_headers_spec built (length hs) (pre ++ numeric_to_chars U32 (zlen hs)) (mjoin built.*2 ++ post));
    cbn [h_l h_searches h_sizes h_queue h_indexed];
    [|by rewrite Hd, <- app_assoc|zl|done|done].
  fold hs. cbn [mbind option_bind app orb h_l h_searches h_sizes h_queue h_indexed].
  set (l0 := zlen (pre ++ numeric_to_chars U32 (zlen hs)) + zlen hs).
  assert (Hl0 : l0 = zlen pre + 4 + zlen hs) by (unfold l0; zl).
  pose proof (place_indexes_spec built l0 (foldl add_size ∅ built) Hnd) as Hp.
  destruct (place_indexes built.*1 l0 (foldl add_size ∅ built)) as [l' sizes']. destruct Hp as (Hl' & _ & Hpl).
  { intros [n i] Hx. by apply (add_sizes_size built ∅ n Hnd). }
  eexists. split; [reflexivity|]. cbn [h_l h_searches h_sizes h_indexed]. split_and!; [lia|done|done|].
  intros name idx (b1 & b2 & Hb)%list_elem_of_split. destruct (Hpl b1 (name, idx) b2 Hb) as [Ho Hs]. cbn [fst snd] in Ho, Hs.
  assert (Hj : mjoin built.*2 = mjoin b1.*2 ++ idx ++ mjoin b2.*2) by (rewrite Hb, fmap_app, fmap_cons, join_app, join_cons; done).
  unfold load_index. rewrite Hs, Ho.
  rewrite (append_at data (pre ++ numeric_to_chars U32 (zlen hs) ++ hs ++ mjoin b1.*2) idx (mjoin b2.*2 ++ post)); [done| | |done].
  - rewrite Hd, Hj, <- !app_assoc. done.
  - rewrite Hj, !length_app in Hls. rewrite wrap_id by range_lia. zl.
Qed.
End headers.

(** ** The records of a plain database *)

(** [std::multimap] keeps its entries sorted. *)
Definition mm_le (a b : Z * b_base.t) : Prop := a.1 <= b.1.

Lemma mm_insert_perm k v m : mm_insert k v m ≡ₚ (k, v) :: m.
Proof.
  induction m as [|[k' v'] m IH]; [done|]. cbn [mm_insert]. destruct (k' <=? k); [|done].
  rewrite IH. apply Permutation_swap.
Qed.

Lemma mm_insert_sorted k v m : StronglySorted mm_le m -> StronglySorted mm_le (mm_insert k v m).
Proof.
  induction 1 as [|[k' v'] m Hs IH Hf]; cbn [mm_insert]; [repeat constructor|].
  destruct (Z.leb_spec k' k).
  - constructor; [done|]. rewrite mm_insert_perm. constructor; [exact H|done].
  - constructor; [by constructor|]. constructor; [unfold mm_le; cbn; lia|].
    eapply Forall_impl; [exact Hf|]. unfold mm_le. cbn. lia.
Qed.

Lemma length_omap_bound {A B} (f : A -> option B) l : (length (omap f l) <= length l)%nat.
Proof. induction l as [|x l IH]; cbn; [done|]. destruct (f x); cbn; lia. Qed.

(** ** Places of the records

    Every record is written after a comma; its entry starts at the comma. *)

Definition entry_text (it : json) : bytes := lit "," ++ toString it.
Definition body_text (items : list json) : bytes := mjoin (entry_text <$> items).

(** The records with the offsets of their entries, the first at [o]. *)
Fixpoint located (o : Z) (items : list json) : list (json * Z) :=
  match items with
  | [] => []
  | it :: l => (it, o) :: located (o + zlen (entry_text it)) l
  end.

Lemma located_split o0 items it o :
  (it, o) ∈ located o0 items -> exists a c, items = a ++ it :: c /\ o = o0 + zlen (body_text a).
Proof.
  revert o0. induction items as [|x items IH]; intros o0; cbn [located]; [set_solver|].
  intros [[= -> ->]|Hin]%elem_of_cons.
  - exists [], items. unfold body_text. cbn. split; [done|lia].
  - destruct (IH _ Hin) as (a & c & -> & ->). exists (x :: a), c. split; [done|].
    unfold body_text. rewrite join_fmap_cons, length_app. lia.
Qed.

Lemma located_nodup o0 items : NoDup (located o0 items).*2.
Proof.
  revert o0. induction items as [|x items IH]; intros o0; cbn [located]; rewrite ?fmap_cons; [constructor|].
  constructor; [|apply IH]. cbn [snd]. intros ([it o] & Ho & Hin)%list_elem_of_fmap. cbn [snd] in Ho. subst o.
  apply located_split in Hin as (a & c & _ & E). unfold entry_text in E. rewrite length_app in E. cbn in E. lia.
Qed.

Lemma located_items o0 items : (located o0 items).*1 = items.
Proof. revert o0. induction items as [|x items IH]; intros o0; cbn; [done|]. f_equal. apply IH. Qed.

Lemma located_unique o0 items it it' o : (it, o) ∈ located o0 items -> (it', o) ∈ located o0 items -> it = it'.
Proof.
  intros H1 H2. pose proof (located_nodup o0 items) as Hnd.
  apply list_elem_of_lookup in H1 as [i Hi]. apply list_elem_of_lookup in H2 as [j Hj].
  assert (i = j) as ->; [|congruence].
  eapply NoDup_lookup; [exact Hnd| |]; rewrite list_lookup_fmap; [rewrite Hi|rewrite Hj]; done.
Qed.

Section plain.
Context `{JEnv} (s : settings).
Context (Hplain : compress_particularly_data s = 0).
Context (Hnames : forall k, is_Some (indexed_fields s !! k) -> x00 ∉ k).

(** The key of a record in the index of a field. *)
Definition index_key (tp : b_base.type) (k : bytes) (it : json) : option Z :=
  '(t, n) ← try_make_index_parameter hash mktime it k 0 tp; if bool_decide (t = b_base.none) then None else Some n.

Definition index_of (b : build) (k : bytes) : multimap := default [] (b_struct b !! k).

(** What one record adds to the index of [k]. *)
Definition add_key (k : bytes) (it : json) (o : Z) (m : multimap) : multimap :=
  match indexed_fields s !! k with
  | Some tp => match index_key tp k it with
               | Some n => mm_insert n (b_base.mk tp o (wrap U32 (zlen (toString it))) false) m
               | None => m
               end
  | None => m
  end.

(** The parts of the loop state that the members of a record do not change. *)
Definition same_text (b b' : build) : Prop :=
  b_json b' = b_json b /\ b_body b' = b_body b /\ b_offset b' = b_offset b /\ b_block b' = b_block b /\
  b_rebuild b' = b_rebuild b /\ b_blocks b' = b_blocks b.

Lemma try_object l k i tp : is_Some (try_make_index_parameter hash mktime (objectValue l) k i tp).
Proof. by eexists. Qed.

Lemma index_member_spec l b name :
  b_json b = toString (objectValue l) ->
  exists b', index_member s (objectValue l) b name = Some b' /\ same_text b b' /\
    forall k, index_of b' k = if bool_decide (k = name) then add_key k (objectValue l) (b_offset b) (index_of b k) else index_of b k.
Proof.
  intros Hj. unfold index_member, add_key, index_key.
  destruct (indexed_fields s !! name) as [tp|] eqn:E.
  2:{ exists b. split; [done|]. split; [done|]. intros k.
      destruct (bool_decide_reflect (k = name)) as [->|]; [by rewrite E|done]. }
  destruct (try_object l name 0 tp) as [[t n] Ht]. rewrite Ht. cbn [mbind option_bind].
  rewrite Hplain. cbn [Z.eqb]. destruct (bool_decide (t = b_base.none)) eqn:Et.
  - exists b. split; [done|]. split; [done|]. intros k.
    destruct (bool_decide_reflect (k = name)) as [->|]; [rewrite E, Ht; cbn; by rewrite Et|done].
  - eexists. split; [reflexivity|]. split; [done|]. intros k. unfold index_of. cbn [b_struct].
    destruct (bool_decide_reflect (k = name)) as [->|].
    + rewrite lookup_insert_eq, E, Ht. cbn. by rewrite Et, Hj.
    + by rewrite lookup_insert_ne.
Qed.

Lemma index_members_spec l names : forall b,
  NoDup names -> b_json b = toString (objectValue l) ->
  exists b', index_members s (objectValue l) names b = Some b' /\ same_text b b' /\
    forall k, index_of b' k = if bool_decide (k ∈ names) then add_key k (objectValue l) (b_offset b) (index_of b k) else index_of b k.
Proof.
  induction names as [|n names IH]; intros b Hnd Hj; cbn [index_members].
  { exists b. split; [done|]. split; [done|]. intros k. by rewrite bool_decide_false by set_solver. }
  apply NoDup_cons in Hnd as [Hn Hnd]. destruct (index_member_spec l b n Hj) as (b1 & -> & (T1 & T2 & T3 & T4 & T5 & T6) & H1).
  cbn [mbind option_bind]. destruct (IH b1 Hnd ltac:(congruence)) as (b2 & -> & (U1 & U2 & U3 & U4 & U5 & U6) & H2).
  exists b2. split; [done|]. split; [repeat split; congruence|]. intros k. rewrite H2, H1, T3.
  destruct (decide (k = n)) as [->|Hk].
  - rewrite (bool_decide_false (n ∈ names)), !bool_decide_true by set_solver. done.
  - rewrite (bool_decide_false (k = n)) by done. by rewrite (bool_decide_ext (k ∈ n :: names) (k ∈ names)) by set_solver.
Qed.

(** A field that is not a member has no key. *)
Lemma add_key_absent l k o m : k ∉ l.*1 -> add_key k (objectValue l) o m = m.
Proof.
  intros Hk. unfold add_key. destruct (indexed_fields s !! k) as [tp|] eqn:E; [|done].
  assert (Hm : member k l = None).
  { clear -Hk. induction l as [|[n v] l IH]; [done|]. cbn in *. rewrite bool_decide_false by set_solver. apply IH. set_solver. }
  unfold index_key, try_make_index_parameter. rewrite c_str_id by (apply Hnames; by rewrite E). cbn. by rewrite Hm.
Qed.

(** The records a database holds: objects with different member names. *)
Definition record (it : json) : Prop := exists l, it = objectValue l /\ NoDup l.*1.

Lemma add_record_spec b it :
  record it ->
  exists b', add_record s b it = Some b' /\ b_body b' = b_body b ++ entry_text it /\
    b_offset b' = wrap U32 (wrap U32 (b_offset b + 1) + zlen (toString it)) /\ b_blocks b' = b_blocks b /\
    forall k, index_of b' k = add_key k it (b_offset b) (index_of b k).
Proof.
  intros (l & -> & Hnd). unfold add_record. rewrite Hplain. cbn [Z.eqb getMemberNames mbind option_bind app].
  set (b0 := Build _ _ _ _ _ _ _).
  destruct (index_members_spec l l.*1 b0 Hnd eq_refl) as (b1 & -> & (T1 & T2 & T3 & T4 & T5 & T6) & Hb).
  cbn [mbind option_bind]. eexists. split; [reflexivity|]. cbn [b_body b_offset b_blocks]. rewrite T2, T3, T6.
  cbn [b0 b_body b_offset b_blocks]. split_and!; [done|done|done|]. intros k.
  unfold index_of in *. cbn [b_struct]. rewrite Hb. case_bool_decide; [done|]. by rewrite add_key_absent.
Qed.

Definition index_from (k : bytes) (locs : list (json * Z)) (m : multimap) : multimap :=
  foldl (fun m x => add_key k x.1 x.2 m) m locs.

Lemma add_records_spec items : forall b,
  Forall record items -> 0 <= b_offset b -> b_offset b + zlen (body_text items) < 2 ^ 32 ->
  exists b', add_records s items b = Some b' /\ b_body b' = b_body b ++ body_text items /\ b_blocks b' = b_blocks b /\
    forall k, index_of b' k = index_from k (located (b_offset b) items) (index_of b k).
Proof.
  induction items as [|it items IH]; intros b Hr Ho Hlen; cbn [add_records].
  { exists b. unfold body_text. cbn. by rewrite app_nil_r. }
  inversion_clear Hr as [|? ? Hit Hits]. destruct (add_record_spec b it Hit) as (b1 & -> & T1 & T2 & T3 & T4).
  cbn [mbind option_bind]. unfold body_text in Hlen. rewrite join_fmap_cons, length_app in Hlen.
  fold (body_text items) in Hlen. assert (He : zlen (entry_text it) = 1 + zlen (toString it)) by (unfold entry_text; rewrite length_app; cbn; lia).
  rewrite (wrap_id U32 (b_offset b + 1)) in T2 by range_lia. rewrite wrap_id in T2 by range_lia.
  replace (b_offset b + 1 + zlen (toString it)) with (b_offset b + zlen (entry_text it)) in T2 by lia.
  destruct (IH b1 Hits ltac:(lia) ltac:(lia)) as (b2 & -> & U1 & U2 & U3).
  exists b2. split; [done|]. split; [|split; [congruence|]].
  - rewrite U1, T1. unfold body_text. by rewrite join_fmap_cons, app_assoc.
  - intros k. rewrite U3, T2, T4. done.
Qed.

(** ** The index of a field *)

Definition ie (e : Z * b_base.t) : entry := Entry e.1 (b_base.offset e.2) (b_base.size e.2).

Lemma index_bytes_enc m : index_bytes m = enc_index (ie <$> m).
Proof. unfold index_bytes, enc_index. by rewrite <- list_fmap_compose. Qed.

Definition key_entry (tp : b_base.type) (k : bytes) (x : json * Z) : option (Z * b_base.t) :=
  n ← index_key tp k x.1; Some (n, b_base.mk tp x.2 (wrap U32 (zlen (toString x.1))) false).

Lemma index_from_spec tp k locs : forall m,
  indexed_fields s !! k = Some tp -> StronglySorted mm_le m ->
  index_from k locs m ≡ₚ omap (key_entry tp k) locs ++ m /\ StronglySorted mm_le (index_from k locs m).
Proof.
  induction locs as [|[it o] locs IH]; intros m Hk Hs; [done|]. unfold index_from. cbn [foldl omap list_omap].
  fold (index_from k locs (add_key k (it, o).1 (it, o).2 m)).
  assert (Ha : add_key k it o m ≡ₚ option_list (key_entry tp k (it, o)) ++ m /\ StronglySorted mm_le (add_key k it o m)).
  { unfold add_key, key_entry. rewrite Hk. cbn [fst snd]. destruct (index_key tp k it); cbn; [|done].
    split; [apply mm_insert_perm|by apply mm_insert_sorted]. }
  destruct Ha as [Hp Hsort]. destruct (IH (add_key k it o m) Hk Hsort) as [IH1 IH2]. cbn [fst snd]. split; [|done].
  rewrite IH1, Hp. destruct (key_entry tp k (it, o)); cbn [option_list app]; [|done]. symmetry. apply Permutation_middle.
Qed.

Context (items : list json) (Hlen : zlen (body_text items) < 2 ^ 32).

Definition locs := located 0 items.

Lemma loc_bounds it o : (it, o) ∈ locs -> in_range U32 o /\ in_range U32 (zlen (toString it)).
Proof.
  intros (a & c & E & ->)%located_split. rewrite E in Hlen. unfold body_text in *.
  rewrite fmap_app, fmap_cons, join_app, join_cons, !length_app in Hlen. unfold entry_text at 2 in Hlen. rewrite length_app in Hlen.
  range_lia.
Qed.

Lemma length_locs : (length locs <= length (body_text items))%nat.
Proof.
  unfold locs. rewrite <- (length_fmap fst), located_items. unfold body_text. clear.
  induction items as [|it l IH]; [done|]. rewrite join_fmap_cons, length_app. unfold entry_text at 1. rewrite length_app. cbn. lia.
Qed.

Lemma elem_key_entry tp k e : e ∈ omap (key_entry tp k) locs <->
  exists it o n, (it, o) ∈ locs /\ index_key tp k it = Some n /\ e = (n, b_base.mk tp o (wrap U32 (zlen (toString it))) false).
Proof.
  rewrite list_elem_of_omap. unfold key_entry. split.
  - intros ([it o] & Hin & He). cbn [fst snd] in He. destruct (index_key tp k it) as [n|] eqn:E; cbn in He; [|done].
    injection He as <-. by exists it, o, n.
  - intros (it & o & n & Hin & E & ->). exists (it, o). split; [done|]. cbn [fst snd]. by rewrite E.
Qed.

Lemma index_from_ok tp k :
  indexed_fields s !! k = Some tp ->
  (forall it n, it ∈ items -> index_key tp k it = Some n -> in_range I64 n) ->
  index_ok (ie <$> index_from k locs []).
Proof.
  intros Hk Hr. destruct (index_from_spec tp k locs [] Hk) as [Hp Hs]; [constructor|]. rewrite app_nil_r in Hp.
  split_and!.
  - apply Forall_fmap, Forall_forall. intros e He. rewrite Hp in He.
    apply elem_key_entry in He as (it & o & n & Hin & Hn & ->). destruct (loc_bounds it o Hin) as [? ?].
    unfold entry_wf, ie, compose. cbn. rewrite wrap_id by done. split; [|done]. eapply Hr; [|done].
    rewrite <- (located_items 0 items). apply list_elem_of_fmap. by exists (it, o).
  - clear -Hs. induction Hs as [|x l Hs IH Hf]; cbn; constructor; [done|]. apply Forall_fmap. eapply Forall_impl; [done|].
    intros y Hy. exact Hy.
  - rewrite length_fmap, Hp. pose proof length_locs. pose proof (length_omap_bound (key_entry tp k) locs). lia.
Qed.

(** A search for integers. *)
Definition int_search (srch : search.t) (ns : list Z) : Prop :=
  search.op srch = search.op_compare /\ search.tp srch = b_base.numeric /\
  search.i srch = (fun n => search.mk_val (to_string n) []) <$> ns.

(** The locations that one index lets through. *)
Lemma index_pass tp k srch ns readed :
  indexed_fields s !! k = Some tp ->
  (forall it n, it ∈ items -> index_key tp k it = Some n -> in_range I64 n) ->
  int_search srch ns -> Forall (in_range I64) ns ->
  forall o sz, fetchIndexedData (index_bytes (index_from k locs [])) readed srch !! o = Some sz <->
    exists it n, (it, o) ∈ locs /\ sz = zlen (toString it) /\ index_key tp k it = Some n /\ n ∈ ns /\ allowed readed o.
Proof.
  intros Hk Hr (Hop & _ & Hi) Hns o sz.
  destruct (index_from_spec tp k locs [] Hk) as [Hp _]; [constructor|]. rewrite app_nil_r in Hp.
  assert (Hsrch : forall n, n ∈ ns -> searched (search.mk_val (to_string n) []) = n).
  { intros n Hn. unfold searched. cbn [search.indexed]. rewrite stoi_to_string; [done|done|]. rewrite Forall_forall in Hns. by apply Hns. }
  assert (Hmem : forall e, e ∈ ie <$> index_from k locs [] <->
    exists it o n, (it, o) ∈ locs /\ index_key tp k it = Some n /\ e = Entry n o (zlen (toString it))).
  { intros e. rewrite list_elem_of_fmap. split.
    - intros (y & -> & Hy). rewrite Hp in Hy. apply elem_key_entry in Hy as (it & o' & n & Hin & Hn & ->).
      exists it, o', n. split; [done|]. split; [done|]. unfold ie. cbn. destruct (loc_bounds it o' Hin). by rewrite wrap_id.
    - intros (it & o' & n & Hin & Hn & ->). exists (n, b_base.mk tp o' (wrap U32 (zlen (toString it))) false). split.
      + unfold ie. cbn. destruct (loc_bounds it o' Hin). by rewrite wrap_id.
      + rewrite Hp. apply elem_key_entry. by exists it, o', n. }
  rewrite index_bytes_enc.
  destruct (compare_collects (ie <$> index_from k locs []) readed srch (index_from_ok tp k Hk Hr) Hop) as [C1 C2].
  split.
  - intros Ho. destruct (C1 o sz Ho) as (e & He & (v & Hv & Hkey) & Ha & Ho' & Hsz).
    apply Hmem in He as (it & o' & n & Hin & Hn & ->). cbn [e_key e_offset e_size] in *. subst o' sz. exists it, n. split_and!; try done.
    rewrite Hi in Hv. apply list_elem_of_fmap in Hv as (m & -> & Hm). rewrite Hsrch in Hkey by done. by subst.
  - intros (it & n & Hin & -> & Hn & Hin' & Ha).
    assert (He : Entry n o (zlen (toString it)) ∈ ie <$> index_from k locs []) by (apply Hmem; by exists it, o, n).
    destruct (C2 _ He) as [sz' Hsz']; [|done|].
    { exists (search.mk_val (to_string n) []). split; [|by rewrite Hsrch]. rewrite Hi. apply list_elem_of_fmap. by exists n. }
    cbn [e_offset] in Hsz'. rewrite Hsz'. f_equal. destruct (C1 o sz' Hsz') as (e & He2 & _ & _ & Ho' & <-).
    apply Hmem in He2 as (it' & o' & n' & Hin2 & _ & ->). cbn [e_key e_offset e_size] in *. subst o'. by rewrite (located_unique 0 items it it' o).
Qed.
End plain.

(** ** Queries for integers *)

(** The integer a record has in a field. *)
Definition int_field (k : bytes) (it : json) : option Z :=
  match it with
  | objectValue l => match member k l with Some (intValue n) => Some n | _ => None end
  | _ => None
  end.

(** A field holds one of the values. *)
Definition field_in (k : bytes) (ns : list Z) (it : json) : bool :=
  match int_field k it with Some n => bool_decide (n ∈ ns) | None => false end.

Definition satisfies (q : list (bytes * list Z)) (it : json) : bool := forallb (fun x => field_in x.1 x.2 it) q.

Lemma satisfies_spec q it : satisfies q it = true <-> forall k ns, (k, ns) ∈ q -> field_in k ns it = true.
Proof.
  unfold satisfies. rewrite forallb_forall. split.
  - intros Hf k ns Hin. apply (Hf (k, ns)). by apply list_elem_of_In.
  - intros Hf [k ns] Hin. apply Hf. by apply list_elem_of_In.
Qed.

(** A field is absent or holds a 64-bit integer. *)
Definition int_or_absent (k : bytes) (it : json) : Prop :=
  exists l, it = objectValue l /\ forall v, member k l = Some v -> exists n, v = intValue n /\ in_range I64 n.

Lemma index_key_int `{JEnv} tp k it : x00 ∉ k -> int_or_absent k it -> index_key tp k it = int_field k it.
Proof.
  intros Hk (l & -> & Hv). unfold index_key, int_field. destruct (member k l) as [v|] eqn:E.
  - destruct (Hv v eq_refl) as (n & -> & _). rewrite (try_int hash mktime _ _ _ _ n); [done|]. by apply member_find.
  - unfold try_make_index_parameter. rewrite c_str_id by done. cbn. by rewrite E.
Qed.

(** Pieces between commas, and the text of an array of records. *)
Lemma commas_cons x l : commas (x :: l) = x ++ mjoin ((fun y => lit "," ++ y) <$> l).
Proof.
  revert x. induction l as [|y l IH]; intros x; [cbn; by rewrite app_nil_r|].
  change (commas (x :: y :: l)) with (x ++ lit "," ++ commas (y :: l)). by rewrite IH.
Qed.

Lemma toString_array l : toString (arrayValue l) = brackets (commas (toString <$> l)).
Proof.
  unfold brackets. cbn [toString]. do 2 f_equal.
  set (go := fix items (l : list json) (first : bool) : bytes := _).
  assert (Hgo : forall l, go l false = mjoin ((fun y => lit "," ++ y) <$> (toString <$> l))).
  { clear l. induction l as [|y l IH]; [done|]. rewrite !fmap_cons, join_cons, <- IH. cbn. done. }
  destruct l as [|x l]; [done|]. rewrite fmap_cons, commas_cons, <- Hgo. done.
Qed.

Section query.
Context `{E : JEnv, L : !JEnvLaws E} (s : settings).
Context (items : list json) (Hlen : zlen (body_text items) < 2 ^ 32).
Context (q : list (bytes * list Z)) (Hq : NoDup q.*1).
Context (Hqn : Forall (fun x => x.1 <> [] /\ x00 ∉ x.1 /\ Forall (in_range I64) x.2) q).
Context (Hint : forall k it, k ∈ q.*1 -> it ∈ items -> int_or_absent k it).
Context (m : m_item) (ci : bool) (sizes : gmap bytes b_base.t).
Context (Hload : forall k, is_Some (indexed_fields s !! k) ->
  load_index m ci sizes k = Some (index_bytes (index_from s k (locs items) []))).

Lemma q_name k ns : (k, ns) ∈ q -> k <> [] /\ x00 ∉ k /\ Forall (in_range I64) ns.
Proof. rewrite Forall_forall in Hqn. intros Hin. apply (Hqn (k, ns) Hin). Qed.

(** The searches that are left of the query, indexed where the field is. *)
Definition searches_ok (ss : gmap bytes search.t) : Prop :=
  forall k srch, ss !! k = Some srch -> exists ns, (k, ns) ∈ q /\ int_search srch ns /\
    (search.is_indexed srch = true <-> is_Some (indexed_fields s !! k)).

(** The locations of the records that satisfy the conditions that are done. *)
Definition good (ss : gmap bytes search.t) (o : gmap Z Z) : Prop :=
  forall off sz, o !! off = Some sz <-> exists it, (it, off) ∈ locs items /\ sz = zlen (toString it) /\
    forall k ns, (k, ns) ∈ q -> ss !! k = None -> field_in k ns it = true.

Lemma locs_items it o : (it, o) ∈ locs items -> it ∈ items.
Proof. intros Hin. rewrite <- (located_items 0 items). apply list_elem_of_fmap. by exists (it, o). Qed.

Lemma int_field_range k ns it n : (k, ns) ∈ q -> it ∈ items -> int_field k it = Some n -> in_range I64 n.
Proof.
  intros Hk Hit. destruct (Hint k it) as (l & -> & Hv); [apply list_elem_of_fmap; by exists (k, ns)|done|].
  unfold int_field. destruct (member k l) as [v|] eqn:Em; [|done]. destruct (Hv v eq_refl) as (n' & -> & Hn). by intros [= ->].
Qed.

Lemma index_key_q tp k ns it : (k, ns) ∈ q -> it ∈ items -> index_key tp k it = int_field k it.
Proof.
  intros Hk Hit. apply index_key_int; [by eapply q_name|]. apply Hint; [|done]. apply list_elem_of_fmap. by exists (k, ns).
Qed.

Lemma q_unique k ns ns' : (k, ns) ∈ q -> (k, ns') ∈ q -> ns = ns'.
Proof.
  intros [i Hi]%list_elem_of_lookup [j Hj]%list_elem_of_lookup.
  assert (i = j) as ->; [|congruence].
  eapply NoDup_lookup; [exact Hq| |]; rewrite list_lookup_fmap; [rewrite Hi|rewrite Hj]; done.
Qed.

(** The locations an index may return are those of the records that satisfy what is done. *)
Lemma allowed_good ss offsets it off :
  match offsets with Some o => good ss o | None => forall k ns, (k, ns) ∈ q -> is_Some (ss !! k) end ->
  (it, off) ∈ locs items ->
  allowed offsets off <-> forall k ns, (k, ns) ∈ q -> ss !! k = None -> field_in k ns it = true.
Proof.
  intros Hoff Hit. destruct offsets as [o|]; cbn [allowed].
  - split.
    + intros [sz Hsz]. apply Hoff in Hsz as (it' & Hit' & _ & Hc). by rewrite (located_unique 0 items it it' off).
    + intros Hc. exists (zlen (toString it)). apply Hoff. by exists it.
  - split; [|done]. intros _ k ns Hk Hn. apply Hoff in Hk. rewrite Hn in Hk. by destruct Hk.
Qed.

(** One more index: the locations let through, with the search removed. *)
Lemma good_pass ss k srch ns offsets :
  (k, ns) ∈ q -> int_search srch ns -> is_Some (indexed_fields s !! k) -> ss !! k = Some srch ->
  match offsets with Some o => good ss o | None => forall k ns, (k, ns) ∈ q -> is_Some (ss !! k) end ->
  good (delete k ss) (fetchIndexedData (index_bytes (index_from s k (locs items) [])) offsets srch).
Proof.
  intros Hk Hs [tp Htp] Hss Hoff off sz.
  rewrite (index_pass s items Hlen tp k srch ns offsets Htp); [|intros it n Hit; rewrite (index_key_q tp k ns) by done;
    by eapply int_field_range|done|by apply (q_name k ns)].
  split.
  - intros (it & n & Hit & -> & Hn & Hin & Ha). exists it. split; [done|]. split; [done|]. intros k' ns' Hk' Hd.
    pose proof (locs_items it off Hit). rewrite (index_key_q tp k ns) in Hn by done.
    destruct (decide (k' = k)) as [->|Hne].
    + rewrite (q_unique k ns' ns) by done. unfold field_in. rewrite Hn. by apply bool_decide_eq_true.
    + rewrite lookup_delete_ne in Hd by done. by eapply (allowed_good ss offsets it off).
  - intros (it & Hit & -> & Hc). pose proof (locs_items it off Hit).
    pose proof (Hc k ns Hk (lookup_delete_eq _ _)) as Hf. unfold field_in in Hf.
    destruct (int_field k it) as [n|] eqn:En; [|done]. apply bool_decide_eq_true in Hf.
    exists it, n. rewrite (index_key_q tp k ns) by done. split_and!; try done.
    apply (allowed_good ss offsets it off); [done..|]. intros k' ns' Hk' Hn. apply Hc; [done|].
    rewrite lookup_delete_ne; [done|]. intros <-. by rewrite Hss in Hn.
Qed.

(** The loop over the indexes ends with the searches that no index answers. *)
Lemma index_passes_spec fuel : forall ss passes offsets,
  (size ss < fuel)%nat -> searches_ok ss -> (forall k, k ∈ passes -> ss !! k = None) ->
  match offsets with
  | Some o => good ss o
  | None => (forall k ns, (k, ns) ∈ q -> is_Some (ss !! k)) /\ exists k srch, ss !! k = Some srch /\ search.is_indexed srch = true
  end ->
  exists ss' o, index_passes fuel m false ci sizes ss passes offsets = Some (ss', o) /\ good ss' o /\
    forall k srch, ss' !! k = Some srch -> ss !! k = Some srch /\ search.is_indexed srch = false.
Proof.
  induction fuel as [|fuel IH]; intros ss passes offsets Hf Hok Hp Hoff; [lia|]. cbn [index_passes].
  destruct (list_find _ (visit ss)) as [[i [name srch]]|] eqn:Ef.
  - apply list_find_Some in Ef as (Hi & [Hx Hnp] & _). cbn [fst snd] in Hx, Hnp.
    assert (Hs : ss !! name = Some srch).
    { apply elem_of_map_to_list. rewrite <- (visit_perm _ ss). by eapply list_elem_of_lookup_2. }
    destruct (Hok name srch Hs) as (ns & Hin & Hsrch & Hidx).
    destruct name as [|c name]; [by destruct (q_name _ _ Hin)|]. rewrite Hload by (by apply Hidx). cbn [mbind option_bind].
    destruct Hsrch as (Hop & Htp & Hi'). rewrite Htp. cbn [negb andb]. rewrite bool_decide_false by done. cbn [negb].
    destruct (IH (delete (c :: name) ss) ({[c :: name]} ∪ passes)
      (Some (fetchIndexedData (index_bytes (index_from s (c :: name) (locs items) [])) offsets srch))) as (ss' & o & E1 & E2 & E3).
    + rewrite map_size_delete, Hs. pose proof (map_size_ne_0_lookup_2 ss (c :: name) ltac:(by rewrite Hs)). lia.
    + intros k srch' Hk. apply Hok. by apply lookup_delete_Some in Hk as [_ ?].
    + intros k Hk. destruct (decide (k = c :: name)) as [->|]; [by rewrite lookup_delete_eq|].
      rewrite lookup_delete_ne by done. apply Hp. set_solver.
    + apply (good_pass ss (c :: name) srch ns offsets); [done|done|by apply Hidx|done|]. destruct offsets; [done|by destruct Hoff].
    + exists ss', o. split; [exact E1|]. split; [done|]. intros k srch' Hk. destruct (E3 k srch' Hk) as [Hd ?].
      apply lookup_delete_Some in Hd as [_ ?]. done.
  - apply list_find_None in Ef. rewrite Forall_forall in Ef.
    assert (Hno : forall k srch, ss !! k = Some srch -> search.is_indexed srch = false).
    { intros k srch Hk. destruct (search.is_indexed srch) eqn:Ei; [|done]. exfalso. apply (Ef (k, srch)).
      - rewrite visit_perm. by apply elem_of_map_to_list.
      - split; [done|]. intros Hkp. cbn in Hkp. apply Hp in Hkp. congruence. }
    destruct offsets as [o|].
    + exists ss, o. split; [done|]. split; [done|]. intros k srch Hk. split; [done|]. by eapply Hno.
    + destruct Hoff as [_ (k & srch & Hk & Hi)]. apply Hno in Hk. congruence.
Qed.

(** ** From locations to records *)

Context (data pre : bytes) (Hdata : data = pre ++ body_text items).

Lemma record_at_loc it o :
  (it, o) ∈ locs items -> record_at (m_read data) false (zlen pre) (o, zlen (toString it)) = Some (toString it).
Proof.
  intros (a & c & Ei & ->)%located_split. unfold record_at. cbn [fst snd].
  apply (append_at data (pre ++ body_text a ++ [x2c]) (toString it) (body_text c)); [|zl|done].
  rewrite Hdata, Ei. unfold body_text. rewrite fmap_app, fmap_cons, join_app, join_cons. unfold entry_text at 2.
  by rewrite <- !app_assoc.
Qed.

(** The conditions that are done, and those that are left. *)
Definition done_part (ss : gmap bytes search.t) : json -> bool := satisfies (filter (fun x => ss !! x.1 = None) q).
Definition rest_part (ss : gmap bytes search.t) : json -> bool := satisfies (filter (fun x => ss !! x.1 <> None) q).

Lemma filter_fst (P : json -> bool) (l : list (json * Z)) :
  (filter (fun y => P y.1 = true) l).*1 = filter (fun it => P it = true) l.*1.
Proof.
  induction l as [|[it o] l IH]; [done|]. rewrite fmap_cons, !filter_cons. cbn [fst].
  destruct (decide (P it = true)); [rewrite fmap_cons; cbn [fst]; by rewrite IH|exact IH].
Qed.

Lemma good_locations ss o :
  good ss o -> map_to_list o ≡ₚ (fun y => (y.2, zlen (toString y.1))) <$> filter (fun y => done_part ss y.1 = true) (locs items).
Proof.
  intros Hg. pose proof (located_nodup 0 items) as Hnd.
  assert (Hnd2 : NoDup (filter (fun y => done_part ss y.1 = true) (locs items)).*2).
  { eapply sublist_NoDup; [exact Hnd|]. apply fmap_sublist, sublist_filter. }
  apply NoDup_Permutation; [apply NoDup_map_to_list| |].
  { apply (NoDup_fmap_1 fst). rewrite <- list_fmap_compose. exact Hnd2. }
  intros [off sz]. rewrite elem_of_map_to_list, (Hg off sz), list_elem_of_fmap. unfold done_part. split.
  - intros (it & Hit & -> & Hc). exists (it, off). split; [done|]. rewrite list_elem_of_filter. split; [|done].
    cbn. apply satisfies_spec. intros k ns Hk. apply list_elem_of_filter in Hk as [? ?]. by apply Hc.
  - intros ([it off'] & [= -> ->] & [Hc Hin]%list_elem_of_filter). cbn in Hc. exists it. split; [done|]. split; [done|].
    intros k ns Hk Hn. eapply satisfies_spec; [exact Hc|]. by apply list_elem_of_filter.
Qed.

Lemma mapM_records (l : list (json * Z)) :
  Forall (fun y => y ∈ locs items) l ->
  mapM (record_at (m_read data) false (zlen pre)) ((fun y => (y.2, zlen (toString y.1))) <$> l) = Some (toString <$> l.*1).
Proof.
  induction 1 as [|[it o] l Hy Hl IH]; [done|]. rewrite !fmap_cons. cbn [mapM]. cbn [fst snd].
  rewrite record_at_loc by done. cbn [mbind option_bind]. by rewrite IH.
Qed.

Lemma records_good ss o :
  good ss o ->
  exists its, records_at (m_read data) false (zlen pre) (visit_offsets o) = Some (commas (toString <$> its)) /\
    its ≡ₚ filter (fun it => done_part ss it = true) items.
Proof.
  intros Hg. pose proof (good_locations ss o Hg) as Hp. rewrite <- (visit_offsets_perm o) in Hp.
  apply Permutation_map_inv in Hp as (l & El & Hl). exists l.*1. split.
  - unfold records_at. rewrite El. change (map ?f l) with (f <$> l). rewrite mapM_records; [done|].
    apply Forall_forall. intros y Hy. rewrite <- Hl in Hy. by apply list_elem_of_filter in Hy as [_ ?].
  - rewrite <- Hl. change (map ?f ?x) with (f <$> x). rewrite filter_fst. unfold locs. by rewrite located_items.
Qed.

(** ** The searches that are left *)

Lemma int_search_compares srch ns : int_search srch ns -> compares srch (intValue <$> ns).
Proof.
  intros (Hop & Htp & Hi). split_and!; [done|by rewrite Htp|]. unfold texts. rewrite Hi, <- !list_fmap_compose. done.
Qed.

Lemma match_one_int srch k ns it :
  (k, ns) ∈ q -> it ∈ items -> int_search srch ns ->
  match_one hash mktime it k srch = Some (field_in k ns it).
Proof.
  intros Hk Hit Hs. destruct (Hint k it) as (l & -> & Hv); [apply list_elem_of_fmap; by exists (k, ns)|done|].
  destruct (q_name k ns Hk) as (_ & Hnul & Hns). unfold field_in, int_field. destruct (member k l) as [v|] eqn:Em.
  - destruct (Hv v eq_refl) as (n & -> & Hn).
    destruct (match_one_compares hash mktime srch (intValue <$> ns) l k (intValue n)) as (b & -> & Hb);
      [by apply int_search_compares|by apply Forall_fmap; eapply Forall_impl; [exact Hns|constructor]|done|by do 2 constructor|].
    f_equal. apply eq_bool_prop_intro. rewrite !Is_true_true, bool_decide_eq_true, Hb, list_elem_of_fmap. naive_solver.
  - unfold match_one. cbn. by rewrite Em.
Qed.

Lemma matching_forallb it l :
  (forall x, x ∈ l -> is_Some (match_one hash mktime it x.1 x.2)) ->
  matching hash mktime it l = Some (forallb (fun x => default false (match_one hash mktime it x.1 x.2)) l).
Proof.
  induction l as [|[k srch] l IH]; intros Hl; [done|]. cbn [matching forallb fst snd].
  destruct (Hl (k, srch) ltac:(left)) as [b Hb]. cbn [fst snd] in Hb. rewrite Hb. cbn [mbind option_bind default id].
  destruct b; [|done]. rewrite IH; [done|]. intros x Hx. apply Hl. by right.
Qed.

Lemma matching_ints ss it :
  searches_ok ss -> it ∈ items -> matching hash mktime it (visit ss) = Some (rest_part ss it).
Proof.
  intros Hss Hit.
  assert (Hv : forall k srch, (k, srch) ∈ visit ss <-> ss !! k = Some srch)
    by (intros; rewrite (visit_perm _ ss); apply elem_of_map_to_list).
  assert (Hm : forall k srch, ss !! k = Some srch ->
    exists ns, (k, ns) ∈ q /\ match_one hash mktime it k srch = Some (field_in k ns it)).
  { intros k srch Hin. destruct (Hss k srch Hin) as (ns & Hk & Hs & _). exists ns. split; [done|]. by apply match_one_int. }
  rewrite matching_forallb by (intros [k srch] Hin%Hv; cbn [fst snd]; destruct (Hm k srch Hin) as (ns & _ & ->); done).
  f_equal. apply eq_bool_prop_intro. unfold rest_part. rewrite !Is_true_true, satisfies_spec, forallb_forall. split.
  - intros Ha k ns [Hn Hk]%list_elem_of_filter. cbn in Hn. destruct (ss !! k) as [srch|] eqn:Es; [|done].
    destruct (Hm k srch Es) as (ns' & Hk' & Hb). specialize (Ha (k, srch)). cbn [fst snd] in Ha. rewrite Hb in Ha.
    rewrite (q_unique k ns ns') by done. apply Ha. by apply list_elem_of_In, Hv.
  - intros Ha [k srch] Hin%list_elem_of_In%Hv. destruct (Hm k srch Hin) as (ns & Hk & Hb). cbn [fst snd]. rewrite Hb. cbn.
    apply Ha, list_elem_of_filter. cbn. by rewrite Hin.
Qed.

Lemma matching_records_ints ss its :
  searches_ok ss -> Forall (fun it => it ∈ items) its ->
  matching_records its ss = Some (toString <$> filter (fun it => rest_part ss it = true) its).
Proof.
  intros Hss. induction 1 as [|it its Hit Hits IH]; [done|]. cbn [matching_records]. rewrite matching_ints by done.
  cbn [mbind option_bind]. rewrite IH. cbn [mbind option_bind]. rewrite filter_cons.
  destruct (rest_part ss it); [by rewrite decide_True|by rewrite decide_False].
Qed.

Lemma rest_done ss it : rest_part ss it = true /\ done_part ss it = true <-> satisfies q it = true.
Proof.
  unfold rest_part, done_part. rewrite !satisfies_spec. split.
  - intros [H1 H2] k ns Hk. destruct (decide (ss !! k = None)).
    + apply H2. by apply list_elem_of_filter.
    + apply H1. by apply list_elem_of_filter.
  - intros Ha. split; intros k ns [_ Hk]%list_elem_of_filter; by apply Ha.
Qed.

(** The reader gives back the arrays of records that it is handed. *)
Context (Hparse : forall its, its ⊆+ items -> parse (toString (arrayValue its)) = Some (arrayValue its)).

Lemma filter_records_spec ss its :
  searches_ok ss -> its ≡ₚ filter (fun it => done_part ss it = true) items ->
  exists its', filter_records (commas (toString <$> its)) ss = Some (brackets (commas (toString <$> its'))) /\
    its' ≡ₚ filter (fun it => satisfies q it = true) items.
Proof.
  intros Hss Hp. assert (Hin : Forall (fun it => it ∈ items) its).
  { apply Forall_forall. intros it Hit. rewrite Hp in Hit. by apply list_elem_of_filter in Hit as [_ ?]. }
  exists (filter (fun it => rest_part ss it = true) its). split.
  - unfold filter_records, parseJsonData. rewrite <- toString_array.
    rewrite Hparse by (rewrite Hp; apply sublist_submseteq, sublist_filter).
    destruct (toString (arrayValue its)) eqn:Et; [by rewrite toString_array in Et|]. cbn [elements_of].
    by rewrite matching_records_ints.
  - rewrite Hp, list_filter_filter. erewrite list_filter_iff; [done|]. intros it. cbn. apply rest_done.
Qed.

Lemma all_records_plain sizes' :
  all_records (m_read data) (m_read data) false ci sizes' (zlen pre) = Some (commas (toString <$> items)).
Proof.
  unfold all_records. cbn [currentFileSize m_read]. rewrite Hdata, length_app.
  replace (Z.of_nat (length pre + length (body_text items)) - zlen pre) with (zlen (body_text items)) by lia.
  rewrite wrap_id by range_lia. destruct items as [|it l].
  - cbn. unfold append_string. cbn. by rewrite (proj2 (Z.ltb_ge _ _)) by (rewrite length_app; cbn; lia).
  - unfold body_text. rewrite join_fmap_cons. unfold entry_text at 1 3 5. rewrite (proj2 (Z.ltb_lt _ _)) by (rewrite length_app; cbn; lia).
    rewrite fmap_cons, commas_cons.
    apply (append_at _ (pre ++ [x2c]) _ []); [|zl|].
    + rewrite app_nil_r, <- !app_assoc. f_equal. cbn [lit app]. do 2 f_equal. by rewrite <- list_fmap_compose.
    + rewrite <- list_fmap_compose. rewrite !length_app. change (mjoin _) with (mjoin (entry_text <$> l)) at 2. cbn [length lit]. cbn. lia.
Qed.

Lemma searches_ok_sub ss ss' :
  searches_ok ss -> (forall k srch, ss' !! k = Some srch -> ss !! k = Some srch) -> searches_ok ss'.
Proof. intros Hss Hsub k srch Hk. by apply Hss, Hsub. Qed.

Lemma done_part_full ss it : (forall k ns, (k, ns) ∈ q -> is_Some (ss !! k)) -> done_part ss it = true.
Proof.
  intros Hfull. apply satisfies_spec. intros k ns [Hn Hk]%list_elem_of_filter. cbn in Hn.
  destruct (Hfull k ns Hk) as [? Hs]. congruence.
Qed.

Lemma filter_true (P : json -> bool) (l : list json) : (forall it, P it = true) -> filter (fun it => P it = true) l = l.
Proof. intros HP. induction l as [|x l IH]; [done|]. rewrite filter_cons, decide_True by done. by rewrite IH. Qed.

Lemma select_spec t :
  m = m_read data -> h_sizes t = sizes -> searches_ok (h_searches t) ->
  (forall k ns, (k, ns) ∈ q -> is_Some (h_searches t !! k)) ->
  (h_indexed t = true <-> exists k srch, h_searches t !! k = Some srch /\ search.is_indexed srch = true) ->
  exists its, select m m false ci (zlen pre) t = Some (brackets (commas (toString <$> its))) /\
    its ≡ₚ filter (fun it => satisfies q it = true) items.
Proof.
  intros Hm Hsz Hss Hfull Hidx. unfold select. rewrite Hsz.
  destruct (bool_decide_reflect (h_searches t = ∅)) as [E0|Hne].
  { exists items. rewrite Hm, all_records_plain. split; [done|]. rewrite filter_true; [done|].
    intros it. apply satisfies_spec. intros k ns Hk. destruct (Hfull k ns Hk) as [? Hs]. by rewrite E0 in Hs. }
  destruct (h_indexed t) eqn:Ei.
  - destruct (index_passes_spec (S (size (h_searches t))) (h_searches t) ∅ None) as (ss' & o & -> & Hg & Hsub);
      [lia|done|set_solver|split; [done|by apply Hidx]|]. cbn [mbind option_bind].
    destruct (records_good ss' o Hg) as (its & Hr & Hp). rewrite Hm, Hr. cbn [mbind option_bind].
    assert (Hss' : searches_ok ss') by (eapply searches_ok_sub; [exact Hss|]; intros k srch Hk; by apply Hsub).
    destruct (bool_decide_reflect (ss' = ∅)) as [E1|_]; [|by apply filter_records_spec].
    exists its. split; [done|]. rewrite Hp. erewrite list_filter_iff; [done|]. intros it. cbn.
    rewrite <- (rest_done ss'). split; [|naive_solver]. intros Hd. split; [|done]. apply satisfies_spec.
    intros k ns [Hn _]%list_elem_of_filter. cbn in Hn. by rewrite E1 in Hn.
  - rewrite Hm, all_records_plain. cbn [mbind option_bind]. apply filter_records_spec; [done|].
    rewrite filter_true; [done|]. intros it. by apply done_part_full.
Qed.
End query.

(** ** The whole database *)

(** The header of a stored file: 37 bytes, the time to live and a space. *)
Definition db_header (hdr : bytes) : Prop :=
  exists a b, hdr = a ++ b ++ [x20] /\ length a = 37%nat /\ x20 ∉ b /\ (length b < 10)%nat.

Lemma skip_ttl_spec a b rest n :
  x20 ∉ b -> (length b < n)%nat -> skip_ttl n (a ++ b ++ x20 :: rest) (length a) = S (length a + length b).
Proof.
  revert a n. induction b as [|c b IH]; intros a [|n] Hb Hn; try (cbn in Hn; lia); cbn [skip_ttl app].
  - rewrite lookup_app_r, Nat.sub_diag by lia. cbn [lookup list_lookup]. rewrite bool_decide_true by done. cbn. lia.
  - rewrite lookup_app_r, Nat.sub_diag by lia. cbn [lookup list_lookup]. rewrite bool_decide_false by set_solver.
    specialize (IH (a ++ [c]) n ltac:(set_solver) ltac:(cbn in Hn; lia)). rewrite <- app_assoc in IH. cbn [app] in IH.
    rewrite length_app in IH. cbn in IH. rewrite Nat.add_1_r in IH. rewrite IH. cbn. lia.
Qed.

Lemma skip_ttl_header hdr rest : db_header hdr -> Z.of_nat (skip_ttl 10 (hdr ++ rest) 37) = zlen hdr.
Proof.
  intros (a & b & -> & Ha & Hb & Hn). rewrite <- !app_assoc, <- Ha. cbn [app]. rewrite skip_ttl_spec by done.
  rewrite !length_app. cbn. lia.
Qed.

(** Marking the searches of the indexed names. *)
Lemma mark_searches_lookup names : forall ss k,
  foldl mark_search ss names !! k = (fun srch => if bool_decide (k ∈ names) then set_indexed srch else srch) <$> ss !! k.
Proof.
  induction names as [|n names IH]; intros ss k; cbn [foldl].
  { rewrite bool_decide_false by set_solver. by destruct (ss !! k). }
  rewrite IH. unfold mark_search. destruct (ss !! n) as [sn|] eqn:En; destruct (decide (k = n)) as [->|Hk].
  - rewrite lookup_insert_eq, En. cbn. f_equal. rewrite (bool_decide_true (n ∈ n :: names)) by set_solver.
    by destruct (bool_decide _).
  - rewrite lookup_insert_ne by done. by rewrite (bool_decide_ext (k ∈ n :: names) (k ∈ names)) by set_solver.
  - by rewrite En.
  - by rewrite (bool_decide_ext (k ∈ n :: names) (k ∈ names)) by set_solver.
Qed.

(** Conditions on integers: equality with one, or one of several. *)
Definition int_values (c : cond) : option (list Z) :=
  match c with
  | c_eq (intValue n) => Some [n]
  | c_in vs => mapM (fun v => match v with intValue n => Some n | _ => None end) vs
  | _ => None
  end.

Definition int_srch (ns : list Z) : search.t :=
  search.mk search.op_compare b_base.numeric ((fun n => search.mk_val (to_string n) []) <$> ns) false (min_val I64) (max_val I64).

Section conds.
Context `{JEnv}.

Lemma foldl_push_ints ns : forall i,
  foldl (push_in hash mktime) (search.mk search.op_compare b_base.numeric i false (min_val I64) (max_val I64)) (intValue <$> ns) =
  search.mk search.op_compare b_base.numeric (i ++ ((fun n => search.mk_val (to_string n) []) <$> ns)) false (min_val I64) (max_val I64).
Proof.
  induction ns as [|n ns IH]; intros i; [by rewrite app_nil_r|]. rewrite !fmap_cons. cbn [foldl].
  change (push_in hash mktime ?x (intValue n)) with (push (search.mk_val (to_string n) []) x). unfold push. cbn.
  rewrite IH, <- app_assoc. done.
Qed.

Lemma int_cond_search c ns : int_values c = Some ns -> f_search_val hash mktime (query_of c) = Some (int_srch ns).
Proof.
  destruct c as [v|vs|lo hi]; cbn [int_values]; [|intros Hv|done].
  - destruct v; try done. intros [= <-]. reflexivity.
  - assert (vs = intValue <$> ns) as ->.
    { apply mapM_Some in Hv. clear -Hv. induction Hv as [|v n vs ns Hv _ IH]; [done|].
      rewrite fmap_cons. f_equal; [|done]. by destruct v; simplify_eq. }
    cbn [query_of]. unfold f_search_val. change (member (lit "$in") [(lit "$in", ?v)]) with (Some v). cbn iota.
    f_equal. apply (foldl_push_ints ns []).
Qed.

Lemma f_search_ints (q : list (bytes * cond)) (qs : list (bytes * list Z)) : forall m,
  Forall2 (fun x y => x.1 = y.1 /\ int_values x.2 = Some y.2) q qs -> NoDup qs.*1 -> (forall k, k ∈ qs.*1 -> m !! k = None) ->
  f_search_members hash mktime (prod_map id query_of <$> q) m = Some (list_to_map (prod_map id int_srch <$> qs) ∪ m).
Proof.
  intros m Hq. revert m. induction Hq as [|[k c] [k' ns] q qs [Hk Hc] Hq IH]; intros m Hnd Hm; cbn in *.
  { by rewrite (left_id_L ∅ _). }
  subst k'. apply NoDup_cons in Hnd as [Hk Hnd]. rewrite (int_cond_search c ns Hc). cbn.
  unfold add_search. rewrite (Hm k) by set_solver. rewrite IH; [|done|].
  - f_equal. rewrite <- insert_union_r, insert_union_l; [done|].
    apply not_elem_of_list_to_map_1. intros Hin. apply Hk. rewrite <- list_fmap_compose in Hin. exact Hin.
  - intros k' Hk'. rewrite lookup_insert_ne by set_solver. apply Hm. set_solver.
Qed.
End conds.

(** ** Writing and querying *)

(** Settings of the first format without compressed data: everything but the fields that are
    indexed and whether the indexes are compressed. *)
Definition plain_settings (s : settings) : Prop :=
  compress_particularly_data s = 0 /\ compress_data s = false /\ db_version s = 1 /\
  forall k, is_Some (indexed_fields s !! k) -> x00 ∉ k.

Section db.
Context `{E : JEnv, L : !JEnvLaws E}.

Lemma version_plain s : plain_settings s ->
  version_bits s = (if compress_index s then 1025 else 1).
Proof. intros (H1 & H2 & H3 & _). unfold version_bits. rewrite H1, H2, H3. by destruct (compress_index s). Qed.

Lemma flags_plain s : plain_settings s ->
  Z.land (version_bits s) 255 = 1 /\ isBitSetted U32 (version_bits s) 8 = false /\
  isBitSetted U32 (version_bits s) 9 = false /\ isBitSetted U32 (version_bits s) 10 = compress_index s.
Proof. intros Hs. rewrite (version_plain s Hs). by destruct (compress_index s). Qed.

(** What is written for plain settings. *)
Lemma create_plain f file dtext stext js s items :
  parseJsonData stext = Some js -> read_settings js = s -> plain_settings s ->
  parseJsonData dtext = Some (arrayValue items) -> Forall record items -> zlen (body_text items) < 2 ^ 32 ->
  exists st, (forall k, default [] (st !! k) = index_from s k (locs items) []) /\
    create f file dtext stext jdb =
    Some (DbContent (title_of (version_bits s) (indexed_fields s) (build_indexes s (indexed_fields s) st)) (body_text items) 1 false false).
Proof.
  intros Hs Hjs (H1 & H2 & H3 & H4) Hd Hr Hlen. unfold create. rewrite Hs, Hd, Hjs. unfold start_append.
  rewrite bool_decide_false by done. cbn [mbind option_bind]. rewrite H1. cbn [Z.eqb negb].
  assert (Hf : filter (fun v => isObject v = true) items = items).
  { clear -Hr. induction Hr as [|it l (? & -> & _) _ IH]; [done|]. rewrite filter_cons, decide_True by done. by rewrite IH. }
  rewrite Hf. set (s' := Settings _ _ _ _ _).
  assert (s' = s) as -> by (unfold s'; rewrite <- H1; by destruct s).
  destruct (add_records_spec s H1 H4 items (Build [] [] 0 0 ∅ ∅ []) Hr ltac:(done) ltac:(cbn [b_offset]; lia))
    as (b & -> & Hb & _ & Hst). cbn [mbind option_bind].
  unfold finish_blocks. rewrite H1. cbn [Z.eqb]. rewrite H2, H3. exists (b_struct b). split.
  - intros k. apply (Hst k).
  - by rewrite Hb.
Qed.

(** The built indexes: one per indexed field. *)
Lemma build_indexes_names s st : NoDup (build_indexes s (indexed_fields s) st).*1.
Proof.
  unfold build_indexes. rewrite <- list_fmap_compose. cbn. change (NoDup (visit (indexed_fields s)).*1).
  rewrite (visit_perm _ (indexed_fields s)). apply NoDup_fst_map_to_list.
Qed.

Lemma elem_build_indexes s st k :
  is_Some (indexed_fields s !! k) ->
  (k, compressed_index s (index_bytes (default [] (st !! k)))) ∈ build_indexes s (indexed_fields s) st.
Proof.
  intros [tp Hk]. unfold build_indexes. apply list_elem_of_fmap. exists (k, tp). split; [done|].
  rewrite (visit_perm _ (indexed_fields s)). by apply elem_of_map_to_list.
Qed.

Lemma build_indexes_fields s st k : k ∈ (build_indexes s (indexed_fields s) st).*1 <-> is_Some (indexed_fields s !! k).
Proof.
  split.
  - unfold build_indexes. rewrite <- list_fmap_compose. intros ([k' tp] & -> & Hin)%list_elem_of_fmap.
    rewrite (visit_perm _ (indexed_fields s)) in Hin. apply elem_of_map_to_list in Hin. by exists tp.
  - intros Hk. apply list_elem_of_fmap. eexists. split; [|by apply elem_build_indexes]. done.
Qed.

(** The searches of the query, marked by the table of a database. *)
Lemma marked_searches s qs names :
  NoDup qs.*1 -> (forall k, k ∈ names <-> is_Some (indexed_fields s !! k)) ->
  let ss := foldl mark_search (list_to_map (prod_map id int_srch <$> qs)) names in
  searches_ok s qs ss /\ forall k ns, (k, ns) ∈ qs -> is_Some (ss !! k).
Proof.
  intros Hnd Hn ss.
  assert (Hl : forall k srch, (list_to_map (prod_map id int_srch <$> qs) : gmap bytes search.t) !! k = Some srch <->
    exists ns, (k, ns) ∈ qs /\ srch = int_srch ns).
  { intros k srch. rewrite <- elem_of_list_to_map by (by rewrite <- list_fmap_compose).
    rewrite list_elem_of_fmap. split; [intros ([k' ns] & [= -> ->] & Hin); by exists ns|].
    intros (ns & Hin & ->). by exists (k, ns). }
  split.
  - intros k srch. unfold ss. rewrite mark_searches_lookup. intros Hk. apply fmap_Some in Hk as (srch0 & Hs & ->).
    apply Hl in Hs as (ns & Hin & ->). exists ns. split; [done|]. split; [by destruct (bool_decide _)|].
    rewrite <- Hn. destruct (bool_decide_reflect (k ∈ names)); cbn; naive_solver.
  - intros k ns Hin. unfold ss. rewrite mark_searches_lookup. apply fmap_is_Some. exists (int_srch ns). apply Hl. by exists ns.
Qed.

(** Some search is marked when the name of some index is searched for. *)
Lemma named_marked (s : settings) (st : gmap bytes multimap) (qs : list (bytes * list Z)) (ss0 : gmap bytes search.t) :
  let built := build_indexes s (indexed_fields s) st in
  searches_ok s qs (foldl mark_search ss0 built.*1) ->
  existsb (is_named ss0) built = true <->
  exists k srch, foldl mark_search ss0 built.*1 !! k = Some srch /\ search.is_indexed srch = true.
Proof.
  intros built Hok. rewrite existsb_exists. split.
  - intros ([k i] & Hin & Hn%bool_decide_eq_true). cbn in Hn. destruct Hn as [srch Hk]. exists k, (set_indexed srch).
    split; [|done]. rewrite mark_searches_lookup, Hk. cbn. rewrite bool_decide_true; [done|].
    apply list_elem_of_fmap. exists (k, i). by rewrite list_elem_of_In.
  - intros (k & srch & Hk & Hi). destruct (Hok k srch Hk) as (ns & _ & _ & Hf). apply Hf in Hi.
    exists (k, compressed_index s (index_bytes (default [] (st !! k)))). split; [by apply list_elem_of_In, elem_build_indexes|].
    apply bool_decide_eq_true. cbn. rewrite mark_searches_lookup in Hk. by apply fmap_Some in Hk as (? & -> & _).
Qed.

(** A query for integers: the conditions [q] ask for the values [qs] of different fields. *)
Record int_query (q : list (bytes * cond)) (qs : list (bytes * list Z)) : Prop := {
  iq_values : Forall2 (fun x y => x.1 = y.1 /\ int_values x.2 = Some y.2) q qs;
  iq_nodup : NoDup qs.*1;
  iq_names : Forall (fun x => x.1 <> [] /\ x00 ∉ x.1 /\ Forall (in_range I64) x.2) qs }.

(** The content of a plain database answers the query. *)
Lemma fetch_content_plain f file hdr s st items qs :
  plain_settings s -> NoDup qs.*1 -> Forall (fun x => x.1 <> [] /\ x00 ∉ x.1 /\ Forall (in_range I64) x.2) qs ->
  (forall k it, k ∈ qs.*1 -> it ∈ items -> int_or_absent k it) ->
  (forall its, its ⊆+ items -> parse (toString (arrayValue its)) = Some (arrayValue its)) ->
  (forall k, default [] (st !! k) = index_from s k (locs items) []) ->
  let data := hdr ++ title_of (version_bits s) (indexed_fields s) (build_indexes s (indexed_fields s) st) ++ body_text items in
  zlen data < 2 ^ 32 ->
  exists its, fetch_content_jdb f file (m_read data) (zlen hdr) (list_to_map (prod_map id int_srch <$> qs)) =
    Some (Some (brackets (commas (toString <$> its)))) /\ its ≡ₚ filter (fun it => satisfies qs it = true) items.
Proof.
  intros Hs Hnd Hqn Hint Hparse Hst data Hlen. pose proof Hs as (H1 & _).
  set (built := build_indexes s (indexed_fields s) st) in *. set (hs := mjoin (header_of (indexed_fields s) <$> built)).
  set (v := version_bits s) in *.
  assert (Hv : v = if compress_index s then 1025 else 1) by (by apply version_plain).
  assert (Ed : data = hdr ++ lit "jdb" ++ numeric_to_chars U32 v ++ numeric_to_chars U32 (zlen hs) ++ hs ++ mjoin built.*2 ++ body_text items)
    by (unfold data, title_of; fold hs; by rewrite <- !app_assoc).
  clearbody data. unfold fetch_content_jdb.
  rewrite (append_at data hdr (lit "jdb") (numeric_to_chars U32 v ++ numeric_to_chars U32 (zlen hs) ++ hs ++ mjoin built.*2 ++ body_text items))
    by done. cbn [mbind option_bind]. rewrite bool_decide_true by done. cbn [negb].
  rewrite (retrieve_at data (hdr ++ lit "jdb") v (numeric_to_chars U32 (zlen hs) ++ hs ++ mjoin built.*2 ++ body_text items));
    [|by rewrite Ed, <- app_assoc|rewrite length_app; cbn; lia|rewrite Hv; destruct (compress_index s); range_lia].
  cbn [mbind option_bind].
  destruct (read_index_table_spec (indexed_fields s) built (hdr ++ lit "jdb" ++ numeric_to_chars U32 v) (body_text items)
    (list_to_map (prod_map id int_srch <$> qs)) data (compress_index s)) as (t & Ht & Hl & Hss & Hidx & Hload);
    [by rewrite Ed, <- !app_assoc|done|apply build_indexes_names|].
  replace (zlen (hdr ++ lit "jdb" ++ numeric_to_chars U32 v)) with (zlen hdr + 7) in Ht
    by (rewrite !length_app, length_numeric_to_chars; change (length (lit "jdb")) with 3%nat; cbn [sizeof]; lia).
  destruct (flags_plain s Hs) as (F1 & F2 & F3 & F4). fold v in F1, F2, F3, F4. rewrite F1, F2, F3, F4. cbn [Z.eqb Pos.eqb orb]. rewrite Ht. cbn [mbind option_bind].
  destruct (marked_searches s qs built.*1 Hnd (build_indexes_fields s st)) as [Hok Hfull]. rewrite <- Hss in Hok, Hfull.
  assert (Hbl : zlen (body_text items) < 2 ^ 32) by (rewrite Ed, !length_app in Hlen; lia).
  destruct (select_spec s items Hbl qs Hnd Hqn Hint (m_read data) (compress_index s) (h_sizes t)) with
    (data := data) (pre := take (length data - length (body_text items)) data) (t := t) as (its & Hsel & Hp); try done.
  - intros k Hk. rewrite (Hload _ _ (elem_build_indexes s st k Hk)), Hst. unfold compressed_index.
    destruct (compress_index s); [by rewrite decompress_compress|done].
  - rewrite Ed. rewrite !app_assoc. rewrite length_app, Nat.add_sub. by rewrite take_app_length.
  - rewrite Hidx, Hss. apply (named_marked s st qs). fold built. by rewrite <- Hss.
  - exists its. split; [|done]. rewrite Hl.
    replace (zlen data - zlen (body_text items)) with (zlen (take (length data - length (body_text items)) data)).
    + by rewrite Hsel.
    + rewrite length_take, Ed, !length_app. lia.
Qed.
End db.

(** A file that holds what [createDatabaseContent] wrote answers queries for integers. *)
Lemma jdb_query `{E : JEnv, L : !JEnvLaws E} (f : fs) (file hdr dtext stext qtext : bytes) (js : json)
    (items : list json) (q : list (bytes * cond)) (qs : list (bytes * list Z)) (ro : Z) :
  db_header hdr -> parseJsonData stext = Some js -> plain_settings (read_settings js) ->
  parseJsonData dtext = Some (arrayValue items) -> Forall record items -> zlen (body_text items) < 2 ^ 32 ->
  parseJsonData qtext = Some (query q) -> int_query q qs ->
  (forall k it, k ∈ qs.*1 -> it ∈ items -> int_or_absent k it) ->
  stable (arrayValue items) = true ->
  exists c, create f file dtext stext jdb = Some c /\ errorOccurred c = false /\ version c = 1 /\ append c = false /\ title c <> [] /\
    (zlen (hdr ++ title c ++ body c) < 2 ^ 32 ->
     forall f' : fs, f' !! file = Some (hdr ++ title c ++ body c) ->
     exists its, its ≡ₚ filter (fun it => satisfies qs it = true) items /\
       fetch f' file qtext ro =
       Some ((if isBitSettedByNumber ro 2 then [] else hdr) ++
             (if isBitSettedByNumber ro 1 then brackets (commas (toString <$> its))
              else compress_string (brackets (commas (toString <$> its)))))).
Proof.
  intros Hhdr Hst Hs Hd Hr Hbl Hqt [Hq Hnd Hqn] Hint Hstab. set (s := read_settings js) in *.
  assert (Hparse : forall its, its ⊆+ items -> parse (toString (arrayValue its)) = Some (arrayValue its)).
  { intros its Hi. destruct dtext as [|c dtext]; [done|]. by apply (parse_sub_array (c :: dtext) items). }
  destruct (create_plain f file dtext stext js s items Hst eq_refl Hs Hd Hr Hbl) as (st & Hidx & Hc).
  eexists. split; [exact Hc|]. do 4 (split; [done|]). cbn [title body]. intros Hlen f' Hf'.
  destruct (fetch_content_plain f' file hdr s st items qs Hs Hnd Hqn Hint Hparse Hidx Hlen)
    as (its & Hfc & Hp).
  set (data := hdr ++ title_of (version_bits s) (indexed_fields s) (build_indexes s (indexed_fields s) st) ++ body_text items) in *.
  exists its. split; [done|]. unfold fetch. rewrite Hf', Hqt. cbn [query query_searches f_search].
  rewrite (f_search_ints q qs ∅ Hq Hnd) by done. cbn [mbind option_bind]. rewrite (right_id_L ∅ _).
  replace (Z.of_nat (skip_ttl 10 data 37)) with (zlen hdr) by (symmetry; by apply skip_ttl_header).
  assert (Hpos : zlen hdr < zlen data) by (unfold data, title_of; rewrite !length_app; cbn; lia).
  cbn [currentFileSize m_read]. rewrite (proj2 (Z.leb_gt _ _)) by done.
  assert (Hret : append_string (m_read data) 0 (zlen hdr) = Some hdr).
  { apply (append_at data [] hdr (title_of (version_bits s) (indexed_fields s) (build_indexes s (indexed_fields s) st) ++ body_text items)); done. }
  rewrite Hret, Hfc. destruct (isBitSettedByNumber ro 2); reflexivity.
Qed.

(** C23: What is stored in a json database is found again, whichever fields are indexed.  For
    plain settings (the first format, data not compressed, any indexed fields, indexes
    compressed or not), any text of an array of records whose queried fields hold integers
    (and whose doubles, if there are any, print as the same doubles), and a query that asks
    every field for one of several integers, [fetch] of the file that [createDatabaseContent]
    wrote returns, with or without header and compression as asked, the json array of exactly
    the records that satisfy the query, in some order.  All texts are read by [Json::Reader]. *)
Theorem jdb_query_exact `{E : JEnv, L : !JEnvLaws E} (f : fs) (file hdr dtext stext qtext : bytes) (js : json)
    (items : list json) (q : list (bytes * cond)) (qs : list (bytes * list Z)) (ro : Z) :
  db_header hdr -> parseJsonData stext = Some js -> plain_settings (read_settings js) ->
  parseJsonData dtext = Some (arrayValue items) -> Forall record items -> zlen (body_text items) < 2 ^ 32 ->
  parseJsonData qtext = Some (query q) -> int_query q qs ->
  (forall k it, k ∈ qs.*1 -> it ∈ items -> int_or_absent k it) ->
  stable (arrayValue items) = true ->
  exists c, create f file dtext stext jdb = Some c /\ errorOccurred c = false /\ version c = 1 /\ append c = false /\
    (zlen (hdr ++ title c ++ body c) < 2 ^ 32 ->
     exists its, its ≡ₚ filter (fun it => satisfies qs it = true) items /\
       fetch (<[file := hdr ++ title c ++ body c]> f) file qtext ro =
       Some ((if isBitSettedByNumber ro 2 then [] else hdr) ++
             (if isBitSettedByNumber ro 1 then brackets (commas (toString <$> its))
              else compress_string (brackets (commas (toString <$> its)))))).
Proof.
  intros H1 H2 H3 H4 H5 H6 H7 H8 H9 H10.
  destruct (jdb_query f file hdr dtext stext qtext js items q qs ro H1 H2 H3 H4 H5 H6 H7 H8 H9 H10)
    as (c & Hc & He & Hv & Ha & _ & Hf).
  exists c. do 4 (split; [done|]). intros Hlen. apply Hf; [done|]. apply lookup_insert_eq.
Qed.

(** An example: two records, one indexed field. *)
Definition ex_record (id t : Z) : json := objectValue [(lit "id", intValue id); (lit "t", intValue t)].
Definition ex_items : list json := [ex_record 5 1; ex_record 7 2].
Definition ex_settings : json :=
  objectValue [(lit "index", arrayValue [objectValue [(lit "n", stringValue (lit "id"))]])].
Definition ex_query : list (bytes * cond) := [(lit "id", c_in [intValue 7; intValue 9]); (lit "t", c_eq (intValue 2))].
Definition ex_hdr : bytes := replicate 37 x2d ++ lit "0 ".

#[local] Instance ex_env : JEnv :=
  {| hash := fun _ => 7; mktime := fun _ _ _ _ _ _ => 0; compress_string := reverse; decompress_string := reverse;
     visit := fun A m => map_to_list m; visit_offsets := map_to_list |}.

#[local] Instance ex_laws : JEnvLaws ex_env.
Proof. split; [done|done|apply reverse_involutive]. Qed.

Lemma ex_plain : plain_settings (read_settings ex_settings).
Proof.
  split_and!; [done|done|done|]. intros k Hk. destruct (decide (k = lit "id")) as [->|Hne].
  - by apply (bool_decide_unpack _); vm_compute.
  - exfalso. change (indexed_fields (read_settings ex_settings)) with ({[lit "id" := b_base.numeric]} : gmap bytes b_base.type) in Hk.
    rewrite lookup_singleton_ne in Hk by done. by destruct Hk.
Qed.

Lemma ex_records : Forall record ex_items.
Proof. repeat constructor; eexists; (split; [reflexivity|]); by apply (bool_decide_unpack _); vm_compute. Qed.

Definition ex_ints : list (bytes * list Z) := [(lit "id", [7; 9]); (lit "t", [2])].

Lemma ex_int_query : int_query ex_query ex_ints.
Proof. split; [repeat constructor|by apply (bool_decide_unpack _); vm_compute|by apply (bool_decide_unpack _); vm_compute]. Qed.

Lemma ex_int_fields k it : k ∈ ex_ints.*1 -> it ∈ ex_items -> int_or_absent k it.
Proof.
  intros Hk Hit. unfold ex_items in Hit. unfold ex_ints in Hk. set_unfold in Hk. set_unfold in Hit.
  destruct Hk as (? & -> & [-> | [-> | []]]), Hit as [->|[->|[]]]; (eexists; split; [reflexivity|]); intros v Hv; vm_compute in Hv;
    injection Hv as <-; eexists; (split; [reflexivity|]); range_lia.
Qed.

Lemma jdb_query_exact_witness :
  exists c, create ∅ (lit "/d/1/a") (toString (arrayValue ex_items)) (toString ex_settings) jdb = Some c /\
    errorOccurred c = false /\ version c = 1 /\ append c = false /\
    (zlen (ex_hdr ++ title c ++ body c) < 2 ^ 32 ->
     exists its, its ≡ₚ filter (fun it => satisfies ex_ints it = true) ex_items /\
       fetch (<[lit "/d/1/a" := ex_hdr ++ title c ++ body c]> ∅) (lit "/d/1/a") (toString (query ex_query)) 3 =
       Some (brackets (commas (toString <$> its)))).
Proof.
  apply (jdb_query_exact ∅ (lit "/d/1/a") ex_hdr (toString (arrayValue ex_items)) (toString ex_settings)
    (toString (query ex_query)) ex_settings ex_items ex_query ex_ints 3).
  - exists (replicate 37 x2d), (lit "0"). split_and!; [done|done|by apply (bool_decide_unpack _); vm_compute|cbn; lia].
  - by vm_compute.
  - exact ex_plain.
  - by vm_compute.
  - exact ex_records.
  - by vm_compute.
  - by vm_compute.
  - exact ex_int_query.
  - exact ex_int_fields.
  - by vm_compute.
Defined.
