(* ===== verification/DiskServer.v ===== *)
(** * The file server ([rssdisk/rssdisk/disk_server.hpp], [disk_server.cpp])

    The handlers that store, read, describe and remove files, as functions on the state of the
    server: its configuration (with the running size of every directory) and its files.  A
    handler runs between [locked_files::add] and the destructor of [locker_file]; what [add]
    returned is an argument ([LockedFiles] proves that a writer is alone in its file).  The
    json database behind the kinds [jdb] and [ajdb] is an interface, [JdbEngine]; where it throws,
    the handler does ([None]).  Parameters:
    [std::hash], AES decryption, the CRC of a file, and which paths can be opened for writing. *)

From S2P Require Import Prelude Bitbase BasefuncStd DateTime DiskHelper WType JdbInterface.
From Stdlib Require Import ZArith Lia Strings.Byte.
From stdpp Require Import base gmap strings numbers list.
Open Scope Z_scope.

(** ** Answers *)

(** The values that the handlers put into the json object of an answer. *)
Inductive jval := JStr (s : bytes) | JInt (n : Z) | JBool (b : bool).
Abbreviation response := (gmap bytes jval).

(** [server::response::set]. *)
Definition set_status (s : status) (res : response) : response :=
  let ss_int := status_code s in
  let res := <[lit "status" := JStr (pad2 ss_int)]> res in
  if negb (ss_int =? 1) then <[lit "status_m" := JStr (status_text ss_int)]> res else res.

Definition answer (s : status) : response := set_status s ∅.

(** ** Configuration *)

Record directory := Directory {
  enabled : bool; dir_p : bytes; max_size_b : Z; curr_size_b : Z; fs_block_size_b : Z }.

Record server_conf := Conf {
  enable_read : bool; enable_write : bool; auth : bytes; aes_key : bytes; iv : bytes;
  ttl_p : bytes; tcp_threads : Z; dirs : gmap bytes directory }.

Record server := Server { conf : server_conf; files : fs }.

Definition inc_curr_disk_size (sz : Z) (d : directory) : directory :=
  Directory (enabled d) (dir_p d) (max_size_b d) (wrap I64 (curr_size_b d + sz)) (fs_block_size_b d).

(** The directory [sub] of the server, updated in place. *)
Definition set_dir (sub : bytes) (d : directory) (s : server) : server :=
  let c := conf s in
  Server (Conf (enable_read c) (enable_write c) (auth c) (aes_key c) (iv c) (ttl_p c) (tcp_threads c)
            (<[sub := d]> (dirs c))) (files s).
Definition set_files (f : fs) (s : server) : server := Server (conf s) f.

Definition count_segment_folders : Z := 1000.

Section server.
Context `{JdbEngine}.
Context (hash : bytes -> Z) (decrypt : bytes -> bytes -> bytes -> bytes) (get_hash_of_file : fs -> bytes -> Z).
Context (opens : bytes -> bool).

(** [h(filename) % count_segment_folders]; [std::hash] gives a [size_t]. *)
Definition get_segment_folder (filename : bytes) : Z := wrap U64 (hash filename) mod count_segment_folders.

(** "sub/name": the part before the first slash and the rest. *)
Definition split_subfolder (file_name : bytes) : bytes * bytes :=
  match str_find (lit "/") file_name with
  | Some f => (take f file_name, drop (f + 1) file_name)
  | None => ([], file_name)
  end.

Definition segment_name (file_name : bytes) : bytes :=
  to_string (get_segment_folder file_name) ++ lit "/" ++ file_name.

(** ** Removing *)

(** The loop over 50 attempts to lock. *)
Fixpoint try_lock (attempts : nat) (add : nat -> bool) (i : nat) : bool :=
  match attempts with
  | O => false
  | S n => if add i then true else try_lock n add (S i)
  end.

(** [dir->inc_curr_disk_size(-bytes); std::remove(name)] for one file. *)
Definition drop_file (name : bytes) (d : directory) (f : fs) : directory * fs :=
  let bytes := wrap I32 (get_file_size_fs_block_size f name (fs_block_size_b d)) in
  (inc_curr_disk_size (wrap I32 (- bytes)) d, delete name f).

(** Whether a file whose first bytes are [content] gives way to a write ([tms], [crc32]). *)
Definition must_remove (content : bytes) (tms crc32 : Z) : bool :=
  if 18 <=? zlen content then
    let file_type := default 0 (stoi I16 (zsub content 0 2)) in
    let file_tms := chars_to_numeric I64 (zsub content 2 8) in
    let file_crc32 := chars_to_numeric I64 (zsub content 10 8) in
    match w_cast file_type with
    | updatable | updatable_without_compress | jdb =>
        (file_tms <? tms) || ((file_tms =? tms) && (file_crc32 <? crc32))
    | insert_only | insert_only_without_compress => true
    | ajdb => false
    | _ => true
    end
  else false.

Definition remove_file_by_tms (add : nat -> bool) (file_name : bytes) (tms crc32 : Z) (force : bool) (s : server) :
    bool * server :=
  let '(subfolder, file_name) := split_subfolder file_name in
  let qry := segment_name file_name in
  if negb (try_lock 50 add 0) then (false, s)
  else match dirs (conf s) !! subfolder with
  | None => (true, s)
  | Some dir =>
      if is_file_exists (files s) (dir_p dir ++ qry) then
        match (if force then Some true
               else match read_file (files s) (dir_p dir) qry 64 with
                    | Some content => Some (must_remove content tms crc32)
                    | None => None
                    end) with
        | None => (false, s)
        | Some false => (true, s)
        | Some true =>
            let '(dir, f) := drop_file (dir_p dir ++ qry) dir (files s) in
            let item_jdb_data := dir_p dir ++ qry ++ j_extension_name in
            let '(dir, f) := if is_file_exists f item_jdb_data then drop_file item_jdb_data dir f else (dir, f) in
            (true, set_files f (set_dir subfolder dir s))
        end
      else (true, s)
  end.

(** ** Reading *)

Definition cut_jdb (file_name : bytes) : bytes * option bytes :=
  match str_find (lit "?jdb") file_name with
  | Some f => (take f file_name, Some (drop (f + 4) file_name))
  | None => (file_name, None)
  end.

(** [read_file]: the answer and the content; [locked] is what [lock_to_write.add] returned. *)
Definition server_read_file (locked : bool) (file_name : bytes) (ro : Z) (s : server) : option (response * bytes) :=
  let '(subfolder, file_name) := split_subfolder file_name in
  let '(file_name, jdb_query) := cut_jdb file_name in
  let qry := segment_name file_name in
  if negb locked then Some (answer file_busy, [])
  else if negb (enable_read (conf s)) then Some (answer read_is_disabled, [])
  else match dirs (conf s) !! subfolder with
  | None => Some (answer file_not_found, [])
  | Some d =>
      if negb (is_file_exists (files s) (dir_p d ++ qry)) then Some (answer file_not_found, [])
      else
        '(ok_, content) ← match jdb_query with
          | Some q => c ← jdb_fetch (files s) (dir_p d ++ qry) q ro; Some (true, c)
          | None => Some match read_file (files s) (dir_p d) qry 0 with Some c => (true, c) | None => (false, []) end
          end;
        Some match content with
        | [] => (answer cant_read_file, [])
        | _ => (answer (if (ok_ : bool) then ok else errorstr), content)
        end
  end.

(** The loop over the time to live in [read_file_info], at most ten characters from [i]; past
    the end of the string the terminating NUL is read. *)
Fixpoint info_ttl_loop (n : nat) (content : bytes) (i : nat) : nat :=
  match n with
  | O => i
  | S n' => if bool_decide (content !! i = Some x20) then i else info_ttl_loop n' content (S i)
  end.

Definition info_header (content : bytes) : bytes :=
  let w := w_cast (default (w_code w_none) (stoi I32 (zsub content 0 2))) in
  let l := if bool_decide (w ∈ [updatable; updatable_without_compress; jdb; ajdb]) then 18%nat else 2%nat in
  let l_last_ttl := info_ttl_loop 10 content (l + 20) in
  if (l_last_ttl <? length content)%nat then take l_last_ttl content else take 18 content.

Definition read_file_info (locked : bool) (file_name : bytes) (s : server) : response * bytes :=
  let '(file_name, _) := cut_jdb file_name in
  let '(subfolder, file_name) := split_subfolder file_name in
  let name_for_segment := replaceAll file_name j_extension_name [] in
  let qry := to_string (get_segment_folder name_for_segment) ++ lit "/" ++ file_name in
  if negb locked then (answer file_busy, [])
  else if negb (enable_read (conf s)) then (answer read_is_disabled, [])
  else match dirs (conf s) !! subfolder with
  | None => (answer file_not_found, [])
  | Some d =>
      if negb (is_file_exists (files s) (dir_p d ++ qry)) then (answer file_not_found, [])
      else if bool_decide (is_Some (str_find j_extension_name qry)) then
        let r := get_hash_of_file (files s) (dir_p d ++ qry) in
        if r =? 0 then (answer cant_read_file, [])
        else (answer ok, pad2 (w_code jdb_data) ++ numeric_to_chars I32 r)
      else match read_file (files s) (dir_p d) qry 64 with
           | Some content =>
               if 18 <? zlen content then (answer ok, info_header content) else (answer cant_read_file, content)
           | None => (answer cant_read_file, [])
           end
  end.

(** ** Storing *)

(** The variables of the header loop of [accept_file]. *)
Record hdr := Hdr {
  h_auth : bytes; h_name : bytes; h_ttl : bytes; h_flags : bytes; filename_filled : Z;
  start_content_from : Z; is_auth_ok : bool; max_auth_size : Z; stable_read_count_bytes : Z }.

Definition hdr_init : hdr := Hdr [] [] [] [] 0 0 true 256 0.

(** The raw bytes that follow the two digits of a kind. *)
Definition stable_bytes (flags : bytes) (old : Z) : Z :=
  match w_cast (default 0 (stoi I32 flags)) with
  | updatable | updatable_without_compress | jdb | ajdb | jdb_formed => 16
  | appendable => 8
  | _ => old
  end.

(** One character [c] at position [i]; the flag says whether the loop goes on. *)
Definition hdr_step (conf_auth : bytes) (need_check_auth : bool) (i : Z) (c : byte) (h : hdr) : hdr * bool :=
  let '(Hdr au nm tl fl fi st ao mx sr) := h in
  if bool_decide (c = x20) && (sr =? 0) then
    if need_check_auth && (fi =? 0) && bool_decide (conf_auth <> []) && bool_decide (conf_auth <> au)
    then (Hdr au nm tl fl fi st false mx sr, false)
    else if fi =? 3 then (Hdr au nm tl fl fi i ao mx sr, false)
    else (Hdr au nm tl fl (fi + 1) i ao mx sr, true)
  else
    let sr := if 0 <? sr then sr - 1 else sr in
    if fi =? 0 then
      if mx =? 0 then (Hdr au nm tl fl fi st false mx sr, false)
      else (Hdr (au ++ [c]) nm tl fl fi st ao (mx - 1) sr, true)
    else if fi =? 1 then (Hdr au (nm ++ [c]) tl fl fi st ao mx sr, true)
    else if fi =? 2 then (Hdr au nm (tl ++ [c]) fl fi st ao mx sr, true)
    else
      let fl := fl ++ [c] in
      let sr := if zlen fl =? 2 then stable_bytes fl sr else sr in
      (Hdr au nm tl fl fi st ao mx sr, true).

Fixpoint hdr_loop (conf_auth : bytes) (need_check_auth : bool) (l : bytes) (i : Z) (h : hdr) : hdr :=
  match l with
  | [] => h
  | c :: l' =>
      let '(h, go) := hdr_step conf_auth need_check_auth i c h in
      if (go : bool) then hdr_loop conf_auth need_check_auth l' (i + 1) h else h
  end.

(** The headers of the file and whether the write is replicated. *)
Definition file_headers (w : w_type) (flags : bytes) : list bytes * bool :=
  match w with
  | updatable | updatable_without_compress | jdb | ajdb | jdb_formed =>
      if zlen flags =? 18 then
        ([match w with jdb_formed => lit "0" ++ to_string (w_code jdb) | _ => pad2 (w_code w) end;
          zsub flags 2 8; zsub flags 10 8], negb (bool_decide (w = ajdb)))
      else ([], false)
  | insert_only_without_compress => ([lit "0" ++ to_string (w_code w)], false)
  | appendable => if zlen flags =? 10 then ([to_string (w_code w); zsub flags 2 8], false) else ([], false)
  | _ => ([], false)
  end.

(** What the json database part of [accept_file] leaves behind. *)
Record jdb_result := JdbResult {
  to_write : bytes; is_append : bool; ok_jdb_write : bool; jdb_dir : directory; jdb_files : fs; jdb_res : response }.

Definition jdb_part (now : date_time) (d : directory) (file_name base_filename content : bytes) (start : Z)
    (w : w_type) (f : fs) (res : response) : option jdb_result :=
  let nothing := Some (JdbResult [] false true d f res) in
  if start + 6 <? zlen content then
    let sz_of_sett := chars_to_numeric U32 (zsub content (start + 1) 4) in
    if start + 5 + sz_of_sett <? zlen content then
      let jdb_sett := zsub content (start + 5) sz_of_sett in
      let jdb_data := zsub content (start + 5 + sz_of_sett) (zlen content) in
      j ← createDatabaseContent f (dir_p d ++ file_name) jdb_data jdb_sett w;
      Some (
      if errorOccurred j then JdbResult (title j) (append j) false d f res
      else if version j =? 1 then JdbResult (title j ++ body j) (append j) true d f res
      else if version j =? 2 then
        let data_name := file_name ++ j_extension_name in
        let '(ok_, written, f) :=
          if append j then
            let '(o, f) := append_to_file opens (dir_p d ++ data_name) (body j) f in (o, wrap I32 (zlen (body j)), f)
          else write_file_to_disk opens now (dir_p d) data_name (body j) 0 0 (fs_block_size_b d) [] false f in
        if (ok_ : bool) then
          JdbResult (title j) (append j) true (inc_curr_disk_size written d) f
            (<[lit "file_name_jdb" := JStr (base_filename ++ j_extension_name)]>
              (<[lit "bytes_written_jdb" := JInt written]> res))
        else JdbResult (title j) (append j) false d f res
      else JdbResult (title j) (append j) true d f res)
    else nothing
  else nothing.

(** The attempts to note the file in the list of its expiry date. *)
Fixpoint ttl_append (n : nat) (i : Z) (path_ttl line : bytes) (f : fs) : bool * fs :=
  match n with
  | O => (false, f)
  | S n' =>
      let '(o, f) := append_to_file opens (path_ttl ++ to_string i) line f in
      if (o : bool) then (true, f) else ttl_append n' (i + 1) path_ttl line f
  end.

Definition note_ttl (now : date_time) (ttl : Z) (d : directory) (file_name : bytes) (c : server_conf) (f : fs) : bool * fs :=
  let path_ttl := ttl_p c ++ get_date (lit "-") (add_days ttl now) ++ lit "/ttl" in
  let line := dir_p d ++ file_name ++ [x0a] in
  let '(o, f) := append_to_file opens path_ttl line f in
  if (o : bool) then (true, f) else ttl_append (Z.to_nat (tcp_threads c)) 0 path_ttl line f.

(** The part of [accept_file] after the directory was found and may be written. *)
Definition store_file (now : date_time) (base_filename file_name subfolder content : bytes) (h : hdr)
    (d : directory) (exists_ : bool) (s : server) :
    option (response * server * option (bytes * Z * Z)) :=
  let ttl := default 0 (stoi I32 (h_ttl h)) in
  let start := start_content_from h in
  let plain := zsub content (start + 1) (zlen content) in
  '(w, headers, is_oplog, j) ←
    (if 2 <=? zlen (h_flags h) then
      let w := w_cast (default 0 (stoi I32 (zsub (h_flags h) 0 2))) in
      let '(headers, is_oplog) := file_headers w (h_flags h) in
      j ← match w with
          | jdb | ajdb => jdb_part now d file_name base_filename content start w (files s) ∅
          | _ => Some (JdbResult plain false true d (files s) ∅)
          end;
      Some (w, headers, is_oplog, j)
    else Some (w_none, [], false, JdbResult plain false true d (files s) ∅));
  let d := jdb_dir j in
  Some (if negb (ok_jdb_write j) then (set_status cant_write_file_to_disk (jdb_res j), set_files (jdb_files j) (set_dir subfolder d s), None)
  else
    let headers := match headers with [] => [lit "00"] | _ => headers end in
    let '(ok_, bytes_written, f) :=
      if bool_decide (w = appendable) && exists_ then
        let '(o, f) := append_to_file opens (dir_p d ++ file_name) (to_write j) (jdb_files j) in
        (o, wrap I32 (if zlen (to_write j) =? 0 then 0 else block_bytes (zlen (to_write j)) (fs_block_size_b d)), f)
      else write_file_to_disk opens now (dir_p d) file_name (to_write j) 0 ttl (fs_block_size_b d) headers true (jdb_files j) in
    if (ok_ : bool) then
      let event := if (is_oplog : bool) then
          match headers with
          | _ :: t :: c :: _ => Some (base_filename, chars_to_numeric I64 t, chars_to_numeric I64 c)
          | _ => None
          end else None in
      let d := inc_curr_disk_size bytes_written d in
      let res := set_status ok (jdb_res j) in
      let res := <[lit "headers" := JStr (mjoin headers)]> (<[lit "file_name" := JStr base_filename]>
                   (<[lit "bytes_written" := JInt bytes_written]> res)) in
      if (0 <? ttl) && negb (is_append j) then
        let '(o, f) := note_ttl now ttl d file_name (conf s) f in
        (<[lit "ttl_success" := JBool o]> res, set_files f (set_dir subfolder d s), event)
      else (res, set_files f (set_dir subfolder d s), event)
    else (set_status cant_write_file_to_disk (jdb_res j), set_files f (set_dir subfolder d s), None)).

(** [accept_file]: the answer, the new state and the call of [on_write_].  The member
    "el_micro" of the answer, a duration, is left out; the two calls of the clock give one time, and
    the folders of the segments are there. *)
Definition accept_file (locked : bool) (now : date_time) (content : bytes) (need_check_auth need_check_aes : bool)
    (s : server) : option (response * server * option (bytes * Z * Z)) :=
  if negb (2 <? zlen content) then Some (answer to_small_content_size, s, None)
  else if negb (enable_write (conf s)) then Some (answer write_is_disabled, s, None)
  else
    let content := if need_check_aes && bool_decide (aes_key (conf s) <> [])
                   then decrypt content (aes_key (conf s)) (iv (conf s)) else content in
    if negb (2 <? zlen content) then Some (answer incorrect_secure_key, s, None)
    else
      let h := hdr_loop (auth (conf s)) need_check_auth content 0 hdr_init in
      if 64 <? zlen (h_name h) then Some (answer too_long_filename, s, None)
      else if negb (is_auth_ok h) then Some (answer auth_failed, s, None)
      else
        let base_filename := h_name h in
        let '(subfolder, file_name) := split_subfolder base_filename in
        match file_name with
        | [] => Some (answer file_name_must_not_be_empty, s, None)
        | _ :: _ =>
            let file_name := segment_name file_name in
            if negb locked then Some (answer file_busy, s, None)
            else match dirs (conf s) !! subfolder with
            | None => Some (answer subfolder_not_found, s, None)
            | Some d =>
                let exists_ := is_file_exists (files s) (dir_p d ++ file_name) in
                if exists_ || (enabled d && (curr_size_b d <? max_size_b d)) then
                  store_file now base_filename file_name subfolder content h d exists_ s
                else Some (answer all_directories_are_full, s, None)
            end
        end.
End server.
