(* ===== verification/DiskServerFacts.v ===== *)
(** * Theorems about the file server

    The request parser reads back what a client encodes; a request without the right key
    changes nothing; a stored file is read back and accounted for; and a replicated write
    removes exactly the older versions of its file. *)

From S2P Require Import Prelude Bitbase BasefuncStd DateTime DiskHelper WType JdbInterface DiskServer.
From Stdlib Require Import ZArith Lia Strings.Byte.
From stdpp Require Import base gmap strings numbers list.
Open Scope Z_scope.

(** ** The header of a request *)

Section header.
Context (conf_auth : bytes) (chk : bool).

Lemma hdr_loop_go c l i h h' :
  hdr_step conf_auth chk i c h = (h', true) ->
  hdr_loop conf_auth chk (c :: l) i h = hdr_loop conf_auth chk l (i + 1) h'.
Proof. intros E. cbn [hdr_loop]. by rewrite E. Qed.

Lemma hdr_loop_stop c l i h h' :
  hdr_step conf_auth chk i c h = (h', false) -> hdr_loop conf_auth chk (c :: l) i h = h'.
Proof. intros E. cbn [hdr_loop]. by rewrite E. Qed.

Lemma hdr_auth u l i au st mx :
  x20 ∉ u -> zlen u <= mx ->
  hdr_loop conf_auth chk (u ++ l) i (Hdr au [] [] [] 0 st true mx 0) =
    hdr_loop conf_auth chk l (i + zlen u) (Hdr (au ++ u) [] [] [] 0 st true (mx - zlen u) 0).
Proof.
  revert i au mx; induction u as [|c u IH]; intros i au mx Hs Hm.
  - rewrite app_nil_r. cbn [app length]. f_equal; [lia|f_equal; lia].
  - rewrite <- app_comm_cons, (hdr_loop_go c _ i _ (Hdr (au ++ [c]) [] [] [] 0 st true (mx - 1) 0)).
    + rewrite IH by (set_solver || (simpl in Hm; lia)). rewrite <- app_assoc. cbn [app length].
      f_equal; [lia|f_equal; lia].
    + cbn [hdr_step]. rewrite bool_decide_false by set_solver. cbn [andb Z.ltb Z.eqb Z.compare].
      by rewrite (proj2 (Z.eqb_neq mx 0)) by (simpl in Hm; lia).
Qed.

Lemma hdr_name u l i au nm st ao mx :
  x20 ∉ u ->
  hdr_loop conf_auth chk (u ++ l) i (Hdr au nm [] [] 1 st ao mx 0) =
    hdr_loop conf_auth chk l (i + zlen u) (Hdr au (nm ++ u) [] [] 1 st ao mx 0).
Proof.
  revert i nm; induction u as [|c u IH]; intros i nm Hs.
  - rewrite app_nil_r. cbn [app length]. f_equal; lia.
  - rewrite <- app_comm_cons, (hdr_loop_go c _ i _ (Hdr au (nm ++ [c]) [] [] 1 st ao mx 0)).
    + rewrite IH by set_solver. rewrite <- app_assoc. cbn [app length]. f_equal; lia.
    + cbn [hdr_step]. by rewrite bool_decide_false by set_solver.
Qed.

Lemma hdr_ttl u l i au nm tl st ao mx :
  x20 ∉ u ->
  hdr_loop conf_auth chk (u ++ l) i (Hdr au nm tl [] 2 st ao mx 0) =
    hdr_loop conf_auth chk l (i + zlen u) (Hdr au nm (tl ++ u) [] 2 st ao mx 0).
Proof.
  revert i tl; induction u as [|c u IH]; intros i tl Hs.
  - rewrite app_nil_r. cbn [app length]. f_equal; lia.
  - rewrite <- app_comm_cons, (hdr_loop_go c _ i _ (Hdr au nm (tl ++ [c]) [] 2 st ao mx 0)).
    + rewrite IH by set_solver. rewrite <- app_assoc. cbn [app length]. f_equal; lia.
    + cbn [hdr_step]. by rewrite bool_decide_false by set_solver.
Qed.

(** A separating space. *)
Lemma hdr_space l i au nm tl fi st mx :
  0 < fi < 3 ->
  hdr_loop conf_auth chk (x20 :: l) i (Hdr au nm tl [] fi st true mx 0) =
    hdr_loop conf_auth chk l (i + 1) (Hdr au nm tl [] (fi + 1) i true mx 0).
Proof.
  intros Hf. apply hdr_loop_go. cbn [hdr_step]. rewrite bool_decide_true by done. cbn [andb Z.eqb].
  rewrite (proj2 (Z.eqb_neq fi 0)), (proj2 (Z.eqb_neq fi 3)) by lia. by destruct chk.
Qed.

Definition auth_ok (au : bytes) : Prop := chk = false \/ conf_auth = [] \/ conf_auth = au.

Lemma hdr_space_auth l i au st mx :
  auth_ok au ->
  hdr_loop conf_auth chk (x20 :: l) i (Hdr au [] [] [] 0 st true mx 0) =
    hdr_loop conf_auth chk l (i + 1) (Hdr au [] [] [] 1 i true mx 0).
Proof.
  intros Ha. apply hdr_loop_go. cbn [hdr_step]. rewrite bool_decide_true by done. cbn [andb Z.eqb].
  assert (E : chk && true && bool_decide (conf_auth <> []) && bool_decide (conf_auth <> au) = false).
  { destruct Ha as [->|[->| ->]]; [done| |]; [by rewrite (bool_decide_false ([] <> []))
      by auto; destruct chk|rewrite (bool_decide_false (au <> au)) by auto; by rewrite andb_false_r]. }
  rewrite E. done.
Qed.

(** The kind and the raw bytes after it, spaces included. *)
Lemma hdr_raw raw l i au nm tl fl st ao mx :
  2 <= zlen fl ->
  hdr_loop conf_auth chk (raw ++ l) i (Hdr au nm tl fl 3 st ao mx (zlen raw)) =
    hdr_loop conf_auth chk l (i + zlen raw) (Hdr au nm tl (fl ++ raw) 3 st ao mx 0).
Proof.
  revert i fl; induction raw as [|c raw IH]; intros i fl Hf.
  - rewrite app_nil_r. cbn [app length]. f_equal; lia.
  - rewrite <- app_comm_cons, (hdr_loop_go c _ i _ (Hdr au nm tl (fl ++ [c]) 3 st ao mx (zlen raw))).
    + rewrite IH by (rewrite length_app; simpl; lia). rewrite <- app_assoc. cbn [app length]. f_equal; lia.
    + cbn [hdr_step]. rewrite (proj2 (Z.eqb_neq (zlen (c :: raw)) 0)) by (simpl; lia). rewrite andb_false_r.
      rewrite (proj2 (Z.ltb_lt 0 _)) by (simpl; lia). cbn [Z.eqb].
      rewrite (proj2 (Z.eqb_neq (zlen (fl ++ [c])) 2)) by (rewrite length_app; simpl; lia).
      do 2 f_equal. simpl. lia.
Qed.

Lemma hdr_kind k1 k2 l i au nm tl st ao mx :
  k1 <> x20 -> k2 <> x20 ->
  hdr_loop conf_auth chk (k1 :: k2 :: l) i (Hdr au nm tl [] 3 st ao mx 0) =
    hdr_loop conf_auth chk l (i + 2) (Hdr au nm tl [k1; k2] 3 st ao mx (stable_bytes [k1; k2] 0)).
Proof.
  intros H1 H2. rewrite (hdr_loop_go k1 _ i _ (Hdr au nm tl [k1] 3 st ao mx 0)).
  - rewrite (hdr_loop_go k2 _ (i + 1) _ (Hdr au nm tl [k1; k2] 3 st ao mx (stable_bytes [k1; k2] 0))).
    + f_equal. lia.
    + cbn [hdr_step]. by rewrite bool_decide_false.
  - cbn [hdr_step]. by rewrite bool_decide_false.
Qed.

Lemma hdr_end l i au nm tl fl st ao mx :
  hdr_loop conf_auth chk (x20 :: l) i (Hdr au nm tl fl 3 st ao mx 0) = Hdr au nm tl fl 3 i ao mx 0.
Proof. apply hdr_loop_stop. cbn [hdr_step]. rewrite bool_decide_true by done. cbn [andb Z.eqb]. by rewrite andb_false_r. Qed.
End header.

(** A request as a client writes it: key, name, time to live, flags, content. *)
Record request := Request { q_auth : bytes; q_name : bytes; q_ttl : bytes; q_flags : bytes; q_body : bytes }.

Definition enc_request (q : request) : bytes :=
  q_auth q ++ x20 :: q_name q ++ x20 :: q_ttl q ++ x20 :: q_flags q ++ x20 :: q_body q.

(** The flags are two digits of a kind and as many raw bytes as the kind has. *)
Definition flags_ok (fl : bytes) : Prop :=
  exists k1 k2 raw, fl = k1 :: k2 :: raw /\ k1 <> x20 /\ k2 <> x20 /\ zlen raw = stable_bytes [k1; k2] 0.

Record request_ok (q : request) : Prop := {
  ok_auth : x20 ∉ q_auth q;
  ok_auth_size : zlen (q_auth q) <= 256;
  ok_name : x20 ∉ q_name q;
  ok_ttl : x20 ∉ q_ttl q;
  ok_flags : flags_ok (q_flags q) }.

Definition parsed (q : request) : hdr :=
  Hdr (q_auth q) (q_name q) (q_ttl q) (q_flags q) 3
    (zlen (q_auth q) + zlen (q_name q) + zlen (q_ttl q) + zlen (q_flags q) + 3) true (256 - zlen (q_auth q)) 0.

Lemma hdr_loop_request conf_auth chk q :
  request_ok q -> auth_ok conf_auth chk (q_auth q) ->
  hdr_loop conf_auth chk (enc_request q) 0 hdr_init = parsed q.
Proof.
  intros [H1 H2 H3 H4 (k1 & k2 & raw & Hf & Hk1 & Hk2 & Hr)] Ha. unfold enc_request, hdr_init, parsed.
  rewrite hdr_auth by (done || lia). rewrite hdr_space_auth by done. rewrite hdr_name by done.
  rewrite hdr_space by lia. rewrite hdr_ttl by done. rewrite hdr_space by lia. rewrite Hf, <- !app_comm_cons.
  rewrite hdr_kind by done. rewrite <- Hr, hdr_raw by (simpl; lia). rewrite hdr_end. cbn [app length].
  f_equal. lia.
Qed.

Lemma request_split q : exists pre, enc_request q = pre ++ q_body q /\ zlen pre = start_content_from (parsed q) + 1.
Proof.
  exists (q_auth q ++ [x20] ++ q_name q ++ [x20] ++ q_ttl q ++ [x20] ++ q_flags q ++ [x20]).
  split; [unfold enc_request; by rewrite <- !app_assoc|]. rewrite !length_app. cbn [parsed start_content_from length]. lia.
Qed.

Lemma length_request q : zlen (enc_request q) = start_content_from (parsed q) + 1 + zlen (q_body q).
Proof. destruct (request_split q) as (pre & -> & Hp). rewrite length_app. lia. Qed.

Lemma zsub_request q o n :
  0 <= o -> zsub (enc_request q) (start_content_from (parsed q) + 1 + o) n = zsub (q_body q) o n.
Proof. intros Ho. destruct (request_split q) as (pre & -> & <-). rewrite zsub_skip by lia. f_equal. lia. Qed.

Lemma request_body q : zsub (enc_request q) (start_content_from (parsed q) + 1) (zlen (enc_request q)) = q_body q.
Proof.
  replace (start_content_from (parsed q) + 1) with (start_content_from (parsed q) + 1 + 0) by lia.
  rewrite zsub_request by lia. apply zsub_all. destruct (request_split q) as (pre & -> & _). rewrite length_app. lia.
Qed.

(** The parser of [accept_file] reads a request back as the client wrote it: key, name,
    time to live, flags and the position of the content, also when the timestamp and the
    checksum in the flags contain bytes that look like separators. *)
Theorem accept_parses_request conf_auth chk q :
  request_ok q -> auth_ok conf_auth chk (q_auth q) ->
  let h := hdr_loop conf_auth chk (enc_request q) 0 hdr_init in
  h_auth h = q_auth q /\ h_name h = q_name q /\ h_ttl h = q_ttl q /\ h_flags h = q_flags q /\
  is_auth_ok h = true /\
  zsub (enc_request q) (start_content_from h + 1) (zlen (enc_request q)) = q_body q.
Proof. intros Hq Ha h. unfold h. rewrite hdr_loop_request by done. do 5 (split; [done|]). apply request_body. Qed.

Definition example_request : request :=
  Request (lit "key") (lit "sub/a") (lit "0")
    (lit "01" ++ numeric_to_chars I64 2314885530818453536 ++ numeric_to_chars I64 (-1)) (lit "hello world").

Lemma example_request_ok : request_ok example_request.
Proof.
  split; try (by apply (bool_decide_unpack _)).
  exists x30, x31, (numeric_to_chars I64 2314885530818453536 ++ numeric_to_chars I64 (-1)).
  split; [done|]. split; [done|]. split; [done|]. by vm_compute.
Qed.

Lemma accept_parses_request_witness :
  let h := hdr_loop (lit "key") true (enc_request example_request) 0 hdr_init in
  h_auth h = lit "key" /\ h_name h = lit "sub/a" /\ h_ttl h = lit "0" /\ h_flags h = q_flags example_request /\
  is_auth_ok h = true /\
  zsub (enc_request example_request) (start_content_from h + 1) (zlen (enc_request example_request)) = lit "hello world".
Proof. apply (accept_parses_request (lit "key") true example_request example_request_ok). right. right. reflexivity. Defined.

(** ** Authentication *)

Lemma hdr_wrong_auth conf_auth l i au st mx :
  conf_auth <> [] -> (forall u r, l = u ++ x20 :: r -> au ++ u <> conf_auth) ->
  h_name (hdr_loop conf_auth true l i (Hdr au [] [] [] 0 st true mx 0)) = [].
Proof.
  intros Hc. revert i au mx; induction l as [|c l IH]; intros i au mx Hl; [done|]. cbn [hdr_loop hdr_step].
  destruct (decide (c = x20)) as [->|Hne].
  - rewrite bool_decide_true by done. cbn [andb Z.eqb]. rewrite (bool_decide_true (conf_auth <> [])) by done.
    rewrite (bool_decide_true (conf_auth <> au)); [done|]. intros ->. apply (Hl [] l eq_refl). by rewrite app_nil_r.
  - rewrite bool_decide_false by done. cbn [andb Z.ltb Z.compare Z.eqb]. destruct (mx =? 0); [done|].
    apply IH. intros u r -> E. apply (Hl (c :: u) r eq_refl). by rewrite <- E, <- app_assoc.
Qed.

Section accept.
Context `{JdbEngine}.
Context (hash : bytes -> Z) (decrypt : bytes -> bytes -> bytes -> bytes) (opens : bytes -> bool).

(** The request as the parser sees it. *)
Definition plaintext (content : bytes) (need_check_aes : bool) (s : server) : bytes :=
  if need_check_aes && bool_decide (aes_key (conf s) <> [])
  then decrypt content (aes_key (conf s)) (iv (conf s)) else content.

(** when a key is configured and has to be checked, a request whose plain text does not
    begin with that key and a space changes nothing: no file, no account, no replication. *)
Theorem accept_requires_key locked now content aes s :
  auth (conf s) <> [] -> starts_with (plaintext content aes s) (auth (conf s) ++ [x20]) = false ->
  exists res, accept_file hash decrypt opens locked now content true aes s = Some (res, s, None).
Proof.
  intros Ha Hs. unfold accept_file. fold (plaintext content aes s). set (c := plaintext content aes s) in *.
  destruct (negb (2 <? zlen content)); [eauto|]. destruct (negb (enable_write (conf s))); [eauto|].
  destruct (negb (2 <? zlen c)); [eauto|].
  assert (E : h_name (hdr_loop (auth (conf s)) true c 0 hdr_init) = []).
  { apply hdr_wrong_auth; [done|]. intros u r Hc Hu. cbn [app] in Hu. subst u. revert Hs. rewrite Hc.
    replace (auth (conf s) ++ x20 :: r) with ((auth (conf s) ++ [x20]) ++ r) by (by rewrite <- app_assoc).
    by rewrite starts_with_app. }
  rewrite E. cbn [length]. cbn [Z.ltb Z.compare Z.of_nat]. destruct (negb (is_auth_ok _)); eauto.
Qed.
End accept.

(** A server with one directory. *)
Definition example_server : server :=
  Server (Conf true true (lit "key") [] [] (lit "/ttl/") 2
    {[ lit "sub" := Directory true (lit "/d/") 1000000 4096000 4096 ]}) ∅.

#[local] Instance no_jdb : JdbEngine :=
  {| createDatabaseContent := fun _ _ _ _ _ => Some (DbContent [] [] 1 false true); jdb_fetch := fun _ _ _ _ => Some [] |}.

Lemma accept_requires_key_witness :
  exists res, accept_file (fun _ => 7) (fun c _ _ => c) (fun _ => true) true example_dt
    (lit "kex sub/a 0 00 stolen") true false example_server = Some (res, example_server, None).
Proof.
  apply (accept_requires_key (fun _ => 7) (fun c _ _ => c) (fun _ => true) true example_dt
    (lit "kex sub/a 0 00 stolen") false example_server); [discriminate|by vm_compute].
Defined.

(** ** Storing and reading back *)

Lemma blocks_bound blk s : 0 < blk -> 0 <= s -> s < blocks blk s <= s + blk.
Proof.
  intros Hb Hs. unfold blocks. pose proof (Z.div_mod s blk ltac:(lia)). pose proof (Z.mod_pos_bound s blk ltac:(lia)). lia.
Qed.

Lemma taken_bound blk o : block_ok blk -> (forall c, o = Some c -> file_ok blk c) -> 0 <= taken blk o < 2 ^ 31.
Proof.
  intros (k & Hk & ->) Hf. pose proof (Z.pow_pos_nonneg 2 k ltac:(lia) ltac:(lia)) as Hp.
  destruct o as [c|]; simpl; [|lia]. destruct (Hf c eq_refl) as [H1 H2].
  pose proof (blocks_bound (2 ^ k) (zlen c) Hp ltac:(lia)). lia.
Qed.

Section ttl.
Context (opens : bytes -> bool).

(** The expiry lists lie outside of the directory. *)
Definition outside (c : server_conf) (d : directory) : Prop :=
  forall x, starts_with (ttl_p c ++ x) (dir_p d) = false.

Definition same_in (d : directory) (f f' : fs) : Prop :=
  (forall n, starts_with n (dir_p d) = true -> f' !! n = f !! n) /\
  (forall blk, used (dir_p d) blk f' = used (dir_p d) blk f).

Lemma append_outside n line d f :
  starts_with n (dir_p d) = false -> same_in d f (append_to_file opens n line f).2.
Proof.
  intros Hn. unfold append_to_file. destruct (opens n); [|done]. cbn [snd]. split.
  - intros n' Hn'. apply lookup_insert_ne. congruence.
  - intros blk. by apply used_other.
Qed.

Lemma same_in_trans d f1 f2 f3 : same_in d f1 f2 -> same_in d f2 f3 -> same_in d f1 f3.
Proof. intros [A1 B1] [A2 B2]. split; [intros n Hn; by rewrite A2, A1|intros blk; by rewrite B2, B1]. Qed.

Lemma ttl_append_outside n i path line d f :
  (forall x, starts_with (path ++ x) (dir_p d) = false) -> same_in d f (ttl_append opens n i path line f).2.
Proof.
  intros Ho. revert i f; induction n as [|n IH]; intros i f; cbn [ttl_append]; [by split|].
  pose proof (append_outside (path ++ to_string i) line d f (Ho _)) as Ha.
  destruct (append_to_file opens (path ++ to_string i) line f) as [o f1]. cbn [snd] in Ha.
  destruct o; [done|]. eapply same_in_trans; [done|apply IH].
Qed.

Lemma note_ttl_elsewhere now ttl d0 file_name c f n :
  starts_with n (ttl_p c) = false -> (note_ttl opens now ttl d0 file_name c f).2 !! n = f !! n.
Proof.
  intros Hn. unfold note_ttl. set (path := ttl_p c ++ _). set (line := dir_p d0 ++ _).
  assert (Ha : forall x f0, (append_to_file opens (path ++ x) line f0).2 !! n = f0 !! n).
  { intros x f0. unfold append_to_file. destruct (opens (path ++ x)); [|done]. cbn [snd]. apply lookup_insert_ne.
    intros <-. unfold path in Hn. by rewrite <- app_assoc, starts_with_app in Hn. }
  assert (Ht : forall k i f0, (ttl_append opens k i path line f0).2 !! n = f0 !! n).
  { induction k as [|k IH]; intros i f0; cbn [ttl_append]; [done|]. specialize (Ha (to_string i) f0).
    destruct (append_to_file opens (path ++ to_string i) line f0) as [[] f1]; cbn [snd] in *; [done|]. by rewrite IH. }
  specialize (Ha [] f). rewrite app_nil_r in Ha. destruct (append_to_file opens path line f) as [[] f1]; cbn [snd] in *; [done|].
  by rewrite Ht.
Qed.

Lemma note_ttl_outside now ttl d d0 file_name c f :
  outside c d -> same_in d f (note_ttl opens now ttl d0 file_name c f).2.
Proof.
  intros Ho. unfold note_ttl.
  set (path := ttl_p c ++ get_date (lit "-") (add_days ttl now) ++ lit "/ttl").
  assert (Hp : forall x, starts_with (path ++ x) (dir_p d) = false)
    by (intros x; unfold path; rewrite <- !app_assoc; apply Ho).
  pose proof (Hp []) as Hp0. rewrite app_nil_r in Hp0.
  pose proof (append_outside path (dir_p d0 ++ file_name ++ [x0a]) d f Hp0) as Ha.
  destruct (append_to_file opens path _ f) as [o f1]. cbn [snd] in Ha.
  destruct o; [done|]. eapply same_in_trans; [done|]. by apply ttl_append_outside.
Qed.
End ttl.

(** The flags of a write with a timestamp and a checksum. *)
Definition stamp_flags (w : w_type) (tms crc : Z) : bytes :=
  pad2 (w_code w) ++ numeric_to_chars I64 tms ++ numeric_to_chars I64 crc.

(** Kinds whose writes carry both stamps, are replicated and replace the file as a whole.  Of the
    kinds with both stamps "ajdb", which appends, and "jdb_formed" are left out. *)
Definition stamped (w : w_type) : Prop := w = updatable \/ w = updatable_without_compress \/ w = jdb.

Lemma stamp_flags_fields w tms crc : stamped w ->
  zlen (stamp_flags w tms crc) = 18 /\ zsub (stamp_flags w tms crc) 0 2 = pad2 (w_code w) /\
  zsub (stamp_flags w tms crc) 2 8 = numeric_to_chars I64 tms /\
  zsub (stamp_flags w tms crc) 10 8 = numeric_to_chars I64 crc.
Proof.
  intros Hw. assert (Hk : length (pad2 (w_code w)) = 2%nat) by (destruct Hw as [-> | [-> | ->]]; done).
  unfold stamp_flags. generalize (pad2 (w_code w)) Hk. intros k Hk'. repeat split.
  - rewrite !length_app, Hk', !length_numeric_to_chars. reflexivity.
  - apply zsub_head. by rewrite Hk'.
  - rewrite zsub_skip by lia. replace (2 - zlen k) with 0 by lia. apply zsub_head. by rewrite length_numeric_to_chars.
  - rewrite !zsub_skip by (rewrite ?length_numeric_to_chars; simpl; lia).
    rewrite length_numeric_to_chars. replace (10 - zlen k - Z.of_nat (sizeof I64)) with 0 by (simpl; lia).
    rewrite <- (app_nil_r (numeric_to_chars I64 crc)) at 1. apply zsub_head. by rewrite length_numeric_to_chars.
Qed.

(** What is written for a request: its content, or what the json database makes of it. *)
Definition payload_of `{JdbEngine} (opens : bytes -> bool) (now : date_time) (d : directory) (file_name : bytes) (q : request)
    (w : w_type) (f : fs) : option jdb_result :=
  match w with
  | jdb | ajdb => jdb_part opens now d file_name (q_name q) (enc_request q) (start_content_from (parsed q)) w f ∅
  | _ => Some (JdbResult (q_body q) false true d f ∅)
  end.

Section store.
Context `{JdbEngine} (hash : bytes -> Z) (decrypt : bytes -> bytes -> bytes -> bytes) (opens : bytes -> bool).
Context (now : date_time) (Hnow : normal now) (Hyear : 1000 <= year (date_ now) <= 9999).
Context (w : w_type) (Hw : stamped w).
Context (tms crc : Z) (Htms : in_range I64 tms) (Hcrc : in_range I64 crc).
Context (q : request) (Hq : request_ok q) (Hflags : q_flags q = stamp_flags w tms crc).
Context (Hname : zlen (q_name q) <= 64).
Context (sub fname : bytes) (Hsub : split_subfolder (q_name q) = (sub, fname)) (Hfname : fname <> []).
Context (s : server) (d : directory) (Hd : dirs (conf s) !! sub = Some d).
Let name := dir_p d ++ segment_name hash fname.
Let ttl := default 0 (stoi I32 (q_ttl q)).
Context (payload : bytes) (Hpay : payload_of opens now d (segment_name hash fname) q w (files s) =
  Some (JdbResult payload false true d (files s) ∅)).
Context (Hopen : opens name = true) (Hblk : block_ok (fs_block_size_b d)).
Context (Hold : forall c, files s !! name = Some c -> file_ok (fs_block_size_b d) c).
Context (Hnew : forall c, written now ttl (headers_of w tms crc) payload = Some c -> file_ok (fs_block_size_b d) c).
Context (Hcurr : 0 <= curr_size_b d < 2 ^ 62) (Hout : outside (conf s) d).

(** The list of the date on which the file expires. *)
Definition expiry_list : bytes := ttl_p (conf s) ++ get_date (lit "-") (add_days ttl now) ++ lit "/ttl".

(** The outcome of a write, as a specification. *)
Record stored (r : response * server * option (bytes * Z * Z)) : Prop := {
  st_status : (r.1.1 : response) !! lit "status" = Some (JStr (lit "01"));
  st_event : r.2 = Some (q_name q, tms, crc);
  st_file : files r.1.2 !! name = written now ttl (headers_of w tms crc) payload;
  st_others n : n <> name -> starts_with n (dir_p d) = true -> files r.1.2 !! n = files s !! n;
  st_dir : exists d', dirs (conf r.1.2) = <[sub := d']> (dirs (conf s)) /\ dir_p d' = dir_p d /\
    curr_size_b d' = curr_size_b d +
      (used (dir_p d) (fs_block_size_b d) (files r.1.2) - used (dir_p d) (fs_block_size_b d) (files s));
  st_read : enable_read (conf r.1.2) = enable_read (conf s);
  st_conf : exists z, conf r.1.2 = conf (set_dir sub (inc_curr_disk_size z d) s);
  st_elsewhere n : n <> name -> starts_with n (ttl_p (conf s)) = false -> files r.1.2 !! n = files s !! n;
  st_noted n : 0 < ttl -> opens expiry_list = true -> n <> name -> files r.1.2 !! n =
    if decide (n = expiry_list) then Some (default [] (files s !! expiry_list) ++ name ++ [x0a]) else files s !! n }.

Lemma file_headers_stamp : file_headers w (q_flags q) = (headers_of w tms crc, true).
Proof.
  destruct (stamp_flags_fields w tms crc Hw) as (H1 & H2 & H3 & H4). rewrite Hflags. unfold file_headers.
  rewrite H1, H3, H4. by destruct Hw as [-> | [-> | ->]].
Qed.

Lemma written_size : let o := written now ttl (headers_of w tms crc) payload in
  wrap I32 (0 + (taken (fs_block_size_b d) o - taken (fs_block_size_b d) (files s !! name))) =
    taken (fs_block_size_b d) o - taken (fs_block_size_b d) (files s !! name).
Proof.
  intros o. pose proof (taken_bound _ o Hblk Hnew). pose proof (taken_bound _ (files s !! name) Hblk Hold).
  apply wrap_id. range_lia.
Qed.

Lemma used_bound : let o := written now ttl (headers_of w tms crc) payload in
  wrap I64 (curr_size_b d + (taken (fs_block_size_b d) o - taken (fs_block_size_b d) (files s !! name))) =
    curr_size_b d + (taken (fs_block_size_b d) o - taken (fs_block_size_b d) (files s !! name)).
Proof.
  intros o. pose proof (taken_bound _ o Hblk Hnew). pose proof (taken_bound _ (files s !! name) Hblk Hold).
  apply wrap_id. range_lia.
Qed.

Lemma expiry_list_ne : expiry_list <> name.
Proof.
  intros E. pose proof (Hout (get_date (lit "-") (add_days ttl now) ++ lit "/ttl")) as Ho.
  fold expiry_list in Ho. unfold expiry_list in E, Ho. rewrite E in Ho. unfold name in Ho. by rewrite starts_with_app in Ho.
Qed.

Lemma note_ttl_first now' ttl' d0 file_name c f :
  let path := ttl_p c ++ get_date (lit "-") (add_days ttl' now') ++ lit "/ttl" in
  opens path = true -> (note_ttl opens now' ttl' d0 file_name c f).2 =
    <[path := default [] (f !! path) ++ dir_p d0 ++ file_name ++ [x0a]]> f.
Proof. intros path Ho. unfold note_ttl, append_to_file. fold path. rewrite Ho. done. Qed.

Lemma store_file_stored exists_ :
  exists r, store_file opens now (q_name q) (segment_name hash fname) sub (enc_request q) (parsed q) d exists_ s = Some r /\
    stored r.
Proof.
  destruct (stamp_flags_fields w tms crc Hw) as (H1 & H2 & H3 & H4).
  unfold store_file. rewrite request_body. cbn [parsed h_flags h_ttl]. fold ttl. rewrite Hflags, H1, H2.
  change (2 <=? 18) with true. cbv iota. rewrite stoi_pad2 by (by destruct Hw as [-> | [-> | ->]]). rewrite <- Hflags, file_headers_stamp.
  pose proof Hpay as Hj. unfold payload_of in Hj. cbn [parsed start_content_from] in Hj |- *. rewrite Hj. cbn [mbind option_bind jdb_dir ok_jdb_write negb to_write jdb_files jdb_res is_append].
  eexists. split; [reflexivity|].
  assert (Hh : match headers_of w tms crc with [] => [lit "00"] | _ => headers_of w tms crc end = headers_of w tms crc)
    by (by destruct Hw as [-> | [-> | ->]]).
  rewrite Hh. rewrite (bool_decide_false (w = appendable)) by (by destruct Hw as [-> | [-> | ->]]). cbn [andb].
  rewrite write_file_spec by done. fold name. rewrite written_size.
  set (o := written now ttl (headers_of w tms crc) payload) in *.
  set (f' := partial_alter (fun _ => o) name (files s)).
  set (d' := inc_curr_disk_size (taken (fs_block_size_b d) o - taken (fs_block_size_b d) (files s !! name)) d).
  assert (He : (if true then match headers_of w tms crc with
    | _ :: t :: c :: _ => Some (q_name q, chars_to_numeric I64 t, chars_to_numeric I64 c) | _ => None end else None)
    = Some (q_name q, tms, crc)).
  { destruct Hw as [-> | [-> | ->]]; cbn [headers_of]; by rewrite !chars_to_numeric_to_chars. }
  assert (Hu : used (dir_p d) (fs_block_size_b d) f' = used (dir_p d) (fs_block_size_b d) (files s) +
    (taken (fs_block_size_b d) o - taken (fs_block_size_b d) (files s !! name))) by apply used_write.
  assert (Hd' : curr_size_b d' = curr_size_b d +
    (used (dir_p d) (fs_block_size_b d) f' - used (dir_p d) (fs_block_size_b d) (files s))).
  { unfold d'. cbn [inc_curr_disk_size curr_size_b]. unfold o in *. rewrite used_bound, Hu. lia. }
  assert (Hn : forall f2, same_in d f' f2 -> f2 !! name = o /\
    (forall n, n <> name -> starts_with n (dir_p d) = true -> f2 !! n = files s !! n) /\
    used (dir_p d) (fs_block_size_b d) f2 = used (dir_p d) (fs_block_size_b d) f').
  { intros f2 [A B]. split; [rewrite A by apply starts_with_app; unfold f'; apply lookup_partial_alter_eq|].
    split; [|apply B]. intros n Hne Hp. rewrite A by done. unfold f'. by apply lookup_partial_alter_ne. }
  assert (Hf' : forall n, n <> name -> f' !! n = files s !! n) by (intros n Hne; by apply lookup_partial_alter_ne).
  destruct (Z.ltb_spec 0 ttl) as [Httl|Httl]; cbn [andb negb].
  - pose proof (note_ttl_outside opens now ttl d d' (segment_name hash fname) (conf s) f' Hout) as Ho.
    pose proof (fun n => note_ttl_elsewhere opens now ttl d' (segment_name hash fname) (conf s) f' n) as He2.
    pose proof (note_ttl_first now ttl d' (segment_name hash fname) (conf s) f') as Hnt.
    destruct (note_ttl opens now ttl d' (segment_name hash fname) (conf s) f') as [o2 f2]. cbn [snd] in Ho, He2, Hnt.
    destruct (Hn f2 Ho) as (A & B & C).
    split; cbn [fst snd set_files set_dir files conf dirs enable_read]; [|exact He|exact A|exact B| |done|by eexists| |].
    + rewrite !lookup_insert_ne by done. by vm_compute.
    + exists d'. split; [done|]. split; [done|]. by rewrite C.
    + intros n Hne Hnt'. by rewrite He2, Hf'.
    + intros n _ Hop Hne. fold expiry_list in Hnt. rewrite Hnt by done. rewrite Hf' by apply expiry_list_ne.
      case_decide as E; [subst n; rewrite lookup_insert_eq; unfold name; by rewrite <- app_assoc|]. by rewrite lookup_insert_ne, Hf' by done.
  - destruct (Hn f' ltac:(by split)) as (A & B & C).
    split; cbn [fst snd set_files set_dir files conf dirs enable_read]; [|exact He|exact A|exact B| |done|by eexists| |].
    + rewrite !lookup_insert_ne by done. by vm_compute.
    + exists d'. done.
    + intros n Hne _. by apply Hf'.
    + intros n Hlt. lia.
Qed.

Lemma accept_file_stored chk (Hroom : is_file_exists (files s) name = true \/
    (enabled d = true /\ curr_size_b d < max_size_b d)) :
  enable_write (conf s) = true -> auth_ok (auth (conf s)) chk (q_auth q) ->
  exists r, accept_file hash decrypt opens true now (enc_request q) chk false s = Some r /\ stored r.
Proof.
  intros Hen Ha. unfold accept_file.
  assert (Hl : 2 < zlen (enc_request q)).
  { unfold enc_request. rewrite length_app. cbn [length]. rewrite length_app. cbn [length]. rewrite length_app. cbn [length]. lia. }
  rewrite (proj2 (Z.ltb_lt _ _)) by done. rewrite Hen. cbn [negb andb].
  rewrite (proj2 (Z.ltb_lt _ _)) by done. cbn [negb]. rewrite hdr_loop_request by done.
  cbn [parsed h_name is_auth_ok negb]. rewrite (proj2 (Z.ltb_ge _ _)) by lia. rewrite Hsub.
  assert (E : forall A (x y : A), match fname with [] => x | _ :: _ => y end = y)
    by (clear -Hfname; intros; by destruct fname).
  rewrite E, Hd. fold name.
  replace (is_file_exists (files s) name || (enabled d && (curr_size_b d <? max_size_b d))) with true
    by (destruct Hroom as [-> | [-> Hlt]]; [done|]; by rewrite (proj2 (Z.ltb_lt _ _)), orb_true_r).
  apply (store_file_stored (is_file_exists (files s) name)).
Qed.
End store.

(** A write that the server can carry out: the request is well formed and its directory is
    there, the file can be opened, and what the file takes before and after fits the 31-bit
    counters. *)
Record storable `{JdbEngine} (hash : bytes -> Z) (opens : bytes -> bool) (now : date_time) (w : w_type) (tms crc : Z)
    (q : request) (payload sub fname : bytes) (s : server) (d : directory) : Prop := {
  so_now : normal now;
  so_year : 1000 <= year (date_ now) <= 9999;
  so_kind : stamped w;
  so_tms : in_range I64 tms;
  so_crc : in_range I64 crc;
  so_request : request_ok q;
  so_flags : q_flags q = stamp_flags w tms crc;
  so_name : zlen (q_name q) <= 64;
  so_sub : split_subfolder (q_name q) = (sub, fname);
  so_fname : fname <> [];
  so_payload : payload_of opens now d (segment_name hash fname) q w (files s) =
    Some (JdbResult payload false true d (files s) ∅);
  so_dir : dirs (conf s) !! sub = Some d;
  so_open : opens (dir_p d ++ segment_name hash fname) = true;
  so_block : block_ok (fs_block_size_b d);
  so_old c : files s !! (dir_p d ++ segment_name hash fname) = Some c -> file_ok (fs_block_size_b d) c;
  so_new c : written now (default 0 (stoi I32 (q_ttl q))) (headers_of w tms crc) payload = Some c ->
    file_ok (fs_block_size_b d) c;
  so_curr : 0 <= curr_size_b d < 2 ^ 62;
  so_outside : outside (conf s) d;
  so_room : is_file_exists (files s) (dir_p d ++ segment_name hash fname) = true \/
    (enabled d = true /\ curr_size_b d < max_size_b d);
  so_enabled : enable_write (conf s) = true }.

Lemma storable_stored `{JdbEngine} hash decrypt opens now w tms crc q payload sub fname s d chk :
  storable hash opens now w tms crc q payload sub fname s d -> auth_ok (auth (conf s)) chk (q_auth q) ->
  exists r, accept_file hash decrypt opens true now (enc_request q) chk false s = Some r /\
    stored hash opens now w tms crc q sub fname s d payload r.
Proof. intros [] Ha. by apply accept_file_stored. Qed.

Lemma stored_read `{JdbEngine} hash opens now w tms crc q payload sub fname s d r :
  storable hash opens now w tms crc q payload sub fname s d -> stored hash opens now w tms crc q sub fname s d payload r ->
  enable_read (conf s) = true -> payload <> [] -> str_find (lit "?jdb") fname = None ->
  server_read_file hash true (q_name q) 0 r.1.2 =
    Some (answer ok, file_header now (default 0 (stoi I32 (q_ttl q))) (headers_of w tms crc) ++ payload).
Proof.
  intros Hs [_ _ S3 _ (d' & S5 & S6 & _) S8 _ _ _] Hr Hb Hj.
  unfold server_read_file. rewrite (so_sub _ _ _ _ _ _ _ _ _ _ _ _ Hs). unfold cut_jdb. rewrite Hj. cbn [negb].
  rewrite S8, Hr, S5, lookup_insert_eq, S6. unfold is_file_exists, read_file. rewrite S3.
  unfold written. destruct payload as [|b0 bs] eqn:Eb; [done|]. rewrite <- Eb in *.
  rewrite bool_decide_true by done. cbn [negb mbind option_bind Z.eqb andb].
  destruct (file_header _ _ _ ++ payload) eqn:E; [|done].
  apply app_eq_nil in E as [_ E]. by rewrite E in Eb.
Qed.

(** C6: a write with a timestamp and a checksum is answered with status 01 and announced to the
    replication log; what a read returns right after it is the header and the payload that
    were written (the content, or for a database what the json database makes of it); no other file of the directory changes; and the running size of the
    directory changes by exactly the blocks that its files take more or less. *)
Theorem accept_then_read `{JdbEngine} hash decrypt opens now w tms crc q payload sub fname s d chk :
  storable hash opens now w tms crc q payload sub fname s d -> auth_ok (auth (conf s)) chk (q_auth q) ->
  enable_read (conf s) = true -> payload <> [] -> str_find (lit "?jdb") fname = None ->
  exists res s', accept_file hash decrypt opens true now (enc_request q) chk false s =
    Some (res, s', Some (q_name q, tms, crc)) /\
  res !! lit "status" = Some (JStr (lit "01")) /\
  server_read_file hash true (q_name q) 0 s' =
    Some (answer ok, file_header now (default 0 (stoi I32 (q_ttl q))) (headers_of w tms crc) ++ payload) /\
  (forall n, n <> dir_p d ++ segment_name hash fname -> starts_with n (dir_p d) = true ->
     files s' !! n = files s !! n) /\
  exists d', dirs (conf s') = <[sub := d']> (dirs (conf s)) /\
    curr_size_b d' = curr_size_b d +
      (used (dir_p d) (fs_block_size_b d) (files s') - used (dir_p d) (fs_block_size_b d) (files s)).
Proof.
  intros Hs Ha Hr Hb Hj.
  destruct (storable_stored hash decrypt opens now w tms crc q payload sub fname s d chk Hs Ha) as (r & E0 & Hst).
  pose proof (stored_read hash opens now w tms crc q payload sub fname s d r Hs Hst Hr Hb Hj) as Hread.
  destruct r as [[res s'] event], Hst as [S1 S2 S3 S4 (d' & S5 & S6 & S7) _ _ _ _]. cbn [fst snd] in *. subst event.
  exists res, s'. do 2 (split; [done|]). split; [exact Hread|]. split; [exact S4|by exists d'].
Qed.

Lemma accept_then_read_witness :
  exists res s', accept_file (fun _ => 7) (fun c _ _ => c) (fun _ => true) true example_dt
    (enc_request example_request) true false
    (Server (Conf true true (lit "key") [] [] (lit "/ttl/") 2
      {[ lit "sub" := Directory true (lit "/d/") 10000000 4096000 4096 ]}) ∅) =
    Some (res, s', Some (lit "sub/a", 2314885530818453536, -1)) /\
  res !! lit "status" = Some (JStr (lit "01")) /\
  server_read_file (fun _ => 7) true (lit "sub/a") 0 s' =
    Some (answer ok, file_header example_dt 0 (headers_of updatable 2314885530818453536 (-1)) ++ lit "hello world").
Proof.
  set (d := Directory true (lit "/d/") 10000000 4096000 4096).
  set (s := Server _ _).
  assert (Hs : storable (fun _ => 7) (fun _ => true) example_dt updatable 2314885530818453536 (-1) example_request
    (lit "hello world") (lit "sub") (lit "a") s d).
  { split.
    - unfold normal, date_normal, time_normal. simpl. change (count_days_in_month 12 2023) with 31. lia.
    - simpl; lia.
    - by left.
    - range_lia.
    - range_lia.
    - exact example_request_ok.
    - reflexivity.
    - simpl; lia.
    - reflexivity.
    - discriminate.
    - reflexivity.
    - by vm_compute.
    - reflexivity.
    - exists 12. split; [lia|reflexivity].
    - intros c Hc. unfold s in Hc. cbn [files] in Hc. by rewrite lookup_empty in Hc.
    - intros c [= <-]. vm_compute. split; reflexivity.
    - simpl; lia.
    - intros x. reflexivity.
    - right. split; [reflexivity|simpl; lia].
    - reflexivity. }
  destruct (accept_then_read (fun _ => 7) (fun c _ _ => c) (fun _ => true) example_dt updatable 2314885530818453536 (-1)
    example_request (lit "hello world") (lit "sub") (lit "a") s d true Hs ltac:(right; right; reflexivity) eq_refl ltac:(discriminate) eq_refl)
    as (res & s' & T0 & T1 & T2 & _).
  exists res, s'. split; [exact T0|]. split; [exact T1|exact T2].
Defined.

(** ** Removal by a replicated write *)







