(* ===== verification/ServerJdb.v ===== *)
(** * The file server with the json database behind it

    [DiskServer] is written against the interface [JdbEngine]; here it runs with the instance
    of [JManager].  A request of kind "jdb" that the server accepts is answered, when it is
    queried by name, with exactly the records that satisfy the query. *)

From S2P Require Import Prelude Bitbase BasefuncStd DateTime Json JsonReader JsonReaderFacts BSearch DiskHelper WType JdbInterface JManager JManagerFacts DiskServer DiskServerFacts.
From Stdlib Require Import ZArith Lia Strings.Byte.
From stdpp Require Import base gmap strings numbers list.
Open Scope Z_scope.

(** ** Names and queries *)

(** A pattern is found behind a prefix that its first byte does not occur in. *)
Lemma str_find_fresh (c : byte) (p u v : bytes) : c ∉ u -> str_find (c :: p) (u ++ (c :: p) ++ v) = Some (length u).
Proof.
  induction u as [|x u IH]; intros Hc.
  - pose proof (is_prefix_app (c :: p) v) as E. cbn [app str_find] in *. by rewrite E.
  - cbn [app str_find length is_prefix]. rewrite bool_decide_false by set_solver. cbn [andb].
    cbn [app] in IH. by rewrite IH by set_solver.
Qed.

Lemma split_subfolder_name (sub rest : bytes) : x2f ∉ sub -> split_subfolder (sub ++ lit "/" ++ rest) = (sub, rest).
Proof.
  intros Hs. unfold split_subfolder. change (lit "/") with [x2f]. rewrite str_find_fresh by done.
  by rewrite take_app_length, <- drop_drop, drop_app_length.
Qed.

Lemma cut_jdb_query (fname qtext : bytes) : x3f ∉ fname -> cut_jdb (fname ++ lit "?jdb" ++ qtext) = (fname, Some qtext).
Proof.
  intros Hs. unfold cut_jdb. change (lit "?jdb") with (x3f :: lit "jdb"). rewrite str_find_fresh by done.
  by rewrite take_app_length, <- drop_drop, drop_app_length.
Qed.

(** ** What a "jdb" request stores *)

(** The body of such a request: the size of the settings, the settings, the records. *)
Definition jdb_body (sett data : bytes) : bytes := numeric_to_chars U32 (zlen sett) ++ sett ++ data.

Lemma jdb_part_create `{JEnv} (opens : bytes -> bool) (now : date_time) (d : directory) (fname : bytes) (q : request)
    (sett data : bytes) (f : fs) (c : DatabaseContent) :
  q_body q = jdb_body sett data -> zlen sett < 2 ^ 32 -> data <> [] -> 2 <= zlen sett + zlen data ->
  create f (dir_p d ++ fname) data sett jdb = Some c ->
  errorOccurred c = false -> version c = 1 -> append c = false ->
  payload_of opens now d fname q jdb f = Some (JdbResult (title c ++ body c) false true d f ∅).
Proof.
  intros Hb Hl Hd Hs Hc He Hv Ha. unfold payload_of, jdb_part. set (p := start_content_from (parsed q)).
  assert (Hp : 0 <= p) by (unfold p; cbn [parsed start_content_from]; lia).
  pose proof (length_request q) as Hq. fold p in Hq. rewrite Hb in Hq.
  assert (Hd0 : 0 < zlen data) by (destruct data; [done|cbn; lia]).
  assert (Hbody : zlen (jdb_body sett data) = 4 + zlen sett + zlen data)
    by (unfold jdb_body; rewrite !length_app, length_numeric_to_chars; cbn [sizeof]; lia).
  rewrite Hbody in Hq. rewrite (proj2 (Z.ltb_lt _ _)) by lia.
  assert (Hz : forall o n, 0 <= o -> zsub (enc_request q) (p + 1 + o) n = zsub (jdb_body sett data) o n)
    by (intros o n Ho; rewrite <- Hb; by apply zsub_request).
  assert (E1 : zsub (enc_request q) (p + 1) 4 = numeric_to_chars U32 (zlen sett)).
  { replace (p + 1) with (p + 1 + 0) by lia. rewrite Hz by lia. unfold jdb_body. apply zsub_head.
    by rewrite length_numeric_to_chars. }
  rewrite E1, chars_to_numeric_to_chars by range_lia. rewrite (proj2 (Z.ltb_lt _ _)) by lia.
  replace (p + 5) with (p + 1 + 4) by lia. rewrite <- Z.add_assoc, !Hz by lia.
  assert (E2 : zsub (jdb_body sett data) 4 (zlen sett) = sett).
  { unfold jdb_body. rewrite zsub_skip by (rewrite length_numeric_to_chars; cbn [sizeof]; lia).
    rewrite length_numeric_to_chars. apply zsub_head. done. }
  assert (E3 : zsub (jdb_body sett data) (4 + zlen sett) (zlen (enc_request q)) = data).
  { unfold jdb_body. rewrite !zsub_skip by (rewrite ?length_numeric_to_chars; cbn [sizeof]; lia).
    rewrite length_numeric_to_chars. replace (4 + zlen sett - Z.of_nat (sizeof U32) - zlen sett) with 0 by (cbn [sizeof]; lia).
    apply zsub_all. lia. }
  rewrite E2, E3. cbn [createDatabaseContent jdb_engine]. rewrite Hc. cbn [mbind option_bind].
  by rewrite He, Hv, Ha.
Qed.

(** The header that [write_file_to_disk] puts before a database. *)
Lemma db_header_written (now : date_time) (ttl tms crc : Z) :
  normal now -> 1000 <= year (date_ now) <= 9999 -> in_range I16 ttl ->
  db_header (file_header now ttl (headers_of jdb tms crc)).
Proof.
  intros Hn Hy Ht. exists (mjoin (headers_of jdb tms crc) ++ get_date_time now), (to_string ttl).
  split; [unfold file_header; by rewrite <- !app_assoc|]. split.
  - rewrite length_app, length_get_date_time by done. cbn [headers_of mjoin list_join].
    rewrite !length_app, !length_numeric_to_chars. reflexivity.
  - split; [by apply to_string_not_elem|]. pose proof (length_ttl ttl Ht). lia.
Qed.

(** ** Accepting a database and querying it *)

(** C7: end to end, for queries that ask fields to be equal to an integer or one of a list of
    integers: the server accepts a request of kind "jdb" with plain settings (version 1, not
    compressed; status 01, announced to the replication log), and a read of "name?jdb" with such a
    query is then answered with status 01 and the json array of exactly the records of the request that satisfy the query,
    after the header of the file unless the reader asks for no header, compressed unless the
    reader asks for plain text. *)
Theorem jdb_accept_then_query `{E : JEnv, L : !JEnvLaws E} (shash : bytes -> Z) (decrypt : bytes -> bytes -> bytes -> bytes)
    (opens : bytes -> bool) (now : date_time) (tms crc : Z) (q : request) (payload sub fname : bytes) (s : server)
    (d : directory) (chk : bool) (sett data qtext : bytes) (js : json) (items : list json)
    (conds : list (bytes * cond)) (qs : list (bytes * list Z)) (ro : Z) :
  storable shash opens now jdb tms crc q payload sub fname s d -> auth_ok (auth (conf s)) chk (q_auth q) ->
  enable_read (conf s) = true -> in_range I16 (default 0 (stoi I32 (q_ttl q))) ->
  q_name q = sub ++ lit "/" ++ fname -> x2f ∉ sub -> x3f ∉ fname ->
  q_body q = jdb_body sett data -> zlen sett < 2 ^ 32 -> data <> [] -> 2 <= zlen sett + zlen data ->
  parseJsonData sett = Some js -> plain_settings (read_settings js) ->
  parseJsonData data = Some (arrayValue items) -> Forall record items -> zlen (body_text items) < 2 ^ 32 ->
  parseJsonData qtext = Some (query conds) -> int_query conds qs ->
  (forall k it, k ∈ qs.*1 -> it ∈ items -> int_or_absent k it) ->
  stable (arrayValue items) = true ->
  (isBitSettedByNumber ro 2 = false \/ isBitSettedByNumber ro 1 = true) ->
  exists res s' its, accept_file shash decrypt opens true now (enc_request q) chk false s =
    Some (res, s', Some (q_name q, tms, crc)) /\ res !! lit "status" = Some (JStr (lit "01")) /\
  its ≡ₚ filter (fun it => satisfies qs it = true) items /\
  server_read_file shash true (q_name q ++ lit "?jdb" ++ qtext) ro s' =
    Some (answer ok,
      (if isBitSettedByNumber ro 2 then []
       else file_header now (default 0 (stoi I32 (q_ttl q))) (headers_of jdb tms crc)) ++
      (if isBitSettedByNumber ro 1 then brackets (commas (toString <$> its))
       else compress_string (brackets (commas (toString <$> its))))).
Proof.
  intros Hs Ha Hr Ht Hname Hsub Hfn Hb Hl Hd H2 Hst Hplain Hdt Hrec Hbl Hqt Hiq Hint Hstab Hro.
  set (ttl := default 0 (stoi I32 (q_ttl q))) in *. set (hdr := file_header now ttl (headers_of jdb tms crc)).
  set (file := dir_p d ++ segment_name shash fname).
  assert (Hhdr : db_header hdr) by (apply db_header_written; [apply Hs|apply Hs|done]).
  destruct (jdb_query (files s) file hdr data sett qtext js items conds qs ro Hhdr Hst Hplain Hdt Hrec Hbl Hqt Hiq Hint Hstab)
    as (c & Hc & He & Hv & Hap & Hti & Hq).
  pose proof (so_payload _ _ _ _ _ _ _ _ _ _ _ _ Hs) as Hp.
  rewrite (jdb_part_create opens now d (segment_name shash fname) q sett data (files s) c) in Hp by done.
  injection Hp as Hp. subst payload.
  destruct (storable_stored shash decrypt opens now jdb tms crc q _ sub fname s d chk Hs Ha)
    as ([[res s'] event] & E0 & [S1 S2 S3 S4 (d' & S5 & S6 & S7) S8 _ _ _]). cbn [fst snd] in *. subst event.
  assert (Hne : title c ++ body c <> []) by (by destruct (title c)).
  assert (Hw : written now ttl (headers_of jdb tms crc) (title c ++ body c) = Some (hdr ++ title c ++ body c))
    by (unfold written; by destruct (title c ++ body c)).
  pose proof (so_new _ _ _ _ _ _ _ _ _ _ _ _ Hs _ Hw) as [Hf1 Hf2].
  pose proof (so_block _ _ _ _ _ _ _ _ _ _ _ _ Hs) as (kb & Hk0 & Hkb).
  fold ttl in S3. rewrite Hw in S3. fold file in S3.
  destruct (Hq ltac:(lia) (files s') S3) as (its & Hperm & Hfetch).
  exists res, s', its. do 2 (split; [done|]). split; [done|].
  rewrite Hname, <- !app_assoc. unfold server_read_file. rewrite split_subfolder_name by done. rewrite cut_jdb_query by done.
  cbn [negb]. rewrite S8, Hr, S5, lookup_insert_eq, S6. fold file. unfold is_file_exists. rewrite S3.
  rewrite bool_decide_true by done. cbn [negb jdb_fetch jdb_engine]. rewrite Hfetch. cbn [mbind option_bind].
  destruct (_ ++ (if isBitSettedByNumber ro 1 then _ else _)) eqn:Econtent; [|done]. exfalso.
  apply app_eq_nil in Econtent as [A B]. destruct Hro as [Hro|Hro]; rewrite Hro in *; [|done].
  destruct Hhdr as (a & b & Eh & Hlen & _). rewrite Eh in A. by destruct a.
Qed.

(** The example of the database, stored through the server. *)
#[local] Existing Instance ex_env.
#[local] Existing Instance ex_laws.

Definition ex_sett : bytes := toString ex_settings.
Definition ex_data : bytes := toString (arrayValue ex_items).
Definition ex_jdb_request : request :=
  Request (lit "key") (lit "sub/a") (lit "30") (stamp_flags jdb 77 5) (jdb_body ex_sett ex_data).
Definition ex_dir : directory := Directory true (lit "/d/") 10000000 4096000 4096.
Definition ex_server : server := Server (Conf true true (lit "key") [] [] (lit "/ttl/") 2 {[ lit "sub" := ex_dir ]}) ∅.
Definition ex_payload : bytes :=
  match create ∅ (lit "/d/7/a") ex_data ex_sett jdb with Some c => title c ++ body c | None => [] end.

Lemma ex_jdb_storable :
  storable (fun _ => 7) (fun _ => true) example_dt jdb 77 5 ex_jdb_request ex_payload (lit "sub") (lit "a") ex_server ex_dir.
Proof.
  split.
  - unfold normal, date_normal, time_normal. simpl. change (count_days_in_month 12 2023) with 31. lia.
  - simpl; lia.
  - by right; right.
  - range_lia.
  - range_lia.
  - split; try (by apply (bool_decide_unpack _)).
    exists x30, x34, (numeric_to_chars I64 77 ++ numeric_to_chars I64 5). split_and!; [done|done|done|by vm_compute].
  - reflexivity.
  - simpl; lia.
  - reflexivity.
  - discriminate.
  - by vm_compute.
  - by vm_compute.
  - reflexivity.
  - exists 12. split; [lia|reflexivity].
  - intros c Hc. cbn [files ex_server] in Hc. by rewrite lookup_empty in Hc.
  - intros c Hc. vm_compute in Hc. injection Hc as <-. split; vm_compute; done.
  - simpl; lia.
  - intros x. reflexivity.
  - right. split; [reflexivity|simpl; lia].
  - reflexivity.
Qed.

Lemma jdb_accept_then_query_witness :
  exists res s' its, accept_file (fun _ => 7) (fun c _ _ => c) (fun _ => true) true example_dt (enc_request ex_jdb_request)
    true false ex_server = Some (res, s', Some (lit "sub/a", 77, 5)) /\ res !! lit "status" = Some (JStr (lit "01")) /\
  its ≡ₚ filter (fun it => satisfies ex_ints it = true) ex_items /\
  server_read_file (fun _ => 7) true (lit "sub/a" ++ lit "?jdb" ++ toString (query ex_query)) 3 s' =
    Some (answer ok, brackets (commas (toString <$> its))).
Proof.
  apply (jdb_accept_then_query (fun _ => 7) (fun c _ _ => c) (fun _ => true) example_dt 77 5 ex_jdb_request ex_payload
    (lit "sub") (lit "a") ex_server ex_dir true ex_sett ex_data (toString (query ex_query)) ex_settings ex_items ex_query ex_ints 3
    ex_jdb_storable).
  - right. right. reflexivity.
  - reflexivity.
  - change (in_range I16 30). range_lia.
  - reflexivity.
  - by apply (bool_decide_unpack _); vm_compute.
  - by apply (bool_decide_unpack _); vm_compute.
  - reflexivity.
  - by vm_compute.
  - discriminate.
  - by vm_compute.
  - by vm_compute.
  - exact ex_plain.
  - by vm_compute.
  - exact ex_records.
  - by vm_compute.
  - by vm_compute.
  - exact ex_int_query.
  - exact ex_int_fields.
  - by vm_compute.
  - by right.
Defined.
