(* ===== verification/Crc32.v ===== *)
(** * The checksum of contents ([libs/crc32.h])

    [crc32m] fills a table of 256 words in its constructor and [get_hash] walks over a string
    with it.  The reference definition is the shift register that takes the message bit by
    bit; the table walk computes the same word, and a change within four consecutive bytes
    always changes it.  [get_hash_of_file] is Boost's implementation and is a parameter of the
    server that calls it. *)

From S2P Require Import Prelude Bitbase.
From Stdlib Require Import ZArith Lia Strings.Byte Btauto.
From stdpp Require Import base strings numbers list.
Open Scope Z_scope.

(** ** The code *)

Definition poly : Z := 0xEDB88320.

(** The body of the inner loop of the constructor. *)
Definition crc_shift (crc : Z) : Z :=
  if bool_decide (Z.land crc 1 <> 0) then Z.lxor (Z.shiftr crc 1) poly else Z.shiftr crc 1.

Definition crc_entry (i : Z) : Z := Nat.iter 8 crc_shift i.

Definition crc_table : list Z := crc_entry <$> seqZ 0 256.

(** [buf[i]] is a [char], which is signed. *)
Definition schar (c : byte) : Z := if b2z c <? 128 then b2z c else b2z c - 256.

(** The body of the loop of [get_hash]; [crc] is an [unsigned long]. *)
Definition hash_step (crc : Z) (c : byte) : Z :=
  Z.lxor (nth (Z.to_nat (Z.land (Z.lxor crc (wrap U64 (schar c))) 0xFF)) crc_table 0) (Z.shiftr crc 8).

Definition get_hash (buf : bytes) : Z :=
  wrap U32 (Z.lxor (foldl hash_step 0xFFFFFFFF buf) 0xFFFFFFFF).

Example get_hash_check : get_hash (lit "123456789") = 0xCBF43926.
Proof. reflexivity. Qed.

(** ** The reference: a shift register *)

(** One bit of the message: it is added to the lowest bit, which is then shifted out and, when
    it is set, the polynomial is added. *)
Definition register_step (s : Z) (b : bool) : Z :=
  if xorb (Z.testbit s 0) b then Z.lxor (Z.shiftr s 1) poly else Z.shiftr s 1.

(** The bits of a string, the lowest bit of a byte first. *)
Definition byte_bits (c : byte) : list bool := Z.testbit (b2z c) <$> seqZ 0 8.
Definition message_bits (buf : bytes) : list bool := buf ≫= byte_bits.

Definition crc32 (buf : bytes) : Z :=
  Z.lxor (foldl register_step (Z.ones 32) (message_bits buf)) (Z.ones 32).

(** ** Eight bits at once *)

Lemma crc_shift_testbit x : crc_shift x = if Z.testbit x 0 then Z.lxor (Z.shiftr x 1) poly else Z.shiftr x 1.
Proof.
  unfold crc_shift. assert (E : Z.land x 1 = x mod 2) by (by apply (Z.land_ones x 1)). rewrite E, Z.bit0_odd, Zmod_odd.
  destruct (Z.odd x); [by rewrite bool_decide_true|by rewrite bool_decide_false by lia].
Qed.

(** The shift is linear. *)
Lemma crc_shift_lxor x y : crc_shift (Z.lxor x y) = Z.lxor (crc_shift x) (crc_shift y).
Proof.
  rewrite !crc_shift_testbit, Z.lxor_spec, Z.shiftr_lxor.
  destruct (Z.testbit x 0), (Z.testbit y 0); cbn [xorb]; Z.bitwise; btauto.
Qed.

Lemma crc_shift_even x : crc_shift (2 * x) = x.
Proof. rewrite crc_shift_testbit, Z.testbit_even_0. rewrite Z.shiftr_div_pow2 by lia. change (2 ^ 1) with 2. dlia. Qed.

Abbreviation shift8 := (Nat.iter 8 crc_shift).

Lemma iter_shift_lxor n x y : Nat.iter n crc_shift (Z.lxor x y) = Z.lxor (Nat.iter n crc_shift x) (Nat.iter n crc_shift y).
Proof. induction n as [|n IH]; [done|]. by rewrite !Nat.iter_succ, IH, crc_shift_lxor. Qed.

Lemma iter_shift_shiftl n x : Nat.iter n crc_shift (Z.shiftl x (Z.of_nat n)) = x.
Proof.
  induction n as [|n IH]; [apply Z.shiftl_0_r|]. rewrite Nat.iter_succ_r. rewrite <- IH at 2. f_equal.
  rewrite <- (crc_shift_even (Z.shiftl x (Z.of_nat n))). f_equal. rewrite !Z.shiftl_mul_pow2 by lia.
  replace (Z.of_nat (S n)) with (Z.of_nat n + 1) by lia. rewrite Z.pow_add_r by lia. lia.
Qed.

Lemma shift8_shiftl x : shift8 (Z.shiftl x 8) = x.
Proof. exact (iter_shift_shiftl 8 x). Qed.

Lemma register_step_shift s b : register_step s b = crc_shift (Z.lxor s (Z.b2z b)).
Proof.
  unfold register_step. rewrite crc_shift_testbit, Z.lxor_spec, Z.shiftr_lxor, Z.b2z_bit0.
  replace (Z.shiftr (Z.b2z b) 1) with 0 by (by destruct b). by rewrite Z.lxor_0_r.
Qed.

(** The bits of a message can be added before the register is shifted. *)
Lemma register_bits bs : forall s,
  foldl register_step s bs = Nat.iter (length bs) crc_shift (Z.lxor s (foldr (fun b x => Z.lxor (Z.b2z b) (2 * x)) 0 bs)).
Proof.
  induction bs as [|b bs IH]; intros s; cbn [foldl foldr length]; [by rewrite Z.lxor_0_r|].
  rewrite IH, register_step_shift, Nat.iter_succ_r. f_equal.
  rewrite <- (crc_shift_even (foldr _ 0 bs)) at 1. rewrite <- crc_shift_lxor. by rewrite Z.lxor_assoc.
Qed.

Lemma register_byte s c : foldl register_step s (byte_bits c) = shift8 (Z.lxor s (b2z c)).
Proof. rewrite register_bits. change (length (byte_bits c)) with 8%nat. do 2 f_equal. by destruct c. Qed.

Lemma table_entry i : 0 <= i < 256 -> nth (Z.to_nat i) crc_table 0 = shift8 i.
Proof.
  intros Hi. unfold crc_table. rewrite nth_lookup, list_lookup_fmap, lookup_seqZ_lt by lia. cbn [fmap option_fmap option_map default from_option].
  rewrite Z2Nat.id, Z.add_0_l by lia. unfold id, crc_entry. reflexivity.
Qed.

Lemma land_low x c : Z.land (Z.lxor x (wrap U64 (schar c))) 0xFF = Z.lxor (Z.land x 0xFF) (b2z c).
Proof.
  assert (E : Z.land (wrap U64 (schar c)) 0xFF = b2z c) by (by destruct c).
  rewrite <- E. by rewrite land_lxor_distr.
Qed.

Lemma low_range x c : 0 <= Z.lxor (Z.land x 0xFF) (b2z c) < 256.
Proof.
  pose proof (b2z_range c). assert (E : Z.lxor (Z.land x 255) (b2z c) = Z.land (Z.lxor x (b2z c)) (Z.ones 8)).
  { change 255 with (Z.ones 8). rewrite land_lxor_distr. rewrite (Z.land_ones (b2z c)) by lia. by rewrite (Z.mod_small (b2z c)). }
  rewrite E, Z.land_ones by lia. apply Z.mod_pos_bound. lia.
Qed.

(** A table step is eight register steps. *)
Lemma hash_step_shift x c : 0 <= x -> hash_step x c = shift8 (Z.lxor x (b2z c)).
Proof.
  intros Hx. unfold hash_step. rewrite land_low, table_entry by apply low_range.
  rewrite <- (shift8_shiftl (Z.shiftr x 8)) at 1. rewrite <- iter_shift_lxor. f_equal.
  rewrite Z.lxor_assoc, (Z.lxor_comm (b2z c)), <- Z.lxor_assoc. f_equal.
  apply Z.bits_inj'. intros n Hn. rewrite Z.lxor_spec, Z.land_spec, Z.shiftl_spec by done.
  destruct (Z.ltb_spec n 8).
  - rewrite (Z.testbit_neg_r _ (n - 8)) by lia. change 255 with (Z.ones 8). rewrite Z.ones_spec_low by lia. btauto.
  - rewrite Z.shiftr_spec by lia. change 255 with (Z.ones 8). rewrite Z.ones_spec_high by lia.
    replace (n - 8 + 8) with n by lia. btauto.
Qed.

(** ** Words stay words *)

Definition word (x : Z) : Prop := 0 <= x < 2 ^ 32.

Lemma word_land x : word x <-> Z.land x (Z.ones 32) = x.
Proof.
  rewrite Z.land_ones by lia. unfold word. split; [apply Z.mod_small|]. intros <-. apply Z.mod_pos_bound. lia.
Qed.

Lemma word_lxor x y : word x -> word y -> word (Z.lxor x y).
Proof. rewrite !word_land, land_lxor_distr. by intros -> ->. Qed.

Lemma word_ones : word (Z.ones 32).
Proof. by apply word_land. Qed.

Lemma word_byte c : word (b2z c).
Proof. pose proof (b2z_range c). unfold word. lia. Qed.

Lemma word_shiftr x : word x -> word (Z.shiftr x 1).
Proof. unfold word. rewrite Z.shiftr_div_pow2 by lia. intros. change (2 ^ 1) with 2. dlia. Qed.

Lemma word_crc_shift x : word x -> word (crc_shift x).
Proof.
  intros Hx. rewrite crc_shift_testbit. destruct (Z.testbit x 0); [apply word_lxor|]; try by apply word_shiftr.
  unfold word, poly. lia.
Qed.

Lemma word_iter n x : word x -> word (Nat.iter n crc_shift x).
Proof. intros Hx. induction n as [|n IH]; [done|]. rewrite Nat.iter_succ. by apply word_crc_shift. Qed.

Lemma word_step x c : word x -> word (hash_step x c).
Proof. intros Hx. rewrite hash_step_shift by apply Hx. apply word_iter, word_lxor; [done|apply word_byte]. Qed.

Lemma word_fold buf : forall x, word x -> word (foldl hash_step x buf).
Proof. induction buf as [|c buf IH]; intros x Hx; [done|]. cbn [foldl]. apply IH. by apply word_step. Qed.

Lemma fold_register buf : forall x, word x -> foldl hash_step x buf = foldl register_step x (message_bits buf).
Proof.
  induction buf as [|c buf IH]; intros x Hx; [done|]. cbn [foldl message_bits mbind list_bind].
  rewrite foldl_app, register_byte, IH by (by apply word_step). by rewrite hash_step_shift by apply Hx.
Qed.

Lemma get_hash_lxor buf : get_hash buf = Z.lxor (foldl hash_step (Z.ones 32) buf) (Z.ones 32).
Proof.
  unfold get_hash. apply wrap_id. assert (H : word (Z.lxor (foldl hash_step (Z.ones 32) buf) (Z.ones 32))).
  - apply word_lxor; [apply word_fold|]; apply word_ones.
  - unfold word in H. rewrite in_range_U32. lia.
Qed.

(** The table-driven [get_hash] computes the CRC-32 of the string: the register that is
    shifted once per bit of the message, whatever the sign of the characters. *)
Theorem get_hash_is_crc32 (buf : bytes) : get_hash buf = crc32 buf.
Proof. rewrite get_hash_lxor. unfold crc32. by rewrite fold_register by apply word_ones. Qed.

(** ** Changes are noticed *)

(** The shift can be undone. *)
Definition crc_unshift (y : Z) : Z := if Z.testbit y 31 then 2 * Z.lxor y poly + 1 else 2 * y.

Lemma word_bit31 x : word x -> Z.testbit (Z.shiftr x 1) 31 = false.
Proof.
  intros Hx. rewrite Z.shiftr_spec by lia. apply word_land in Hx. rewrite <- Hx, Z.land_spec.
  rewrite (Z.ones_spec_high 32) by lia. apply andb_false_r.
Qed.

Lemma crc_unshift_shift x : word x -> crc_unshift (crc_shift x) = x.
Proof.
  intros Hx. pose proof (word_bit31 x Hx) as H31. rewrite crc_shift_testbit. unfold crc_unshift.
  pose proof (Z.div_mod x 2 ltac:(lia)) as Hd. rewrite Zmod_odd in Hd. rewrite Z.bit0_odd.
  assert (Hs : Z.shiftr x 1 = x / 2) by (by rewrite Z.shiftr_div_pow2).
  destruct (Z.odd x).
  - rewrite Z.lxor_spec, H31. cbn [xorb]. change (Z.testbit poly 31) with true. cbn [xorb].
    rewrite Z.lxor_assoc, Z.lxor_nilpotent, Z.lxor_0_r. lia.
  - rewrite H31. lia.
Qed.

Lemma iter_shift_inj n x y : word x -> word y -> Nat.iter n crc_shift x = Nat.iter n crc_shift y -> x = y.
Proof.
  revert x y; induction n as [|n IH]; intros x y Hx Hy E; [done|]. rewrite !Nat.iter_succ_r in E.
  apply IH in E; [|by apply word_crc_shift..]. rewrite <- (crc_unshift_shift x), <- (crc_unshift_shift y) by done. by f_equal.
Qed.

Lemma shift8_inj x y : word x -> word y -> shift8 x = shift8 y -> x = y.
Proof. exact (iter_shift_inj 8 x y). Qed.

Lemma lxor_cancel x y z : Z.lxor x z = Z.lxor y z -> x = y.
Proof.
  intros E. apply (f_equal (fun w => Z.lxor w z)) in E. by rewrite !Z.lxor_assoc, Z.lxor_nilpotent, !Z.lxor_0_r in E.
Qed.

Lemma hash_step_inj x y c : word x -> word y -> hash_step x c = hash_step y c -> x = y.
Proof.
  intros Hx Hy E. rewrite (hash_step_shift x), (hash_step_shift y) in E by (apply Hx || apply Hy).
  eapply lxor_cancel, shift8_inj, E; (apply word_lxor; [done|apply word_byte]).
Qed.

Lemma fold_inj buf : forall x y, word x -> word y -> foldl hash_step x buf = foldl hash_step y buf -> x = y.
Proof.
  induction buf as [|c buf IH]; intros x y Hx Hy E; [exact E|].
  eapply hash_step_inj, IH, E; [done|done|by apply word_step..].
Qed.

(** A few bytes at once: they are added to the register as a little-endian number. *)
Definition word_value (u : bytes) : Z := foldr (fun c x => Z.lxor (b2z c) (Z.shiftl x 8)) 0 u.

Lemma fold_le_value u : forall x, word x ->
  foldl hash_step x u = Nat.iter (8 * length u) crc_shift (Z.lxor x (word_value u)).
Proof.
  induction u as [|c u IH]; intros x Hx; cbn [foldl word_value foldr length]; [by rewrite Z.lxor_0_r|].
  rewrite IH by (by apply word_step). rewrite hash_step_shift by apply Hx. fold (word_value u).
  replace (8 * S (length u))%nat with (8 * length u + 8)%nat by lia. rewrite Nat.iter_add. f_equal.
  rewrite <- Z.lxor_assoc.
  assert (E : Z.lxor (shift8 (Z.lxor x (b2z c))) (word_value u) = shift8 (Z.lxor (Z.lxor x (b2z c)) (Z.shiftl (word_value u) 8)))
    by (by rewrite (iter_shift_lxor 8 _ (Z.shiftl _ 8)), shift8_shiftl).
  exact E.
Qed.

Lemma lxor_shifted c v : Z.lxor (b2z c) (Z.shiftl v 8) = b2z c + 256 * v.
Proof.
  pose proof (b2z_range c) as Hc. rewrite <- Z.add_nocarry_lxor; [rewrite Z.shiftl_mul_pow2 by lia; lia|].
  assert (E : Z.land (b2z c) (Z.ones 8) = b2z c) by (rewrite Z.land_ones by lia; by apply Z.mod_small).
  rewrite <- E, <- Z.land_assoc, (Z.land_comm (Z.ones 8)), Z.land_ones by lia.
  rewrite Z.shiftl_mul_pow2, Z.mod_mul by lia. apply Z.land_0_r.
Qed.

Lemma word_value_range u : 0 <= word_value u < 2 ^ (8 * zlen u).
Proof.
  induction u as [|c u IH]; cbn [word_value foldr]; [cbn; lia|]. fold (word_value u). pose proof (b2z_range c).
  cbn [length]. replace (8 * Z.of_nat (S (length u))) with (8 * zlen u + 8) by lia. rewrite Z.pow_add_r by lia.
  rewrite lxor_shifted. nia.
Qed.

Lemma word_value_inj u : forall v, length u = length v -> word_value u = word_value v -> u = v.
Proof.
  induction u as [|c u IH]; intros [|c' v] Hl E; try done. cbn [word_value foldr] in E. fold (word_value u) (word_value v) in E.
  rewrite !lxor_shifted in E. pose proof (b2z_range c). pose proof (b2z_range c').
  f_equal; [apply b2z_inj; lia|]. apply IH; [by injection Hl|lia].
Qed.

(** A change of a content within four consecutive bytes changes its checksum: two writes
    with the same timestamp that differ like this are always told apart by their checksums. *)
Theorem get_hash_detects_burst (a u v b : bytes) :
  length u = length v -> (length u <= 4)%nat -> u <> v -> get_hash (a ++ u ++ b) <> get_hash (a ++ v ++ b).
Proof.
  intros Hl H4 Hne E. apply Hne, word_value_inj; [done|]. rewrite !get_hash_lxor, !foldl_app in E.
  pose proof word_ones as Hones. set (s := foldl hash_step (Z.ones 32) a) in *.
  assert (Hs : word s) by (by apply word_fold).
  apply lxor_cancel, fold_inj in E; [|by apply word_fold..]. rewrite !fold_le_value, <- Hl in E by done.
  assert (Hw : forall w, length w = length u -> word (word_value w)).
  { intros w Hw. pose proof (word_value_range w) as Hr. split; [lia|]. eapply Z.lt_le_trans; [apply Hr|].
    apply Z.pow_le_mono_r; lia. }
  apply iter_shift_inj in E; [|apply word_lxor; [done|by apply Hw]..].
  apply (f_equal (Z.lxor s)) in E. by rewrite <- !Z.lxor_assoc, Z.lxor_nilpotent, !Z.lxor_0_l in E.
Qed.

Lemma get_hash_detects_burst_witness : get_hash (lit "ab" ++ lit "1234" ++ lit "z") <> get_hash (lit "ab" ++ lit "4321" ++ lit "z").
Proof. apply get_hash_detects_burst; [reflexivity|cbn; lia|discriminate]. Defined.
