(* ===== verification/TtlRemover.v ===== *)
(** * Expired files ([server::run_ttl_remover] of [rssdisk/rssdisk/disk_server.cpp])

    Every hour the server walks over the expiry lists that [accept_file] keeps below the "ttl"
    directory, one directory per date, and removes the files that are named in the lists of
    today and of the days before, with their json data and with the lists.  What
    Boost.Filesystem does (listing directories, removing a directory with what is in it) is
    the class [Filesystem]; the code's loop on the lock of a file ends when the lock is free
    and is left out. *)

From S2P Require Import Prelude Bitbase BasefuncStd DateTime DiskHelper WType JdbInterface DiskServer DiskServerFacts.
From Stdlib Require Import ZArith Lia Strings.Byte.
From stdpp Require Import base gmap strings numbers list.
Open Scope Z_scope.

(** ** The code *)

Class Filesystem := {
  list_dirs : fs -> bytes -> list bytes;
  remove_all : bytes -> fs -> fs }.

Definition date_le (a b : date__) : bool := negb (date_gt a b).

Section remover.
Context `{Filesystem}.

(** The directory of an entry, put together again from its parts; [exp.size() - 2] is unsigned,
    so an entry without a slash makes the loop read past the end of [exp] ([None]). *)
Definition item_path (exp : list bytes) : option bytes :=
  if (length exp <? 2)%nat then None
  else Some (mjoin ((fun e => match e with [] => [] | _ => lit "/" ++ e end) <$> take (length exp - 2) exp) ++ lit "/").

(** [path_index.find(path)]. *)
Definition find_dir (path : bytes) (s : server) : option (bytes * directory) :=
  snd <$> list_find (fun x => dir_p x.2 = path) (map_to_list (dirs (conf s))).

Definition free_blocks (name : bytes) (f : fs) (d : directory) : directory :=
  inc_curr_disk_size (wrap I32 (- wrap I32 (get_file_size_fs_block_size f name (fs_block_size_b d)))) d.

Definition remove_item (item : bytes) (s : server) : option server :=
  path ← item_path (BasefuncStd.split item x2f);
  let s := match find_dir path s with
           | None => s
           | Some (sub, d) =>
               let d := free_blocks item (files s) d in
               let file_ext := item ++ j_extension_name in
               set_dir sub (if is_file_exists (files s) file_ext then free_blocks file_ext (files s) d else d) s
           end in
  Some (set_files (delete (item ++ j_extension_name) (delete item (files s))) s).

(** The lines of one list. *)
Fixpoint clear_lines (lines : list bytes) (removed : gset bytes) (s : server) : option server :=
  match lines with
  | [] => Some s
  | line :: lines =>
      let item := trim line in
      if bool_decide (item ∉ removed /\ item <> []) then
        s ← remove_item item s; clear_lines lines (removed ∪ {[item]}) s
      else clear_lines lines removed s
  end.

(** [f_clear]. *)
Definition clear_list (date : bytes) (s : server) (ttl_name : bytes) : option server :=
  match read_file (files s) (ttl_p (conf s) ++ date ++ lit "/") ttl_name 0 with
  | Some ((_ :: _) as content) => clear_lines (BasefuncStd.split content x0a) ∅ s
  | _ => Some s
  end.

Definition list_names (c : server_conf) : list bytes :=
  lit "ttl" :: ((fun i => lit "ttl" ++ to_string i) <$> seqZ 0 (tcp_threads c)).

Fixpoint clear_lists (date : bytes) (names : list bytes) (s : server) : option server :=
  match names with
  | [] => Some s
  | n :: names => s ← clear_list date s n; clear_lists date names s
  end.

Definition remove_date (date : bytes) (s : server) : option server :=
  s ← clear_lists date (list_names (conf s)) s;
  Some (set_files (remove_all (ttl_p (conf s) ++ date) (files s)) s).

(** The date that a directory of lists stands for, when it has come. *)
Definition due_date (now : date_time) (dir : bytes) : option bytes :=
  let '(ok_, dt_del) := parse_date_time dir (lit "yyyy-MM-dd") date_only date_time_init in
  if (ok_ : bool) && date_le (date_ dt_del) (date_ now) then Some (get_date (lit "-") dt_del) else None.

Fixpoint remove_dates (now : date_time) (ds : list bytes) (s : server) : option server :=
  match ds with
  | [] => Some s
  | dir :: ds =>
      match due_date now dir with
      | Some date => s ← remove_date date s; remove_dates now ds s
      | None => remove_dates now ds s
      end
  end.

Definition run_ttl_remover (now : date_time) (s : server) : option server :=
  remove_dates now (list_dirs (files s) (ttl_p (conf s))) s.
End remover.

(** ** Entries and their directories *)

(** A path as the lists can name it: it begins and ends with a slash and no part is empty. *)
Definition path_ok (p : bytes) : Prop :=
  exists parts, Forall (fun e => e <> [] /\ x2f ∉ e) parts /\ p = mjoin ((fun e => lit "/" ++ e) <$> parts) ++ lit "/".

(** The parts of a file of a directory: its segment and its name. *)
Definition plain_name (n : bytes) : Prop := n <> [] /\ x2f ∉ n /\ x0a ∉ n.

Lemma split_parts (parts : list bytes) (seg fname : bytes) :
  Forall (fun e => e <> [] /\ x2f ∉ e) parts -> x2f ∉ seg -> x2f ∉ fname -> fname <> [] ->
  BasefuncStd.split (mjoin ((fun e => lit "/" ++ e) <$> parts) ++ lit "/" ++ seg ++ lit "/" ++ fname) x2f = [] :: parts ++ [seg; fname].
Proof.
  intros Hp Hs Hf Hn.
  assert (E : mjoin ((fun e => lit "/" ++ e) <$> parts) ++ lit "/" ++ seg ++ lit "/" ++ fname =
    BasefuncStd.join x2f ([] :: parts ++ [seg; fname])).
  { clear Hp. induction parts as [|p parts IH]; [done|]. rewrite fmap_cons, join_cons, <- !app_assoc, IH. by destruct parts. }
  rewrite E. apply split_join.
  - constructor; [set_solver|]. apply Forall_app. split; [eapply Forall_impl; [done|]; naive_solver|]. by repeat constructor.
  - rewrite app_comm_cons, last_app. cbn. congruence.
Qed.

Lemma item_path_of (p seg fname : bytes) :
  path_ok p -> x2f ∉ seg -> plain_name fname -> item_path (BasefuncStd.split (p ++ seg ++ lit "/" ++ fname) x2f) = Some p.
Proof.
  intros (parts & Hp & ->) Hs (Hn & Hf & _). rewrite <- app_assoc, split_parts by done. unfold item_path.
  cbn [length]. rewrite length_app. cbn [length]. rewrite (proj2 (Nat.ltb_ge _ _)) by lia.
  replace (S (length parts + 2) - 2)%nat with (S (length parts)) by lia. cbn [take]. rewrite take_app_length.
  rewrite fmap_cons, join_cons. cbn [app]. f_equal. f_equal. f_equal. apply list_fmap_ext.
  intros i e He. rewrite Forall_lookup in Hp. destruct (Hp i e He) as [He0 _]. by destruct e.
Qed.

(** An entry without a slash, which a file name with a line break puts into a list, makes the
    remover index outside of the parts of the entry. *)
Lemma item_without_slash (item : bytes) : x2f ∉ item -> item_path (BasefuncStd.split item x2f) = None.
Proof.
  intros Hi. unfold item_path, BasefuncStd.split. destruct item as [|c item]; [done|].
  rewrite split_loop_last by done. done.
Qed.

(** ** The account of every directory *)

(** A configuration up to the running sizes. *)
Definition shape (d : directory) : directory := Directory (enabled d) (dir_p d) (max_size_b d) 0 (fs_block_size_b d).
Definition same_shape (c c' : server_conf) : Prop :=
  ttl_p c' = ttl_p c /\ tcp_threads c' = tcp_threads c /\ shape <$> dirs c' = shape <$> dirs c.

Lemma same_shape_dir c c' sub d' :
  same_shape c c' -> dirs c' !! sub = Some d' ->
  exists d, dirs c !! sub = Some d /\ dir_p d' = dir_p d /\ fs_block_size_b d' = fs_block_size_b d.
Proof.
  intros (_ & _ & E) Hd. apply (f_equal (fun m => m !! sub)) in E. rewrite !lookup_fmap, Hd in E.
  destruct (dirs c !! sub) as [d|]; [|done]. exists d. by injection E as [= ? ? ? ?].
Qed.

Lemma same_shape_trans c1 c2 c3 : same_shape c1 c2 -> same_shape c2 c3 -> same_shape c1 c3.
Proof. intros (A1 & B1 & C1) (A2 & B2 & C2). split_and!; congruence. Qed.

(** The directories of a server are apart from each other and from the lists. *)
Record tidy (c : server_conf) : Prop := {
  ty_block sub d : dirs c !! sub = Some d -> block_ok (fs_block_size_b d);
  ty_path sub d : dirs c !! sub = Some d -> path_ok (dir_p d);
  ty_lines sub d : dirs c !! sub = Some d -> x0a ∉ dir_p d;
  ty_apart sub1 d1 sub2 d2 x : dirs c !! sub1 = Some d1 -> dirs c !! sub2 = Some d2 -> sub1 <> sub2 ->
    starts_with (dir_p d1 ++ x) (dir_p d2) = false;
  ty_ttl sub d : dirs c !! sub = Some d -> outside c d;
  ty_lists sub d x : dirs c !! sub = Some d -> starts_with (dir_p d ++ x) (ttl_p c) = false }.

Lemma tidy_same c c' : same_shape c c' -> tidy c -> tidy c'.
Proof.
  intros Hs [T1 T2 T0 T3 T4 T5]. pose proof Hs as (Ht & _ & _).
  split; intros *.
  - intros Hd. destruct (same_shape_dir _ _ _ _ Hs Hd) as (d0 & Hd0 & Ep & Eb). rewrite Eb. by eapply T1.
  - intros Hd. destruct (same_shape_dir _ _ _ _ Hs Hd) as (d0 & Hd0 & Ep & Eb). rewrite Ep. by eapply T2.
  - intros Hd. destruct (same_shape_dir _ _ _ _ Hs Hd) as (d0 & Hd0 & Ep & Eb). rewrite Ep. by eapply T0.
  - intros Hd1 Hd2 Hne. destruct (same_shape_dir _ _ _ _ Hs Hd1) as (e1 & He1 & E1 & _).
    destruct (same_shape_dir _ _ _ _ Hs Hd2) as (e2 & He2 & E2 & _). rewrite E1, E2. by eapply T3.
  - intros Hd x. destruct (same_shape_dir _ _ _ _ Hs Hd) as (d0 & Hd0 & Ep & _). rewrite Ep, Ht. by eapply T4.
  - intros Hd. destruct (same_shape_dir _ _ _ _ Hs Hd) as (d0 & Hd0 & Ep & _). rewrite Ep, Ht. by eapply T5.
Qed.

(** The running size of every directory is what its files take and a part that is constant
    ([init_server_settings] starts with the blocks of the segment folders). *)
Record account_ok (slack : Z) (d : directory) (f : fs) : Prop := {
  ac_files n c : starts_with n (dir_p d) = true -> f !! n = Some c -> file_ok (fs_block_size_b d) c;
  ac_size : curr_size_b d = slack + used (dir_p d) (fs_block_size_b d) f;
  ac_slack : 0 <= slack;
  ac_bound : curr_size_b d < 2 ^ 62 }.

Definition exact (slack : bytes -> Z) (s : server) : Prop :=
  forall sub d, dirs (conf s) !! sub = Some d -> account_ok (slack sub) d (files s).

Lemma used_nonneg path blk f : 0 < blk -> 0 <= used path blk f.
Proof.
  intros Hb. unfold used. apply (map_fold_weak_ind (fun r _ => 0 <= r)); [done|].
  intros n c m r _ Hr. destruct (starts_with n path); [|done]. pose proof (blocks_bound blk (zlen c) Hb). lia.
Qed.

Lemma block_pos blk : block_ok blk -> 0 < blk.
Proof. intros (k & ? & ->). lia. Qed.

Lemma used_delete_other path blk f n : starts_with n path = false -> used path blk (delete n f) = used path blk f.
Proof.
  intros Hn. destruct (f !! n) as [c|] eqn:E; [|by rewrite delete_id].
  rewrite <- (insert_delete_id f n c E) at 2. by rewrite used_other.
Qed.

(** What [get_file_size_fs_block_size] gives, also for a missing file. *)
Lemma size_taken blk f n :
  block_ok blk -> (forall c, f !! n = Some c -> file_ok blk c) ->
  wrap I32 (get_file_size_fs_block_size f n blk) = taken blk (f !! n).
Proof.
  intros Hb Hf. unfold get_file_size_fs_block_size, get_file_size. pose proof (block_pos blk Hb).
  pose proof (taken_bound blk (f !! n) Hb Hf) as Ht. destruct (f !! n) as [c|].
  - destruct (Hf c eq_refl) as [H1 H2]. rewrite (wrap_id U64) by range_lia. rewrite file_block_bytes by done.
    apply wrap_id. cbn [taken] in Ht |- *. range_lia.
  - pose proof (account_missing blk Hb) as E. unfold account in E. rewrite (proj2 (Z.eqb_neq blk 0)) in E by lia.
    change (wrap U64 (-1) =? 0) with false in E. cbv iota in E.
    rewrite <- (Z.add_0_l (block_bytes _ _)), <- wrap_I32_U64, E. done.
Qed.

Lemma account_free slack d f n :
  block_ok (fs_block_size_b d) -> starts_with n (dir_p d) = true -> account_ok slack d f ->
  account_ok slack (free_blocks n f d) (delete n f).
Proof.
  intros Hb Hn [A1 A2 A3 A4]. unfold free_blocks. rewrite size_taken by (done || eauto).
  pose proof (taken_bound _ (f !! n) Hb ltac:(eauto)) as Ht. pose proof (block_pos _ Hb).
  pose proof (used_nonneg (dir_p d) (fs_block_size_b d) (delete n f) ltac:(done)) as Hu. rewrite used_delete in Hu by done.
  rewrite (wrap_id I32) by range_lia. split; cbn [inc_curr_disk_size dir_p fs_block_size_b curr_size_b].
  - intros n' c Hn' Hc. rewrite lookup_delete_Some in Hc. naive_solver.
  - rewrite used_delete by done. rewrite wrap_id by range_lia. lia.
  - done.
  - rewrite wrap_id by range_lia. lia.
Qed.

Lemma account_other slack d f n : starts_with n (dir_p d) = false -> account_ok slack d f -> account_ok slack d (delete n f).
Proof.
  intros Hn [A1 A2 A3 A4]. split; [|by rewrite used_delete_other|done|done].
  intros n' c Hn' Hc. rewrite lookup_delete_Some in Hc. naive_solver.
Qed.

(** ** Removing an entry *)

Definition data_of (n : bytes) : bytes := n ++ j_extension_name.

Lemma data_of_ne n : data_of n <> n.
Proof. unfold data_of. intros E. apply (f_equal length) in E. rewrite length_app in E. cbn in E. lia. Qed.

Definition drop_item (f : fs) (item : bytes) : fs := delete (data_of item) (delete item f).

(** An entry that names a file of one of the directories. *)
Definition listed (c : server_conf) (item : bytes) : Prop :=
  exists sub d seg fname, dirs c !! sub = Some d /\ item = dir_p d ++ seg ++ lit "/" ++ fname /\ x2f ∉ seg /\ plain_name fname.

Lemma listed_same c c' item : same_shape c c' -> listed c item -> listed c' item.
Proof.
  intros (_ & _ & E) (sub & d & seg & fname & Hd & -> & Hs & Hf).
  apply (f_equal (fun m => m !! sub)) in E. rewrite !lookup_fmap, Hd in E.
  destruct (dirs c' !! sub) as [d'|] eqn:E'; [|done]. exists sub, d', seg, fname.
  split; [done|]. split; [|done]. injection E as _ -> _ _. done.
Qed.

Lemma find_dir_of s sub d : tidy (conf s) -> dirs (conf s) !! sub = Some d -> find_dir (dir_p d) s = Some (sub, d).
Proof.
  intros HT Hd. unfold find_dir. destruct (list_find _ (map_to_list (dirs (conf s)))) as [[i [sub' d']]|] eqn:E.
  - apply list_find_Some in E as (Hi & Hp & _). cbn [snd] in Hp. apply list_elem_of_lookup_2, elem_of_map_to_list in Hi.
    cbn. destruct (decide (sub' = sub)) as [->|Hne]; [congruence|]. exfalso.
    pose proof (ty_apart _ HT sub' d' sub d [] Hi Hd Hne) as Ha. rewrite Hp in Ha. by rewrite starts_with_app in Ha.
  - apply list_find_None in E. rewrite Forall_forall in E. exfalso. apply (E (sub, d)); [by apply elem_of_map_to_list|done].
Qed.

Section tidy_server.
Context (slack : bytes -> Z).

Lemma exact_set_dir s sub d d' f :
  tidy (conf s) -> exact slack s -> dirs (conf s) !! sub = Some d ->
  account_ok (slack sub) d' f ->
  (forall sub0 d0, sub0 <> sub -> dirs (conf s) !! sub0 = Some d0 -> account_ok (slack sub0) d0 f) ->
  exact slack (set_files f (set_dir sub d' s)).
Proof.
  intros HT He Hd Ha Ho sub0 d0 Hd0. cbn [set_files set_dir conf dirs files] in *.
  rewrite lookup_insert_Some in Hd0. destruct Hd0 as [[<- <-]|[Hne Hd0]]; [done|]. by apply Ho.
Qed.

Lemma same_shape_set_dir s sub d d' f :
  dirs (conf s) !! sub = Some d -> shape d' = shape d -> same_shape (conf s) (conf (set_files f (set_dir sub d' s))).
Proof.
  intros Hd E. split_and!; [done|done|]. cbn [set_files set_dir conf dirs]. rewrite fmap_insert, E.
  apply insert_id. by rewrite lookup_fmap, Hd.
Qed.

Lemma remove_item_listed item s :
  tidy (conf s) -> exact slack s -> listed (conf s) item ->
  exists s', remove_item item s = Some s' /\ files s' = drop_item (files s) item /\
    exact slack s' /\ same_shape (conf s) (conf s').
Proof.
  intros HT He (sub & d & seg & fname & Hd & -> & Hs & Hf). set (item := dir_p d ++ seg ++ lit "/" ++ fname).
  assert (Ep : item_path (BasefuncStd.split item x2f) = Some (dir_p d)) by (apply item_path_of; [by eapply ty_path|done|done]).
  unfold remove_item. rewrite Ep.
  cbn [mbind option_bind]. rewrite (find_dir_of s sub d) by done. cbv beta zeta iota.
  pose proof (ty_block _ HT sub d Hd) as Hb. pose proof (He sub d Hd) as Ha.
  assert (Hi : starts_with item (dir_p d) = true) by apply starts_with_app.
  assert (Hx : starts_with (data_of item) (dir_p d) = true)
    by (unfold data_of, item; rewrite <- app_assoc; apply starts_with_app).
  pose proof (account_free _ _ _ _ Hb Hi Ha) as Ha1. set (d1 := free_blocks item (files s) d) in *.
  fold (data_of item). eexists. split; [reflexivity|]. split; [done|].
  change (files (set_dir _ _ s)) with (files s). fold (drop_item (files s) item).
  assert (Hoth : forall sub0 d0, sub0 <> sub -> dirs (conf s) !! sub0 = Some d0 ->
    account_ok (slack sub0) d0 (drop_item (files s) item)).
  { intros sub0 d0 Hne Hd0. unfold drop_item.
    apply account_other; [unfold data_of, item; rewrite <- app_assoc; by eapply ty_apart|].
    apply account_other; [by eapply ty_apart|]. by apply He. }
  set (d2 := if is_file_exists (files s) (data_of item) then free_blocks (data_of item) (files s) d1 else d1).
  assert (Ha2 : account_ok (slack sub) d2 (drop_item (files s) item)).
  { unfold d2, drop_item. unfold is_file_exists. case_bool_decide as Hex.
    - assert (E : free_blocks (data_of item) (files s) d1 = free_blocks (data_of item) (delete item (files s)) d1).
      { unfold free_blocks, get_file_size_fs_block_size, get_file_size.
        rewrite lookup_delete_ne by (intros E; by apply (data_of_ne item)). done. }
      rewrite E. by apply account_free.
    - rewrite delete_id; [done|]. apply lookup_delete_None. right. by apply eq_None_not_Some. }
  split; [by apply (exact_set_dir _ _ d)|].
  apply (same_shape_set_dir _ _ d); [done|]. unfold d2. by destruct (is_file_exists _ _).
Qed.
End tidy_server.

(** ** Removing the entries of lists *)

Definition items_of (lines : list bytes) : list bytes := filter (fun x => x <> []) (trim <$> lines).

Definition line_ok (c : server_conf) (line : bytes) : Prop := trim line = [] \/ listed c (trim line).

Lemma drop_items_lookup items : forall f n,
  foldl drop_item f items !! n = if bool_decide (n ∈ items \/ n ∈ data_of <$> items) then None else f !! n.
Proof.
  induction items as [|it items IH]; intros f n; cbn [foldl fmap list_fmap].
  - rewrite bool_decide_false; [done|]. rewrite !elem_of_nil. naive_solver.
  - rewrite IH. unfold drop_item.
    case_bool_decide as H1; [by rewrite bool_decide_true by set_solver|].
    destruct (decide (n = data_of it)) as [->|H2].
    + rewrite bool_decide_true by set_solver. by rewrite lookup_delete_eq.
    + rewrite lookup_delete_ne by done. destruct (decide (n = it)) as [->|H3].
      * rewrite bool_decide_true by set_solver. by rewrite lookup_delete_eq.
      * rewrite lookup_delete_ne by done. by rewrite bool_decide_false by set_solver.
Qed.

Lemma drop_item_gone f it : f !! it = None -> f !! data_of it = None -> drop_item f it = f.
Proof. intros H1 H2. unfold drop_item. rewrite (delete_id f) by done. by apply delete_id. Qed.

Section lists.
Context (slack : bytes -> Z).

Lemma clear_lines_spec lines : forall removed s,
  tidy (conf s) -> exact slack s -> Forall (line_ok (conf s)) lines ->
  (forall x, x ∈ removed -> files s !! x = None /\ files s !! data_of x = None) ->
  exists s', clear_lines lines removed s = Some s' /\ files s' = foldl drop_item (files s) (items_of lines) /\
    exact slack s' /\ same_shape (conf s) (conf s').
Proof.
  induction lines as [|line lines IH]; intros removed s HT He Hl Hr; [by exists s|].
  apply Forall_cons in Hl as [Hline Hl]. cbn [clear_lines]. unfold items_of. rewrite fmap_cons, filter_cons.
  destruct (decide (trim line = [])) as [E|Hne].
  - rewrite bool_decide_false by naive_solver. rewrite decide_False by naive_solver. by apply IH.
  - rewrite decide_True by done. cbn [foldl]. destruct (decide (trim line ∈ removed)) as [Hin|Hin].
    + rewrite bool_decide_false by naive_solver. destruct (Hr _ Hin) as [R1 R2]. rewrite drop_item_gone by done. by apply IH.
    + rewrite bool_decide_true by done. destruct Hline as [|Hline]; [done|].
      destruct (remove_item_listed slack (trim line) s HT He Hline) as (s1 & E1 & F1 & He1 & S1).
      rewrite E1. cbn [mbind option_bind].
      destruct (IH (removed ∪ {[trim line]}) s1) as (s2 & E2 & F2 & He2 & S2).
      * by eapply tidy_same.
      * done.
      * eapply Forall_impl; [exact Hl|]. intros l [H0|H0]; [by left|right]. by eapply listed_same.
      * intros x Hx. rewrite F1. unfold drop_item. apply elem_of_union in Hx as [Hx|Hx%elem_of_singleton].
        -- destruct (Hr x Hx). rewrite !lookup_delete_None. auto.
        -- subst x. rewrite !lookup_delete_None. auto.
      * exists s2. split; [done|]. rewrite F2, F1. split; [done|]. split; [done|]. by eapply same_shape_trans.
Qed.

Definition list_path (c : server_conf) (date name : bytes) : bytes := ttl_p c ++ date ++ lit "/" ++ name.

(** The entries of one list, and of all the lists of a date. *)
Definition list_lines (c : server_conf) (f : fs) (date name : bytes) : list bytes :=
  BasefuncStd.split (default [] (f !! list_path c date name)) x0a.
Definition noted_in (c : server_conf) (f : fs) (date : bytes) (names : list bytes) : list bytes :=
  names ≫= (fun n => items_of (list_lines c f date n)).

Lemma clear_list_lines date s name :
  clear_list date s name = clear_lines (list_lines (conf s) (files s) date name) ∅ s.
Proof.
  unfold clear_list, read_file, list_lines, list_path. rewrite <- !app_assoc.
  destruct (files s !! _) as [[|c l]|]; [done| |done]. done.
Qed.

Lemma items_listed c lines : Forall (line_ok c) lines -> Forall (listed c) (items_of lines).
Proof.
  intros Hl. apply Forall_forall. intros it Hit. unfold items_of in Hit.
  apply list_elem_of_filter in Hit as [Hne Hit]. apply list_elem_of_fmap in Hit as (l & -> & Hin).
  rewrite Forall_forall in Hl. by destruct (Hl l Hin).
Qed.

(** The lists themselves are not among the files they name. *)
Lemma drop_items_list c items f date name :
  tidy c -> Forall (listed c) items -> foldl drop_item f items !! list_path c date name = f !! list_path c date name.
Proof.
  intros HT Hl. rewrite drop_items_lookup, bool_decide_false; [done|]. rewrite Forall_forall in Hl.
  assert (Hno : forall it, it ∈ items -> forall z, it ++ z <> list_path c date name).
  { intros it Hit z E. destruct (Hl it Hit) as (sub & d & seg & fname & Hd & -> & _).
    pose proof (ty_lists _ HT sub d ((seg ++ lit "/" ++ fname) ++ z) Hd) as Hx. rewrite app_assoc, E in Hx.
    unfold list_path in Hx. by rewrite starts_with_app in Hx. }
  intros [H1|H1].
  - apply (Hno _ H1 []). apply app_nil_r.
  - apply list_elem_of_fmap in H1 as (it & E & Hit). by apply (Hno it Hit j_extension_name).
Qed.

Lemma list_path_same c c' date name : same_shape c c' -> list_path c' date name = list_path c date name.
Proof. intros (E & _). unfold list_path. by rewrite E. Qed.

Lemma clear_lists_spec date names : forall s,
  tidy (conf s) -> exact slack s ->
  (forall n, n ∈ names -> Forall (line_ok (conf s)) (list_lines (conf s) (files s) date n)) ->
  exists s', clear_lists date names s = Some s' /\
    files s' = foldl drop_item (files s) (noted_in (conf s) (files s) date names) /\
    exact slack s' /\ same_shape (conf s) (conf s').
Proof.
  induction names as [|n names IH]; intros s HT He Hl; [by exists s|]. cbn [clear_lists]. rewrite clear_list_lines.
  pose proof (Hl n ltac:(set_solver)) as Hn.
  destruct (clear_lines_spec (list_lines (conf s) (files s) date n) ∅ s HT He Hn ltac:(set_solver)) as (s1 & E1 & F1 & He1 & S1).
  rewrite E1. cbn [mbind option_bind].
  assert (EL : forall m, list_lines (conf s1) (files s1) date m = list_lines (conf s) (files s) date m).
  { intros m. unfold list_lines. rewrite (list_path_same (conf s)) by done. rewrite F1, drop_items_list; [done|done|].
    by apply items_listed. }
  destruct (IH s1) as (s2 & E2 & F2 & He2 & S2).
  - by eapply tidy_same.
  - done.
  - intros m Hm. rewrite EL. eapply Forall_impl; [apply Hl; set_solver|].
    intros l [H0|H0]; [by left|right]. by eapply listed_same.
  - exists s2. split; [done|]. split; [|split; [done|by eapply same_shape_trans]].
    rewrite F2. unfold noted_in. cbn [mbind list_bind]. rewrite foldl_app, <- F1. f_equal.
    apply list_bind_ext; [|done]. intros m. by rewrite EL.
Qed.
End lists.

(** ** Removing a date *)

Lemma starts_with_spec (s p : bytes) : starts_with s p = true <-> exists t, s = p ++ t.
Proof.
  split; [|intros [t ->]; apply starts_with_app]. unfold starts_with. intros [_ H]%andb_prop.
  apply bool_decide_eq_true in H. exists (drop (length p) s). rewrite <- H at 1. by rewrite take_drop.
Qed.

(** The directory [p] itself and what is below it. *)
Definition below (p n : bytes) : bool := bool_decide (n = p) || starts_with n (p ++ lit "/").

Class FilesystemLaws `{Filesystem} : Prop := {
  (** [remove_all] removes a directory and everything below it, and nothing else. *)
  remove_all_lookup p f n : remove_all p f !! n = if below p n then None else f !! n;
  (** The iterator visits every directory that holds a file. *)
  list_dirs_complete f p d x : x2f ∉ d -> x2e ∉ d -> is_Some (f !! (p ++ d ++ lit "/" ++ x)) -> d ∈ list_dirs f p }.

Lemma used_ext path blk f f' :
  (forall n, starts_with n path = true -> f' !! n = f !! n) -> used path blk f' = used path blk f.
Proof.
  revert f'. induction f as [|n c f Hn IH] using map_ind; intros f' Hf.
  - induction f' as [|n c f' Hn IH'] using map_ind; [done|]. destruct (starts_with n path) eqn:E.
    + specialize (Hf n E). by rewrite lookup_insert_eq, lookup_empty in Hf.
    + rewrite used_other by done. apply IH'. intros m Hm. specialize (Hf m Hm).
      destruct (decide (m = n)) as [->|Hne]; [congruence|]. by rewrite lookup_insert_ne in Hf.
  - destruct (starts_with n path) eqn:E.
    + rewrite used_insert by done. rewrite Hn. cbn [taken]. pose proof (Hf n E) as En. rewrite lookup_insert_eq in En.
      rewrite <- (IH (delete n f')).
      * rewrite used_delete by done. rewrite En. cbn [taken]. lia.
      * intros m Hm. destruct (decide (m = n)) as [->|Hne]; [by rewrite lookup_delete_eq|].
        rewrite lookup_delete_ne, Hf, lookup_insert_ne by done. done.
    + rewrite used_other by done. apply IH. intros m Hm. rewrite Hf by done.
      destruct (decide (m = n)) as [->|Hne]; [congruence|]. by rewrite lookup_insert_ne.
Qed.

Lemma account_ext slack d f f' :
  (forall n, starts_with n (dir_p d) = true -> f' !! n = f !! n) -> account_ok slack d f -> account_ok slack d f'.
Proof.
  intros Hf [A1 A2 A3 A4]. split; [|by rewrite (used_ext _ _ f)|done|done].
  intros n c Hn Hc. rewrite Hf in Hc by done. eauto.
Qed.

Lemma below_prefix p n : below p n = true -> exists z, n = p ++ z.
Proof.
  unfold below. intros [H|H]%orb_prop.
  - apply bool_decide_eq_true in H. exists []. by rewrite app_nil_r.
  - apply starts_with_spec in H as [t ->]. exists (lit "/" ++ t). by rewrite <- app_assoc.
Qed.

(** What the removal of a date takes away. *)
Definition gone (c : server_conf) (f : fs) (date n : bytes) : bool :=
  let items := noted_in c f date (list_names c) in
  below (ttl_p c ++ date) n || bool_decide (n ∈ items \/ n ∈ data_of <$> items).

Definition lists_ok (c : server_conf) (f : fs) (date : bytes) : Prop :=
  forall n, n ∈ list_names c -> Forall (line_ok c) (list_lines c f date n).

Section dates.
Context `{FilesystemLaws} (slack : bytes -> Z).

Lemma remove_date_spec date s :
  tidy (conf s) -> exact slack s -> lists_ok (conf s) (files s) date ->
  exists s', remove_date date s = Some s' /\
    (forall n, files s' !! n = if gone (conf s) (files s) date n then None else files s !! n) /\
    exact slack s' /\ same_shape (conf s) (conf s').
Proof.
  intros HT He Hl.
  destruct (clear_lists_spec slack date (list_names (conf s)) s HT He Hl) as (s1 & E1 & F1 & He1 & S1).
  unfold remove_date. rewrite E1. cbn [mbind option_bind]. eexists. split; [reflexivity|].
  cbn [set_files files conf]. split; [|split; [|done]].
  - intros n. rewrite remove_all_lookup, F1, drop_items_lookup. destruct S1 as (-> & _). unfold gone.
    destruct (below _ n); [done|]. done.
  - intros sub d Hd. cbn [set_files files conf] in *. apply (account_ext _ _ (files s1)); [|by apply He1].
    intros n Hn. rewrite remove_all_lookup.
    destruct (below _ n) eqn:Eb; [|done]. exfalso. apply below_prefix in Eb as [z ->].
    pose proof (ty_ttl _ (tidy_same _ _ S1 HT) sub d Hd (date ++ z)) as Ho. rewrite app_assoc in Ho. congruence.
Qed.

Lemma list_names_same c c' : same_shape c c' -> list_names c' = list_names c.
Proof. intros (_ & E & _). unfold list_names. by rewrite E. Qed.

(** Two dates are apart. *)
Lemma slash_inj d d' l t : x2f ∉ d -> x2f ∉ d' -> d ++ x2f :: l = d' ++ x2f :: t -> d = d'.
Proof.
  intros Hd Hd' E. pose proof (str_find_char_app x2f d l Hd) as E1. rewrite E, str_find_char_app in E1 by done.
  injection E1 as E1. by apply app_inj_1 in E as [? _].
Qed.

Lemma below_date p d d' l : x2f ∉ d -> x2f ∉ d' -> below (p ++ d') (p ++ d ++ lit "/" ++ l) = bool_decide (d = d').
Proof.
  intros Hd Hd'. unfold below. case_bool_decide as E.
  - exfalso. apply app_inv_head in E. subst d'. set_solver.
  - cbn [orb]. apply eq_true_iff_eq. rewrite bool_decide_eq_true, starts_with_spec. split.
    + intros [t Et]. rewrite <- !app_assoc in Et. apply app_inv_head in Et. by apply slash_inj in Et.
    + intros ->. exists l. by rewrite <- !app_assoc.
Qed.

(** A list goes with its own date only. *)
Lemma gone_list c f d' date name :
  tidy c -> lists_ok c f d' -> x2f ∉ date -> x2f ∉ d' -> gone c f d' (list_path c date name) = bool_decide (date = d').
Proof.
  intros HT Hl Hd Hd'. unfold gone. set (items := noted_in c f d' (list_names c)).
  assert (Hi : Forall (listed c) items).
  { apply Forall_bind. apply Forall_forall. intros n Hn. by apply items_listed, Hl. }
  pose proof (drop_items_list c items {[list_path c date name := []]} date name HT Hi) as E.
  rewrite drop_items_lookup, lookup_singleton_eq in E. destruct (bool_decide (_ \/ _)); [done|].
  rewrite orb_false_r. by apply below_date.
Qed.

Lemma line_ok_same c c' line : same_shape c c' -> line_ok c line -> line_ok c' line.
Proof. intros Hs [Hl|Hl]; [by left|right]. by eapply listed_same. Qed.

Lemma due_date_plain now dir date : due_date now dir = Some date -> x2f ∉ date.
Proof.
  unfold due_date. destruct (parse_date_time _ _ _ _) as [ok_ dt]. destruct (_ && _); [|done]. intros [= <-].
  unfold get_date, two. assert (Ht : forall n, x2f ∉ to_string n) by (intros; by apply to_string_not_elem).
  rewrite !not_elem_of_app. repeat split; try apply Ht; try (by apply (bool_decide_unpack _); vm_compute);
    destruct (_ <? _); by apply (bool_decide_unpack _); vm_compute.
Qed.

Section from.
Context (now : date_time) (c : server_conf) (f : fs) (HT : tidy c).

(** After the dates [past] of a server that began with [c] and [f]. *)
Record after (past : list bytes) (s : server) : Prop := {
  af_past : Forall (fun d => x2f ∉ d /\ lists_ok c f d) past;
  af_shape : same_shape c (conf s);
  af_exact : exact slack s;
  af_files n : files s !! n = if existsb (fun d => gone c f d n) past then None else f !! n }.

Lemma after_list past s date name :
  after past s -> x2f ∉ date -> list_lines (conf s) (files s) date name = if bool_decide (date ∈ past) then [] else list_lines c f date name.
Proof.
  intros [Hp Hs He Hf] Hd. unfold list_lines. rewrite (list_path_same c) by done. rewrite Hf. rewrite Forall_forall in Hp.
  case_bool_decide as Hin.
  - rewrite (proj2 (existsb_exists _ past)); [done|]. exists date. split; [by apply list_elem_of_In|].
    destruct (Hp date Hin). by rewrite gone_list, bool_decide_true by done.
  - replace (existsb _ past) with false; [done|]. symmetry. apply not_true_iff_false. rewrite existsb_exists.
    intros (d & Hd0 & E). apply list_elem_of_In in Hd0. destruct (Hp d Hd0). rewrite gone_list in E by done.
    apply bool_decide_eq_true in E. congruence.
Qed.

Lemma after_step past s date :
  after past s -> x2f ∉ date -> lists_ok c f date -> exists s', remove_date date s = Some s' /\ after (past ++ [date]) s'.
Proof.
  intros Ha Hd Hl. pose proof Ha as [Hp Hs He Hf].
  assert (HT' : tidy (conf s)) by (by eapply tidy_same).
  assert (Hl' : lists_ok (conf s) (files s) date).
  { intros n Hn. rewrite (after_list past) by done. case_bool_decide; [done|]. rewrite (list_names_same c) in Hn by done.
    eapply Forall_impl; [by apply Hl|]. intros. by eapply line_ok_same. }
  destruct (remove_date_spec date s HT' He Hl') as (s' & E & F & He' & S'). exists s'. split; [done|]. split.
  - apply Forall_app. auto.
  - by eapply same_shape_trans.
  - done.
  - intros n. rewrite F, Hf, existsb_app. cbn [existsb]. rewrite orb_false_r.
    assert (En : noted_in (conf s) (files s) date (list_names (conf s)) =
      if bool_decide (date ∈ past) then [] else noted_in c f date (list_names c)).
    { rewrite (list_names_same c) by done. unfold noted_in. case_bool_decide as Hin.
      - induction (list_names c) as [|m l IH]; [done|]. cbn [mbind list_bind].
        rewrite (after_list past), bool_decide_true by done. exact IH.
      - apply list_bind_ext; [|done]. intros m. by rewrite (after_list past), bool_decide_false by done. }
    assert (Eg : gone (conf s) (files s) date n =
      below (ttl_p c ++ date) n || if bool_decide (date ∈ past) then false else gone c f date n).
    { unfold gone. rewrite En. destruct Hs as (-> & _ & _). case_bool_decide.
      - by rewrite bool_decide_false by set_solver.
      - by destruct (below _ n). }
    assert (Hb : below (ttl_p c ++ date) n = true -> gone c f date n = true) by (unfold gone; by intros ->).
    assert (Hg : date ∈ past -> gone c f date n = true -> existsb (fun d => gone c f d n) past = true).
    { intros Hin Hg. apply existsb_exists. exists date. by rewrite <- list_elem_of_In. }
    rewrite Eg. revert Hb Hg. generalize (gone c f date n), (existsb (fun d => gone c f d n) past), (below (ttl_p c ++ date) n).
    intros [] [] [] Hb Hg; case_bool_decide; cbn; naive_solver.
Qed.

Lemma remove_dates_spec ds : forall past s,
  after past s -> (forall date, date ∈ omap (due_date now) ds -> lists_ok c f date) ->
  exists s', remove_dates now ds s = Some s' /\ after (past ++ omap (due_date now) ds) s'.
Proof.
  induction ds as [|dir ds IH]; intros past s Ha Hl; cbn [remove_dates omap list_omap].
  - exists s. by rewrite app_nil_r.
  - cbn [omap list_omap] in Hl. destruct (due_date now dir) as [date|] eqn:E; [|by apply IH].
    destruct (after_step past s date Ha) as (s1 & E1 & Ha1); [by eapply due_date_plain|apply Hl; set_solver|].
    rewrite E1. cbn [mbind option_bind]. destruct (IH _ _ Ha1) as (s2 & E2 & Ha2); [intros; apply Hl; set_solver|].
    exists s2. split; [done|]. by rewrite <- app_assoc in Ha2.
Qed.
End from.
End dates.

(** The dates whose lists are due, and what the remover takes away. *)
Definition due `{Filesystem} (now : date_time) (s : server) : list bytes :=
  omap (due_date now) (list_dirs (files s) (ttl_p (conf s))).
Definition expired `{Filesystem} (now : date_time) (s : server) (n : bytes) : bool :=
  existsb (fun date => gone (conf s) (files s) date n) (due now s).

Lemma run_ttl_remover_spec `{FilesystemLaws} (slack : bytes -> Z) (now : date_time) (s : server) :
  tidy (conf s) -> exact slack s -> (forall date, date ∈ due now s -> lists_ok (conf s) (files s) date) ->
  exists s', run_ttl_remover now s = Some s' /\ after slack (conf s) (files s) (due now s) s'.
Proof. intros HT He Hl. apply (remove_dates_spec slack now (conf s) (files s) HT _ [] s); [by split|done]. Qed.

(** C25: the remover takes away exactly the files that are named in the lists of due dates, with
    their json data, and the lists; every other file stays; and afterwards the running size of
    every directory is still what its files take. *)
Theorem ttl_remover_exact `{FilesystemLaws} (slack : bytes -> Z) (now : date_time) (s : server) :
  tidy (conf s) -> exact slack s -> (forall date, date ∈ due now s -> lists_ok (conf s) (files s) date) ->
  exists s', run_ttl_remover now s = Some s' /\
    (forall n, files s' !! n = if expired now s n then None else files s !! n) /\
    exact slack s' /\ same_shape (conf s) (conf s').
Proof.
  intros HT He Hl. destruct (run_ttl_remover_spec slack now s HT He Hl) as (s' & E & [_ A2 A3 A4]).
  exists s'. split; [done|]. split; [exact A4|done].
Qed.

(** ** The date of a list *)

Lemma due_date_of (later e : date_time) :
  normal e -> 1000 <= year (date_ e) <= 9999 -> date_le (date_ e) (date_ later) = true ->
  due_date later (get_date (lit "-") e) = Some (get_date (lit "-") e).
Proof.
  intros Hn Hy Hle. pose proof (normal_bounds e Hn) as (Hm & Hd & _). set (d := date_ e) in *.
  assert (Et : get_date (lit "-") e = to_string (year d) ++ x2d :: two (month d) ++ x2d :: two (day d) ++ [])
    by (unfold get_date; rewrite app_nil_r; done).
  assert (Hl : length (get_date (lit "-") e) = 10%nat).
  { rewrite Et. repeat (rewrite ?length_app; cbn [length]). rewrite !length_two_2 by lia.
    rewrite to_string_dec, (length_dec_loop 3) by (lia || (simpl; lia)). lia. }
  assert (Hc : c_str (get_date (lit "-") e) = get_date (lit "-") e).
  { apply c_str_id. rewrite Et. pose proof (to_string_not_elem x00 (year d) eq_refl ltac:(done)).
    repeat (rewrite not_elem_of_app || rewrite not_elem_of_cons || split); try done; try apply two_no_nul. apply not_elem_of_nil. }
  unfold due_date, parse_date_time. rewrite Hl, Hc. cbn [length Nat.eqb lit].
  change (length (lit "yyyy-MM-dd")) with 10%nat. cbn [Nat.eqb].
  change (scan_format (lit "yyyy-MM-dd") []) with [Num Year; Sep x2d; Num Month; Sep x2d; Num Day].
  change (Z.of_nat (length (filter _ _))) with 3. cbn [Z.eqb]. rewrite Et at 1.
  rewrite sscanf_year, sscanf_sep, sscanf_two, sscanf_sep, sscanf_two by (done || (change (max_val I32) with 2147483647; lia)).
  cbn [sscanf]. change (0 + 1 + 1 + 1 =? 3) with true. cbv iota.
  cbn [set_field date_time_init date_reset time_reset date_ time_]. destruct Hn as [Hn _].
  rewrite incr_all_id by (exact Hn || (unfold time_normal; cbn; lia)).
  cbn [date_ andb]. change (date_le _ (date_ later)) with (date_le d (date_ later)). rewrite Hle. done.
Qed.

(** ** Lists are made of lines *)

Definition lines_text (lines : list bytes) : bytes := mjoin ((fun l => l ++ [x0a]) <$> lines).

Lemma split_lines lines : Forall (fun l => x0a ∉ l) lines -> BasefuncStd.split (lines_text lines) x0a = lines.
Proof.
  unfold BasefuncStd.split, lines_text. induction 1 as [|l lines Hl _ IH]; [done|].
  rewrite fmap_cons, join_cons, <- app_assoc. cbn [app]. rewrite split_loop_app by done. by rewrite IH.
Qed.

(** Every list is made of whole lines that name files of the directories. *)
Definition lists_tidy (c : server_conf) (f : fs) : Prop :=
  forall date name text, f !! list_path c date name = Some text ->
  exists lines, text = lines_text lines /\ Forall (fun l => x0a ∉ l /\ line_ok c l) lines.

Lemma lists_tidy_ok c f date : lists_tidy c f -> lists_ok c f date.
Proof.
  intros Hl n _. unfold list_lines. destruct (f !! list_path c date n) as [text|] eqn:E; [|constructor].
  destruct (Hl _ _ _ E) as (lines & -> & Hf). cbn [default from_option]. unfold id. rewrite split_lines; eapply Forall_impl; try done; naive_solver.
Qed.

(** ** Entries are not changed by trimming *)

Definition no_space (s : bytes) : Prop := Forall (fun c => is_space c = false) s.

Lemma ltrim_head c s : is_space c = false -> ltrim (c :: s) = c :: s.
Proof. intros E. unfold ltrim. cbn [skip_space]. by rewrite E. Qed.

Lemma trim_entry (c : byte) (m fname : bytes) : is_space c = false -> no_space fname -> fname <> [] ->
  trim (c :: m ++ fname) = c :: m ++ fname.
Proof.
  intros Hc Hf Hn. unfold trim, rtrim. destruct (exists_last Hn) as (l & x & ->).
  apply Forall_app in Hf as [_ Hx]. inversion_clear Hx as [|? ? Hx' _].
  rewrite app_assoc, app_comm_cons, reverse_snoc. fold (ltrim (x :: reverse (c :: m ++ l))). rewrite ltrim_head by done.
  rewrite reverse_cons, reverse_involutive. cbn [app]. by apply ltrim_head.
Qed.

(** The entry that [accept_file] notes for a file. *)
Lemma noted_entry hash c sub d fname :
  tidy c -> dirs c !! sub = Some d -> x2f ∉ fname -> no_space fname -> fname <> [] ->
  let item := dir_p d ++ segment_name hash fname in
  trim item = item /\ listed c item /\ x0a ∉ item.
Proof.
  intros HT Hd Hs Hf Hn item.
  assert (Hnl : x0a ∉ fname) by (intros Hin; unfold no_space in Hf; rewrite Forall_forall in Hf; by specialize (Hf _ Hin)).
  destruct (ty_path _ HT sub d Hd) as (parts & Hp & Ep).
  split; [|split].
  - unfold item, segment_name. rewrite Ep.
    assert (E : exists m, mjoin ((fun e => lit "/" ++ e) <$> parts) ++ lit "/" = x2f :: m).
    { destruct parts as [|e parts]; [by eexists|]. rewrite fmap_cons, join_cons. by eexists. }
    destruct E as [m ->]. rewrite <- app_comm_cons, !app_assoc. by apply trim_entry.
  - exists sub, d, (to_string (get_segment_folder hash fname)), fname.
    split_and!; [done|done|by apply to_string_not_elem|by split_and!].
  - unfold item, segment_name. pose proof (ty_lines _ HT sub d Hd) as Hl.
    rewrite !not_elem_of_app. split_and!; [done|by apply to_string_not_elem|by apply (bool_decide_unpack _)|done].
Qed.

(** ** A write keeps the accounts and the lists *)

Lemma used_stored d f f' name o :
  starts_with name (dir_p d) = true -> f' !! name = o ->
  (forall n, n <> name -> starts_with n (dir_p d) = true -> f' !! n = f !! n) ->
  used (dir_p d) (fs_block_size_b d) f' = used (dir_p d) (fs_block_size_b d) f +
    (taken (fs_block_size_b d) o - taken (fs_block_size_b d) (f !! name)).
Proof.
  intros Hn Ho Hf. assert (E : forall n, starts_with n (dir_p d) = true -> f' !! n = partial_alter (fun _ => o) name f !! n).
  { intros n Hp. destruct (decide (n = name)) as [->|Hne]; [by rewrite lookup_partial_alter_eq|].
    rewrite lookup_partial_alter_ne by done. by apply Hf. }
  rewrite (used_ext _ _ _ _ E). apply starts_with_spec in Hn as [x ->]. apply used_write.
Qed.

Section write_keeps.
Context `{JdbEngine} (hash : bytes -> Z) (opens : bytes -> bool) (now : date_time) (w : w_type) (tms crc : Z).
Context (q : request) (payload sub fname : bytes) (s : server) (d : directory).
Context (Hs : storable hash opens now w tms crc q payload sub fname s d).
Context (slack : bytes -> Z) (HT : tidy (conf s)) (He : exact slack s) (Hroom : curr_size_b d + 2 ^ 31 <= 2 ^ 62).
Context (r : response * server * option (bytes * Z * Z)).
Context (Hst : stored hash opens now w tms crc q sub fname s d payload r).
Let name := dir_p d ++ segment_name hash fname.
Let ttl := default 0 (stoi I32 (q_ttl q)).

Lemma stored_shape : same_shape (conf s) (conf r.1.2).
Proof.
  destruct (st_conf _ _ _ _ _ _ _ _ _ _ _ _ _ Hst) as [z ->].
  apply (same_shape_set_dir s sub d (inc_curr_disk_size z d) (files s)); [apply Hs|done].
Qed.

Lemma stored_exact : exact slack r.1.2.
Proof.
  pose proof (so_dir _ _ _ _ _ _ _ _ _ _ _ _ Hs) as Hd. pose proof (He sub d Hd) as [A1 A2 A3 A4].
  pose proof (so_block _ _ _ _ _ _ _ _ _ _ _ _ Hs) as Hb.
  destruct (st_dir _ _ _ _ _ _ _ _ _ _ _ _ _ Hst) as (d' & S5 & S6 & S7).
  destruct (st_conf _ _ _ _ _ _ _ _ _ _ _ _ _ Hst) as [z Hz].
  assert (Ed : d' = inc_curr_disk_size z d).
  { rewrite Hz in S5. cbn [conf set_dir dirs] in S5. apply (f_equal (fun m => m !! sub)) in S5. rewrite !lookup_insert_eq in S5. by injection S5. }
  assert (Hnm : starts_with name (dir_p d) = true) by apply starts_with_app.
  pose proof (st_file _ _ _ _ _ _ _ _ _ _ _ _ _ Hst) as Hfile. fold name in Hfile.
  pose proof (used_stored d (files s) (files r.1.2) name _ Hnm Hfile (st_others _ _ _ _ _ _ _ _ _ _ _ _ _ Hst)) as Hu.
  pose proof (taken_bound _ _ Hb (so_new _ _ _ _ _ _ _ _ _ _ _ _ Hs)) as Hnew.
  pose proof (taken_bound _ _ Hb (so_old _ _ _ _ _ _ _ _ _ _ _ _ Hs)) as Hold. fold name in Hold.
  intros sub0 d0 Hd0. rewrite S5, lookup_insert_Some in Hd0. destruct Hd0 as [[<- <-]|[Hne Hd0]].
  - split; [|rewrite Ed; cbn [inc_curr_disk_size dir_p fs_block_size_b]; rewrite Ed in S7; lia|done|lia].
    intros n c Hn Hc. rewrite Ed in Hn |- *. cbn [inc_curr_disk_size dir_p fs_block_size_b] in *.
    destruct (decide (n = name)) as [->|Hnn]; [rewrite Hfile in Hc; by eapply so_new|].
    rewrite (st_others _ _ _ _ _ _ _ _ _ _ _ _ _ Hst) in Hc by done. by eapply A1.
  - apply (account_ext _ _ (files s)); [|by apply He]. intros n Hn. apply starts_with_spec in Hn as [x ->].
    apply (st_elsewhere _ _ _ _ _ _ _ _ _ _ _ _ _ Hst); [|by eapply ty_lists].
    intros E. pose proof (ty_apart _ HT sub0 d0 sub d x Hd0 Hd ltac:(done)) as Ha. rewrite E in Ha.
    unfold name in Hnm. congruence.
Qed.

Context (Hplain : x2f ∉ fname) (Hspace : no_space fname) (Httl : 0 < ttl).
Context (Hopens : opens (expiry_list now q s) = true) (Hlists : lists_tidy (conf s) (files s)).

Let expiry := add_days ttl now.
Let date := get_date (lit "-") expiry.

Lemma expiry_list_path : expiry_list now q s = list_path (conf s) date (lit "ttl").
Proof. done. Qed.

Lemma list_path_outside c date' n z x sub' d' :
  tidy c -> dirs c !! sub' = Some d' -> list_path c date' n <> (dir_p d' ++ z) ++ x.
Proof.
  intros HT' Hd E. pose proof (ty_lists _ HT' sub' d' (z ++ x) Hd) as Hl. rewrite app_assoc, <- E in Hl.
  unfold list_path in Hl. by rewrite starts_with_app in Hl.
Qed.

Lemma stored_noted : files r.1.2 !! expiry_list now q s = Some (default [] (files s !! expiry_list now q s) ++ name ++ [x0a]).
Proof.
  rewrite (st_noted _ _ _ _ _ _ _ _ _ _ _ _ _ Hst) by (done || (rewrite expiry_list_path; intros E;
    eapply (list_path_outside _ _ _ _ [] sub d HT); [apply Hs|by rewrite app_nil_r])).
  by rewrite decide_True.
Qed.

Lemma stored_lines : exists lines, files r.1.2 !! expiry_list now q s = Some (lines_text (lines ++ [name])) /\
  Forall (fun l => x0a ∉ l /\ line_ok (conf s) l) (lines ++ [name]).
Proof.
  pose proof (so_dir _ _ _ _ _ _ _ _ _ _ _ _ Hs) as Hd.
  destruct (noted_entry hash (conf s) sub d fname HT Hd Hplain Hspace (so_fname _ _ _ _ _ _ _ _ _ _ _ _ Hs)) as (Htr & Hli & Hnl).
  assert (Hold : exists lines, default [] (files s !! expiry_list now q s) = lines_text lines /\
    Forall (fun l => x0a ∉ l /\ line_ok (conf s) l) lines).
  { destruct (files s !! expiry_list now q s) as [old|] eqn:Eo; [|by exists []].
    rewrite expiry_list_path in Eo. by apply (Hlists date (lit "ttl")). }
  destruct Hold as (lines & El & Hf). exists lines. rewrite stored_noted, El. split.
  - unfold lines_text. rewrite fmap_app, join_app. cbn. by rewrite app_nil_r.
  - apply Forall_app. split; [done|]. apply Forall_singleton. split; [done|]. right. unfold name. by rewrite Htr.
Qed.

Lemma stored_lists : lists_tidy (conf r.1.2) (files r.1.2).
Proof.
  pose proof stored_shape as Hsh. intros date' n text. rewrite (list_path_same (conf s)) by done. intros Ht.
  assert (Hok : forall l, x0a ∉ l /\ line_ok (conf s) l -> x0a ∉ l /\ line_ok (conf r.1.2) l)
    by (intros l [? ?]; split; [done|by eapply line_ok_same]).
  destruct (decide (list_path (conf s) date' n = expiry_list now q s)) as [E|E].
  - destruct stored_lines as (lines & El & Hf). rewrite E, El in Ht. injection Ht as <-.
    exists (lines ++ [name]). split; [done|]. eapply Forall_impl; [exact Hf|exact Hok].
  - rewrite (st_noted _ _ _ _ _ _ _ _ _ _ _ _ _ Hst) in Ht by (done || (intros E';
      eapply (list_path_outside _ _ _ _ [] sub d HT); [apply Hs|by rewrite app_nil_r])).
    rewrite decide_False in Ht by done. destruct (Hlists date' n text Ht) as (lines & -> & Hf).
    exists lines. split; [done|]. eapply Forall_impl; [exact Hf|exact Hok].
Qed.

Context `{FilesystemLaws} (later : date_time) (Hyear : 1000 <= year (date_ expiry) <= 9999).
Context (Hlate : date_le (date_ expiry) (date_ later) = true).

Lemma expiry_normal : normal expiry.
Proof.
  pose proof (so_now _ _ _ _ _ _ _ _ _ _ _ _ Hs) as [[Hm _] _]. unfold expiry.
  destruct now as [[y mo dd yd vd] [h mi sc ms vt]]. cbn [add_days]. apply incr_all_spec. exact Hm.
Qed.

Lemma date_plain c : is_digit c = false -> c <> x2d -> c ∉ date.
Proof.
  intros Hc Hd. unfold date, get_date, two. assert (Ht : forall n, c ∉ to_string n) by (intros; by apply to_string_not_elem).
  assert (Hl : c ∉ lit "-") by (change (lit "-") with [x2d]; set_solver).
  assert (Hz : c ∉ [x30]) by (intros Hin; apply list_elem_of_singleton in Hin; by subst c).
  rewrite !not_elem_of_app. repeat split; try apply Ht; try done; by destruct (_ <? _); try done; apply not_elem_of_nil.
Qed.

Lemma stored_due : date ∈ due later r.1.2.
Proof.
  unfold due. apply list_elem_of_omap. exists date. split; [|by apply due_date_of; [apply expiry_normal| |]].
  apply (list_dirs_complete _ _ _ (lit "ttl")); [by apply date_plain|by apply date_plain|].
  pose proof stored_noted as E. rewrite expiry_list_path in E. unfold list_path in E.
  destruct stored_shape as (-> & _). rewrite E. by eexists.
Qed.

Lemma stored_expired x : x = name \/ x = data_of name -> expired later r.1.2 x = true.
Proof.
  intros Hx. unfold expired. apply existsb_exists. exists date. split; [apply list_elem_of_In, stored_due|].
  unfold gone. apply orb_true_iff. right. apply bool_decide_eq_true.
  assert (Hin : name ∈ noted_in (conf r.1.2) (files r.1.2) date (list_names (conf r.1.2))).
  { pose proof (so_dir _ _ _ _ _ _ _ _ _ _ _ _ Hs) as Hd.
    destruct (noted_entry hash (conf s) sub d fname HT Hd Hplain Hspace (so_fname _ _ _ _ _ _ _ _ _ _ _ _ Hs)) as (Htr & _ & _).
    destruct stored_lines as (lines & El & Hf). unfold noted_in. apply list_elem_of_bind. exists (lit "ttl").
    split; [|unfold list_names; set_solver]. unfold list_lines. rewrite (list_path_same (conf s)) by apply stored_shape.
    rewrite <- expiry_list_path, El. cbn [default from_option]. unfold id.
    rewrite split_lines by (eapply Forall_impl; [exact Hf|naive_solver]).
    apply list_elem_of_filter. split; [unfold name, segment_name; by destruct (dir_p d), (to_string (get_segment_folder hash fname))|].
    apply list_elem_of_fmap. exists name. split; [by unfold name; rewrite Htr|set_solver]. }
  destruct Hx as [-> | ->]; [by left|right]. by apply list_elem_of_fmap_2.
Qed.
End write_keeps.

(** C24: a file that is stored with a time to live is there until it expires and not longer: the
    write notes it in the list of its expiry date, and when the remover runs on that date or
    later, the file and its json data are gone, and the running size of every directory is
    still exact after the write and after the removal. *)
Theorem stored_file_expires `{JdbEngine} `{FilesystemLaws} (hash : bytes -> Z) (decrypt : bytes -> bytes -> bytes -> bytes)
    (opens : bytes -> bool) (now later : date_time) (w : w_type) (tms crc : Z) (q : request) (payload sub fname : bytes)
    (s : server) (d : directory) (chk : bool) (slack : bytes -> Z) :
  let ttl := default 0 (stoi I32 (q_ttl q)) in
  storable hash opens now w tms crc q payload sub fname s d -> auth_ok (auth (conf s)) chk (q_auth q) ->
  tidy (conf s) -> exact slack s -> lists_tidy (conf s) (files s) -> curr_size_b d + 2 ^ 31 <= 2 ^ 62 ->
  x2f ∉ fname -> no_space fname -> 0 < ttl -> opens (expiry_list now q s) = true ->
  1000 <= year (date_ (add_days ttl now)) <= 9999 ->
  date_le (date_ (add_days ttl now)) (date_ later) = true ->
  exists res s' s'', accept_file hash decrypt opens true now (enc_request q) chk false s = Some (res, s', Some (q_name q, tms, crc)) /\
    exact slack s' /\ run_ttl_remover later s' = Some s'' /\
    files s'' !! (dir_p d ++ segment_name hash fname) = None /\
    files s'' !! data_of (dir_p d ++ segment_name hash fname) = None /\ exact slack s''.
Proof.
  intros ttl Hs Ha HT He Hl Hroom Hf Hsp Httl Hop Hy Hle.
  destruct (storable_stored hash decrypt opens now w tms crc q payload sub fname s d chk Hs Ha) as ([[res s'] ev] & E & Hst).
  pose proof (st_event _ _ _ _ _ _ _ _ _ _ _ _ _ Hst) as Hev. cbn [snd] in Hev. subst ev.
  pose proof (stored_shape hash opens now w tms crc q payload sub fname s d Hs _ Hst) as Hsh.
  pose proof (stored_exact hash opens now w tms crc q payload sub fname s d Hs slack HT He Hroom _ Hst) as He'.
  pose proof (stored_lists hash opens now w tms crc q payload sub fname s d Hs HT _ Hst Hf Hsp Httl Hop Hl) as Hl'.
  cbn [fst snd] in *.
  destruct (run_ttl_remover_spec slack later s' (tidy_same _ _ Hsh HT) He' ltac:(intros; by apply lists_tidy_ok))
    as (s'' & E' & [_ _ A3 A4]).
  exists res, s', s''. split; [done|]. split; [done|]. split; [done|].
  pose proof (stored_expired hash opens now w tms crc q payload sub fname s d Hs slack HT He Hroom _ Hst Hf Hsp Httl Hop Hl later Hy Hle) as Hx.
  cbn [fst snd] in Hx. unfold expired in Hx.
  split; [rewrite A4, Hx by auto; done|]. split; [rewrite A4, Hx by auto; done|done].
Qed.

(** ** An example *)

(** A file system with the documented behaviour: what is below a path is read off the names. *)
Definition dir_below (p n : bytes) : option bytes :=
  if starts_with n p then (fun i => take i (drop (length p) n)) <$> str_find [x2f] (drop (length p) n) else None.

#[local] Instance plain_filesystem : Filesystem :=
  {| list_dirs := fun f p => omap (dir_below p) (map_to_list f).*1;
     remove_all := fun p f => filter (fun x => below p x.1 = false) f |}.

#[local] Instance plain_laws : FilesystemLaws.
Proof.
  split.
  - intros p f n. cbn [remove_all plain_filesystem]. destruct (below p n) eqn:E.
    + apply map_lookup_filter_None. right. intros c _. cbn. congruence.
    + destruct (f !! n) as [c|] eqn:Ef.
      * by apply map_lookup_filter_Some.
      * apply map_lookup_filter_None. by left.
  - intros f p d x Hd _ [c Hc]. cbn [list_dirs plain_filesystem]. apply list_elem_of_omap.
    exists (p ++ d ++ lit "/" ++ x). split.
    + apply list_elem_of_fmap. exists (p ++ d ++ lit "/" ++ x, c). split; [done|]. by apply elem_of_map_to_list.
    + unfold dir_below. rewrite starts_with_app, drop_app_length. change (lit "/" ++ x) with (x2f :: x).
      rewrite str_find_char_app by done. cbn. by rewrite take_app_length.
Qed.

#[local] Existing Instance no_jdb.

Definition ex_dir : directory := Directory true (lit "/d/") 10000000 4096000 4096.
Definition ex_server : server := Server (Conf true true (lit "key") [] [] (lit "/ttl/") 2 {[ lit "sub" := ex_dir ]}) ∅.
Definition ex_request (ttl : bytes) : request :=
  Request (lit "key") (lit "sub/a") ttl (stamp_flags updatable 77 5) (lit "hello").
Definition ex_slack (_ : bytes) : Z := 4096000.

Lemma ex_dirs sub d : dirs (conf ex_server) !! sub = Some d -> sub = lit "sub" /\ d = ex_dir.
Proof. cbn [conf ex_server dirs]. intros [<- <-]%lookup_singleton_Some. done. Qed.

Lemma ex_tidy : tidy (conf ex_server).
Proof.
  split.
  - intros sub d [-> ->]%ex_dirs. exists 12. split; [lia|done].
  - intros sub d [-> ->]%ex_dirs. exists [lit "d"]. split; [|done]. repeat constructor; [done|]. by apply (bool_decide_unpack _).
  - intros sub d [-> ->]%ex_dirs. by apply (bool_decide_unpack _).
  - intros s1 d1 s2 d2 x [-> ->]%ex_dirs [-> ->]%ex_dirs Hne. done.
  - intros sub d [-> ->]%ex_dirs x. done.
  - intros sub d x [-> ->]%ex_dirs. apply not_true_iff_false. rewrite starts_with_spec. by intros [t Ht].
Qed.

Lemma ex_exact : exact ex_slack ex_server.
Proof.
  intros sub d [-> ->]%ex_dirs. split; [|by vm_compute|done|done].
  intros n c _. cbn [files ex_server]. by rewrite lookup_empty.
Qed.

Lemma ex_storable (ttl : bytes) : x20 ∉ ttl ->
  file_ok 4096 (file_header example_dt (default 0 (stoi I32 ttl)) (headers_of updatable 77 5) ++ lit "hello") ->
  storable (fun _ => 7) (fun _ => true) example_dt updatable 77 5 (ex_request ttl) (lit "hello") (lit "sub") (lit "a") ex_server ex_dir.
Proof.
  intros Ht Hok. split.
  - unfold normal, date_normal, time_normal. simpl. change (count_days_in_month 12 2023) with 31. lia.
  - simpl; lia.
  - by left.
  - range_lia.
  - range_lia.
  - split; try (by apply (bool_decide_unpack _)); [done|].
    exists x30, x31, (numeric_to_chars I64 77 ++ numeric_to_chars I64 5). split_and!; [done|done|done|by vm_compute].
  - reflexivity.
  - simpl; lia.
  - reflexivity.
  - discriminate.
  - reflexivity.
  - by vm_compute.
  - reflexivity.
  - exists 12. split; [lia|reflexivity].
  - intros c Hc. cbn [files ex_server] in Hc. by rewrite lookup_empty in Hc.
  - intros c [= <-]. exact Hok.
  - simpl; lia.
  - intros x. reflexivity.
  - right. split; [reflexivity|simpl; lia].
  - reflexivity.
Qed.

Definition ex_later : date_time := DateTime (Date 2024 1 2 2 true) (Time 0 0 0 0 true).

Lemma stored_file_expires_witness :
  exists res s' s'', accept_file (fun _ => 7) (fun c _ _ => c) (fun _ => true) true example_dt (enc_request (ex_request (lit "2")))
    true false ex_server = Some (res, s', Some (lit "sub/a", 77, 5)) /\
    exact ex_slack s' /\ run_ttl_remover ex_later s' = Some s'' /\
    files s'' !! (lit "/d/7/a") = None /\ files s'' !! data_of (lit "/d/7/a") = None /\ exact ex_slack s''.
Proof.
  apply (stored_file_expires (fun _ => 7) (fun c _ _ => c) (fun _ => true) example_dt ex_later updatable 77 5
    (ex_request (lit "2")) (lit "hello") (lit "sub") (lit "a") ex_server ex_dir true ex_slack).
  - apply ex_storable; [by apply (bool_decide_unpack _)|vm_compute; done].
  - right. right. reflexivity.
  - exact ex_tidy.
  - exact ex_exact.
  - intros date name text. cbn [files ex_server]. by rewrite lookup_empty.
  - simpl; lia.
  - by apply (bool_decide_unpack _).
  - repeat constructor.
  - by vm_compute.
  - reflexivity.
  - by vm_compute.
  - by vm_compute.
Defined.

Definition ex_listed : server :=
  set_files {[ lit "/d/7/a" := lit "xyz"; lit "/d/7/b" := lit "uvw"; lit "/ttl/2024-01-02/ttl" := lit "/d/7/a" ++ [x0a] ]}
    (set_dir (lit "sub") (Directory true (lit "/d/") 10000000 4104192 4096) ex_server).

Lemma ttl_remover_exact_witness :
  exists s', run_ttl_remover ex_later ex_listed = Some s' /\
    (forall n, files s' !! n = if expired ex_later ex_listed n then None else files ex_listed !! n) /\
    exact ex_slack s' /\ same_shape (conf ex_listed) (conf s').
Proof.
  assert (Hsh : same_shape (conf ex_server) (conf ex_listed)) by (by apply (same_shape_set_dir ex_server (lit "sub") ex_dir)).
  apply (ttl_remover_exact ex_slack ex_later ex_listed).
  - exact (tidy_same _ _ Hsh ex_tidy).
  - intros sub d Hd. cbn [ex_listed set_files set_dir conf dirs] in Hd.
    apply lookup_insert_Some in Hd as [[<- <-]|[Hne [-> _]%ex_dirs]]; [|done].
    split; [|by vm_compute|done|done]. intros n c _ Hc. unfold ex_listed in Hc. cbn [set_files files] in Hc.
    repeat (apply lookup_insert_Some in Hc as [[_ <-]|[_ Hc]]; [by vm_compute|]).
    apply lookup_singleton_Some in Hc as [_ <-]. by vm_compute.
  - intros date Hin. assert (E : due ex_later ex_listed = [lit "2024-01-02"]) by (by vm_compute). rewrite E in Hin.
    apply list_elem_of_singleton in Hin as ->. intros n Hn.
    assert (E' : list_names (conf ex_listed) = [lit "ttl"; lit "ttl0"; lit "ttl1"]) by (by vm_compute). rewrite E' in Hn.
    set_unfold in Hn. destruct Hn as [->|[->|[->|[]]]]; [|by vm_compute; constructor..].
    assert (El : list_lines (conf ex_listed) (files ex_listed) (lit "2024-01-02") (lit "ttl") = [lit "/d/7/a"]) by (by vm_compute).
    rewrite El. apply Forall_singleton. right. apply (listed_same _ _ _ Hsh).
    exists (lit "sub"), ex_dir, (lit "7"), (lit "a"). split_and!; [done|done|by apply (bool_decide_unpack _)|].
    split_and!; [done|by apply (bool_decide_unpack _)..].
Defined.

(** A file that was stored with a short time to live and then again with a long one is removed
    on the first date: its name is still in the first list. *)
Definition ex_accept (ttl : bytes) (s : server) : option server :=
  (fun r => r.1.2) <$> accept_file (fun _ => 7) (fun c _ _ => c) (fun _ => true) true example_dt
    (enc_request (ex_request ttl)) true false s.

Example rewritten_file_expires_early :
  (s ← ex_accept (lit "2") ex_server; s ← ex_accept (lit "300") s;
   s' ← run_ttl_remover ex_later s; Some (files s !! lit "/d/7/a", files s' !! lit "/d/7/a")) =
  Some (Some (file_header example_dt 300 (headers_of updatable 77 5) ++ lit "hello"), None).
Proof. by vm_compute. Qed.
