(* ===== verification/Settings.v ===== *)
(** * Settings ([disk_server.cpp], [hstf.cpp], [rssdisk_pool.cpp], [basefunc_std.cpp], [tcp_client.cpp])

    One file, [rssdisk.json], configures the servers, the replication between them and the
    clients: its members are the addresses of the servers.  Modelled are the readers of that file,
    [server::init_server_settings], [hstf::init] (its part that reads settings),
    [hstf_client::init] and [client::init_settings], the reader [read_settings] of the file with
    the own address, and the [timeout_detector] that the client configures.  The settings of a
    server are a state that the reader updates field by field: an exception leaves what was set
    before it, as in the code.  Creating folders is not modelled; the block size of a path is a
    parameter. *)

From S2P Require Import Prelude BasefuncStd DateTime Json JsonReader JsonReaderFacts WType JdbInterface DiskHelper Md5 DiskServer DiskServerFacts TtlRemover.
From Stdlib Require Import ZArith Lia Strings.Byte.
From stdpp Require Import base gmap strings numbers list.
Open Scope Z_scope.

(** ** [basefunc_std::read_settings] *)

(** [fgets] with the buffer of the code: a line with its line feed, at most 99999 characters. *)
Fixpoint fgets_lines (room : nat) (s cur : bytes) : list bytes :=
  match s with
  | [] => match cur with [] => [] | _ => [cur] end
  | c :: s' =>
      match room with
      | O => cur :: (if bool_decide (c = x0a) then [c] :: fgets_lines 99999 s' [] else fgets_lines 99998 s' [c])
      | S room' =>
          if bool_decide (c = x0a) then (cur ++ [c]) :: fgets_lines 99999 s' []
          else fgets_lines room' s' (cur ++ [c])
      end
  end.

Fixpoint skip_blanks (s : bytes) : bytes :=
  match s with (x20 | x09) :: s' => skip_blanks s' | _ => s end.

(** The characters up to the first that satisfies [stop]. *)
Fixpoint take_until (stop : byte -> bool) (s : bytes) : bytes :=
  match s with [] => [] | c :: s' => if stop c then [] else c :: take_until stop s' end.

(** [sscanf(line, "[%s]", Order)]: the word after the bracket, which includes the closing one;
    [Some None]: nothing is left to read. *)
Definition scan_section (line : bytes) : option (option bytes) :=
  match line with
  | [] => Some None
  | x5b :: s => match take_until is_space (skip_space s) with [] => Some None | w => Some (Some w) end
  | _ => None
  end.

Definition value_end (c : byte) : bool := bool_decide (c ∈ [x09; x3b; x23; x0a; x0d; x00]).

(** The loop over the lines; [order] is the last section read.  The line is a C string. *)
Fixpoint settings_loop (sect parm : bytes) (lines : list bytes) (order : bytes) : bytes :=
  match lines with
  | [] => []
  | line :: lines' =>
      let l := skip_blanks (c_str line) in
      match l with
      | (x23 | x3b | x0a) :: _ => settings_loop sect parm lines' order
      | _ =>
          match scan_section l with
          | Some None => settings_loop sect parm lines' order
          | Some (Some w) => settings_loop sect parm lines' w
          | None =>
              if negb (is_prefix sect order) then settings_loop sect parm lines' order
              else if negb (is_prefix (parm ++ lit "=") l) then settings_loop sect parm lines' order
              else take_until value_end (drop (length parm + 1) l)
          end
      end
  end.

(** What is left in [save_buffer]: empty when the file cannot be opened. *)
Definition read_settings (file : option bytes) (sect_name parm_name : bytes) : bytes :=
  match file with
  | None => []
  | Some text => settings_loop sect_name parm_name (fgets_lines 99999 text []) (replicate 100 x20)
  end.

Example read_settings_ex :
  read_settings (Some (lit "# c
[net]
ip=1.1.1.1
 [main]
name = x
  ip=10.0.0.7 ; own address
")) (lit "main") (lit "ip") = lit "10.0.0.7 ".
Proof. vm_compute. reflexivity. Qed.

(** ** Access to settings *)

(** [asBool]. *)
Definition json_asBool (v : json) : option bool :=
  match v with
  | booleanValue b => Some b
  | nullValue => Some false
  | intValue n | uintValue n => Some (negb (n =? 0))
  | realValue _ i => Some (negb (bool_decide (i = Some 0)))
  | stringValue _ | arrayValue _ | objectValue _ => None
  end.

(** [v["a"]["b"]]... *)
Definition json_path (v : json) (path : list bytes) : option json := foldl (fun o k => o ≫= fun v => json_at v k) (Some v) path.

(** [v.get(key, false).asBool()]. *)
Definition json_flag (v : json) (key : bytes) : option bool :=
  o ← json_find v key; json_asBool (default (booleanValue false) o).

(** The elements a loop [for (i = 0; i < v.size(); ++i) v[i]] visits: for an object the access
    by index throws. *)
Definition json_items (v : json) : option (list json) :=
  match v with
  | arrayValue l => Some l
  | objectValue (_ :: _) => None
  | _ => Some []
  end.

(** ** The server *)

Record settings := Settings {
  st_conf : server_conf; st_weight : Z; http_port : Z; http_threads : Z; hdd_path : bytes;
  tcp_port : Z; worker_threads : Z; fast_worker_threads : Z; st_delimeter : bytes; st_echo : bytes;
  st_gost_enc : bool; st_self_ip : bytes }.

(** A step that reads and changes the settings; no value: an exception. *)
Definition loading (A : Type) : Type := settings -> settings * option A.

#[export] Instance loading_ret : MRet loading := fun A a s => (s, Some a).
#[export] Instance loading_bind : MBind loading := fun A B f m s =>
  match m s with (s', Some a) => f a s' | (s', None) => (s', None) end.

(** A value of the file, and an assignment. *)
Definition from_file {A} (o : option A) : loading A := fun s => (s, o).
Definition assign (f : settings -> settings) : loading unit := fun s => (f s, Some ()).

(** The assignments. *)
Definition set_weight (x : Z) (s : settings) : settings :=
  Settings (st_conf s) x (http_port s) (http_threads s) (hdd_path s) (tcp_port s) (worker_threads s) (fast_worker_threads s) (st_delimeter s) (st_echo s) (st_gost_enc s) (st_self_ip s).
Definition set_http_port (x : Z) (s : settings) : settings :=
  Settings (st_conf s) (st_weight s) x (http_threads s) (hdd_path s) (tcp_port s) (worker_threads s) (fast_worker_threads s) (st_delimeter s) (st_echo s) (st_gost_enc s) (st_self_ip s).
Definition set_http_threads (x : Z) (s : settings) : settings :=
  Settings (st_conf s) (st_weight s) (http_port s) x (hdd_path s) (tcp_port s) (worker_threads s) (fast_worker_threads s) (st_delimeter s) (st_echo s) (st_gost_enc s) (st_self_ip s).
Definition set_hdd_path (x : bytes) (s : settings) : settings :=
  Settings (st_conf s) (st_weight s) (http_port s) (http_threads s) x (tcp_port s) (worker_threads s) (fast_worker_threads s) (st_delimeter s) (st_echo s) (st_gost_enc s) (st_self_ip s).
Definition set_tcp_port (x : Z) (s : settings) : settings :=
  Settings (st_conf s) (st_weight s) (http_port s) (http_threads s) (hdd_path s) x (worker_threads s) (fast_worker_threads s) (st_delimeter s) (st_echo s) (st_gost_enc s) (st_self_ip s).
Definition set_worker_threads (x : Z) (s : settings) : settings :=
  Settings (st_conf s) (st_weight s) (http_port s) (http_threads s) (hdd_path s) (tcp_port s) x (fast_worker_threads s) (st_delimeter s) (st_echo s) (st_gost_enc s) (st_self_ip s).
Definition set_fast_worker_threads (x : Z) (s : settings) : settings :=
  Settings (st_conf s) (st_weight s) (http_port s) (http_threads s) (hdd_path s) (tcp_port s) (worker_threads s) x (st_delimeter s) (st_echo s) (st_gost_enc s) (st_self_ip s).
Definition set_delimeter (x : bytes) (s : settings) : settings :=
  Settings (st_conf s) (st_weight s) (http_port s) (http_threads s) (hdd_path s) (tcp_port s) (worker_threads s) (fast_worker_threads s) x (st_echo s) (st_gost_enc s) (st_self_ip s).
Definition set_echo (x : bytes) (s : settings) : settings :=
  Settings (st_conf s) (st_weight s) (http_port s) (http_threads s) (hdd_path s) (tcp_port s) (worker_threads s) (fast_worker_threads s) (st_delimeter s) x (st_gost_enc s) (st_self_ip s).
Definition set_gost_enc (x : bool) (s : settings) : settings :=
  Settings (st_conf s) (st_weight s) (http_port s) (http_threads s) (hdd_path s) (tcp_port s) (worker_threads s) (fast_worker_threads s) (st_delimeter s) (st_echo s) x (st_self_ip s).
Definition set_self_ip (x : bytes) (s : settings) : settings :=
  Settings (st_conf s) (st_weight s) (http_port s) (http_threads s) (hdd_path s) (tcp_port s) (worker_threads s) (fast_worker_threads s) (st_delimeter s) (st_echo s) (st_gost_enc s) x.
Definition on_conf (f : server_conf -> server_conf) (s : settings) : settings :=
  Settings (f (st_conf s)) (st_weight s) (http_port s) (http_threads s) (hdd_path s) (tcp_port s) (worker_threads s) (fast_worker_threads s) (st_delimeter s) (st_echo s) (st_gost_enc s) (st_self_ip s).
Definition set_enable_read (x : bool) : settings -> settings :=
  on_conf (fun c => Conf x (enable_write c) (auth c) (aes_key c) (iv c) (ttl_p c) (tcp_threads c) (dirs c)).
Definition set_enable_write (x : bool) : settings -> settings :=
  on_conf (fun c => Conf (enable_read c) x (auth c) (aes_key c) (iv c) (ttl_p c) (tcp_threads c) (dirs c)).
Definition set_auth (x : bytes) : settings -> settings :=
  on_conf (fun c => Conf (enable_read c) (enable_write c) x (aes_key c) (iv c) (ttl_p c) (tcp_threads c) (dirs c)).
Definition set_ttl_p (x : bytes) : settings -> settings :=
  on_conf (fun c => Conf (enable_read c) (enable_write c) (auth c) (aes_key c) (iv c) x (tcp_threads c) (dirs c)).
Definition set_tcp_threads (x : Z) : settings -> settings :=
  on_conf (fun c => Conf (enable_read c) (enable_write c) (auth c) (aes_key c) (iv c) (ttl_p c) x (dirs c)).
Definition set_keys (key : bytes -> bytes * bytes) : settings -> settings :=
  on_conf (fun c => let '(k, v) := key (iv c) in Conf (enable_read c) (enable_write c) (auth c) k v (ttl_p c) (tcp_threads c) (dirs c)).
Definition set_dirs (m : gmap bytes directory) (c : server_conf) : server_conf :=
  Conf (enable_read c) (enable_write c) (auth c) (aes_key c) (iv c) (ttl_p c) (tcp_threads c) m.

Section load.
(** The files of the server, the block size of a path, and the buffer of [MD5]. *)
Context (f : fs) (get_fs_block_size : bytes -> Z) (buf : bytes).

(** "10g": a number and a unit; without a unit the last digit is cut off all the same. *)
Definition size_of_text (str : bytes) : Z :=
  match last str with
  | None => 0
  | Some l =>
      let n := default 0 (stoi I64 (take (length str - 1) str)) in
      wrap I64 (match l with
                | x67 | x47 => n * (1024 * 1024 * 1024)
                | x6d | x4d => n * (1024 * 1024)
                | x6b | x4b => n * 1024
                | _ => n
                end)
  end.

Definition read_max_size (v : json) : Z :=
  if isInt64 v then asInt64 v else if isString v then size_of_text (asString v) else 0.

(** One element of "dirs": its subfolder and the directory. *)
Definition read_directory (d : json) : option (bytes * directory) :=
  enabled ← json_path d [lit "enabled"] ≫= json_asBool;
  p ← json_path d [lit "p"] ≫= json_asString;
  max_size ← read_max_size <$> json_path d [lit "max_size_b"];
  let blk := get_fs_block_size p in
  sub ← (m ← isMember d (lit "subfolder"); if (m : bool) then json_path d [lit "subfolder"] ≫= json_asString else Some []);
  Some (sub, Directory enabled p max_size (wrap I64 (get_dir_size f p blk + blk * count_segment_folders)) blk).

(** The loop over "dirs": false when a path occurs twice; a subfolder that is given twice keeps
    its first directory. *)
Fixpoint load_dirs (l : list json) (path_control : gset bytes) : loading bool :=
  match l with
  | [] => mret true
  | d :: l' =>
      '(sub, dir) ← from_file (read_directory d);
      if bool_decide (dir_p dir ∈ path_control) then mret false
      else
        assign (on_conf (fun c => set_dirs (match dirs c !! sub with Some _ => dirs c | None => <[sub := dir]> (dirs c) end) c)) ≫= fun _ =>
        load_dirs l' ({[dir_p dir]} ∪ path_control)
  end.

(** [hdd_path] with a slash at its end. *)
Definition with_slash (p : bytes) : bytes :=
  match last p with Some c => if bool_decide (c = x2f) then p else p ++ lit "/" | None => [] end.

Definition int_at (j : json) (path : list bytes) : loading Z := from_file (json_path j path ≫= json_asInt).
Definition text_at (j : json) (path : list bytes) : loading bytes := from_file (json_path j path ≫= json_asString).
Definition bool_at (j : json) (path : list bytes) : loading bool := from_file (json_path j path ≫= json_asBool).

(** A number of threads, by default that of "threads". *)
Definition threads_at (jtcp : json) (key : bytes) (threads : Z) : loading Z :=
  m ← from_file (isMember jtcp key); if (m : bool) then int_at jtcp [key] else mret threads.

(** The key and its first half as hexadecimal digits; an empty key stays empty. *)
Definition secure_key (key iv0 : bytes) : bytes * bytes :=
  match key with
  | [] => ([], iv0)
  | _ => let h := default [] (md5_hex buf key) in (h, take 16 h)
  end.

(** The settings of the server [self_ip] in the file, in the order of the code. *)
Definition load_general (j : json) : loading unit :=
  b ← bool_at j [lit "enable_read"]; assign (set_enable_read b) ≫= fun _ =>
  b ← bool_at j [lit "enable_write"]; assign (set_enable_write b) ≫= fun _ =>
  n ← int_at j [lit "weight"]; assign (set_weight n) ≫= fun _ =>
  n ← int_at j [lit "http"; lit "port"]; assign (set_http_port n) ≫= fun _ =>
  n ← int_at j [lit "http"; lit "threads"]; assign (set_http_threads n) ≫= fun _ =>
  t ← text_at j [lit "ttl"; lit "p"]; assign (set_ttl_p t) ≫= fun _ =>
  t ← text_at j [lit "tmp"; lit "hdd_path"]; assign (set_hdd_path (with_slash t)).

Definition load_tcp (jtcp : json) : loading unit :=
  n ← int_at jtcp [lit "port"]; assign (set_tcp_port n) ≫= fun _ =>
  threads ← int_at jtcp [lit "threads"]; assign (set_tcp_threads threads) ≫= fun _ =>
  n ← threads_at jtcp (lit "worker_threads") threads; assign (set_worker_threads n) ≫= fun _ =>
  n ← threads_at jtcp (lit "fast_worker_threads") threads; assign (set_fast_worker_threads n) ≫= fun _ =>
  t ← text_at jtcp [lit "delimeter"]; assign (set_delimeter t) ≫= fun _ =>
  t ← text_at jtcp [lit "echo"]; assign (set_echo t).

Definition load_secure (j : json) : loading unit :=
  t ← text_at j [lit "secure"; lit "auth"]; assign (set_auth t) ≫= fun _ =>
  t ← text_at j [lit "secure"; lit "aes_key"]; assign (set_keys (secure_key t)) ≫= fun _ =>
  b ← from_file (json_at j (lit "secure") ≫= fun v => json_flag v (lit "gost_enc")); assign (set_gost_enc b).

Definition load_server (root : json) (self_ip : bytes) : loading bool :=
  known ← from_file (isMember root self_ip);
  if negb known then from_file None
  else
    j ← from_file (json_at root self_ip);
    load_general j ≫= fun _ =>
    jtcp ← from_file (json_at j (lit "tcp"));
    load_tcp jtcp ≫= fun _ =>
    load_secure j ≫= fun _ =>
    assign (on_conf (set_dirs ∅)) ≫= fun _ =>
    l ← from_file (json_at j (lit "dirs") ≫= json_items);
    b ← load_dirs l ∅;
    if (b : bool) then assign (set_self_ip self_ip) ≫= fun _ => mret true else mret false.

(** [init_server_settings] with the files "self.conf" and "rssdisk.json": the settings and the
    result.  An exception is only reported; the server goes on with what was set before. *)
Definition init_server_settings (self_name : bytes) (self_conf rssdisk_json : option bytes) (s : settings) : settings * bool :=
  let self_ip := match self_name with [] => read_settings self_conf (lit "main") (lit "ip") | _ => self_name end in
  match self_ip, rssdisk_json with
  | [], _ | _, None => (s, false)
  | _, Some c =>
      match parse c with
      | None => (s, true)
      | Some root =>
          match load_server root self_ip s with
          | (s, Some b) => (s, b)
          | (s, None) => (s, true)
          end
      end
  end.
End load.

(** ** Replication *)

(** The part of [hstf::init] that reads settings: the path and the size of the log; no value:
    it returns false. *)
Definition hstf_settings (rssdisk_json : option bytes) (ip : bytes) : option (bytes * Z) :=
  c ← rssdisk_json;
  root ← parse c;
  m ← json_at root ip;
  path ← json_path m [lit "replication"; lit "p"] ≫= json_asString;
  size ← json_path m [lit "replication"; lit "oplog_size_bytes"] ≫= json_asInt64;
  Some (path, size).

(** The networks that a server takes part in. *)
Fixpoint read_networks (l : list json) : option (gset Z) :=
  match l with
  | [] => Some ∅
  | v :: l' => n ← json_asInt v; s ← read_networks l'; Some ({[n]} ∪ s)
  end.

(** Another server as the replication sees it. *)
Record peer := Peer { peer_ip : bytes; peer_port : Z }.

(** One round of the loop over the servers; [Some None]: not polled. *)
Definition read_peer (ip : bytes) (repl_networks : gset Z) (x : bytes * json) : option (option peer) :=
  let '(name, m) := x in
  if bool_decide (name = ip) then Some None
  else
    current_network ← json_path m [lit "groups"; lit "network"] ≫= json_asInt;
    if bool_decide (current_network ∈ repl_networks) then
      disabled_for_service ← json_flag m (lit "disabled_for_service");
      if (disabled_for_service : bool) then Some None
      else port ← json_path m [lit "http"; lit "port"] ≫= json_asInt; Some (Some (Peer name port))
    else Some None.

(** The members of the file: the servers. *)
Definition servers_of (root : json) : option (list (bytes * json)) :=
  match root with nullValue => Some [] | objectValue l => Some l | _ => None end.

(** The own member: the path and the networks to replicate. *)
Definition own_replication (own : option json) : option (bytes * gset Z) :=
  match own with
  | None => Some ([], ∅)
  | Some m =>
      path ← json_path m [lit "replication"; lit "p"] ≫= json_asString;
      networks ← json_path m [lit "replication"; lit "networks"];
      l ← json_items networks;
      repl_networks ← read_networks l;
      Some (path, repl_networks)
  end.

(** [hstf_client::init]: the path and the servers that are polled. *)
Definition hstf_client_init (rssdisk_json : option bytes) (ip : bytes) : option (bytes * list peer) :=
  c ← rssdisk_json;
  root ← parse c;
  l ← servers_of root;
  '(path, repl_networks) ← own_replication (member ip l);
  peers ← mapM (read_peer ip repl_networks) l;
  Some (path, omap id peers).

(** ** The client *)

Record client_conf := ClientConf {
  cc_ip : bytes; cc_port : Z; cc_delimeter : bytes; cc_echo : bytes; cc_auth : bytes; cc_network : Z;
  cc_any_rp : bool; cc_gost : bool; cc_count_timeouts : Z; cc_minutes : Z }.

(** A member of "timeout" or the default. *)
Definition timeout_of (m : json) (key : bytes) (dflt : Z) : option Z :=
  t ← isMember m (lit "timeout");
  if (t : bool) then
    v ← json_at m (lit "timeout");
    b ← isMember v key;
    if (b : bool) then json_path v [key] ≫= json_asInt else Some dflt
  else Some dflt.

(** One server of the file; [Some None]: the client does not use it. *)
Definition read_client (netwok_groups : list Z) (x : bytes * json) : option (option client_conf) :=
  let '(ip, m) := x in
  port ← json_path m [lit "tcp"; lit "port"] ≫= json_asInt;
  delimeter ← json_path m [lit "tcp"; lit "delimeter"] ≫= json_asString;
  echo ← json_path m [lit "tcp"; lit "echo"] ≫= json_asString;
  auth ← json_path m [lit "secure"; lit "auth"] ≫= json_asString;
  network_group ← json_path m [lit "groups"; lit "network"] ≫= json_asInt;
  use_in_any_rp ← json_at m (lit "groups") ≫= fun v => json_flag v (lit "use_in_any_rp");
  disabled_for_clients ← json_flag m (lit "disabled_for_clients");
  gost_enc ← json_at m (lit "secure") ≫= fun v => json_flag v (lit "gost_enc");
  count_timeouts ← timeout_of m (lit "count_timeouts") 10;
  disable_for_minutes ← timeout_of m (lit "disable_for_minutes") 60;
  Some (if (disabled_for_clients : bool) then None
        else if bool_decide (netwok_groups = [] \/ network_group ∈ netwok_groups)
        then Some (ClientConf ip port delimeter echo auth network_group use_in_any_rp gost_enc count_timeouts disable_for_minutes)
        else None).

(** [client::init_settings]: the connections that take the place of the old ones; no value: it
    returns false and leaves them. *)
Definition init_settings (config_file : option bytes) (netwok_groups : list Z) : option (list client_conf) :=
  c ← config_file;
  root ← parse c;
  l ← servers_of root;
  omap id <$> mapM (read_client netwok_groups) l.

(** *** [timeout_detector] *)

Record timeout_detector := TimeoutDetector { detector : Z; disable_until : Z; count_timeouts : Z; minutes_timeout : Z }.

Definition minute : Z := 60000000000.

Definition is_timeout_detected (now : Z) (d : timeout_detector) : bool := now <? disable_until d.
(** The second component: whether the callback is called. *)
Definition timeout_detected (now : Z) (d : timeout_detector) : timeout_detector * bool :=
  if count_timeouts d <=? detector d
  then (TimeoutDetector 0 (now + minutes_timeout d * minute) (count_timeouts d) (minutes_timeout d), true)
  else (TimeoutDetector (wrap I32 (detector d + 1)) (disable_until d) (count_timeouts d) (minutes_timeout d), false).
Definition reset_timeout (d : timeout_detector) : timeout_detector :=
  TimeoutDetector 0 (disable_until d) (count_timeouts d) (minutes_timeout d).

(** ** What a server loads *)

Lemma json_path_cons m k v l : json_at m k = Some v -> json_path m (k :: l) = json_path v l.
Proof. intros E. unfold json_path. cbn [foldl mbind option_bind]. by rewrite E. Qed.

Lemma bind_inv {A B} (m : loading A) (k : A -> loading B) s s' r :
  (m ≫= k) s = (s', Some r) -> exists a t, m s = (t, Some a) /\ k a t = (s', Some r).
Proof. unfold mbind, loading_bind. destruct (m s) as [t [a|]]; [|done]. eauto. Qed.

Lemma from_file_inv {A} (o : option A) s s' a : from_file o s = (s', Some a) -> o = Some a /\ s' = s.
Proof. unfold from_file. intros [= <- ->]. done. Qed.

Lemma assign_inv g s s' u : assign g s = (s', Some u) -> s' = g s.
Proof. by intros [= <- _]. Qed.

Lemma threads_at_inv jtcp key n s s' r : threads_at jtcp key n s = (s', Some r) -> s' = s.
Proof.
  unfold threads_at. intros (b & t & Hb & H)%bind_inv. apply from_file_inv in Hb as [_ ->].
  destruct b; [by apply from_file_inv in H as [_ ->]|by injection H as <-].
Qed.

(** The steps of a load that succeeds, one by one. *)
Ltac load_inv H :=
  let E := fresh "L" in
  let H1 := fresh "H" in
  lazymatch type of H with
  | mbind _ _ _ = _ =>
      apply bind_inv in H as (? & ? & H1 & H); load_inv H1; load_inv H
  | from_file _ _ = _ => apply from_file_inv in H as [E H]; subst
  | assign _ _ = _ => apply assign_inv in H; subst
  | threads_at _ _ _ _ = _ => apply threads_at_inv in H; subst
  | _ => idtac
  end.

Lemma load_general_inv j s s' u : load_general j s = (s', Some u) ->
  json_path j [lit "http"; lit "port"] ≫= json_asInt = Some (http_port s').
Proof. unfold load_general, bool_at, int_at, text_at. intros H. load_inv H. assumption. Qed.

Lemma load_tcp_inv jtcp s s' u : load_tcp jtcp s = (s', Some u) ->
  json_path jtcp [lit "port"] ≫= json_asInt = Some (tcp_port s') /\
  json_path jtcp [lit "delimeter"] ≫= json_asString = Some (st_delimeter s') /\
  json_path jtcp [lit "echo"] ≫= json_asString = Some (st_echo s') /\ http_port s' = http_port s.
Proof. unfold load_tcp, bool_at, int_at, text_at. intros H. load_inv H. split_and!; done. Qed.

Lemma load_secure_inv buf j s s' u : load_secure buf j s = (s', Some u) ->
  json_path j [lit "secure"; lit "auth"] ≫= json_asString = Some (auth (st_conf s')) /\
  (json_at j (lit "secure") ≫= fun v => json_flag v (lit "gost_enc")) = Some (st_gost_enc s') /\
  (forall k, json_path j [lit "secure"; lit "aes_key"] ≫= json_asString = Some k -> (aes_key (st_conf s'), iv (st_conf s')) = secure_key buf k (iv (st_conf s))) /\
  http_port s' = http_port s /\ tcp_port s' = tcp_port s /\ st_delimeter s' = st_delimeter s /\ st_echo s' = st_echo s.
Proof.
  unfold load_secure, bool_at, int_at, text_at. intros H. load_inv H. unfold set_keys, on_conf, set_gost_enc, set_auth, on_conf.
  cbn [st_conf auth iv http_port tcp_port st_delimeter st_echo st_gost_enc]. destruct (secure_key _ _ _) as [k v] eqn:Ek.
  cbn [auth aes_key iv]. split_and!; try done. intros k' Hk'. rewrite Hk' in *. match goal with E : Some _ = Some _ |- _ => injection E as E end. by subst.
Qed.

Section loaded.
Context (f : fs) (get_fs_block_size : bytes -> Z) (buf : bytes).
#[local] Notation a_directory := (read_directory f get_fs_block_size).

(** The directories: in the order of the file, the first of a subfolder wins, no path twice. *)
Lemma load_dirs_spec l : forall pc s s', load_dirs f get_fs_block_size l pc s = (s', Some true) ->
  exists ds, mapM a_directory l = Some ds /\ NoDup (dir_p ∘ snd <$> ds) /\ (forall x, x ∈ ds -> dir_p x.2 ∉ pc) /\
    s' = on_conf (set_dirs (dirs (st_conf s) ∪ list_to_map ds)) s.
Proof.
  induction l as [|d l IH]; intros pc s s' H; cbn [load_dirs] in H.
  - injection H as <-. exists []. split; [done|]. split; [constructor|]. split; [set_solver|].
    change (list_to_map []) with (∅ : gmap bytes directory). rewrite (right_id_L ∅ _). by destruct s as [[] ? ? ? ? ? ? ? ? ? ? ?].
  - apply bind_inv in H as ([sub dir] & t & Ed & H). apply from_file_inv in Ed as [Ed ->]. case_bool_decide as Hp; [done|].
    apply bind_inv in H as ([] & t & Ha & H). apply assign_inv in Ha as ->.
    apply IH in H as (ds & Eds & Hnd & Hpc & ->). exists ((sub, dir) :: ds). split; [cbn [mapM]; by rewrite Ed, Eds|].
    split; [|split].
    + cbn [fmap list_fmap]. constructor; [|done]. intros (x & Ex & Hx)%list_elem_of_fmap. specialize (Hpc x Hx).
      cbn [compose snd] in Ex. rewrite Ex in Hpc. cbn [compose] in Hpc. set_solver.
    + intros x [-> | Hx]%elem_of_cons; [done|]. specialize (Hpc x Hx). set_solver.
    + unfold on_conf. cbn [st_conf set_dirs dirs st_weight http_port http_threads hdd_path tcp_port worker_threads fast_worker_threads st_delimeter st_echo st_gost_enc st_self_ip].
      unfold set_dirs. cbn [enable_read enable_write auth aes_key iv ttl_p tcp_threads dirs]. do 2 f_equal.
      change (list_to_map ((sub, dir) :: ds)) with (<[sub := dir]> (list_to_map ds : gmap bytes directory)).
      destruct (dirs (st_conf s) !! sub) as [old|] eqn:Eo.
      * apply map_eq. intros i. rewrite !lookup_union. destruct (decide (i = sub)) as [->|Hi]; [|by rewrite lookup_insert_ne].
        rewrite Eo. by destruct (list_to_map ds !! sub), (<[sub := dir]> (list_to_map ds : gmap bytes directory) !! sub).
      * rewrite <- insert_union_l. by apply insert_union_r.
Qed.

(** What the file says of a server, and what the settings of that server hold. *)
Record agrees (m : json) (s : settings) : Prop := {
  ag_tcp_port : json_path m [lit "tcp"; lit "port"] ≫= json_asInt = Some (tcp_port s);
  ag_delimeter : json_path m [lit "tcp"; lit "delimeter"] ≫= json_asString = Some (st_delimeter s);
  ag_echo : json_path m [lit "tcp"; lit "echo"] ≫= json_asString = Some (st_echo s);
  ag_auth : json_path m [lit "secure"; lit "auth"] ≫= json_asString = Some (auth (st_conf s));
  ag_gost : (json_at m (lit "secure") ≫= fun v => json_flag v (lit "gost_enc")) = Some (st_gost_enc s);
  ag_http_port : json_path m [lit "http"; lit "port"] ≫= json_asInt = Some (http_port s) }.

Lemma load_server_spec root ip s s' : load_server f get_fs_block_size buf root ip s = (s', Some true) ->
  exists m, json_find root ip = Some (Some m) /\ agrees m s' /\ st_self_ip s' = ip /\
    exists items ds, json_at m (lit "dirs") ≫= json_items = Some items /\ mapM a_directory items = Some ds /\
      NoDup (dir_p ∘ snd <$> ds) /\ dirs (st_conf s') = list_to_map ds.
Proof.
  unfold load_server. intros H. apply bind_inv in H as (known & t0 & Hk & H). apply from_file_inv in Hk as [Hk ->].
  destruct known; cbn [negb] in H; [|done].
  apply bind_inv in H as (m & t1 & Hm & H). apply from_file_inv in Hm as [Hm ->].
  apply bind_inv in H as (u1 & t2 & Hg & H). apply load_general_inv in Hg.
  apply bind_inv in H as (jtcp & t3 & Hj & H). apply from_file_inv in Hj as [Hj ->].
  apply bind_inv in H as (u2 & t4 & Ht & H). apply load_tcp_inv in Ht as (T1 & T2 & T3 & T4).
  apply bind_inv in H as (u3 & t5 & Hs & H). apply load_secure_inv in Hs as (S1 & S2 & _ & S3 & S4 & S5 & S6).
  apply bind_inv in H as (u4 & t6 & Ha & H). apply assign_inv in Ha as ->.
  apply bind_inv in H as (items & t7 & Hi & H). apply from_file_inv in Hi as [Hi ->].
  apply bind_inv in H as (b & t8 & Hd & H). destruct b; [|done]. apply load_dirs_spec in Hd as (ds & D1 & D2 & _ & ->).
  apply bind_inv in H as (u5 & t9 & Ha & H). apply assign_inv in Ha as ->. injection H as <-.
  exists m. assert (Hf : json_find root ip = Some (Some m)).
  { unfold isMember in Hk. unfold json_at in Hm. destruct (json_find root ip) as [[v|]|]; try done. by injection Hm as ->. }
  split; [done|]. split; [|split; [done|]].
  - split; cbn [set_self_ip on_conf tcp_port st_delimeter st_echo st_conf st_gost_enc http_port set_dirs auth];
      rewrite ?(json_path_cons m (lit "tcp") jtcp) by done; congruence.
  - exists items, ds. do 3 (split; [done|]). cbn. by rewrite (left_id_L ∅ _).
Qed.
End loaded.

(** ** The parties agree *)

(** The members of a file that was read have different names. *)
Lemma servers_nodup text root l : parse text = Some root -> servers_of root = Some l -> NoDup l.*1.
Proof.
  intros Hp Hl. apply parse_fits in Hp as [Hc _]. destruct root as [| | | | | | |m]; try done; injection Hl as <-; [constructor|].
  apply json_all_node in Hc. apply sorted_keys_spec in Hc. clear -Hc. induction Hc as [|k ks _ IH Hk]; [constructor|].
  constructor; [|done]. intros Hin. rewrite Forall_forall in Hk. specialize (Hk k Hin). unfold key_order in Hk. by rewrite key_lt_irrefl in Hk.
Qed.

Lemma member_elem k m l : NoDup l.*1 -> (k, m) ∈ l -> member k l = Some m.
Proof.
  induction l as [|[k' m'] l IH]; intros Hn Hin; [set_solver|]. cbn [fmap list_fmap] in Hn. apply NoDup_cons in Hn as [Hk Hn]. cbn [member].
  apply elem_of_cons in Hin as [[= -> ->]|Hin]; [by rewrite bool_decide_true|]. rewrite bool_decide_false; [by apply IH|].
  intros ->. apply Hk. apply list_elem_of_fmap. by exists (k, m).
Qed.

Lemma elem_member k m l : member k l = Some m -> (k, m) ∈ l.
Proof.
  induction l as [|[k' m'] l IH]; [done|]. cbn [member]. case_bool_decide as E; [intros [= ->]; subst; by left|]. intros H. right. by apply IH.
Qed.

(** What is kept of a list that is read element by element. *)
Lemma mapM_omap {A B} (g : A -> option (option B)) (l : list A) (r : list (option B)) : mapM g l = Some r ->
  forall y : B, y ∈ omap id r <-> exists x, x ∈ l /\ g x = Some (Some y).
Proof.
  intros H%mapM_Some_1 y. induction H as [|x o l r Hx _ IH]; [cbn; set_solver|].
  rewrite list_elem_of_omap in IH |- *. split.
  - intros (o' & [->|Ho]%elem_of_cons & Eo); [exists x; split; [by left|]; rewrite Hx; f_equal; exact Eo|].
    destruct (proj1 IH (ex_intro _ o' (conj Ho Eo))) as (x' & Hx' & Eg). exists x'. split; [by right|done].
  - intros (x' & [->|Hx']%elem_of_cons & Eg).
    + exists o. split; [by left|]. rewrite Hx in Eg. by injection Eg.
    + destruct (proj2 IH (ex_intro _ x' (conj Hx' Eg))) as (o' & Ho' & Eo). exists o'. split; [by right|done].
Qed.

Lemma read_client_ip groups ip m c : read_client groups (ip, m) = Some (Some c) -> cc_ip c = ip /\
  json_path m [lit "tcp"; lit "port"] ≫= json_asInt = Some (cc_port c) /\
  json_path m [lit "tcp"; lit "delimeter"] ≫= json_asString = Some (cc_delimeter c) /\
  json_path m [lit "tcp"; lit "echo"] ≫= json_asString = Some (cc_echo c) /\
  json_path m [lit "secure"; lit "auth"] ≫= json_asString = Some (cc_auth c) /\
  (json_at m (lit "secure") ≫= fun v => json_flag v (lit "gost_enc")) = Some (cc_gost c).
Proof.
  unfold read_client. intros H. repeat (apply bind_Some in H as (? & ? & H)). injection H as H. case_match; [done|]. case_bool_decide; [|done].
  injection H as <-. done.
Qed.

Lemma read_peer_spec ip nets name m p : read_peer ip nets (name, m) = Some (Some p) ->
  peer_ip p = name /\ name <> ip /\ json_path m [lit "http"; lit "port"] ≫= json_asInt = Some (peer_port p).
Proof.
  unfold read_peer. case_bool_decide as Hne; [done|]. intros H. apply bind_Some in H as (n & Hn & H). case_bool_decide; [|done].
  apply bind_Some in H as (b & Hb & H). destruct b; [done|]. apply bind_Some in H as (port & Hport & H). injection H as <-. done.
Qed.

Lemma servers_find root l k m : servers_of root = Some l -> json_find root k = Some (Some m) -> member k l = Some m.
Proof. destruct root; try done; intros [= <-]; cbn; by intros [= ->]. Qed.

(** C18: Everyone who reads the same settings file sees the same server.  When a server has loaded
    its settings, a client that reads the file connects to it, if at all, at the port the server
    listens on, with the key the server asks for, the delimiter and the echo text the server
    uses and encryption exactly if the server has it; and another server that replicates from it
    polls the port of its HTTP server, and never a server itself. *)
Theorem settings_agree (f : fs) (block_size : bytes -> Z) (buf text : bytes) (root : json) (ip : bytes) (s s' : settings)
    (groups : list Z) (cls : list client_conf) (other path : bytes) (peers : list peer) :
  parse text = Some root -> load_server f block_size buf root ip s = (s', Some true) ->
  init_settings (Some text) groups = Some cls -> hstf_client_init (Some text) other = Some (path, peers) ->
  (forall c, c ∈ cls -> cc_ip c = ip ->
     cc_port c = tcp_port s' /\ cc_delimeter c = st_delimeter s' /\ cc_echo c = st_echo s' /\
     cc_auth c = auth (st_conf s') /\ cc_gost c = st_gost_enc s') /\
  (forall p, p ∈ peers -> peer_ip p <> other /\ (peer_ip p = ip -> peer_port p = http_port s')).
Proof.
  intros Hp Hl Hc Hh. destruct (load_server_spec _ _ _ _ _ _ _ Hl) as (m & Hm & [A1 A2 A3 A4 A5 A6] & _).
  unfold init_settings in Hc. unfold hstf_client_init in Hh. cbn [mbind option_bind] in Hc, Hh. rewrite Hp in Hc, Hh. cbn [mbind option_bind] in Hc, Hh.
  destruct (servers_of root) as [l|] eqn:El; [|done]. cbn [mbind option_bind] in Hc, Hh.
  pose proof (servers_nodup _ _ _ Hp El) as Hnd. pose proof (servers_find _ _ _ _ El Hm) as Hmem. split.
  - apply fmap_Some in Hc as (r & Hr & ->). intros c Hin Hip. apply (proj1 (mapM_omap _ _ _ Hr c)) in Hin as ([ip' m'] & Hx & Hg).
    apply read_client_ip in Hg as (E & B1 & B2 & B3 & B4 & B5). rewrite Hip in E. subst ip'.
    pose proof (member_elem _ _ _ Hnd Hx) as Hm'. rewrite Hmem in Hm'. injection Hm' as <-. split_and!; congruence.
  - apply bind_Some in Hh as ([path' nets] & _ & Hh). apply bind_Some in Hh as (r & Hr & Hh). injection Hh as -> <-.
    intros p Hin. apply (proj1 (mapM_omap _ _ _ Hr p)) in Hin as ([name m'] & Hx & Hg).
    apply read_peer_spec in Hg as (E & Hne & B). rewrite E. split; [done|]. intros ->.
    pose proof (member_elem _ _ _ Hnd Hx) as Hm'. rewrite Hmem in Hm'. injection Hm' as <-. congruence.
Qed.

(** A settings file with two servers. *)
Definition ex_server_json (port http network : Z) (dirs : list json) : json :=
  objectValue [(lit "dirs", arrayValue dirs);
    (lit "enable_read", booleanValue true); (lit "enable_write", booleanValue true);
    (lit "groups", objectValue [(lit "network", intValue network)]);
    (lit "http", objectValue [(lit "port", intValue http); (lit "threads", intValue 2)]);
    (lit "replication", objectValue [(lit "networks", arrayValue [intValue 1]); (lit "oplog_size_bytes", intValue 1000); (lit "p", stringValue (lit "/r/"))]);
    (lit "secure", objectValue [(lit "aes_key", stringValue (lit "k")); (lit "auth", stringValue (lit "key"))]);
    (lit "tcp", objectValue [(lit "delimeter", stringValue (lit "|")); (lit "echo", stringValue (lit "e")); (lit "port", intValue port); (lit "threads", intValue 4)]);
    (lit "tmp", objectValue [(lit "hdd_path", stringValue (lit "/tmp"))]); (lit "ttl", objectValue [(lit "p", stringValue (lit "/ttl/"))]);
    (lit "weight", intValue 1)].
Definition ex_dir_json (sub p size : bytes) : json :=
  objectValue [(lit "enabled", booleanValue true); (lit "max_size_b", stringValue size); (lit "p", stringValue p); (lit "subfolder", stringValue sub)].
Definition ex_config : json :=
  objectValue [(lit "10.0.0.1", ex_server_json 7000 8000 1 [ex_dir_json (lit "a") (lit "/a/") (lit "10g"); ex_dir_json (lit "b") (lit "/b/") (lit "5m")]);
               (lit "10.0.0.2", ex_server_json 7001 8001 1 [])].
Definition ex_text : bytes := toString ex_config.
Definition ex_before : settings :=
  Settings (Conf true true [] [] [] [] 0 ∅) 1 10111 10 [] 0 0 0 [] [] false [].
Definition ex_loaded : settings := (load_server ∅ (fun _ => 4096) (replicate 64 x00) ex_config (lit "10.0.0.1") ex_before).1.
Definition ex_clients : list client_conf := default [] (init_settings (Some ex_text) []).
Definition ex_peers : bytes * list peer := default ([], []) (hstf_client_init (Some ex_text) (lit "10.0.0.2")).

Example ex_config_read :
  (cc_ip <$> ex_clients, cc_port <$> ex_clients, cc_auth <$> ex_clients, ex_peers) =
  ([lit "10.0.0.1"; lit "10.0.0.2"], [7000; 7001], [lit "key"; lit "key"], (lit "/r/", [Peer (lit "10.0.0.1") 8000])).
Proof. vm_compute. reflexivity. Qed.

Lemma settings_agree_witness :
  (forall c, c ∈ ex_clients -> cc_ip c = lit "10.0.0.1" ->
     cc_port c = tcp_port ex_loaded /\ cc_delimeter c = st_delimeter ex_loaded /\ cc_echo c = st_echo ex_loaded /\
     cc_auth c = auth (st_conf ex_loaded) /\ cc_gost c = st_gost_enc ex_loaded) /\
  (forall p, p ∈ ex_peers.2 -> peer_ip p <> lit "10.0.0.2" /\ (peer_ip p = lit "10.0.0.1" -> peer_port p = http_port ex_loaded)).
Proof.
  apply (settings_agree ∅ (fun _ => 4096) (replicate 64 x00) ex_text ex_config (lit "10.0.0.1") ex_before ex_loaded []
    ex_clients (lit "10.0.0.2") ex_peers.1 ex_peers.2).
  - by vm_compute.
  - vm_compute. reflexivity.
  - by vm_compute.
  - by vm_compute.
Defined.

(** What a server serves after loading its settings.  Every element of "dirs" becomes a
    directory with its limit (a number, or a number with a unit), its block size and the blocks
    that its files and its thousand segment folders take; the directories have different paths,
    and a name of a subfolder stands for the first directory that the file gives it. *)
Theorem loaded_directories (f : fs) (block_size : bytes -> Z) (buf : bytes) (root : json) (ip : bytes) (s s' : settings) :
  load_server f block_size buf root ip s = (s', Some true) ->
  exists m items ds, json_find root ip = Some (Some m) /\ json_at m (lit "dirs") ≫= json_items = Some items /\
    mapM (read_directory f block_size) items = Some ds /\ NoDup (dir_p ∘ snd <$> ds) /\
    (forall sub d, dirs (st_conf s') !! sub = Some d <->
       exists before after, ds = before ++ (sub, d) :: after /\ sub ∉ before.*1) /\
    Forall2 (fun v x => exists p, json_path v [lit "p"] ≫= json_asString = Some p /\ dir_p x.2 = p /\
      fs_block_size_b x.2 = block_size p /\
      curr_size_b x.2 = wrap I64 (get_dir_size f p (block_size p) + block_size p * count_segment_folders)) items ds.
Proof.
  intros H. destruct (load_server_spec _ _ _ _ _ _ _ H) as (m & Hm & _ & _ & items & ds & Hi & Hds & Hnd & Hd).
  exists m, items, ds. do 4 (split; [done|]). split.
  - intros sub d. rewrite Hd. clear. induction ds as [|[k x] ds IH].
    + cbn. rewrite lookup_empty. split; [done|]. intros (u & w & E & _). by destruct u.
    + change (list_to_map ((k, x) :: ds)) with (<[k := x]> (list_to_map ds : gmap bytes directory)).
      rewrite lookup_insert_Some, IH. split.
      * intros [[-> ->]|[Hne (u & w & -> & Hu)]]; [exists [], ds; split; [done|set_solver]|]. exists ((k, x) :: u), w. split; [done|]. set_solver.
      * intros ([|[k' x'] u] & w & E & Hu); cbn in E; injection E as -> ->; [by left|]. intros; subst. right. split; [set_solver|]. exists u, w. set_solver.
  - apply mapM_Some_1 in Hds. eapply Forall2_impl; [exact Hds|]. intros v [sub d] Hv. unfold read_directory in Hv.
    repeat (apply bind_Some in Hv as (? & ? & Hv)). injection Hv as <- <-. eexists. done.
Qed.

Lemma loaded_directories_witness :
  exists m items ds, json_find ex_config (lit "10.0.0.1") = Some (Some m) /\ json_at m (lit "dirs") ≫= json_items = Some items /\
    mapM (read_directory ∅ (fun _ => 4096)) items = Some ds /\ NoDup (dir_p ∘ snd <$> ds) /\
    (forall sub d, dirs (st_conf ex_loaded) !! sub = Some d <->
       exists before after, ds = before ++ (sub, d) :: after /\ sub ∉ before.*1) /\
    Forall2 (fun v x => exists p, json_path v [lit "p"] ≫= json_asString = Some p /\ dir_p x.2 = p /\
      fs_block_size_b x.2 = 4096 /\ curr_size_b x.2 = wrap I64 (get_dir_size ∅ p 4096 + 4096 * count_segment_folders)) items ds.
Proof.
  apply (loaded_directories ∅ (fun _ => 4096) (replicate 64 x00) ex_config (lit "10.0.0.1") ex_before ex_loaded).
  vm_compute. reflexivity.
Defined.

(** ** A restart counts again what the running server has counted *)

(** The files of a directory are of a size that can be accounted for. *)
Definition files_ok (f : fs) (p : bytes) (blk : Z) : Prop := forall n c, starts_with n p = true -> f !! n = Some c -> file_ok blk c.

Lemma get_dir_size_used f p blk : last p = Some x2f -> block_ok blk -> files_ok f p blk -> get_dir_size f p blk = used p blk f.
Proof.
  intros Hp Hb. assert (H0 : blk <> 0) by (destruct Hb as (k & Hk & ->); pose proof (Z.pow_pos_nonneg 2 k); lia).
  assert (Hd : below_dir p = p) by (unfold below_dir; by rewrite Hp).
  unfold get_dir_size, used. rewrite Hd. clear Hd. destruct p as [|b p]; [done|]. clear Hp. generalize (b :: p) as path. intros path.
  rewrite (proj2 (Z.eqb_neq _ _)) by done. rewrite !map_fold_foldr. intros Hf.
  assert (Hl : Forall (fun x => f !! x.1 = Some x.2) (map_to_list f)) by (apply Forall_forall; intros [n c]; by rewrite elem_of_map_to_list).
  revert Hl. generalize (map_to_list f) as l. intros l. induction l as [|[n c] l IH]; intros Hl; [done|]. apply Forall_cons_1 in Hl as [Hc Hl].
  cbn [foldr uncurry]. rewrite IH by done. destruct (starts_with n path) eqn:E; [|done]. by rewrite file_block_bytes by (done || by apply (Hf n c)).
Qed.

(** C19: For files that are replaced as a whole the running account is what a restart counts.  A
    directory that was loaded from its entry of the settings, whose path ends with a slash, with
    the blocks of its files counted one by one, is, after the server has accepted a file of the
    kinds "updatable", "updatable_without_compress" or "jdb" (in one part, not appended to), again
    exactly what a restart loads from that entry: the sum kept by adding the change of every such
    write equals the count over all files. *)
Theorem restart_recounts `{JdbEngine} (hash : bytes -> Z) (decrypt : bytes -> bytes -> bytes -> bytes) (opens : bytes -> bool)
    (now : date_time) (w : w_type) (tms crc : Z) (q : request) (payload sub fname : bytes) (s : server) (d : directory) (chk : bool)
    (block_size : bytes -> Z) (entry : json) :
  storable hash opens now w tms crc q payload sub fname s d -> auth_ok (auth (conf s)) chk (q_auth q) ->
  read_directory (files s) block_size entry = Some (sub, d) -> last (dir_p d) = Some x2f -> files_ok (files s) (dir_p d) (fs_block_size_b d) ->
  exists res s' event d', accept_file hash decrypt opens true now (enc_request q) chk false s = Some (res, s', event) /\
    dirs (conf s') !! sub = Some d' /\ read_directory (files s') block_size entry = Some (sub, d').
Proof.
  intros Hs Ha He Hsl Hf. destruct (storable_stored hash decrypt opens now w tms crc q payload sub fname s d chk Hs Ha)
    as ([[res s'] event] & E0 & [_ _ S3 S4 (d' & S5 & S6 & S7) _ (z & S8) _ _]). cbn [fst snd] in *.
  exists res, s', event, d'. split; [done|]. split; [rewrite S5; apply lookup_insert_eq|].
  assert (Ed : d' = inc_curr_disk_size z d).
  { rewrite S8 in S5. cbn in S5. apply (f_equal (lookup sub)) in S5. rewrite !lookup_insert_eq in S5. by injection S5 as <-. }
  pose proof (so_block _ _ _ _ _ _ _ _ _ _ _ _ Hs) as Hb.
  assert (Hf' : files_ok (files s') (dir_p d) (fs_block_size_b d)).
  { intros n c Hn Hc. destruct (decide (n = dir_p d ++ segment_name hash fname)) as [->|Hne].
    - rewrite S3 in Hc. by apply (so_new _ _ _ _ _ _ _ _ _ _ _ _ Hs).
    - rewrite S4 in Hc by done. by apply (Hf n c). }
  unfold read_directory in He |- *. repeat (apply bind_Some in He as (? & Hx & He); rewrite Hx; cbn [mbind option_bind]; clear Hx).
  injection He as <- <-. cbn [dir_p fs_block_size_b curr_size_b] in *. rewrite Ed in S7 |- *. unfold inc_curr_disk_size in *.
  cbn [enabled dir_p max_size_b curr_size_b fs_block_size_b] in *. rewrite !get_dir_size_used in * by done. do 3 f_equal.
  rewrite <- (wrap_wrap I64 (wrap I64 _ + z)), S7, wrap_add_l. f_equal. lia.
Qed.
(** The entry of the directory of an example. *)
Definition ex_entry : json :=
  objectValue [(lit "enabled", booleanValue true); (lit "max_size_b", intValue 10000000); (lit "p", stringValue (lit "/d/")); (lit "subfolder", stringValue (lit "sub"))].

#[local] Existing Instance no_jdb.

Lemma restart_recounts_witness :
  exists res s' event d', accept_file (fun _ => 7) (fun c _ _ => c) (fun _ => true) true example_dt (enc_request (ex_request (lit "2")))
      true false ex_server = Some (res, s', event) /\
    dirs (conf s') !! lit "sub" = Some d' /\ read_directory (files s') (fun _ => 4096) ex_entry = Some (lit "sub", d').
Proof.
  apply (restart_recounts (fun _ => 7) (fun c _ _ => c) (fun _ => true) example_dt updatable 77 5 (ex_request (lit "2"))
    (lit "hello") (lit "sub") (lit "a") ex_server ex_dir true (fun _ => 4096) ex_entry).
  - apply ex_storable; [by apply (bool_decide_unpack _)|vm_compute; done].
  - right. right. reflexivity.
  - by vm_compute.
  - reflexivity.
  - intros n c _ Hc. cbn [files ex_server] in Hc. by rewrite lookup_empty in Hc.
Defined.

(** ** Replication reaches the right servers *)

(** A server polls exactly the servers of the networks it replicates that are not switched off
    for it, itself excluded. *)
Theorem hstf_peers_exact text root l ip path peers :
  parse text = Some root -> servers_of root = Some l -> hstf_client_init (Some text) ip = Some (path, peers) ->
  exists nets, own_replication (member ip l) = Some (path, nets) /\
    forall name, (exists p, p ∈ peers /\ peer_ip p = name) <->
      exists m n, member name l = Some m /\ name <> ip /\ json_path m [lit "groups"; lit "network"] ≫= json_asInt = Some n /\
        n ∈ nets /\ json_flag m (lit "disabled_for_service") = Some false.
Proof.
  intros Hp Hl Hh. unfold hstf_client_init in Hh. cbn [mbind option_bind] in Hh. rewrite Hp in Hh. cbn [mbind option_bind] in Hh.
  rewrite Hl in Hh. cbn [mbind option_bind] in Hh.
  apply bind_Some in Hh as ([path' nets] & Hown & Hh). apply bind_Some in Hh as (r & Hr & Hh). injection Hh as -> <-.
  exists nets. split; [done|]. intros name. pose proof (servers_nodup _ _ _ Hp Hl) as Hnd. split.
  - intros (p & Hin & Ep). apply (proj1 (mapM_omap _ _ _ Hr p)) in Hin as ([name' m] & Hx & Hg).
    pose proof (read_peer_spec _ _ _ _ _ Hg) as (E & Hne & _). rewrite Ep in E. subst name'.
    unfold read_peer in Hg. rewrite bool_decide_false in Hg by done. apply bind_Some in Hg as (n & Hn & Hg).
    case_bool_decide as Hin; [|done]. apply bind_Some in Hg as (b & Hb & Hg). destruct b; [done|].
    exists m, n. split; [by apply member_elem|]. done.
  - intros (m & n & Hm & Hne & Hn & Hin & Hb). apply elem_member in Hm.
    assert (Hs : exists p, read_peer ip nets (name, m) = Some (Some p) /\ peer_ip p = name).
    { apply mapM_Some_1 in Hr. destruct (proj1 (list_elem_of_lookup _ _) Hm) as [i Hi].
      destruct (Forall2_lookup_l _ _ _ _ _ Hr Hi) as (o & _ & Ho). unfold read_peer in *. rewrite bool_decide_false in Ho |- * by done.
      rewrite Hn in Ho |- *. cbn [mbind option_bind] in *. rewrite bool_decide_true in Ho |- * by done. rewrite Hb in Ho |- *. cbn [mbind option_bind] in *.
      destruct (json_path m [lit "http"; lit "port"] ≫= json_asInt) as [port|]; [|done]. by exists (Peer name port). }
    destruct Hs as (p & Hg & Ep). exists p. split; [|done]. apply (proj2 (mapM_omap _ _ _ Hr p)). by exists (name, m).
Qed.

(** ** Unreachable servers *)

(** After [count_timeouts] timeouts in a row a client still uses a server; the next one blocks
    it for the configured minutes. *)
Theorem timeouts_block (d : timeout_detector) (times : list Z) (now t : Z) :
  detector d = 0 -> 0 <= count_timeouts d < 2 ^ 31 - 1 -> zlen times = count_timeouts d ->
  let d' := foldl (fun d now => (timeout_detected now d).1) d times in
  is_timeout_detected t d' = is_timeout_detected t d /\
  (timeout_detected now d').2 = true /\
  is_timeout_detected t (timeout_detected now d').1 = (t <? now + minutes_timeout d * minute).
Proof.
  intros H0 Hc Hl d'.
  assert (Hd : forall k times d, detector d = k -> 0 <= k -> k + zlen times = count_timeouts d -> count_timeouts d < 2 ^ 31 - 1 ->
    foldl (fun d now => (timeout_detected now d).1) d times = TimeoutDetector (count_timeouts d) (disable_until d) (count_timeouts d) (minutes_timeout d)).
  { clear. intros k times. revert k. induction times as [|x times IH]; intros k d Hk H0 Hn Hc; cbn [foldl length] in *.
    - destruct d; cbn in *. f_equal. lia.
    - unfold timeout_detected at 2. rewrite (proj2 (Z.leb_gt _ _)) by lia. cbn [fst].
      rewrite (IH (k + 1)); cbn [detector count_timeouts disable_until minutes_timeout]; [done| |lia|lia|lia].
      rewrite wrap_id by range_lia. lia. }
  assert (Ed : d' = TimeoutDetector (count_timeouts d) (disable_until d) (count_timeouts d) (minutes_timeout d)) by (by apply (Hd 0); lia).
  rewrite Ed. unfold timeout_detected. cbn [detector count_timeouts]. rewrite Z.leb_refl. done.
Qed.

Lemma timeouts_block_witness :
  let d := TimeoutDetector 0 0 2 60 in
  let d' := foldl (fun d now => (timeout_detected now d).1) d [10; 20] in
  is_timeout_detected 15 d' = is_timeout_detected 15 d /\ (timeout_detected 30 d').2 = true /\
  is_timeout_detected 15 (timeout_detected 30 d').1 = (15 <? 30 + 60 * minute).
Proof. intros d d'. apply (timeouts_block d [10; 20] 30 15); vm_compute; done. Defined.

(** ** Behaviours worth knowing *)

(** A settings file that cannot be read is only reported: the server starts with the settings
    it has. *)
Lemma unreadable_settings_accepted f block_size buf s :
  init_server_settings f block_size buf (lit "10.0.0.1") None (Some (lit "{")) s = (s, true).
Proof. reflexivity. Qed.

(** A size without a unit loses its last digit. *)
Lemma size_without_unit : size_of_text (lit "1000") = 100 /\ size_of_text (lit "10g") = 10737418240.
Proof. split; by vm_compute. Qed.

(** A section is found by the beginning of its name. *)
Lemma section_by_prefix : read_settings (Some (lit "[mainland]
ip=1.2.3.4
")) (lit "main") (lit "ip") = lit "1.2.3.4".
Proof. by vm_compute. Qed.
