(* ===== verification/CSearch.v ===== *)
(** * Searching the key-value store ([CDatabaseManager::searchAll] of [extentions/c_manager.cpp])

    A search names a part of the key, a condition on the timestamp and conditions on the
    fields of the stored json documents; the answer lists the items that pass, each with its
    stamps, its expiry time and its content.  Contents are compressed; [inflate] is zlib
    (no result: an error), used through [decompress]. *)

From S2P Require Import Prelude Bitbase BasefuncStd Compression BTree MapTime CManager Json JsonReader BSearch JdbInterface JManager.
From Stdlib Require Import ZArith Lia Strings.Byte.
From stdpp Require Import base gmap strings numbers list.
Open Scope Z_scope.

Section search_all.
Context `{JEnv} (inflate : bytes -> option bytes).

(** ** The code *)

Record c_search := CSearch { s_keys : bytes; s_tms : gmap bytes search.t; s_data : gmap bytes search.t }.
Definition c_search_init : c_search := CSearch [] ∅ ∅.

(** [f_search] up to where it throws: what it has added stays in the map. *)
Fixpoint f_search_upto (l : list (bytes * json)) (searches : gmap bytes search.t) : gmap bytes search.t * bool :=
  match l with
  | [] => (searches, true)
  | (name, v) :: l' =>
      match f_search_val hash mktime v with
      | Some s => f_search_upto l' (add_search name s searches)
      | None => (searches, false)
      end
  end.

(** The elements of an array of queries. *)
Fixpoint f_search_array (l : list json) (searches : gmap bytes search.t) : gmap bytes search.t :=
  match l with
  | [] => searches
  | objectValue m :: l' =>
      let '(searches, ok) := f_search_upto m searches in
      if (ok : bool) then f_search_array l' searches else searches
  | _ :: l' => f_search_array l' searches
  end.

(** The member "data" of a search. *)
Definition data_search (v : option json) : gmap bytes search.t :=
  match v with
  | Some (arrayValue l) => f_search_array l ∅
  | Some (objectValue m) => (f_search_upto m ∅).1
  | _ => ∅
  end.

(** The first part of [searchAll]; an exception leaves what was read before it. *)
Definition read_search (text : bytes) : c_search :=
  match text with
  | [] => c_search_init
  | _ :: _ =>
      match parse text with
      | Some (objectValue l) =>
          match match member (lit "keys") l with Some v => json_asString v | None => Some [] end with
          | None => c_search_init
          | Some keys =>
              match member (lit "tms") l with
              | Some v =>
                  match f_search_val hash mktime v with
                  | Some s => CSearch keys {[lit "tms" := s]} (data_search (member (lit "data") l))
                  | None => CSearch keys ∅ ∅
                  end
              | None => CSearch keys ∅ (data_search (member (lit "data") l))
              end
          end
      | _ => c_search_init
      end
  end.

Definition key_passes (s : c_search) (key : bytes) : bool :=
  bool_decide (s_keys s = []) || bool_decide (is_Some (str_find (s_keys s) key)).

(** Outside of the [try] of the code: an exception leaves [searchAll]. *)
Definition tms_passes (s : c_search) (tms : Z) : option bool :=
  if bool_decide (s_tms s = ∅) then Some true
  else matching hash mktime (objectValue [(lit "tms", intValue tms)]) (visit (s_tms s)).

(** An exception is caught, and the item is listed. *)
Definition data_passes (s : c_search) (content : bytes) : bool :=
  if bool_decide (s_data s = ∅) then true
  else match Reader_parse x00 (decompress inflate content) nullValue with
       | Ret (true, data, _) => default true (matching hash mktime data (visit (s_data s)))
       | Ret (false, _, _) => false
       | Throw | NoFuel => true
       end.

Definition item_passes (s : c_search) (it : bytes * timed_val Item) : option bool :=
  if key_passes s it.1 then
    b ← tms_passes s (timestamp (val it.2));
    Some ((b : bool) && data_passes s (content (val it.2)))
  else Some false.

Definition item_text (c : clock) (it : bytes * timed_val Item) : bytes :=
  numeric_to_chars I64 (timestamp (val it.2)) ++ numeric_to_chars I64 (checksum (val it.2)) ++
  numeric_to_chars I64 (steady_clock_to_time_t c (valid_until it.2)) ++
  numeric_to_chars I32 (wrap I32 (zlen it.1)) ++ numeric_to_chars I32 (wrap I32 (zlen (content (val it.2)))) ++
  it.1 ++ content (val it.2).

(** The loop over the items. *)
Fixpoint search_items (c : clock) (s : c_search) (l : list (bytes * timed_val Item)) (ret : bytes) : option bytes :=
  match l with
  | [] => Some ret
  | it :: l' =>
      b ← item_passes s it;
      search_items c s l' (if (b : bool) then ret ++ item_text c it else ret)
  end.

Definition searchAll (c : clock) (text : bytes) (m : store) : option bytes :=
  search_items c (read_search text) (visit (mp m)) (numeric_to_chars I64 (steady_clock_to_time_t c (steady c))).

(** ** What a search finds *)

Lemma f_search_upto_spec l : forall m m', f_search_members hash mktime l m = Some m' -> f_search_upto l m = (m', true).
Proof.
  induction l as [|[k v] l IH]; intros m m' E; cbn in *; [by injection E as <-|].
  destruct (f_search_val hash mktime v) as [s|]; [|done]. by apply IH.
Qed.

(** A search with all its parts. *)
Definition search_json (keys : bytes) (c : cond) (q : list (bytes * cond)) : json :=
  objectValue [(lit "data", query q); (lit "keys", stringValue keys); (lit "tms", query_of c)].

(** What an item has to satisfy. *)
Definition found (keys : bytes) (c : cond) (q : list (bytes * cond)) (it : bytes * timed_val Item) : Prop :=
  (keys = [] \/ exists u v, it.1 = u ++ keys ++ v) /\ sat c (intValue (timestamp (val it.2))) /\
  exists l, parse (decompress inflate (content (val it.2))) = Some (objectValue l) /\
    forall k c, (k, c) ∈ q -> exists v, member k l = Some v /\ sat c v.

Lemma search_items_filter c s (pass : bytes * timed_val Item -> bool) l : forall ret,
  (forall it, it ∈ l -> item_passes s it = Some (pass it)) ->
  search_items c s l ret = Some (ret ++ mjoin (item_text c <$> filter (fun it => pass it = true) l)).
Proof.
  induction l as [|it l IH]; intros ret Hp; cbn [search_items]; [cbn; by rewrite app_nil_r|].
  rewrite Hp by (by left). cbn [mbind option_bind]. rewrite IH by (intros; apply Hp; by right). f_equal.
  rewrite filter_cons. destruct (pass it) eqn:E.
  - rewrite decide_True by done. rewrite fmap_cons, join_cons. by rewrite <- app_assoc.
  - by rewrite decide_False.
Qed.
End search_all.

Section found.
Context `{E : JEnv, L : !JEnvLaws E} (inflate : bytes -> option bytes).
Context (keys : bytes) (c : cond) (q : list (bytes * cond)).
Context (Hq0 : q <> []) (Hq : NoDup q.*1) (Hqc : Forall cond_ok q.*2) (Hqn : Forall (fun k => x00 ∉ k) q.*1) (Hc : cond_ok c).

Lemma read_search_spec text : parse text = Some (search_json keys c q) -> text <> [] ->
  exists tms data, read_search text = CSearch keys tms data /\ tms <> ∅ /\ data <> ∅ /\
    (forall n, in_range I64 n -> exists b, matching hash mktime (objectValue [(lit "tms", intValue n)]) (visit tms) = Some b /\
       (b = true <-> sat c (intValue n))) /\
    (forall l, record_ok q l -> exists b, matching hash mktime (objectValue l) (visit data) = Some b /\
       (b = true <-> forall k c, (k, c) ∈ q -> exists v, member k l = Some v /\ sat c v)).
Proof.
  intros Ht Hne. destruct (matching_query hash mktime q Hq Hqc Hqn) as (data & Ed & Hd).
  destruct (matching_query hash mktime [(lit "tms", c)]) as (tms & Etm & Htm).
  { apply NoDup_singleton. } { by apply Forall_singleton. } { apply Forall_singleton. by apply (bool_decide_unpack _); vm_compute. }
  cbn [query f_search f_search_members fmap list_fmap prod_map id fst snd] in Etm.
  destruct (f_search_val hash mktime (query_of c)) as [s|] eqn:Es; [|done]. cbn [mbind option_bind] in Etm.
  unfold add_search in Etm. rewrite lookup_empty in Etm. injection Etm as <-.
  assert (Hvis : forall A (m : gmap bytes A), visit m ≡ₚ map_to_list m) by (intros; apply visit_perm).
  exists {[lit "tms" := s]}, data. split_and!.
  - unfold read_search. destruct text as [|b text]; [done|]. rewrite Ht. unfold search_json.
    change (member (lit "keys") _) with (Some (stringValue keys)). change (member (lit "tms") _) with (Some (query_of c)).
    change (member (lit "data") _) with (Some (query q)). cbn [json_asString]. rewrite Es.
    unfold query. cbn [data_search]. by rewrite (f_search_upto_spec _ _ _ Ed).
  - apply insert_non_empty.
  - intros ->. destruct (Hd [] []) as (b & Eb & Hb); [by rewrite map_to_list_empty|by intros ? ? _|].
    injection Eb as <-. destruct q as [|[k c0] q']; [done|]. destruct (proj1 Hb eq_refl k c0) as (v & Hv & _); [by left|done].
  - intros n Hn. destruct (Htm (visit {[lit "tms" := s]}) [(lit "tms", intValue n)]) as (b & Eb & Hb).
    + apply Hvis.
    + intros k v Hk Hv. apply list_elem_of_singleton in Hk as ->. injection Hv as <-. by constructor; constructor.
    + exists b. split; [done|]. rewrite Hb. split.
      * intros Hall. destruct (Hall (lit "tms") c) as (v & [= <-] & Hs); [by left|done].
      * intros Hs k c0 Hin. apply list_elem_of_singleton in Hin as [= -> ->]. by exists (intValue n).
  - intros l Hl. apply Hd; [apply Hvis|done].
Qed.

(** An item that the search can judge: its content is a compressed json document. *)
Definition searchable (it : bytes * timed_val Item) : Prop :=
  in_range I64 (timestamp (val it.2)) /\
  exists l, parse (decompress inflate (content (val it.2))) = Some (objectValue l) /\ record_ok q l.

Lemma search_all_found clk text m :
  parse text = Some (search_json keys c q) -> text <> [] ->
  (forall it, it ∈ map_to_list (mp m) -> searchable it) ->
  exists pass : bytes * timed_val Item -> bool,
    (forall it, it ∈ map_to_list (mp m) -> pass it = true <-> found inflate keys c q it) /\
    searchAll inflate clk text m = Some (numeric_to_chars I64 (steady_clock_to_time_t clk (steady clk)) ++
      mjoin (item_text clk <$> filter (fun it => pass it = true) (visit (mp m)))).
Proof.
  intros Ht Hne Hit. destruct (read_search_spec text Ht Hne) as (tms & data & Er & Ht0 & Hd0 & Htm & Hda).
  set (s := CSearch keys tms data) in *. exists (fun it => default false (item_passes inflate s it)).
  assert (Hp : forall it, it ∈ map_to_list (mp m) -> exists b, item_passes inflate s it = Some b /\ (b = true <-> found inflate keys c q it)).
  { intros it Hin. destruct (Hit it Hin) as (Hr & l & Ep & Hl). destruct (Htm _ Hr) as (b1 & Eb1 & Hb1).
    destruct (Hda l Hl) as (b2 & Eb2 & Hb2). unfold item_passes, tms_passes, data_passes, key_passes, found.
    cbn [s s_keys s_tms s_data]. rewrite (bool_decide_false (tms = ∅)), (bool_decide_false (data = ∅)) by done.
    destruct (parse_Some _ _ Ep) as [es Er'].
    rewrite Eb1, Er', Eb2. cbn [mbind option_bind default from_option].
    assert (Hk : bool_decide (keys = []) || bool_decide (is_Some (str_find keys it.1)) = true <->
      (keys = [] \/ exists u v, it.1 = u ++ keys ++ v))
      by (by rewrite orb_true_iff, !bool_decide_eq_true, str_find_is_Some).
    destruct (_ || _); (eexists; split; [reflexivity|]).
    - unfold id. rewrite andb_true_iff, Hb1, Hb2. split.
      + intros [H1 H2]. split; [by apply Hk|]. split; [done|]. by exists l.
      + intros (_ & H1 & l' & Ep' & H2). split; [done|]. rewrite Ep in Ep'. by injection Ep' as <-.
    - split; [done|]. intros [H1 _]. by apply Hk in H1. }
  split.
  - intros it Hin. destruct (Hp it Hin) as (b & -> & Hb). exact Hb.
  - unfold searchAll. rewrite Er. apply search_items_filter. intros it Hin.
    assert (Hin' : it ∈ map_to_list (mp m)) by (rewrite <- (visit_perm _ (mp m)); done).
    destruct (Hp it Hin') as (b & -> & _). done.
Qed.
End found.

(** The answer of [searchAll] to a search with a part of the key, a condition on the
    timestamp and conditions on the fields of the documents is the time of the server followed
    by the texts of exactly the items that satisfy all of them. *)
Theorem search_all_exact `{E : JEnv, L : !JEnvLaws E} (inflate : bytes -> option bytes) (keys : bytes) (c : cond)
    (q : list (bytes * cond)) (clk : clock) (text : bytes) (m : store) :
  q <> [] -> NoDup q.*1 -> Forall cond_ok q.*2 -> Forall (fun k => x00 ∉ k) q.*1 -> cond_ok c ->
  parse text = Some (search_json keys c q) -> text <> [] ->
  (forall it, it ∈ map_to_list (mp m) -> searchable inflate q it) ->
  exists pass : bytes * timed_val Item -> bool,
    (forall it, it ∈ map_to_list (mp m) -> pass it = true <-> found inflate keys c q it) /\
    searchAll inflate clk text m = Some (numeric_to_chars I64 (steady_clock_to_time_t clk (steady clk)) ++
      mjoin (item_text clk <$> filter (fun it => pass it = true) (visit (mp m)))).
Proof. intros. by apply search_all_found. Qed.

(** An example: two items, of which one is found. *)
Definition ex_doc (n : Z) : json := objectValue [(lit "n", intValue n)].
Definition ex_search_cond : cond := c_range (Some (false, 10)) None.
Definition ex_search_query : list (bytes * cond) := [(lit "n", c_eq (intValue 2))].
Definition ex_search_json : json := search_json (lit "k") ex_search_cond ex_search_query.

#[local] Instance ex_search_env : JEnv :=
  {| hash := fun _ => 7; mktime := fun _ _ _ _ _ _ => 0; compress_string := reverse; decompress_string := reverse;
     visit := fun A m => map_to_list m; visit_offsets := map_to_list |}.

#[local] Instance ex_search_laws : JEnvLaws ex_search_env.
Proof. split; [done|done|apply reverse_involutive]. Qed.

Definition ex_item (n tms : Z) : Item := MkItem (reverse (toString (ex_doc n))) 5 tms.
Definition ex_store : store :=
  MapTime.insert 0 (lit "k1") (ex_item 1 20) 100 (MapTime.insert 0 (lit "k2") (ex_item 2 30) 100 MapTime.empty).

Lemma search_all_exact_witness :
  exists pass : bytes * timed_val Item -> bool,
    (forall it, it ∈ map_to_list (mp ex_store) ->
       pass it = true <-> found (fun s => Some (reverse s)) (lit "k") ex_search_cond ex_search_query it) /\
    searchAll (fun s => Some (reverse s)) example_clock (toString ex_search_json) ex_store =
      Some (numeric_to_chars I64 (steady_clock_to_time_t example_clock (steady example_clock)) ++
        mjoin (item_text example_clock <$> filter (fun it => pass it = true) (visit (mp ex_store)))).
Proof.
  apply (search_all_exact (fun s => Some (reverse s)) (lit "k") ex_search_cond ex_search_query example_clock
    (toString ex_search_json) ex_store).
  - discriminate.
  - by apply (bool_decide_unpack _); vm_compute.
  - apply Forall_singleton, plain_int. range_lia.
  - by apply (bool_decide_unpack _); vm_compute.
  - by left.
  - by vm_compute.
  - discriminate.
  - intros it Hit. apply elem_of_map_to_list' in Hit.
    assert (Hd : exists n tms, val it.2 = ex_item n tms /\ (n = 1 \/ n = 2) /\ 0 <= tms <= 30).
    { destruct it as [k [v u]]. cbn [fst snd val] in *. unfold ex_store in Hit. cbn [MapTime.insert MapTime.insert_until mp MapTime.empty] in Hit.
      apply lookup_insert_Some in Hit as [[_ [= <- _]]|[_ Hit]]; [exists 1, 20; lia || (split; [done|lia])|].
      apply lookup_insert_Some in Hit as [[_ [= <- _]]|[_ Hit]]; [exists 2, 30; split; [done|lia]|]. by rewrite lookup_empty in Hit. }
    destruct Hd as (n & tms & Ev & Hn & Ht). split; [rewrite Ev; cbn; range_lia|]. rewrite Ev. cbn [content ex_item].
    exists [(lit "n", intValue n)].
    split; [destruct Hn as [-> | ->]; by vm_compute|]. intros k v Hk Hv. apply list_elem_of_singleton in Hk as ->.
    injection Hv as <-. constructor. constructor. range_lia.
Defined.
