(* ===== verification/TcpHandler.v ===== *)
(** * Requests over TCP ([rssdisk/rssdisk/clienttcphandler.hpp])

    [on_message] of [ClientTCPHandler]: a client authorizes itself with its first message; then
    every message of at least seven bytes is a request (two digits of a type, five bytes of an
    identifier, the query) that a worker answers from the file server, the key-value store or
    the event store.  What the responder is told is the list of outputs; the messages between
    epoll and the worker pool, and the log of long requests, are left out.  [None] is an
    exception that leaves the worker, or a request that never returns. *)

From S2P Require Import Prelude Bitbase BasefuncStd Compression DateTime Json JsonReader DiskHelper WType JdbInterface JManager MapTime CManager EManager CSearch DiskServer.
From Stdlib Require Import ZArith Lia Strings.Byte.
From stdpp Require Import base gmap strings numbers list.
Open Scope Z_scope.

(** ** The code *)

Inductive output :=
  | Reply (message : bytes)
  | Listen (types : gset Z)
  | NewEvent (ty : Z) (data : bytes).

(** What the three managers hold. *)
Record node := Node { disk : server; cdb : CManager.store; edb : EDatabaseManager }.

Definition set_disk (s : server) (n : node) : node := Node s (cdb n) (edb n).
Definition set_cdb (c : CManager.store) (n : node) : node := Node (disk n) c (edb n).
Definition set_edb (e : EDatabaseManager) (n : node) : node := Node (disk n) (cdb n) e.

(** The moment at which a request runs: the local time, the two clocks, what the locks of the
    files answer, and how many iterations a request may take. *)
Record moment := Moment {
  m_now : date_time; m_clock : clock; m_lock : bytes -> bool; m_attempts : nat -> bool; m_fuel : nat }.

Section handler.
Context `{JEnv} `{JdbEngine}.
Context (inflate : bytes -> option bytes).
Context (shash : bytes -> Z) (decrypt : bytes -> bytes -> bytes -> bytes) (get_hash_of_file : fs -> bytes -> Z).
Context (opens : bytes -> bool).
(** The names of the files below a path, as the iterator of Boost visits them. *)
Context (file_names : fs -> bytes -> list bytes).

(** [res["status"].asString()]. *)
Definition status_of (res : response) : bytes :=
  match res !! lit "status" with Some (JStr s) => s | _ => [] end.

(** 01: file_exists. *)
Definition do_exists (ident query : bytes) (n : node) : bytes :=
  let query := (cut_jdb query).1 in
  let '(subfolder, query) := split_subfolder query in
  match dirs (conf (disk n)) !! subfolder with
  | None => lit "0107" ++ ident ++ query
  | Some d =>
      let query := segment_name shash query in
      if is_file_exists (files (disk n)) (dir_p d ++ query) then lit "0101" ++ ident ++ query
      else lit "0107" ++ ident ++ query
  end.

(** 03: is_enought_storage_for_accepting_file.  With room left, the [break] leaves the switch
    before the answer is sent. *)
Definition do_enough (ident query : bytes) (n : node) : list output :=
  match dirs (conf (disk n)) !! query with
  | None => [Reply (lit "0303" ++ ident)]
  | Some d =>
      if enable_write (conf (disk n)) && (curr_size_b d <? max_size_b d) then []
      else [Reply (lit "0303" ++ ident)]
  end.

(** 05: get_stat. *)
Definition dir_stat (x : bytes * directory) : bytes :=
  let '(name, d) := x in
  lit "{" ++ [x22] ++ lit "n" ++ [x22] ++ lit ":" ++ [x22] ++
  match name with [] => lit "main(empty)" | _ => name end ++
  [x22] ++ lit "," ++ [x22] ++ lit "f" ++ [x22] ++ lit ":[" ++
  lit "{" ++ [x22] ++ lit "n" ++ [x22] ++ lit ":" ++ [x22] ++ lit "0" ++ [x22] ++ lit "," ++
  [x22] ++ lit "p" ++ [x22] ++ lit ":" ++ [x22] ++ dir_p d ++
  [x22] ++ lit "," ++ [x22] ++ lit "s_mb" ++ [x22] ++ lit ":" ++ to_string (Z.quot (curr_size_b d) (1024 * 1024)) ++
  lit "," ++ [x22] ++ lit "max_s_mb" ++ [x22] ++ lit ":" ++ to_string (Z.quot (max_size_b d) (1024 * 1024)) ++
  lit "}" ++ lit "]}".

Fixpoint stat_loop (l : list (bytes * directory)) (first : bool) : bytes :=
  match l with
  | [] => []
  | x :: l' => (if first then [] else lit ",") ++ dir_stat x ++ stat_loop l' false
  end.

Definition do_stat (ident : bytes) (n : node) : bytes :=
  lit "0501" ++ ident ++ lit "{" ++ [x22] ++ lit "sub" ++ [x22] ++ lit ":[" ++
  stat_loop (visit (dirs (conf (disk n)))) true ++ lit "]}".

(** [disk::helper::list_dir]. *)
Definition list_dir (f : fs) (path contain : bytes) : list bytes :=
  filter (fun fn => contain = [] \/ is_Some (str_find contain fn)) (file_names f path).

(** 06: get_all_files_names. *)
Definition add_name (sub content name : bytes) : bytes :=
  let content := match content with [] => [] | _ => content ++ lit "," end in
  let content := match sub with [] => content | _ => content ++ sub ++ lit "/" end in
  content ++ name.

Definition all_names (query : bytes) (n : node) : bytes :=
  foldl (fun content x => foldl (add_name x.1) content (list_dir (files (disk n)) (dir_p x.2) query))
    [] (visit (dirs (conf (disk n)))).

(** 09 and 29: get_files; the members of an answer in the order of their names.  A file whose
    content makes the reader throw is left out. *)
Definition file_json (content : bytes) (file : bytes) (r : response) : list json :=
  let text_member (k : bytes) := match r !! k with Some (JStr s) => [(k, stringValue s)] | _ => [] end in
  let entry (c : list (bytes * json)) :=
    [objectValue (c ++ [(lit "_fn_", stringValue file)] ++ text_member (lit "status") ++ text_member (lit "status_m"))] in
  match content with
  | [] => entry []
  | _ => match Reader_parse x00 content nullValue with
         | Ret (true, root, _) => entry [(lit "_c_", root)]
         | Ret (false, _, _) => entry []
         | Throw | NoFuel => []
         end
  end.

(** The content of a file without its header, decompressed; an exception leaves it as it is. *)
Definition plain_content (content : bytes) : bytes :=
  match fetch_content content 0 read_info_init with
  | None => content
  | Some ri =>
      if bool_decide (file_type ri ∈ [insert_only_without_compress; updatable_without_compress; appendable])
      then ri_content ri
      else decompress inflate (ri_content ri)
  end.

Definition no_compress_no_header : Z := 3.

Fixpoint files_loop (m : moment) (compressed : bool) (jdb_query : bytes) (l : list bytes) (n : node) : option (list json) :=
  match l with
  | [] => Some []
  | file :: l' =>
      '(r, content) ← server_read_file shash (m_lock m file) (file ++ jdb_query) no_compress_no_header (disk n);
      let content := match content with [] => [] | _ => if compressed then plain_content content else content end in
      rest ← files_loop m compressed jdb_query l' n;
      Some (file_json content file r ++ rest)
  end.

Definition do_files (m : moment) (ty : Z) (ident query : bytes) (n : node) : option bytes :=
  let '(query, jdb_query) :=
    match str_find (lit "?jdb") query with
    | Some f => (take f query, drop f query)
    | None => (query, [])
    end in
  res ← files_loop m (ty =? 29) jdb_query (BasefuncStd.split query x2c) n;
  Some (lit "0901" ++ ident ++ toString match res with [] => nullValue | _ => arrayValue res end).

Definition event_reply (ident : bytes) (r : EventResult) : output :=
  Reply (lit "1401" ++ ident ++ numeric_to_chars I32 (eventType r) ++ payload r).

(** A request to the key-value store, with the answers for success and failure; [wait] is
    whether the client wants one. *)
Definition do_cdb_insert (m : moment) (wait : bool) (good bad ident query : bytes) (n : node) : option (list output * node) :=
  '(ok_, c) ← CManager.insert (steady (m_clock m)) query (m_fuel m) (cdb n);
  Some (if wait then [Reply ((if (ok_ : bool) then good else bad) ++ ident)] else [], set_cdb c n).

(** The switch over the type of a request. *)
Definition dispatch (m : moment) (ty : Z) (ident query : bytes) (n : node) : option (list output * node) :=
  match ty with
  | 1 => Some ([Reply (do_exists ident query n)], n)
  | 2 =>
      '(res, content) ← server_read_file shash (m_lock m query) query 0 (disk n);
      Some ([Reply (lit "02" ++ status_of res ++ ident ++ content)], n)
  | 3 => Some (do_enough ident query n, n)
  | 4 =>
      '(res, s, _) ← accept_file shash decrypt opens (m_lock m query) (m_now m) query false false (disk n);
      Some ([Reply (lit "04" ++ status_of res ++ ident)], set_disk s n)
  | 5 => Some ([Reply (do_stat ident n)], n)
  | 6 => Some ([Reply (lit "0601" ++ ident ++ compress_string (all_names query n))], n)
  | 7 =>
      let '(res, content) := read_file_info shash get_hash_of_file (m_lock m query) query (disk n) in
      Some ([Reply (lit "07" ++ status_of res ++ ident ++ content)], n)
  | 8 =>
      let '(ok_, s) := remove_file_by_tms shash (m_attempts m) query 0 0 true (disk n) in
      Some ([Reply (lit "08" ++ (if (ok_ : bool) then lit "01" else lit "02") ++ ident)], set_disk s n)
  | 9 | 29 => r ← do_files m ty ident query n; Some ([Reply r], n)
  | 11 =>
      let r := EManager.retrieve query (edb n) in
      Some ([Reply (lit "1101" ++ ident ++ numeric_to_chars I32 (eventType r) ++ payload r)], n)
  | 12 | 22 =>
      let '(r, e) := EManager.insert (m_now m) query (edb n) in
      Some ((if ty =? 12 then [Reply (lit "1201" ++ ident)] else []) ++
            [NewEvent (eventType r) (lit "12|" ++ to_string (eventType r) ++ lit "|" ++ payload r)], set_edb e n)
  | 13 =>
      Some (Listen (list_to_set (drop 1 (get_vector_from_string I32 query))) ::
            (event_reply ident <$> fetchEvents mktime (m_now m) query (edb n)), n)
  | 14 => Some (event_reply ident <$> fetchEvents mktime (m_now m) query (edb n), n)
  | 20 =>
      Some ([match CManager.retrieve (steady (m_clock m)) query (cdb n) with
             | Some content => Reply (lit "2001" ++ ident ++ pad2 (w_code WType.cdb) ++ lit "00000" ++ content)
             | None => Reply (lit "2007" ++ ident)
             end], n)
  | 21 => content ← searchAll inflate (m_clock m) query (cdb n); Some ([Reply (lit "2101" ++ ident ++ content)], n)
  | 24 | 25 => do_cdb_insert m (ty =? 24) (lit "2401") (lit "2404") ident query n
  | 26 => Some ([Reply (lit "2601" ++ ident)], n)
  | 31 => Some ([Reply (lit "3101" ++ ident ++ mjoin (payload <$> fetchEvents mktime (m_now m) query (edb n)))], n)
  | 32 | 33 => do_cdb_insert m (ty =? 32) (lit "3201") (lit "3204") ident query n
  | _ => Some ([], n)
  end.

(** [on_message]: whether the client is authorized afterwards, the outputs and the new state. *)
Definition on_message (m : moment) (is_authorized : bool) (message : bytes) (n : node) : option (bool * list output * node) :=
  if negb is_authorized then
    let key := auth (conf (disk n)) in
    Some (bool_decide (key = []) || bool_decide (key = message), [], n)
  else if 7 <=? zlen message then
    let ty := default 0 (stoi I32 (take 2 message)) in
    '(outs, n) ← dispatch m ty (take 5 (drop 2 message)) (drop 7 message) n;
    Some (true, outs, n)
  else if bool_decide (message = lit "06") then Some (true, [Listen ∅], n)
  else Some (true, [], n).
End handler.

(** ** Clients without the key *)

Section clients.
Context `{JEnv} `{JdbEngine} (inflate : bytes -> option bytes) (shash : bytes -> Z) (decrypt : bytes -> bytes -> bytes -> bytes).
Context (get_hash_of_file : fs -> bytes -> Z) (opens : bytes -> bool) (file_names : fs -> bytes -> list bytes).

Abbreviation handle := (on_message inflate shash decrypt get_hash_of_file opens file_names).

(** The messages of several clients, in the order in which they are handled, and the clients
    that are authorized; every output with the client whose message caused it. *)
Fixpoint serve (ms : list (Z * moment * bytes)) (authorized : gset Z) (n : node) : option (gset Z * list (Z * output) * node) :=
  match ms with
  | [] => Some (authorized, [], n)
  | (c, m, message) :: ms' =>
      '(a, outs, n) ← handle m (bool_decide (c ∈ authorized)) message n;
      '(authorized, outs', n) ← serve ms' (if (a : bool) then {[c]} ∪ authorized else authorized) n;
      Some (authorized, (pair c <$> outs) ++ outs', n)
  end.

(** Requests that need no key. *)
Fixpoint serve_requests (ms : list (Z * moment * bytes)) (n : node) : option (list (Z * output) * node) :=
  match ms with
  | [] => Some ([], n)
  | (c, m, message) :: ms' =>
      '(_, outs, n) ← handle m true message n;
      '(outs', n) ← serve_requests ms' n;
      Some ((pair c <$> outs) ++ outs', n)
  end.

(** The messages that come after their client has sent the key. *)
Fixpoint after_key (key : bytes) (ms : list (Z * moment * bytes)) (authorized : gset Z) : list (Z * moment * bytes) :=
  match ms with
  | [] => []
  | (c, m, message) :: ms' =>
      if bool_decide (c ∈ authorized) then (c, m, message) :: after_key key ms' authorized
      else after_key key ms' (if bool_decide (key = message) then {[c]} ∪ authorized else authorized)
  end.

(** ** The shape of the answers *)

(** A status of the server, as its two digits. *)
Definition is_status (s : bytes) : Prop := exists st, s = pad2 (status_code st).

Lemma status_of_set s res : status_of (set_status s res) = pad2 (status_code s).
Proof.
  unfold status_of, set_status. destruct (negb _); [rewrite lookup_insert_ne by done|]; by rewrite lookup_insert_eq.
Qed.

Lemma is_status_set s res : is_status (status_of (set_status s res)).
Proof. rewrite status_of_set. by exists s. Qed.

Lemma is_status_answer s : is_status (status_of (answer s)).
Proof. apply is_status_set. Qed.

Lemma status_of_insert (k : bytes) (v : jval) (res : response) : k <> lit "status" -> status_of (<[k := v]> res) = status_of res.
Proof. intros Hk. unfold status_of. by rewrite lookup_insert_ne. Qed.

Lemma read_status locked name ro s res content :
  server_read_file shash locked name ro s = Some (res, content) -> is_status (status_of res).
Proof.
  unfold server_read_file. destruct (split_subfolder name) as [sub name1]. destruct (cut_jdb name1) as [name2 jq].
  destruct (negb locked); [intros [= <- _]; apply is_status_answer|].
  destruct (negb (enable_read _)); [intros [= <- _]; apply is_status_answer|].
  destruct (dirs _ !! sub) as [d|]; [|intros [= <- _]; apply is_status_answer].
  destruct (negb (is_file_exists _ _)); [intros [= <- _]; apply is_status_answer|].
  destruct (match jq with Some q => _ | None => _ end) as [[ok_ c]|]; [|done]. cbn [mbind option_bind].
  destruct c as [|b c]; intros [= <- _]; [apply is_status_answer|]. by destruct ok_; apply is_status_answer.
Qed.

Lemma info_status locked name s : is_status (status_of (read_file_info shash get_hash_of_file locked name s).1).
Proof.
  unfold read_file_info. destruct (cut_jdb name) as [name1 jq]. destruct (split_subfolder name1) as [sub name2].
  destruct (negb locked); [apply is_status_answer|]. destruct (negb (enable_read _)); [apply is_status_answer|].
  destruct (dirs _ !! sub) as [d|]; [|apply is_status_answer].
  destruct (negb (is_file_exists _ _)); [apply is_status_answer|].
  destruct (bool_decide _); [destruct (_ =? 0); apply is_status_answer|].
  destruct (read_file _ _ _ _) as [c|]; [destruct (18 <? zlen c)|]; apply is_status_answer.
Qed.

Lemma store_status now base file sub content h d ex s res s' ev :
  store_file opens now base file sub content h d ex s = Some (res, s', ev) -> is_status (status_of res).
Proof.
  unfold store_file. destruct (if 2 <=? zlen (h_flags h) then _ else _) as [[[[w hs] op] j]|]; [|done].
  cbn [mbind option_bind]. destruct (negb (ok_jdb_write j)); [intros [= <- _ _]; apply is_status_set|].
  destruct (if bool_decide (w = appendable) && ex then _ else _) as [[ok_ written] f].
  destruct ok_; [|intros [= <- _ _]; apply is_status_set].
  destruct (_ && _).
  - destruct (note_ttl _ _ _ _ _ _) as [o f2]. intros [= <- _ _].
    rewrite !status_of_insert by done. apply is_status_set.
  - intros [= <- _ _]. rewrite !status_of_insert by done. apply is_status_set.
Qed.

Lemma accept_status locked now content chk aes s res s' ev :
  accept_file shash decrypt opens locked now content chk aes s = Some (res, s', ev) -> is_status (status_of res).
Proof.
  unfold accept_file. destruct (negb (2 <? _)); [intros [= <- _ _]; apply is_status_answer|].
  destruct (negb (enable_write _)); [intros [= <- _ _]; apply is_status_answer|].
  destruct (negb (2 <? _)); [intros [= <- _ _]; apply is_status_answer|].
  set (h := hdr_loop _ _ _ _ _). destruct (64 <? _); [intros [= <- _ _]; apply is_status_answer|].
  destruct (negb (is_auth_ok h)); [intros [= <- _ _]; apply is_status_answer|].
  destruct (split_subfolder (h_name h)) as [sub [|b name]]; [intros [= <- _ _]; apply is_status_answer|].
  destruct (negb locked); [intros [= <- _ _]; apply is_status_answer|].
  destruct (dirs _ !! sub) as [d|]; [|intros [= <- _ _]; apply is_status_answer].
  destruct (_ || _); [|intros [= <- _ _]; apply is_status_answer]. apply store_status.
Qed.

(** The type of the replies to a request: listening is answered with the past events, both ways
    of reading many files with one type, and a write without an answer has the type of the same
    write with one. *)
Definition reply_type (ty : Z) : Z := match ty with 13 => 14 | 29 => 9 | 25 => 24 | 33 => 32 | _ => ty end.

(** A reply that the client can match to its request: the two digits of the type, the two digits
    of a status, the identifier of the request. *)
Definition tagged (ty : Z) (ident : bytes) (o : output) : Prop :=
  match o with
  | Reply r => exists status rest, r = pad2 (reply_type ty) ++ pad2 (status_code status) ++ ident ++ rest
  | _ => True
  end.

Lemma tagged_status ty (a b : byte) (s ident rest : bytes) : [a; b] = pad2 (reply_type ty) -> is_status s -> tagged ty ident (Reply (a :: b :: s ++ ident ++ rest)).
Proof. intros E [st ->]. exists st, rest. by rewrite <- E. Qed.

Lemma tagged_status_end ty (a b : byte) (s ident : bytes) : [a; b] = pad2 (reply_type ty) -> is_status s -> tagged ty ident (Reply (a :: b :: s ++ ident)).
Proof. intros E Hs. pose proof (tagged_status ty a b s ident [] E Hs) as H'. by rewrite app_nil_r in H'. Qed.

(** Four bytes that are the digits of a type and of a status. *)
Lemma tagged_code ty st (a b c d : byte) (ident rest : bytes) : [a; b; c; d] = pad2 (reply_type ty) ++ pad2 (status_code st) ->
  tagged ty ident (Reply (a :: b :: c :: d :: ident ++ rest)).
Proof. intros E. exists st, rest. change (a :: b :: c :: d :: ident ++ rest) with ([a; b; c; d] ++ ident ++ rest). by rewrite E, <- app_assoc. Qed.

Lemma tagged_code_end ty st (a b c d : byte) (ident : bytes) : [a; b; c; d] = pad2 (reply_type ty) ++ pad2 (status_code st) ->
  tagged ty ident (Reply (a :: b :: c :: d :: ident)).
Proof. intros E. pose proof (tagged_code ty st a b c d ident [] E) as H'. by rewrite app_nil_r in H'. Qed.

(** Literals as their bytes. *)
Ltac bytes_of_lits := repeat match goal with |- context [lit ?s] => let v := eval vm_compute in (lit s) in change (lit s) with v end; cbn [app].
Ltac tag_code st := bytes_of_lits; first [apply (tagged_code _ st); reflexivity|apply (tagged_code_end _ st); reflexivity].

Lemma tagged_events ty ident l : reply_type ty = 14 -> Forall (tagged ty ident) (event_reply ident <$> l).
Proof. intros E. apply Forall_fmap, Forall_forall. intros r _. unfold event_reply. cbn [compose]. bytes_of_lits. apply (tagged_code _ ok). by rewrite E. Qed.

(** The types of requests that change something. *)
Definition write_types : list Z := [4; 8; 12; 22; 24; 25; 32; 33].

Lemma cdb_insert_tagged m ty wait good bad ident query n outs n' :
  good = pad2 (reply_type ty) ++ pad2 (status_code ok) -> bad = pad2 (reply_type ty) ++ pad2 (status_code cant_write_file_to_disk) ->
  do_cdb_insert m wait good bad ident query n = Some (outs, n') -> Forall (tagged ty ident) outs.
Proof.
  intros -> ->. unfold do_cdb_insert. destruct (CManager.insert _ _ _ _) as [[ok_ st]|]; [|done].
  cbn [mbind option_bind]. intros [= <- _]. destruct wait; [|constructor]. apply Forall_singleton.
  destruct ok_; [exists ok, []|exists cant_write_file_to_disk, []]; by rewrite app_nil_r, <- app_assoc.
Qed.

Lemma exists_tagged ident query n : tagged 1 ident (Reply (do_exists shash ident query n)).
Proof.
  unfold do_exists. destruct (split_subfolder _) as [sub q].
  destruct (dirs _ !! sub); [destruct (is_file_exists _ _)|]; first [tag_code ok|tag_code file_not_found].
Qed.

Lemma enough_tagged ident query n : Forall (tagged 3 ident) (do_enough ident query n).
Proof.
  unfold do_enough. destruct (dirs _ !! query); [destruct (_ && _)|]; [constructor|..];
    apply Forall_singleton; tag_code all_directories_are_full.
Qed.

Lemma files_tagged m ty ident query n r : reply_type ty = 9 -> do_files inflate shash m ty ident query n = Some r -> tagged ty ident (Reply r).
Proof.
  intros E. unfold do_files. destruct (match str_find _ _ with Some f => _ | None => _ end) as [q jq].
  destruct (files_loop _ _ _ _ _ _ _) as [res|]; [|done]. cbn [mbind option_bind]. intros [= <-]. bytes_of_lits. apply (tagged_code _ ok). by rewrite E.
Qed.

Abbreviation run := (dispatch inflate shash decrypt get_hash_of_file opens file_names).

(** Answers that are one reply with a literal code. *)
Ltac coded := intros [= <- <-]; split; [apply Forall_singleton; tag_code ok|done].
Ltac writes := intros Hw; exfalso; apply Hw; by apply (bool_decide_unpack _).

Lemma files_dispatch m ty ident query n outs n' : reply_type ty = 9 ->
  (r ← do_files inflate shash m ty ident query n; Some ([Reply r], n)) = Some (outs, n') ->
  Forall (tagged ty ident) outs /\ (ty ∉ write_types -> n' = n).
Proof.
  intros Ety. destruct (do_files _ _ _ _ _ _ _) as [r|] eqn:E; [|done]. cbn [mbind option_bind]. intros [= <- <-].
  split; [apply Forall_singleton; by eapply files_tagged|done].
Qed.

Lemma event_dispatch m ty (wait : bool) ident query n outs n' :
  (let '(r, e) := EManager.insert (m_now m) query (edb n) in
   Some ((if wait then [Reply (lit "1201" ++ ident)] else []) ++
     [NewEvent (eventType r) (lit "12|" ++ to_string (eventType r) ++ lit "|" ++ payload r)], set_edb e n)) = Some (outs, n') ->
  (wait = true -> ty = 12) -> Forall (tagged ty ident) outs.
Proof.
  destruct (EManager.insert _ _ _) as [r e]. intros [= <- _] Hty. apply Forall_app. split; [|by apply Forall_singleton].
  destruct wait; [|constructor]. apply Forall_singleton. rewrite (Hty eq_refl). tag_code ok.
Qed.

Lemma dispatch_tagged m ty ident query n outs n' :
  run m ty ident query n = Some (outs, n') -> Forall (tagged ty ident) outs /\ (ty ∉ write_types -> n' = n).
Proof.
  unfold dispatch. destruct ty as [|p|p]; try (intros [= <- <-]; by split).
  do 6 (try destruct p as [p|p|]; try (intros [= <- <-]; by split)); try coded.
  - pose proof (info_status (m_lock m query) query (disk n)) as Hs.
    destruct (read_file_info _ _ _ _ _) as [res content]. intros [= <- <-].
    split; [apply Forall_singleton; by apply (tagged_status 7)|done].
  - by apply files_dispatch.
  - destruct (searchAll _ _ _ _) as [content|]; [|done]. cbn [mbind option_bind]. coded.
  - intros [= <- <-]. split; [constructor; [done|by apply tagged_events]|done].
  - intros E. split; [by eapply cdb_insert_tagged; [| |exact E]|writes].
  - intros E. split; [by eapply cdb_insert_tagged; [| |exact E]|writes].
  - by apply files_dispatch.
  - intros [= <- <-]. split; [|done]. apply Forall_singleton. unfold do_stat. tag_code ok.
  - intros [= <- <-]. split; [apply enough_tagged|done].
  - intros E. split; [by eapply (event_dispatch m _ false)|writes].
  - intros [= <- <-]. split; [by apply tagged_events|done].
  - intros [= <- <-]. split; [|done]. apply Forall_singleton. destruct (CManager.retrieve _ _ _); first [tag_code ok|tag_code file_not_found].
  - intros E. split; [by eapply (event_dispatch m _ true)|writes].
  - intros E. split; [by eapply cdb_insert_tagged; [| |exact E]|writes].
  - intros E. split; [by eapply cdb_insert_tagged; [| |exact E]|writes].
  - destruct (remove_file_by_tms _ _ _ _ _ _ _) as [ok_ s]. intros [= <- <-]. split; [|writes].
    apply Forall_singleton. apply tagged_status_end; [done|]. destruct ok_; [by exists ok|by exists to_small_content_size].
  - destruct (accept_file _ _ _ _ _ _ _ _ _) as [[[res s] ev]|] eqn:E; [|done]. cbn [mbind option_bind]. intros [= <- <-].
    split; [apply Forall_singleton; apply tagged_status_end; [done|by eapply accept_status]|writes].
  - destruct (server_read_file _ _ _ _ _) as [[res content]|] eqn:E; [|done]. cbn [mbind option_bind]. intros [= <- <-].
    split; [apply Forall_singleton; apply (tagged_status 2); [done|by eapply read_status]|done].
  - intros [= <- <-]. split; [apply Forall_singleton; apply exists_tagged|done].
Qed.
(** ** No request changes the key *)

Definition key_of (n : node) : bytes := auth (conf (disk n)).

Lemma store_auth now base file sub content h d ex s res s' ev :
  store_file opens now base file sub content h d ex s = Some (res, s', ev) -> auth (conf s') = auth (conf s).
Proof.
  unfold store_file. destruct (if 2 <=? zlen (h_flags h) then _ else _) as [[[[w hs] op] j]|]; [|done].
  cbn [mbind option_bind]. destruct (negb (ok_jdb_write j)); [by intros [= _ <- _]|].
  destruct (if bool_decide (w = appendable) && ex then _ else _) as [[ok_ written] f].
  destruct ok_; [|by intros [= _ <- _]]. destruct (_ && _); [destruct (note_ttl _ _ _ _ _ _) as [o f2]|]; by intros [= _ <- _].
Qed.

Lemma accept_auth locked now content chk aes s res s' ev :
  accept_file shash decrypt opens locked now content chk aes s = Some (res, s', ev) -> auth (conf s') = auth (conf s).
Proof.
  unfold accept_file. destruct (negb (2 <? _)); [by intros [= _ <- _]|]. destruct (negb (enable_write _)); [by intros [= _ <- _]|].
  destruct (negb (2 <? _)); [by intros [= _ <- _]|]. set (h := hdr_loop _ _ _ _ _). destruct (64 <? _); [by intros [= _ <- _]|].
  destruct (negb (is_auth_ok h)); [by intros [= _ <- _]|]. destruct (split_subfolder (h_name h)) as [sub [|b name]]; [by intros [= _ <- _]|].
  destruct (negb locked); [by intros [= _ <- _]|]. destruct (dirs _ !! sub) as [d|]; [|by intros [= _ <- _]].
  destruct (_ || _); [|by intros [= _ <- _]]. apply store_auth.
Qed.

Lemma remove_auth add name tms crc force s : auth (conf (remove_file_by_tms shash add name tms crc force s).2) = auth (conf s).
Proof.
  unfold remove_file_by_tms. destruct (split_subfolder name) as [sub file]. destruct (negb _); [done|]. destruct (dirs _ !! sub) as [d|]; [|done].
  destruct (is_file_exists _ _); [|done]. destruct (if force then _ else _) as [[|]|]; [|done|done].
  destruct (drop_file _ d _) as [d1 f1]. by destruct (if is_file_exists f1 _ then _ else _) as [d2 f2].
Qed.

Lemma cdb_insert_key m wait good bad ident query n outs n' : do_cdb_insert m wait good bad ident query n = Some (outs, n') -> key_of n' = key_of n.
Proof. unfold do_cdb_insert. destruct (CManager.insert _ _ _ _) as [[ok_ st]|]; [|done]. by intros [= _ <-]. Qed.

Lemma dispatch_key m ty ident query n outs n' : run m ty ident query n = Some (outs, n') -> key_of n' = key_of n.
Proof.
  intros E. destruct (decide (ty ∈ write_types)) as [Hw|Hw]; [|apply dispatch_tagged in E as [_ E]; by rewrite E].
  unfold write_types in Hw. repeat (apply elem_of_cons in Hw as [->|Hw]); [..|set_solver]; cbn [dispatch] in E; try (by eapply cdb_insert_key).
  - destruct (accept_file _ _ _ _ _ _ _ _ _) as [[[res s] ev]|] eqn:Ea; [|done]. injection E as _ <-. by apply accept_auth in Ea.
  - pose proof (remove_auth (m_attempts m) query 0 0 true (disk n)) as Hr. destruct (remove_file_by_tms _ _ _ _ _ _ _) as [ok_ s]. by injection E as _ <-.
  - destruct (EManager.insert _ _ _). by injection E as _ <-.
  - destruct (EManager.insert _ _ _). by injection E as _ <-.
Qed.

Lemma handle_key m a message n r : handle m a message n = Some r -> key_of r.2 = key_of n.
Proof.
  unfold on_message. destruct a; cbn [negb]; [|by intros [= <-]]. destruct (7 <=? zlen message).
  - destruct (dispatch _ _ _ _ _ _ _ _ _ _ _) as [[outs n']|] eqn:E; [|done]. intros [= <-]. by eapply dispatch_key.
  - destruct (bool_decide _); by intros [= <-].
Qed.

(** An authorized client stays so. *)
Lemma handle_authorized m message n r : handle m true message n = Some r -> r.1.1 = true.
Proof.
  unfold on_message. cbn [negb]. destruct (7 <=? zlen message); [destruct (dispatch _ _ _ _ _ _ _ _ _ _ _) as [[outs n']|]; [|done]; by intros [= <-]|].
  destruct (bool_decide _); by intros [= <-].
Qed.

Lemma serve_after_key ms : forall au n, key_of n <> [] ->
  (fun r => (r.1.2, r.2)) <$> serve ms au n = serve_requests (after_key (key_of n) ms au) n.
Proof.
  induction ms as [|[[c m] message] ms IH]; intros au n Hk; [done|]. cbn [serve after_key]. case_bool_decide as Hc.
  - cbn [serve_requests]. destruct (handle m true message n) as [[[a outs] n1]|] eqn:E; [|done]. cbn [mbind option_bind].
    pose proof (handle_authorized _ _ _ _ E) as Ha. pose proof (handle_key _ _ _ _ _ E) as Hk1. cbn in Ha, Hk1. subst a. rewrite <- Hk1 in Hk.
    assert (Eau : {[c]} ∪ au = au) by set_solver. rewrite Eau, <- Hk1, <- (IH au n1 Hk). by destruct (serve ms au n1) as [[[au' outs'] n2]|].
  - cbn [on_message negb mbind option_bind]. unfold key_of in Hk |- *. rewrite (bool_decide_false (auth _ = [])) by done. cbn [orb].
    rewrite <- (IH (if bool_decide (auth (conf (disk n)) = message) then {[c]} ∪ au else au) n Hk).
    by destruct (serve ms _ n) as [[[au' outs'] n2]|].
Qed.

Lemma serve_key ms : forall au n au' outs n', serve ms au n = Some (au', outs, n') -> key_of n' = key_of n.
Proof.
  induction ms as [|[[c m] message] ms IH]; intros au n au' outs n'; cbn [serve]; [by intros [= _ _ <-]|].
  destruct (handle m _ message n) as [[[a outs1] n1]|] eqn:E; [|done]. cbn [mbind option_bind].
  destruct (serve ms _ n1) as [[[au2 outs2] n2]|] eqn:E2; [|done]. cbn [mbind option_bind]. intros [= _ _ <-].
  rewrite (IH _ _ _ _ _ E2). by apply handle_key in E.
Qed.

Lemma after_key_sent key ms : forall au c m message, (c, m, message) ∈ after_key key ms au -> c ∈ au \/ exists m', (c, m', key) ∈ ms.
Proof.
  induction ms as [|[[c' m'] message'] ms IH]; intros au c m message; cbn [after_key]; [set_solver|]. case_bool_decide as Hc.
  - intros [[= -> -> ->]|Hin]%elem_of_cons; [by left|]. apply IH in Hin as [|[m1 Hm]]; [by left|]. right. exists m1. by right.
  - intros Hin. apply IH in Hin as [Hin|[m1 Hm]]; [|right; exists m1; by right]. case_bool_decide as Hk; [|by left].
    apply elem_of_union in Hin as [->%elem_of_singleton|]; [|by left]. right. exists m'. rewrite Hk. by left.
Qed.

Lemma serve_requests_outs ms : forall n outs n' c o, serve_requests ms n = Some (outs, n') -> (c, o) ∈ outs -> exists m message, (c, m, message) ∈ ms.
Proof.
  induction ms as [|[[c' m] message] ms IH]; intros n outs n' c o; cbn [serve_requests]; [intros [= <- _]; set_solver|].
  destruct (handle m true message n) as [[[a outs1] n1]|]; [|done]. cbn [mbind option_bind]. destruct (serve_requests ms n1) as [[outs2 n2]|] eqn:E; [|done]. cbn [mbind option_bind].
  intros [= <- _] [Hin|Hin]%elem_of_app.
  - apply list_elem_of_fmap in Hin as (o' & [= -> ->] & _). exists m, message. by left.
  - destruct (IH _ _ _ _ _ E Hin) as (m1 & msg1 & H1). exists m1, msg1. by right.
Qed.
End clients.

(** C35: clients without the key have no influence on the requests of the others.  When several
    clients send messages to the handler of requests, in any order, what it outputs and what
    becomes of the files and the two stores is what the messages give that come after their own
    client has sent the configured key, handled without any check; all other messages leave no
    trace, and only a client that sent the key is answered.  No request changes the key.  (The exchange
    of keys of an encrypted connection happens before messages reach this handler.) *)
Theorem unauthorized_client_not_served `{JEnv} `{JdbEngine} (inflate : bytes -> option bytes) (shash : bytes -> Z)
    (decrypt : bytes -> bytes -> bytes -> bytes) (get_hash_of_file : fs -> bytes -> Z) (opens : bytes -> bool)
    (file_names : fs -> bytes -> list bytes) (ms : list (Z * moment * bytes)) (n : node) :
  key_of n <> [] ->
  (fun r => (r.1.2, r.2)) <$> serve inflate shash decrypt get_hash_of_file opens file_names ms ∅ n =
    serve_requests inflate shash decrypt get_hash_of_file opens file_names (after_key (key_of n) ms ∅) n /\
  forall authorized outs n', serve inflate shash decrypt get_hash_of_file opens file_names ms ∅ n = Some (authorized, outs, n') ->
    key_of n' = key_of n /\ forall c o, (c, o) ∈ outs -> exists m, (c, m, key_of n) ∈ ms.
Proof.
  intros Hk. pose proof (serve_after_key inflate shash decrypt get_hash_of_file opens file_names ms ∅ n Hk) as Hs. split; [done|].
  intros authorized outs n' E. split; [by eapply serve_key|]. rewrite E in Hs. intros c o Hin. symmetry in Hs.
  destruct (serve_requests_outs _ _ _ _ _ _ _ _ _ _ _ _ Hs Hin) as (m & message & [Ha|Ha]%after_key_sent); [set_solver|done].
Qed.

(** C36: every reply to a request can be matched by the client: it starts with the two digits of the
    type of the request (the requests 13 and 29 are answered as 14 and 09), the two digits of a
    status of the server, and the identifier of the request; and requests other than stores,
    removals, events and writes to the key-value store change nothing. *)
Theorem replies_are_tagged `{JEnv} `{JdbEngine} (inflate : bytes -> option bytes) (shash : bytes -> Z)
    (decrypt : bytes -> bytes -> bytes -> bytes) (get_hash_of_file : fs -> bytes -> Z) (opens : bytes -> bool)
    (file_names : fs -> bytes -> list bytes) (m : moment) (message : bytes) (n : node) (a : bool) (outs : list output) (n' : node) :
  on_message inflate shash decrypt get_hash_of_file opens file_names m true message n = Some (a, outs, n') ->
  let ty := default 0 (stoi I32 (take 2 message)) in
  Forall (tagged ty (take 5 (drop 2 message))) outs /\ (ty ∉ write_types -> n' = n).
Proof.
  unfold on_message. cbn [negb]. destruct (7 <=? zlen message).
  - destruct (dispatch _ _ _ _ _ _ _ _ _ _ _) as [[outs0 n0]|] eqn:E; [|done]. cbn [mbind option_bind].
    intros [= _ <- <-]. by eapply dispatch_tagged.
  - destruct (bool_decide _); intros [= _ <- <-]; split; try done. by apply Forall_singleton.
Qed.

(** The question whether there is room for a file is not answered when there is. *)
Lemma enough_storage_not_answered (ident query : bytes) (n : node) (d : directory) :
  dirs (conf (disk n)) !! query = Some d -> enable_write (conf (disk n)) = true -> curr_size_b d < max_size_b d ->
  do_enough ident query n = [].
Proof. intros Hd Hw Hs. unfold do_enough. rewrite Hd, Hw, (proj2 (Z.ltb_lt _ _)) by done. done. Qed.

(** ** An example *)

#[local] Instance tcp_env : JEnv :=
  {| hash := fun _ => 7; mktime := fun _ _ _ _ _ _ => 0; compress_string := fun s => s; decompress_string := fun s => s;
     visit := fun A m => map_to_list m; visit_offsets := map_to_list |}.

Definition ex_node : node :=
  Node (Server (Conf true true (lit "key") [] [] (lit "/ttl/") 2 {[ lit "sub" := Directory true (lit "/d/") 1000000 4096000 4096 ]}) ∅)
    MapTime.empty empty_db.
Definition ex_moment : moment := Moment example_dt example_clock (fun _ => true) (fun _ => true) 100.

(** A client without the key tries to remove a file, between the messages of another one. *)
Definition ex_clients : list (Z * moment * bytes) :=
  [(1, ex_moment, lit "kex"); (2, ex_moment, lit "key"); (1, ex_moment, lit "0812345sub/a"); (2, ex_moment, lit "2012345door")].
Definition ex_served := serve (fun _ => None) (fun _ => 7) (fun c _ _ => c) (fun _ _ => 1) (fun _ => true) (fun _ _ => []) ex_clients ∅ ex_node.

Example ex_served_result : (fun r => (elements r.1.1, r.1.2)) <$> ex_served = Some ([2], [(2, Reply (lit "200712345"))]).
Proof. vm_compute. reflexivity. Qed.

Lemma unauthorized_client_not_served_witness :
  key_of ex_node <> [] /\
  (fun r => (r.1.2, r.2)) <$> ex_served =
    serve_requests (fun _ => None) (fun _ => 7) (fun c _ _ => c) (fun _ _ => 1) (fun _ => true) (fun _ _ => []) [(2, ex_moment, lit "2012345door")] ex_node.
Proof.
  assert (Hk : key_of ex_node <> []) by discriminate. split; [exact Hk|].
  exact (proj1 (unauthorized_client_not_served (fun _ => None) (fun _ => 7) (fun c _ _ => c) (fun _ _ => 1) (fun _ => true) (fun _ _ => []) ex_clients ex_node Hk)).
Defined.

Lemma replies_are_tagged_witness :
  exists outs n', on_message (fun _ => None) (fun _ => 7) (fun c _ _ => c) (fun _ _ => 1) (fun _ => true) (fun _ _ => [])
    ex_moment true (lit "2012345door") ex_node = Some (true, outs, n') /\
  outs = [Reply (lit "200712345")] /\ Forall (tagged 20 (lit "12345")) outs /\ n' = ex_node.
Proof.
  eexists _, _. split; [vm_compute; reflexivity|]. split; [reflexivity|].
  destruct (replies_are_tagged (fun _ => None) (fun _ => 7) (fun c _ _ => c) (fun _ _ => 1) (fun _ => true) (fun _ _ => [])
    ex_moment (lit "2012345door") ex_node true [Reply (lit "200712345")] ex_node) as [H1 H2]; [vm_compute; reflexivity|].
  split; [exact H1|]. apply H2. by apply (bool_decide_unpack _).
Defined.
