(* ===== verification/PoolClient.v ===== *)
(** * The client library ([rssdisk/client/rssdisk_pool.cpp])

    What the pool of connections sends and how it takes answers apart: the messages of
    [write_file] for every kind of write, the answers it counts, reading a file, writes and
    events of the two stores, and the choice of a server.  The waiting for answers, the
    threads and the sockets ([tcp_client]) are not modelled; the time of a write and zlib's
    compression are arguments. *)

From S2P Require Import Prelude Bitbase BasefuncStd Compression DateTime Json JsonReader DiskHelper WType JdbInterface JManager MapTime CManager EManager CSearch Crc32 DiskServer DiskServerFacts TcpHandler.
From Stdlib Require Import ZArith Lia Strings.Byte.
From stdpp Require Import base gmap strings numbers sorting list.
Open Scope Z_scope.

(** ** The code *)

(** [tcp_client::get_identy]: a counter of five digits. *)
Definition next_identy (identy : Z) : Z := if 100000 <=? identy + 1 then 10000 else identy + 1.

(** *** Writing *)

Section messages.
Context (compress : bytes -> bytes).

(** Records of the stores; [t] is [time(0)]. *)
Definition prepare_edb (t type_event : Z) (v : bytes) (ttl : Z) : bytes :=
  let data := numeric_to_chars I32 ttl ++ numeric_to_chars I64 t ++ v in
  numeric_to_chars I32 type_event ++ numeric_to_chars I32 (wrap I32 (zlen data)) ++ data.

Definition prepare_cdb (t : Z) (key v : bytes) (ttl : Z) : bytes :=
  let val_compressed := compress v in
  numeric_to_chars I64 t ++ numeric_to_chars I64 (get_hash v) ++ numeric_to_chars I32 ttl ++
  numeric_to_chars I32 (wrap I32 (zlen key)) ++ numeric_to_chars I32 (wrap I32 (zlen val_compressed)) ++ key ++ val_compressed.

Definition prepare_jdb (data sett : bytes) : bytes := numeric_to_chars U32 (wrap U32 (zlen sett)) ++ sett ++ data.

(** What is sent of a content; [None] is the early return with -2. *)
Definition write_content (w : w_type) (content_ : bytes) : option bytes :=
  match content_ with
  | [] => Some []
  | _ :: _ =>
      let content := if bool_decide (w ∈ [updatable_without_compress; insert_only_without_compress; jdb; ajdb; WType.cdb; cdbm; appendable])
                     then content_ else compress content_ in
      match content with [] => None | _ => Some content end
  end.

Definition write_flags (w : w_type) (content : bytes) (file_tms file_crc32 : Z) : bytes :=
  let code := to_string (w_code w) in
  match w with
  | updatable | updatable_without_compress | ajdb =>
      lit "0" ++ code ++ numeric_to_chars I64 file_tms ++ numeric_to_chars I64 file_crc32
  | jdb =>
      lit "0" ++ (if bool_decide (take 3 content = lit "jdb") then to_string (w_code jdb_formed) else code) ++
      numeric_to_chars I64 file_tms ++ numeric_to_chars I64 file_crc32
  | insert_only_without_compress => lit "0" ++ code
  | appendable => code ++ numeric_to_chars I64 file_tms
  | _ => lit "0"
  end.

(** The message [to_write] of [f_send]. *)
Definition write_message (t : Z) (w : w_type) (wait_responce : bool) (identy : Z) (filename content : bytes) (ttl : Z)
    (file_tms file_crc32 : Z) : bytes :=
  match w with
  | WType.edb => (if wait_responce then lit "12" else lit "22") ++ to_string identy ++ filename ++ content
  | WType.cdb => (if wait_responce then lit "32" else lit "33") ++ to_string identy ++ prepare_cdb t filename content ttl
  | cdbm => (if wait_responce then lit "32" else lit "33") ++ to_string identy ++ content
  | _ => lit "04" ++ to_string identy ++ lit "auth " ++ filename ++ lit " " ++ to_string ttl ++ lit " " ++
         write_flags w content file_tms file_crc32 ++ lit " " ++ content
  end.
End messages.

(** What the callback of a write makes of an answer: it counts as written, the server is not
    used for a day, another error is logged, or the answer is not for this write. *)
Inductive write_answer := Written | NoRoom | LongName | Failed | NotMine | TooShort.

Definition write_reply (identy : Z) (message : bytes) : write_answer :=
  if 9 <=? zlen message then
    let status := take 2 (drop 2 message) in
    if bool_decide (take 5 (drop 4 message) = to_string identy) then
      if bool_decide (status = lit "01") then Written
      else if bool_decide (status ∈ [lit "03"; lit "12"; lit "14"]) then NoRoom
      else if bool_decide (status = lit "09") then LongName
      else Failed
    else NotMine
  else TooShort.

(** The loop that makes erasing records of the records of a "cdbm" write, for the servers that
    did not take it; [pos] is an [int32_t] and is compared as a [size_t].  A [substr] from a
    negative position throws ([None]). *)
Fixpoint cut_records (fuel : nat) (content : bytes) (pos : Z) (cutted : bytes) : option bytes :=
  match fuel with
  | O => None
  | S fuel' =>
      if wrap U64 (wrap I32 (pos + 28)) <? zlen content then
        let block_pos := pos in
        if block_pos <? 0 then None
        else
        let header_bytes := chars_to_numeric I32 (zsub content (pos + 20) 4) in
        let content_bytes := chars_to_numeric I32 (zsub content (pos + 24) 4) in
        let pos := wrap I32 (pos + 28) in
        if wrap U64 (wrap I32 (pos + header_bytes)) <=? zlen content then
          let pos := wrap I32 (pos + header_bytes) in
          if wrap U64 (wrap I32 (pos + content_bytes)) <=? zlen content then
            cut_records fuel' content (wrap I32 (pos + content_bytes))
              (cutted ++ zsub content block_pos 24 ++ numeric_to_chars I32 0 ++
               zsub content (block_pos + 28) (wrap U64 header_bytes))
          else Some cutted
        else Some cutted
      else Some cutted
  end.

(** *** Reading *)

Definition read_message (read_many read_sdb : bool) (identy : Z) (filename : bytes) : bytes :=
  (if read_sdb then lit "30" else if read_many then lit "09" else lit "02") ++ to_string identy ++ filename.

(** What the callback of a read makes of an answer: the content and the rest of what was read,
    or [None] when nothing was taken over.  [Some None] is an exception in [fetch_content]. *)
Definition read_reply (read_many : bool) (identy : Z) (message : bytes) (ri : read_info) : option (option (bytes * read_info)) :=
  if 32 <? zlen message then
    if bool_decide (take 2 (drop 2 message) = lit "01") then
      if bool_decide (take 5 (drop 4 message) = to_string identy) then
        if read_many then Some (Some (drop 9 message, ri))
        else match fetch_content message 9 ri with
             | None => Some None
             | Some ri => match ri_content ri with [] => None | c => Some (Some (c, ri)) end
             end
      else None
    else None
  else None.

(** The end of [read_file]. *)
Definition finish_read (inflate : bytes -> option bytes) (read_many : bool) (ri : read_info) (content : bytes) : bytes :=
  if bool_decide (file_type ri ∉ [insert_only_without_compress; updatable_without_compress; appendable]) &&
     negb (bool_decide (take 3 content = lit "jdb")) && negb read_many
  then decompress inflate content else content.

(** *** Events *)

(** [fetch_edb_content]: the events in a sequence of frames; [start_position] is a [size_t] and
    the sums with the [int32_t] size are made with it. *)
Fixpoint fetch_edb_content (fuel : nat) (data : bytes) (start_position : Z) : option (list (Z * bytes)) :=
  match fuel with
  | O => None
  | S fuel' =>
      if start_position + 4 <? zlen data then
        let data_size := chars_to_numeric I32 (zsub data start_position 4) in
        if wrap U64 (start_position + data_size + 4) <=? zlen data then
          if 12 <=? data_size then
            let t := chars_to_numeric I64 (zsub data (start_position + 8) 8) in
            rest ← fetch_edb_content fuel' data (wrap U64 (start_position + (data_size + 4)));
            Some ((t, zsub data (start_position + 16) (data_size - 12)) :: rest)
          else Some []
        else Some []
      else Some []
  end.

(** *** The answers to a search of the key-value store *)

Inductive cdb_out_data_format := fmt_json | fmt_data | fmt_prefer_json.

(** The members of a found key. *)
Record cdb_entry := CdbEntry { e_tms : Z; e_crc32 : Z; e_valid_to : Z; e_data : json; e_readed : list Z }.

(** The lambda [f]: what is shown of a value; the exception of the reader leaves it empty. *)
Definition entry_data (frm : cdb_out_data_format) (value : bytes) : json :=
  match frm with
  | fmt_json => default (stringValue []) (parse value)
  | fmt_prefer_json =>
      match Reader_parse x00 value nullValue with
      | Ret (true, v, _) => v
      | Ret (false, _, _) => stringValue value
      | Throw | NoFuel => stringValue []
      end
  | fmt_data => stringValue value
  end.

Section cdb_all.
Context (inflate : bytes -> option bytes) (frm : cdb_out_data_format).

(** One record for the server [ip]: the newest write of a key is shown, with the servers that
    hold it or something older. *)
Definition add_entry (ip : Z) (key value : bytes) (tms crc32 valid : Z) (data : gmap bytes cdb_entry) : gmap bytes cdb_entry :=
  let fresh := CdbEntry tms crc32 valid (entry_data frm value) [] in
  let e := match data !! key with
           | Some old => if e_tms old <? tms then fresh else old
           | None => fresh
           end in
  <[key := CdbEntry (e_tms e) (e_crc32 e) (e_valid_to e) (e_data e) (e_readed e ++ [ip])]> data.

(** The loop over the records of one server; [None] when [substr] throws,
    or when the loop runs on. *)
Fixpoint cdb_loop (fuel : nat) (ip : Z) (content : bytes) (start : Z) (data : gmap bytes cdb_entry) : option (gmap bytes cdb_entry) :=
  match fuel with
  | O => None
  | S fuel' =>
      if start + 32 <? zlen content then
        let tms := chars_to_numeric I64 (zsub content start 8) in
        let crc32 := chars_to_numeric I64 (zsub content (start + 8) 8) in
        let valid := chars_to_numeric I64 (zsub content (start + 16) 8) in
        let key_size := chars_to_numeric I32 (zsub content (start + 24) 4) in
        let val_size := chars_to_numeric I32 (zsub content (start + 28) 4) in
        let start := start + 32 in
        let key := zsub content start (wrap U64 key_size) in
        let start := wrap U64 (start + key_size) in
        if zlen content <? start then None
        else
          let value := decompress inflate (zsub content start (wrap U64 val_size)) in
          cdb_loop fuel' ip content (wrap U64 (start + val_size)) (add_entry ip key value tms crc32 valid data)
      else Some data
  end.

Fixpoint parse_cdb_all (fuel : nat) (info : list (Z * bytes)) (data : gmap bytes cdb_entry) : option (gmap bytes cdb_entry) :=
  match info with
  | [] => Some data
  | (ip, content) :: info =>
      if 40 <? zlen content then data ← cdb_loop fuel ip content 8 data; parse_cdb_all fuel info data
      else parse_cdb_all fuel info data
  end.
End cdb_all.

(** *** The choice of a server *)

(** The connected servers by network group. *)
Abbreviation pool := (gmap Z (list Z)).

Section pop.
(** [basefunc_std::rand(0, n - 1)], for the choice of a group and of a server. *)
Context (rand_group rand_server : nat -> nat).

(** Take a server out of a group; an empty group goes. *)
Definition pop_from (group : Z) (servers : pool) : option (Z * pool) :=
  match servers !! group with
  | None | Some [] => None
  | Some s_vec =>
      let index_to_pop := rand_server (length s_vec) in
      ret ← s_vec !! index_to_pop;
      let s_vec := take index_to_pop s_vec ++ drop (S index_to_pop) s_vec in
      Some (ret, match s_vec with [] => delete group servers | _ => <[group := s_vec]> servers end)
  end.

(** [pop_index_rand]; [None] is -1.  [std::map] iterates over the groups in order. *)
Definition pop_index_rand (servers : pool) (used_groups : gset Z) (preffered_network : Z) : option (Z * pool * gset Z) :=
  if bool_decide (servers = ∅) then None
  else if bool_decide (is_Some (servers !! preffered_network)) then
    '(ret, servers) ← pop_from preffered_network servers; Some (ret, servers, used_groups)
  else
    let groups := merge_sort (fun a b : Z => a <= b) (map_to_list servers).*1 in
    let existing_network_groups :=
      match filter (fun g => g ∉ used_groups) groups with [] => groups | l => l end in
    select_netw ← existing_network_groups !! rand_group (length existing_network_groups);
    '(ret, servers) ← pop_from select_netw servers;
    Some (ret, servers, used_groups ∪ {[select_netw]}).
End pop.

(** ** Messages of a client at the server *)

Definition five_digits (identy : Z) : Prop := 10000 <= identy < 100000.

Lemma next_identy_digits identy : five_digits identy -> five_digits (next_identy identy).
Proof. unfold five_digits, next_identy. destruct (Z.leb_spec 100000 (identy + 1)); lia. Qed.

Lemma length_identy identy : five_digits identy -> length (to_string identy) = 5%nat.
Proof.
  unfold five_digits. intros Hi. rewrite to_string_dec by lia. apply (length_dec_loop 4); [lia|]. cbn. lia.
Qed.

Section served.
Context `{JEnv} `{JdbEngine} (inflate : bytes -> option bytes) (shash : bytes -> Z) (decrypt : bytes -> bytes -> bytes -> bytes).
Context (get_hash_of_file : fs -> bytes -> Z) (opens : bytes -> bool) (file_names : fs -> bytes -> list bytes).

Abbreviation handle := (on_message inflate shash decrypt get_hash_of_file opens file_names).
Abbreviation run := (dispatch inflate shash decrypt get_hash_of_file opens file_names).

Lemma on_request m (a b : byte) identy query n :
  five_digits identy ->
  handle m true (a :: b :: to_string identy ++ query) n =
    ('(outs, n) ← run m (default 0 (stoi I32 [a; b])) (to_string identy) query n; Some (true, outs, n)).
Proof.
  intros Hi. pose proof (length_identy identy Hi) as Hl. unfold on_message. cbn [negb].
  rewrite (proj2 (Z.leb_le 7 _)) by (cbn [length]; rewrite length_app; lia).
  cbn [take drop]. rewrite firstn_O, drop_0. rewrite <- Hl at 1. rewrite take_app_length.
  replace (drop 5 (to_string identy ++ query)) with query by (rewrite <- Hl; by rewrite drop_app_length). done.
Qed.

(** The callback of a write takes the answer to it. *)
Lemma write_reply_ok identy (a b : byte) :
  five_digits identy -> write_reply identy (a :: b :: lit "01" ++ to_string identy) = Written.
Proof.
  intros Hi. pose proof (length_identy identy Hi) as Hl. unfold write_reply.
  assert (E : zlen (a :: b :: lit "01" ++ to_string identy) = 9) by (cbn [length]; rewrite length_app, Hl; done).
  rewrite E. change (9 <=? 9) with true. cbv iota. change (lit "01") with [x30; x31]. cbn [app drop].
  rewrite drop_0, take_ge by lia. rewrite bool_decide_true by done. cbn [take]. by rewrite firstn_O.
Qed.

(** Sending a file. *)
Section file.
Context (compress : bytes -> bytes) (w : w_type) (Hw : w = updatable \/ w = updatable_without_compress).
Context (filename content sent : bytes) (ttl tms crc : Z).

Definition sent_request : request := Request (lit "auth") filename (to_string ttl) (stamp_flags w tms crc) sent.

Lemma write_message_request t wait identy :
  write_message compress t w wait identy filename sent ttl tms crc = x30 :: x34 :: to_string identy ++ enc_request sent_request.
Proof.
  assert (Ef : write_flags w sent tms crc = stamp_flags w tms crc) by (by destruct Hw as [-> | ->]).
  unfold enc_request, sent_request. cbn [q_auth q_name q_ttl q_flags q_body]. rewrite <- Ef.
  unfold write_message. by destruct Hw as [-> | ->].
Qed.

Lemma client_write_served m identy n sub fname d payload :
  five_digits identy -> m_lock m (enc_request sent_request) = true ->
  storable shash opens (m_now m) w tms crc sent_request payload sub fname (disk n) d ->
  exists r, stored shash opens (m_now m) w tms crc sent_request sub fname (disk n) d payload r /\
    handle m true (x30 :: x34 :: to_string identy ++ enc_request sent_request) n =
      Some (true, [Reply (lit "0401" ++ to_string identy)], set_disk r.1.2 n).
Proof.
  intros Hi Hlock Hs.
  destruct (storable_stored shash decrypt opens (m_now m) w tms crc sent_request payload sub fname (disk n) d false Hs)
    as (r & E & Hst); [by left|].
  exists r. split; [done|]. rewrite on_request by done. change (default 0 (stoi I32 [x30; x34])) with 4.
  cbn [dispatch]. rewrite Hlock, E. destruct r as [[res s'] ev]. cbn [mbind option_bind fst snd].
  pose proof (st_status _ _ _ _ _ _ _ _ _ _ _ _ _ Hst) as Hsta. cbn [fst] in Hsta. unfold status_of. by rewrite Hsta.
Qed.
End file.
End served.

(** The callback of a read takes the answer to it. *)
Lemma read_reply_ok identy (X : bytes) ri0 ri :
  five_digits identy -> 23 < zlen X -> fetch_content (lit "0201" ++ to_string identy ++ X) 9 ri0 = Some ri ->
  ri_content ri <> [] ->
  read_reply false identy (lit "0201" ++ to_string identy ++ X) ri0 = Some (Some (ri_content ri, ri)).
Proof.
  intros Hi HX Hf Hc. pose proof (length_identy identy Hi) as Hl. unfold read_reply.
  rewrite (proj2 (Z.ltb_lt 32 _)) by (rewrite !length_app, Hl; cbn; lia).
  change (drop 2 (lit "0201" ++ to_string identy ++ X)) with (x30 :: x31 :: to_string identy ++ X).
  change (drop 4 (lit "0201" ++ to_string identy ++ X)) with (drop 0 (to_string identy ++ X)).
  cbn [take]. rewrite firstn_O, drop_0, bool_decide_true by done.
  assert (E : take 5 (to_string identy ++ X) = to_string identy) by (rewrite <- Hl; apply take_app_length).
  rewrite E, bool_decide_true, Hf by done. by destruct (ri_content ri).
Qed.

(** C1: what a client writes, a client reads.  The message that [write_file] sends for a file
    with a timestamp and a checksum makes the server store the file and answer with a reply
    that the writer counts as written; the message of [read_file] is then answered with a
    reply from which the reader takes the checksum, the timestamp and the time to live of the
    write and, after decompression, the content. *)
Theorem client_write_then_read `{JEnv} `{JdbEngine} (inflate : bytes -> option bytes) (shash : bytes -> Z)
    (decrypt : bytes -> bytes -> bytes -> bytes) (get_hash_of_file : fs -> bytes -> Z) (opens : bytes -> bool)
    (file_names : fs -> bytes -> list bytes) (compress : bytes -> bytes) (w : w_type) (filename content sent : bytes)
    (ttl tms t : Z) (m1 m2 : moment) (id1 id2 : Z) (sub fname : bytes) (d : directory) (n : node) :
  w = updatable \/ w = updatable_without_compress -> five_digits id1 -> five_digits id2 -> in_range I16 ttl ->
  write_content compress w content = Some sent -> content <> [] ->
  (w = updatable -> inflate sent = Some content /\ take 3 sent <> lit "jdb") ->
  storable shash opens (m_now m1) w tms (get_hash content) (sent_request w filename sent ttl tms (get_hash content)) sent
    sub fname (disk n) d ->
  m_lock m1 (enc_request (sent_request w filename sent ttl tms (get_hash content))) = true -> m_lock m2 filename = true ->
  enable_read (conf (disk n)) = true -> str_find (lit "?jdb") fname = None ->
  exists n1 written reply ri c,
    on_message inflate shash decrypt get_hash_of_file opens file_names m1 true
      (write_message compress t w true id1 filename sent ttl tms (get_hash content)) n = Some (true, [Reply written], n1) /\
    write_reply id1 written = Written /\
    on_message inflate shash decrypt get_hash_of_file opens file_names m2 true
      (read_message false false id2 filename) n1 = Some (true, [Reply reply], n1) /\
    read_reply false id2 reply read_info_init = Some (Some (c, ri)) /\
    file_tms ri = tms /\ file_crc32 ri = get_hash content /\ ttl_days ri = ttl /\
    finish_read inflate false ri c = content.
Proof.
  intros Hw H1 H2 Ht Hc Hne Hz Hs HL1 HL2 Hr Hj. set (crc := get_hash content) in *.
  set (q := sent_request w filename sent ttl tms crc) in *.
  destruct (client_write_served inflate shash decrypt get_hash_of_file opens file_names w filename sent ttl tms crc
    m1 id1 n sub fname d sent H1 HL1 Hs) as (r & Hst & E1). fold q in Hst, E1.
  assert (Hsent : sent <> []).
  { unfold write_content in Hc. destruct content; [done|]. destruct (if bool_decide _ then _ else _); [done|]. by injection Hc as <-. }
  pose proof (stored_read shash opens (m_now m1) w tms crc q sent sub fname (disk n) d r Hs Hst Hr Hsent Hj) as Hread.
  change (q_ttl q) with (to_string ttl) in Hread. rewrite stoi_to_string in Hread by (done || range_lia).
  cbn [default from_option] in Hread. unfold id in Hread.
  set (hdr := file_header (m_now m1) ttl (headers_of w tms crc)) in *.
  assert (Hk : file_kind w = true) by (by destruct Hw as [-> | ->]).
  pose proof (fetch_written w (m_now m1) ttl tms crc (lit "0201" ++ to_string id2) sent Hk
    (so_now _ _ _ _ _ _ _ _ _ _ _ _ Hs) (so_year _ _ _ _ _ _ _ _ _ _ _ _ Hs) Ht
    (so_tms _ _ _ _ _ _ _ _ _ _ _ _ Hs) (so_crc _ _ _ _ _ _ _ _ _ _ _ _ Hs) Hsent) as Hf. fold hdr in Hf.
  pose proof (length_identy id2 H2) as Hl2.
  eexists _, _, (lit "0201" ++ to_string id2 ++ hdr ++ sent), _, sent.
  split; [rewrite (write_message_request compress w Hw filename sent ttl tms crc t true id1); exact E1|].
  split; [by apply write_reply_ok|]. split.
  { unfold read_message. cbn [app]. change (lit "02") with [x30; x32]. cbn [app].
    rewrite on_request by done. change (default 0 (stoi I32 [x30; x32])) with 2. cbn [dispatch set_disk disk].
    rewrite HL2. change filename with (q_name q). rewrite Hread. done. }
  assert (Hh : 23 < zlen (hdr ++ sent)).
  { rewrite length_app. unfold hdr. pose proof (length_file_header (m_now m1) ttl (headers_of w tms crc)
      (so_now _ _ _ _ _ _ _ _ _ _ _ _ Hs) (so_year _ _ _ _ _ _ _ _ _ _ _ _ Hs)) as Hh.
    assert (Hm : zlen (mjoin (headers_of w tms crc)) = 18) by (destruct Hw as [-> | ->]; cbn [headers_of mjoin list_join];
      by rewrite !length_app, !length_numeric_to_chars). lia. }
  rewrite length_app, Hl2, <- app_assoc in Hf. change (length (lit "0201") + 5)%nat with 9%nat in Hf.
  split; [by apply (read_reply_ok id2 (hdr ++ sent) read_info_init _ H2 Hh Hf)|].
  cbn [file_tms file_crc32 ttl_days]. do 3 (split; [by destruct Hw as [-> | ->]|]).
  unfold finish_read. cbn [file_type]. destruct Hw as [-> | ->].
  - destruct (Hz eq_refl) as [Hi Hj']. rewrite (bool_decide_true (updatable ∉ _)) by (by apply (bool_decide_unpack _)).
    rewrite (bool_decide_false (take 3 sent = _)) by done. by apply decompress_Some.
  - rewrite bool_decide_false by (intros Hx; apply Hx; by apply (bool_decide_unpack _)). cbn [andb].
    unfold write_content in Hc. destruct content; [done|]. by injection Hc.
Qed.

(** ** Commands to many servers ([client::command]) *)

Inductive read_info_type :=
  | file_exists | file_info | remove_file | get_files | read_files | read_files_many | read_files_many_comressed
  | read_file_tms_newest | read_cdb | read_cdb_tms_newest | read_cdb_all | read_edb_events.

Definition command_code (r : read_info_type) : bytes :=
  match r with
  | read_files | read_file_tms_newest => lit "02"
  | read_files_many => lit "09"
  | read_files_many_comressed => lit "29"
  | get_files => lit "06"
  | file_info => lit "07"
  | remove_file => lit "08"
  | read_cdb | read_cdb_tms_newest => lit "20"
  | read_cdb_all => lit "21"
  | read_edb_events => lit "31"
  | file_exists => lit "01"
  end.

Definition command_message (r : read_info_type) (identy : Z) (filename : bytes) : bytes :=
  command_code r ++ to_string identy ++ filename.

(** What is read off the answer to "file_info". *)
Definition info_reply (s : bytes) : read_info :=
  let ri := read_info_init in
  let ty := if 2 <=? zlen s then w_cast (default 0 (stoi I32 (take 2 s))) else file_type ri in
  let with_dates tms crc (from : nat) :=
    ReadInfo ty tms crc (parse_date_time (take 19 (drop from s)) default_format date_and_time (file_created ri)).2
      (default (ttl_days ri) (stoi I16 (drop (from + 19) s))) [] [] in
  let plain tms crc := ReadInfo ty tms crc (file_created ri) (ttl_days ri) [] [] in
  match ty with
  | w_none => plain 0 0
  | jdb_data => plain 0 (if 6 <=? zlen s then chars_to_numeric I64 (take 4 (drop 2 s)) else 0)
  | updatable | updatable_without_compress | jdb | ajdb =>
      if 18 <=? zlen s then
        let tms := chars_to_numeric I64 (take 8 (drop 2 s)) in
        let crc := chars_to_numeric I64 (take 8 (drop 10 s)) in
        if 38 <=? zlen s then with_dates tms crc 18%nat else plain tms crc
      else plain 0 0
  | _ => if (18 <=? zlen s) && (22 <=? zlen s) then with_dates 0 0 2%nat else plain 0 0
  end.

(** The entry that the callback adds for an answer; the outer option is [None] when it adds
    none, the inner one when it throws. *)
Definition command_reply (inflate : bytes -> option bytes) (r : read_info_type) (identy : Z) (message : bytes) :
    option (option read_info) :=
  let with_content ri c := ReadInfo (file_type ri) (file_tms ri) (file_crc32 ri) (file_created ri) (ttl_days ri) (header ri) c in
  if (9 <=? zlen message) && bool_decide (take 5 (drop 4 message) = to_string identy) then
    if bool_decide (take 2 (drop 2 message) = lit "01") then
      match r with
      | file_info => Some (Some (info_reply (drop 9 message)))
      | read_cdb_all => Some (Some (with_content read_info_init (drop 9 message)))
      | get_files =>
          Some (Some (with_content read_info_init (if 9 <? zlen message then decompress inflate (drop 9 message) else [])))
      | read_files | read_file_tms_newest | read_cdb | read_cdb_tms_newest =>
          if 32 <? zlen message then
            Some (ri ← fetch_content message 9 read_info_init;
                  match ri_content ri with
                  | [] => Some ri
                  | c => Some (with_content ri (finish_read inflate false ri c))
                  end)
          else None
      | read_files_many | read_files_many_comressed | read_edb_events =>
          if 32 <? zlen message then Some (Some (with_content read_info_init (drop 9 message))) else None
      | file_exists | remove_file => Some (Some read_info_init)
      end
    else None
  else None.

(** The end of [command] for the newest write: among the answers with more than two bytes, the
    first with the largest timestamp, how many have that timestamp, and its index. *)
Definition newest_step (acc : Z * Z * option nat) (x : nat * read_info) : Z * Z * option nat :=
  let '(tms_j, count_j, n) := acc in
  let '(i, ri) := x in
  if 2 <? zlen (ri_content ri) then
    if tms_j <? file_tms ri then (file_tms ri, 1, Some i)
    else if file_tms ri =? tms_j then (tms_j, count_j + 1, n)
    else acc
  else acc.

Definition newest (count_parts : Z) (indexex : list read_info) : option nat :=
  let '(_, count_j, n) := foldl newest_step (0, 0, None) (imap pair indexex) in
  if count_j <? count_parts then None else n.

(** ** An example *)

#[local] Instance client_env : JEnv :=
  {| hash := fun _ => 7; mktime := fun _ _ _ _ _ _ => 0; compress_string := fun s => s; decompress_string := fun s => s;
     visit := fun A m => map_to_list m; visit_offsets := map_to_list |}.

(** A compression: a mark before the text. *)
Definition ex_compress (s : bytes) : bytes := x7a :: s.
Definition ex_inflate (s : bytes) : option bytes := match s with x7a :: s => Some s | _ => None end.
Definition ex_text : bytes := lit "hello".
Definition ex_sent : request := sent_request updatable (lit "sub/a") (ex_compress ex_text) 2 77 (get_hash ex_text).
Definition ex_room : directory := Directory true (lit "/d/") 10000000 4096000 4096.
Definition ex_disks : node :=
  Node (Server (Conf true true (lit "key") [] [] (lit "/ttl/") 2 {[ lit "sub" := ex_room ]}) ∅) MapTime.empty empty_db.

Lemma ex_sent_storable :
  storable (fun _ => 7) (fun _ => true) example_dt updatable 77 (get_hash ex_text) ex_sent (ex_compress ex_text)
    (lit "sub") (lit "a") (disk ex_disks) ex_room.
Proof.
  split.
  - unfold normal, date_normal, time_normal. simpl. change (count_days_in_month 12 2023) with 31. lia.
  - simpl; lia.
  - by left.
  - range_lia.
  - by vm_compute.
  - split; try (by apply (bool_decide_unpack _)).
    exists x30, x31, (numeric_to_chars I64 77 ++ numeric_to_chars I64 (get_hash ex_text)). split_and!; [done|done|done|by vm_compute].
  - reflexivity.
  - simpl; lia.
  - reflexivity.
  - discriminate.
  - reflexivity.
  - by vm_compute.
  - reflexivity.
  - exists 12. split; [lia|reflexivity].
  - intros c Hc. cbn [files disk ex_disks] in Hc. by rewrite lookup_empty in Hc.
  - intros c [= <-]. by vm_compute.
  - simpl; lia.
  - intros x. reflexivity.
  - right. split; [reflexivity|simpl; lia].
  - reflexivity.
Qed.

Lemma client_write_then_read_witness :
  exists n1 written reply ri c,
    on_message ex_inflate (fun _ => 7) (fun c _ _ => c) (fun _ _ => 1) (fun _ => true) (fun _ _ => []) ex_moment true
      (write_message ex_compress 5 updatable true 10001 (lit "sub/a") (ex_compress ex_text) 2 77 (get_hash ex_text)) ex_disks =
      Some (true, [Reply written], n1) /\
    write_reply 10001 written = Written /\
    on_message ex_inflate (fun _ => 7) (fun c _ _ => c) (fun _ _ => 1) (fun _ => true) (fun _ _ => []) ex_moment true
      (read_message false false 10002 (lit "sub/a")) n1 = Some (true, [Reply reply], n1) /\
    read_reply false 10002 reply read_info_init = Some (Some (c, ri)) /\
    file_tms ri = 77 /\ file_crc32 ri = get_hash ex_text /\ ttl_days ri = 2 /\
    finish_read ex_inflate false ri c = ex_text.
Proof.
  apply (client_write_then_read ex_inflate (fun _ => 7) (fun c _ _ => c) (fun _ _ => 1) (fun _ => true) (fun _ _ => [])
    ex_compress updatable (lit "sub/a") ex_text (ex_compress ex_text) 2 77 5 ex_moment ex_moment 10001 10002
    (lit "sub") (lit "a") ex_room ex_disks).
  - by left.
  - unfold five_digits. lia.
  - unfold five_digits. lia.
  - range_lia.
  - reflexivity.
  - discriminate.
  - intros _. split; [reflexivity|discriminate].
  - exact ex_sent_storable.
  - reflexivity.
  - reflexivity.
  - reflexivity.
  - by vm_compute.
Defined.
