(* ===== verification/CdbClient.v ===== *)
(** * Clients of the key-value store

    The client library ([PoolClient]) against the store of the servers ([CManager], [CSearch],
    [TcpHandler]): a value that a client writes is read back by key, and what
    [parse_cdb_all] makes of the answers of several servers is, for every key, the newest
    value among them. *)

From S2P Require Import Prelude Bitbase BasefuncStd Compression Json DiskHelper WType JdbInterface JManager MapTime CManager CSearch Crc32 DiskServer DiskServerFacts TcpHandler PoolClient.
From Stdlib Require Import ZArith Lia Strings.Byte.
From stdpp Require Import base gmap strings numbers list.
Open Scope Z_scope.

(** ** Writing and reading one key *)

Lemma prepare_cdb_write (compress : bytes -> bytes) t key v ttl :
  zlen key <= max_val I32 -> zlen (compress v) <= max_val I32 ->
  prepare_cdb compress t key v ttl = enc_write (Write t (get_hash v) ttl key (compress v)).
Proof.
  intros Hk Hv. change (max_val I32) with 2147483647 in *. unfold prepare_cdb, enc_write. cbn [w_tms w_crc w_ttl w_key w_content].
  by rewrite !wrap_id by range_lia.
Qed.

(** The answer to "20" is taken apart. *)
Lemma command_reply_cdb (inflate : bytes -> option bytes) (identy tms crc : Z) (content value : bytes) :
  five_digits identy -> in_range I64 tms -> in_range I64 crc -> content <> [] -> take 3 content <> lit "jdb" ->
  inflate content = Some value ->
  exists ri, command_reply inflate read_cdb identy (lit "2001" ++ to_string identy ++ pad2 (w_code WType.cdb) ++ lit "00000" ++
      numeric_to_chars I64 tms ++ numeric_to_chars I64 crc ++ content) = Some (Some ri) /\
    file_tms ri = tms /\ file_crc32 ri = crc /\ ri_content ri = value.
Proof.
  intros Hi Ht Hc Hne Hj Hv. pose proof (length_identy identy Hi) as Hl. unfold command_reply.
  set (id := to_string identy) in *. change (pad2 (w_code WType.cdb)) with (lit "10").
  set (tm := numeric_to_chars I64 tms). set (cr := numeric_to_chars I64 crc).
  assert (Htm : length tm = 8%nat) by apply length_numeric_to_chars.
  assert (Hcr : length cr = 8%nat) by apply length_numeric_to_chars.
  set (msg := lit "2001" ++ id ++ lit "10" ++ lit "00000" ++ tm ++ cr ++ content).
  assert (Hc0 : (0 < length content)%nat) by (destruct content; [done|simpl; lia]).
  assert (Hlen : zlen msg = 32 + zlen content).
  { unfold msg. rewrite !length_app, Hl, Htm, Hcr. change (length (lit "2001")) with 4%nat.
    change (length (lit "10")) with 2%nat. change (length (lit "00000")) with 5%nat. lia. }
  assert (F : forall u v w k n, msg = u ++ v ++ w -> k = length u -> n = length v -> take n (drop k msg) = v).
  { intros u v w k n -> -> ->. by rewrite drop_app_length, take_app_length. }
  rewrite (F (lit "2001") id (lit "10" ++ lit "00000" ++ tm ++ cr ++ content)) by done.
  rewrite (F (lit "20") (lit "01") (id ++ lit "10" ++ lit "00000" ++ tm ++ cr ++ content)) by done.
  rewrite (proj2 (Z.leb_le 9 _)), (proj2 (Z.ltb_lt 32 _)) by lia. rewrite !bool_decide_true by done. cbn [andb].
  set (pre := lit "2001" ++ id ++ lit "10" ++ lit "00000").
  assert (Hpre : length pre = 16%nat) by (unfold pre; rewrite !length_app, Hl; done).
  assert (Hf : fetch_content msg 9 read_info_init = Some (ReadInfo WType.cdb tms crc (file_created read_info_init)
    (ttl_days read_info_init) (header read_info_init) content)).
  { unfold fetch_content. rewrite (substr_Some msg 9 2) by lia.
    rewrite (F (lit "2001" ++ id) (lit "10") (lit "00000" ++ tm ++ cr ++ content)); [|by unfold msg; rewrite <- app_assoc|rewrite length_app, Hl; done|done].
    cbn [mbind option_bind]. change (w_cast _) with WType.cdb. rewrite bool_decide_true by done.
    rewrite !substr_Some, substr_from_Some by lia. cbn [mbind option_bind].
    rewrite (F pre tm (cr ++ content)); [|by unfold msg, pre; rewrite <- !app_assoc|done|done].
    rewrite (F (pre ++ tm) cr content); [|by unfold msg, pre; rewrite <- !app_assoc|rewrite length_app, Hpre, Htm; done|done].
    replace (drop 32 msg) with content.
    2: { replace msg with ((pre ++ tm ++ cr) ++ content) by (unfold msg, pre; by rewrite <- !app_assoc).
         replace 32%nat with (length (pre ++ tm ++ cr)) by (rewrite !length_app, Hpre, Htm, Hcr; done). by rewrite drop_app_length. }
    unfold tm, cr. rewrite !chars_to_numeric_to_chars by done. done. }
  rewrite Hf. cbn [mbind option_bind ri_content]. destruct content as [|b content]; [done|].
  unfold finish_read. cbn [file_type]. rewrite (bool_decide_true (WType.cdb ∉ _)) by (by apply (bool_decide_unpack _)).
  rewrite (bool_decide_false (take 3 _ = _)) by done. cbn [andb negb]. rewrite (decompress_Some _ _ value) by done. by eexists.
Qed.

(** A value that can be sent: it fits the 31-bit sizes of a record, and zlib gives it back. *)
Record value_ok (compress : bytes -> bytes) (inflate : bytes -> option bytes) (key content : bytes) (t ttl : Z) : Prop := {
  vo_tms : in_range I64 t;
  vo_ttl : in_range I32 ttl;
  vo_key : key <> [];
  vo_content : compress content <> [];
  vo_zlib : inflate (compress content) = Some content;
  vo_plain : take 3 (compress content) <> lit "jdb";
  vo_size : 56 + zlen key + zlen (compress content) <= max_val I32 }.

(** C39: a value that a client writes to the key-value store is read back by its key.  The
    message of [write_file] makes the server keep the compressed value and answer with a
    reply that the writer counts as written; until the time to live has passed, the command
    that reads the key is answered with a reply from which the client takes the timestamp and
    the checksum of the write and the value.  Afterwards the key is answered as not found. *)
Theorem client_cdb_write_then_read `{JEnv} `{JdbEngine} (inflate : bytes -> option bytes) (shash : bytes -> Z)
    (decrypt : bytes -> bytes -> bytes -> bytes) (get_hash_of_file : fs -> bytes -> Z) (opens : bytes -> bool)
    (file_names : fs -> bytes -> list bytes) (compress : bytes -> bytes) (key content : bytes)
    (ttl t tms crc : Z) (m1 m2 : moment) (id1 id2 : Z) (n : node) :
  five_digits id1 -> five_digits id2 -> value_ok compress inflate key content t ttl -> (2 <= m_fuel m1)%nat ->
  exists n1 written reply,
    on_message inflate shash decrypt get_hash_of_file opens file_names m1 true
      (write_message compress t WType.cdb true id1 key content ttl tms crc) n = Some (true, [Reply written], n1) /\
    write_reply id1 written = Written /\ disk n1 = disk n /\ edb n1 = edb n /\
    (forall k, k <> key -> mp (cdb n1) !! k = mp (cdb n) !! k) /\
    on_message inflate shash decrypt get_hash_of_file opens file_names m2 true (command_message read_cdb id2 key) n1 =
      Some (true, [Reply reply], n1) /\
    if steady (m_clock m2) <=? steady (m_clock m1) + ttl * nano then
      exists ri, command_reply inflate read_cdb id2 reply = Some (Some ri) /\
        file_tms ri = t /\ file_crc32 ri = get_hash content /\ ri_content ri = content
    else reply = lit "2007" ++ to_string id2.
Proof.
  intros H1 H2 [Ht Httl Hk Hne Hz Hj Hl] Hfuel. change (max_val I32) with 2147483647 in Hl.
  assert (Hcrc : in_range U32 (get_hash content)) by apply wrap_in_range.
  set (w := Write t (get_hash content) ttl key (compress content)).
  assert (Hw : write_ok w) by (split; [done|cbn; range_lia|done|done]).
  pose proof (insert_loop_records (steady (m_clock m1)) [w] [] (m_fuel m1) false (cdb n)) as Eins.
  rewrite (join_fmap_cons enc_write) in Eins. cbn [fmap list_fmap mjoin list_join app foldl] in Eins. rewrite app_nil_r in Eins.
  change (zlen (@nil byte)) with 0 in Eins.
  rewrite length_enc_write in Eins. specialize (Eins (proj2 (Forall_singleton _ _) Hw)). cbn [w_key w_content w] in Eins.
  set (now := steady (m_clock m1)) in *. set (now' := steady (m_clock m2)).
  assert (Hget : CManager.retrieve now' key (do_write now (cdb n) w) =
    if now' <=? now + ttl * nano then
      Some (numeric_to_chars I64 t ++ numeric_to_chars I64 (get_hash content) ++ compress content) else None).
  { unfold CManager.retrieve, MapTime.get, do_write. cbn [w_content w_key w_crc w_tms w_ttl w].
    destruct (compress content) as [|b l] eqn:Ec; [done|]. cbn [MapTime.insert MapTime.insert_until mp].
    rewrite lookup_insert_eq. cbn [mbind option_bind MapTime.valid_until MapTime.val]. by destruct (now' <=? _). }
  eexists (set_cdb _ n), _, (match CManager.retrieve now' key (do_write now (cdb n) w) with
    | Some c => lit "2001" ++ to_string id2 ++ pad2 (w_code WType.cdb) ++ lit "00000" ++ c
    | None => lit "2007" ++ to_string id2 end). split.
  { cbn [write_message]. rewrite prepare_cdb_write by (change (max_val I32) with 2147483647; lia). fold w.
    change (lit "32") with [x33; x32]. cbn [app].
    rewrite on_request by done. change (default 0 (stoi I32 [x33; x32])) with 32. cbn [dispatch]. unfold do_cdb_insert, CManager.insert.
    fold now. rewrite Eins; [|change (max_val I32) with 2147483647; lia|cbn; lia]. reflexivity. }
  split; [by apply write_reply_ok|]. split; [done|]. split; [done|].
  split; [intros k Hkk; cbn [cdb set_cdb]; by apply do_write_other|].
  unfold command_message, command_code. change (lit "20") with [x32; x30]. cbn [app]. rewrite on_request by done.
  change (default 0 (stoi I32 [x32; x30])) with 20. cbn [dispatch mbind option_bind cdb set_cdb]. fold now'.
  rewrite Hget. destruct (now' <=? _); (split; [reflexivity|]); [|done].
  apply (command_reply_cdb inflate id2); try done. range_lia.
Qed.

#[local] Instance cdb_client_env : JEnv :=
  {| hash := fun _ => 7; mktime := fun _ _ _ _ _ _ => 0; compress_string := fun s => s; decompress_string := fun s => s;
     visit := fun A m => map_to_list m; visit_offsets := map_to_list |}.

Lemma client_cdb_write_then_read_witness :
  exists n1 written reply,
    on_message ex_inflate (fun _ => 7) (fun c _ _ => c) (fun _ _ => 1) (fun _ => true) (fun _ _ => []) ex_moment true
      (write_message ex_compress 5 WType.cdb true 10001 (lit "door") ex_text 60 5 6) ex_disks = Some (true, [Reply written], n1) /\
    write_reply 10001 written = Written /\ disk n1 = disk ex_disks /\ edb n1 = edb ex_disks /\
    (forall k, k <> lit "door" -> mp (cdb n1) !! k = mp (cdb ex_disks) !! k) /\
    on_message ex_inflate (fun _ => 7) (fun c _ _ => c) (fun _ _ => 1) (fun _ => true) (fun _ _ => []) ex_moment true
      (command_message read_cdb 10002 (lit "door")) n1 = Some (true, [Reply reply], n1) /\
    if steady (m_clock ex_moment) <=? steady (m_clock ex_moment) + 60 * nano then
      exists ri, command_reply ex_inflate read_cdb 10002 reply = Some (Some ri) /\
        file_tms ri = 5 /\ file_crc32 ri = get_hash ex_text /\ ri_content ri = ex_text
    else reply = lit "2007" ++ to_string 10002.
Proof.
  apply (client_cdb_write_then_read ex_inflate (fun _ => 7) (fun c _ _ => c) (fun _ _ => 1) (fun _ => true) (fun _ _ => [])
    ex_compress (lit "door") ex_text 60 5 5 6 ex_moment ex_moment 10001 10002 ex_disks).
  - unfold five_digits. lia.
  - unfold five_digits. lia.
  - split; [range_lia|range_lia|discriminate|discriminate|reflexivity|discriminate|by vm_compute].
  - cbn; lia.
Defined.

(** ** The answers of several servers *)

(** A server that answered: its address, its clock and its store. *)
Record answer := Answer { a_ip : Z; a_clock : clock; a_store : store }.

Section merge.
Context (inflate : bytes -> option bytes) (frm : cdb_out_data_format).

(** An item that is sent and read back unchanged. *)
Record sent_ok (c : clock) (it : bytes * timed_val Item) : Prop := {
  sent_tms : in_range I64 (timestamp (val it.2));
  sent_crc : in_range I64 (checksum (val it.2));
  sent_until : in_range I64 (steady_clock_to_time_t c (valid_until it.2));
  sent_size : zlen it.1 + zlen (content (val it.2)) <= max_val I32;
  sent_content : content (val it.2) <> [] }.

Definition value_of (it : Item) : bytes := decompress inflate (content it).

Definition add_item (ip : Z) (c : clock) (data : gmap bytes cdb_entry) (it : bytes * timed_val Item) : gmap bytes cdb_entry :=
  add_entry frm ip it.1 (value_of (val it.2)) (timestamp (val it.2)) (checksum (val it.2))
    (steady_clock_to_time_t c (valid_until it.2)) data.

Lemma length_item_text c it : zlen (item_text c it) = 32 + zlen it.1 + zlen (content (val it.2)).
Proof. unfold item_text. len. Qed.

(** One iteration reads one item. *)
Lemma cdb_loop_item ip c pre it rest fuel data :
  sent_ok c it -> zlen (pre ++ item_text c it ++ rest) < 2 ^ 62 ->
  cdb_loop inflate frm (S fuel) ip (pre ++ item_text c it ++ rest) (zlen pre) data =
    cdb_loop inflate frm fuel ip (pre ++ item_text c it ++ rest) (zlen (pre ++ item_text c it)) (add_item ip c data it).
Proof.
  intros [Ht Hc Hu Hs Hne] Hl. change (max_val I32) with 2147483647 in Hs.
  assert (0 < zlen (content (val it.2))) by (destruct (content (val it.2)); [done|simpl; lia]).
  pose proof (length_item_text c it) as Hli. set (key := it.1) in *. set (cont := content (val it.2)) in *.
  set (d := pre ++ item_text c it ++ rest) in *.
  assert (Hld : zlen d = zlen pre + 32 + zlen key + zlen cont + zlen rest) by (unfold d; rewrite !length_app; lia).
  cbn [cdb_loop]. rewrite (proj2 (Z.ltb_lt (zlen pre + 32) _)) by lia.
  assert (Ed : d = pre ++ numeric_to_chars I64 (timestamp (val it.2)) ++ numeric_to_chars I64 (checksum (val it.2)) ++
    numeric_to_chars I64 (steady_clock_to_time_t c (valid_until it.2)) ++ numeric_to_chars I32 (zlen key) ++
    numeric_to_chars I32 (zlen cont) ++ key ++ cont ++ rest).
  { unfold d, item_text. fold key cont. rewrite !wrap_id by range_lia. by rewrite <- !app_assoc. }
  assert (F1 : zsub d (zlen pre) 8 = numeric_to_chars I64 (timestamp (val it.2))) by (rewrite Ed; zfield).
  assert (F2 : zsub d (zlen pre + 8) 8 = numeric_to_chars I64 (checksum (val it.2))) by (rewrite Ed; zfield).
  assert (F3 : zsub d (zlen pre + 16) 8 = numeric_to_chars I64 (steady_clock_to_time_t c (valid_until it.2))) by (rewrite Ed; zfield).
  assert (F4 : zsub d (zlen pre + 24) 4 = numeric_to_chars I32 (zlen key)) by (rewrite Ed; zfield).
  assert (F5 : zsub d (zlen pre + 28) 4 = numeric_to_chars I32 (zlen cont)) by (rewrite Ed; zfield).
  assert (F6 : zsub d (zlen pre + 32) (zlen key) = key) by (rewrite Ed; zfield).
  assert (F7 : zsub d (zlen pre + 32 + zlen key) (zlen cont) = cont) by (rewrite Ed; zfield).
  rewrite F1, F2, F3, F4, F5, !chars_to_numeric_to_chars by (done || range_lia).
  rewrite !(wrap_id U64) by range_lia. rewrite F6, F7.
  destruct (Z.ltb_spec (zlen d) (zlen pre + 32 + zlen key)); [lia|].
  unfold add_item, value_of. fold key cont. f_equal. rewrite length_app. unfold id. lia.
Qed.

Lemma cdb_loop_items ip c items pre fuel data :
  Forall (sent_ok c) items -> zlen (pre ++ mjoin (item_text c <$> items)) < 2 ^ 62 -> (length items < fuel)%nat ->
  cdb_loop inflate frm fuel ip (pre ++ mjoin (item_text c <$> items)) (zlen pre) data =
    Some (foldl (add_item ip c) data items).
Proof.
  revert pre fuel data; induction items as [|it items IH]; intros pre fuel data Hi Hl Hf;
    (destruct fuel as [|fuel]; [simpl in Hf; lia|]).
  - cbn [fmap list_fmap mjoin list_join] in *. rewrite app_nil_r in *. cbn [cdb_loop].
    destruct (Z.ltb_spec (zlen pre + 32) (zlen pre)); [lia|done].
  - apply Forall_cons in Hi as [Hi1 Hi]. rewrite (join_fmap_cons (item_text c)) in Hl |- *.
    rewrite cdb_loop_item by done. rewrite app_assoc in Hl |- *. apply IH; [done|done|simpl in Hf; lia].
Qed.

(** What one answer does to the entry of a key that it holds. *)
Definition merge_step (old : option cdb_entry) (h : answer * timed_val Item) : option cdb_entry :=
  let '(a, tv) := h in
  add_item (a_ip a) (a_clock a) (match old with Some e => {[ [] := e ]} | None => ∅ end) ([], tv) !! (@nil byte).

Lemma add_item_lookup a data it k :
  add_item (a_ip a) (a_clock a) data it !! k = if decide (it.1 = k) then merge_step (data !! k) (a, it.2) else data !! k.
Proof.
  unfold merge_step, add_item, add_entry. cbn [fst snd]. destruct (decide (it.1 = k)) as [->|Hne].
  - rewrite !lookup_insert_eq. destruct (data !! k); [by rewrite lookup_singleton_eq|by rewrite lookup_empty].
  - by rewrite lookup_insert_ne.
Qed.

Lemma add_items_lookup a items k : forall data, NoDup items.*1 ->
  foldl (add_item (a_ip a) (a_clock a)) data items !! k =
    match list_to_map (M := gmap bytes _) items !! k with Some tv => merge_step (data !! k) (a, tv) | None => data !! k end.
Proof.
  induction items as [|[k' tv] items IH]; intros data Hn; [done|]. cbn [fmap list_fmap] in Hn. apply NoDup_cons in Hn as [Hk Hn].
  cbn [foldl list_to_map foldr]. rewrite IH by done. rewrite add_item_lookup. cbn [fst snd].
  change (list_to_map ((k', tv) :: items)) with (<[k' := tv]> (list_to_map (M := gmap bytes _) items)).
  destruct (decide (k' = k)) as [->|Hne].
  - rewrite lookup_insert_eq. by rewrite (not_elem_of_list_to_map_1 items k).
  - by rewrite lookup_insert_ne.
Qed.

(** The answers that hold a key, in the order of the servers. *)
Definition holders (k : bytes) (answers : list answer) : list (answer * timed_val Item) :=
  answers ≫= fun a => match mp (a_store a) !! k with Some tv => [(a, tv)] | None => [] end.

(** The first newest item among the holders, and the servers from it on. *)
Definition newest_of (hs : list (answer * timed_val Item)) (e : cdb_entry) : Prop :=
  exists older a tv others, hs = older ++ (a, tv) :: others /\
    Forall (fun h => timestamp (val h.2) < timestamp (val tv)) older /\
    Forall (fun h => timestamp (val h.2) <= timestamp (val tv)) others /\
    e = CdbEntry (timestamp (val tv)) (checksum (val tv)) (steady_clock_to_time_t (a_clock a) (valid_until tv))
          (entry_data frm (value_of (val tv))) (a_ip a :: (a_ip ∘ fst <$> others)).

Lemma merge_step_newest hs e h : newest_of hs e -> exists e', merge_step (Some e) h = Some e' /\ newest_of (hs ++ [h]) e'.
Proof.
  intros (older & a & tv & others & -> & Ho & Hn & ->). destruct h as [b v]. unfold merge_step, add_item, add_entry.
  cbn [fst snd]. rewrite lookup_insert_eq, lookup_singleton_eq. cbn [e_tms].
  eexists. split; [reflexivity|]. destruct (Z.ltb_spec (timestamp (val tv)) (timestamp (val v))) as [Hlt|Hge].
  - exists (older ++ (a, tv) :: others), b, v, []. split; [done|]. split; [|by split].
    apply Forall_app. split; [eapply Forall_impl; [exact Ho|]; cbn; intros; lia|].
    apply Forall_cons. split; [done|]. eapply Forall_impl; [exact Hn|]. cbn; intros; lia.
  - exists older, a, tv, (others ++ [(b, v)]). split; [by rewrite <- app_assoc|]. split; [done|].
    split; [apply Forall_app; split; [done|by apply Forall_singleton]|]. cbn [e_tms e_crc32 e_valid_to e_data e_readed].
    by rewrite fmap_app.
Qed.

Lemma merge_first h : exists e, merge_step None h = Some e /\ newest_of [h] e.
Proof.
  destruct h as [b v]. unfold merge_step, add_item, add_entry. cbn [fst snd]. rewrite lookup_insert_eq, lookup_empty.
  eexists. split; [reflexivity|]. by exists [], b, v, [].
Qed.

Lemma merge_all hs : match foldl merge_step None hs with Some e => newest_of hs e | None => hs = [] end.
Proof.
  induction hs as [|h hs IH] using rev_ind; [done|]. rewrite foldl_app. cbn [foldl].
  destruct (foldl merge_step None hs) as [e|].
  - by destruct (merge_step_newest hs e h IH) as (e' & -> & He').
  - subst hs. by destruct (merge_first h) as (e & -> & He).
Qed.

Lemma holders_app k l1 l2 : holders k (l1 ++ l2) = holders k l1 ++ holders k l2.
Proof. apply bind_app. Qed.
End merge.

Section answers.
Context `{E : JEnv, L : !JEnvLaws E} (inflate : bytes -> option bytes) (frm : cdb_out_data_format).

(** A search without text lists every item. *)
Lemma search_everything c m :
  searchAll inflate c [] m = Some (numeric_to_chars I64 (steady_clock_to_time_t c (steady c)) ++
    mjoin (item_text c <$> visit (mp m))).
Proof.
  unfold searchAll. cbn [read_search].
  rewrite (search_items_filter inflate c c_search_init (fun _ => true)).
  2: { intros it _. unfold item_passes, key_passes, tms_passes, data_passes, c_search_init. cbn [s_keys s_tms s_data].
    rewrite (bool_decide_true ([] = [])) by done. cbn [orb]. by rewrite !bool_decide_true. }
  do 4 f_equal. generalize (visit (mp m)). intros l. induction l as [|x l IH]; [done|]. rewrite filter_cons_True by done. by f_equal.
Qed.

Definition answer_text (a : answer) : bytes :=
  numeric_to_chars I64 (steady_clock_to_time_t (a_clock a) (steady (a_clock a))) ++
    mjoin (item_text (a_clock a) <$> visit (mp (a_store a))).

(** An answer whose items can be sent. *)
Record answer_ok (fuel : nat) (a : answer) : Prop := {
  an_items : forall k tv, mp (a_store a) !! k = Some tv -> sent_ok (a_clock a) (k, tv);
  an_size : zlen (answer_text a) < 2 ^ 62;
  an_fuel : (size (mp (a_store a)) < fuel)%nat }.

Lemma answer_loop fuel a data : answer_ok fuel a ->
  exists data', (if 40 <? zlen (answer_text a) then cdb_loop inflate frm fuel (a_ip a) (answer_text a) 8 data else Some data) = Some data' /\
    forall k, data' !! k = match mp (a_store a) !! k with Some tv => merge_step inflate frm (data !! k) (a, tv) | None => data !! k end.
Proof.
  intros [Hi Hs Hf]. pose proof (visit_perm _ (mp (a_store a))) as Hp. set (items := visit (mp (a_store a))) in *.
  assert (Hok : Forall (sent_ok (a_clock a)) items).
  { rewrite Hp. apply Forall_forall. intros [k tv] Hin%elem_of_map_to_list. by apply Hi. }
  assert (Hnd : NoDup items.*1) by (rewrite Hp; apply NoDup_fst_map_to_list).
  assert (Hlen : (length items < fuel)%nat) by (rewrite Hp; by rewrite length_map_to_list).
  assert (Hlk : forall k, list_to_map (M := gmap bytes _) items !! k = mp (a_store a) !! k).
  { intros k. rewrite (list_to_map_proper items (map_to_list (mp (a_store a)))) by done. by rewrite list_to_map_to_list. }
  set (hd := numeric_to_chars I64 (steady_clock_to_time_t (a_clock a) (steady (a_clock a)))).
  assert (Hhd : zlen hd = 8) by (unfold hd; by rewrite length_numeric_to_chars).
  exists (foldl (add_item inflate frm (a_ip a) (a_clock a)) data items). split.
  - unfold answer_text in *. fold hd items in Hs |- *. destruct (Z.ltb_spec 40 (zlen (hd ++ mjoin (item_text (a_clock a) <$> items)))) as [Hlt|Hge].
    + rewrite <- Hhd. by apply cdb_loop_items.
    + destruct items as [|it items']; [done|]. apply Forall_cons in Hok as [Hit _]. exfalso.
      rewrite (join_fmap_cons (item_text (a_clock a))), !length_app in Hge. pose proof (length_item_text (a_clock a) it) as Hl.
      pose proof (sent_content _ _ Hit) as Hc. destruct (content (val it.2)); [done|]. cbn [length] in Hl. lia.
  - intros k. rewrite add_items_lookup by done. by rewrite Hlk.
Qed.

Lemma answers_loop fuel answers : forall data, Forall (answer_ok fuel) answers ->
  exists data', parse_cdb_all inflate frm fuel ((fun a => (a_ip a, answer_text a)) <$> answers) data = Some data' /\
    forall k, data' !! k = foldl (merge_step inflate frm) (data !! k) (holders k answers).
Proof.
  induction answers as [|a answers IH]; intros data Ha; [by exists data|]. apply Forall_cons in Ha as [Ha1 Ha].
  destruct (answer_loop fuel a data Ha1) as (data1 & E1 & H1). destruct (IH data1 Ha) as (data2 & E2 & H2).
  exists data2. split.
  - cbn [fmap list_fmap parse_cdb_all]. destruct (40 <? _).
    + rewrite E1. cbn [mbind option_bind]. exact E2.
    + injection E1 as <-. exact E2.
  - intros k. rewrite H2, H1. unfold holders at 2. cbn [mbind list_bind]. rewrite foldl_app. by destruct (mp (a_store a) !! k).
Qed.
End answers.

(** C40: what a client shows of the answers of several servers.  Each server answers a search
    without conditions with all its items; [parse_cdb_all] takes the answers apart and shows,
    for every key that some server holds, the newest of its items (of the first server that
    has it, at equal timestamps), and the addresses of the servers from that one on that hold
    the key. *)
Theorem cdb_answers_newest `{E : JEnv, L : !JEnvLaws E} (inflate : bytes -> option bytes) (frm : cdb_out_data_format)
    (answers : list answer) (fuel : nat) :
  Forall (answer_ok fuel) answers ->
  exists replies data,
    mapM (fun a => pair (a_ip a) <$> searchAll inflate (a_clock a) [] (a_store a)) answers = Some replies /\
    parse_cdb_all inflate frm fuel replies ∅ = Some data /\
    forall k, match data !! k with
      | Some e => newest_of inflate frm (holders k answers) e
      | None => forall a, a ∈ answers -> mp (a_store a) !! k = None
      end.
Proof.
  intros Ha. destruct (answers_loop inflate frm fuel answers ∅ Ha) as (data & Ed & Hd).
  exists ((fun a => (a_ip a, answer_text a)) <$> answers), data. split; [|split; [done|]].
  - clear. induction answers as [|a answers IH]; [done|]. cbn [mapM fmap list_fmap]. rewrite search_everything. cbn [mbind option_bind fmap option_fmap option_map].
    rewrite IH. done.
  - intros k. rewrite Hd, lookup_empty. pose proof (merge_all inflate frm (holders k answers)) as Hm.
    destruct (foldl _ None _); [done|]. intros a Hin. destruct (mp (a_store a) !! k) as [tv|] eqn:Ek; [|done].
    assert (Hx : (a, tv) ∈ holders k answers) by (apply list_elem_of_bind; exists a; split; [rewrite Ek; by left|done]).
    rewrite Hm in Hx. by apply not_elem_of_nil in Hx.
Qed.

#[local] Instance cdb_client_laws : JEnvLaws cdb_client_env.
Proof. by split. Qed.

(** Two servers; the second has a newer value of "k". *)
Definition ex_answer (ip tms : Z) (v : bytes) : answer :=
  Answer ip example_clock (MapTime.insert 0 (lit "k") (MkItem (ex_compress v) 9 tms) 100 MapTime.empty).
Definition ex_answers : list answer := [ex_answer 1 20 (lit "old"); ex_answer 2 30 (lit "new")].

Lemma ex_answer_ok ip tms v : in_range I64 tms -> zlen v < 100 -> answer_ok 5 (ex_answer ip tms v).
Proof.
  intros Ht Hv. assert (Hm : mp (a_store (ex_answer ip tms v)) = {[ lit "k" := TimedVal (MkItem (ex_compress v) 9 tms) (0 + 100 * nano) ]})
    by reflexivity. split.
  - rewrite Hm. intros k tv [<- <-]%lookup_singleton_Some. split; cbn [fst snd val content timestamp checksum]; try done.
    cbn [zlen ex_compress length]. change (max_val I32) with 2147483647. change (length (lit "k")) with 1%nat. lia.
  - unfold answer_text. rewrite Hm. cbn [visit cdb_client_env]. rewrite map_to_list_singleton.
    cbn [fmap list_fmap mjoin list_join]. rewrite !length_app. cbn [length].
    pose proof (length_item_text (a_clock (ex_answer ip tms v)) (lit "k", TimedVal (MkItem (ex_compress v) 9 tms) (0 + 100 * nano))) as Hl.
    cbn [fst snd val content ex_compress length] in Hl. change (length (lit "k")) with 1%nat in Hl.
    rewrite length_numeric_to_chars. change (sizeof I64) with 8%nat. lia.
  - rewrite Hm, map_size_singleton. lia.
Qed.

Lemma cdb_answers_newest_witness :
  exists replies data,
    mapM (fun a => pair (a_ip a) <$> searchAll ex_inflate (a_clock a) [] (a_store a)) ex_answers = Some replies /\
    parse_cdb_all ex_inflate fmt_data 5 replies ∅ = Some data /\
    forall k, match data !! k with
      | Some e => newest_of ex_inflate fmt_data (holders k ex_answers) e
      | None => forall a, a ∈ ex_answers -> mp (a_store a) !! k = None
      end.
Proof.
  apply (cdb_answers_newest ex_inflate fmt_data ex_answers 5). apply Forall_cons; split; [|apply Forall_singleton].
  - apply ex_answer_ok; [range_lia|done].
  - apply ex_answer_ok; [range_lia|done].
Defined.
