(* ===== verification/ClientWrites.v ===== *)
(** * Writing to several servers ([client::write_file] of [rssdisk/client/rssdisk_pool.cpp])

    A write goes to a number of servers.  The client picks them from those that are connected,
    in different network groups as far as it can, sends them the message, waits for the
    answers, and asks other servers for the answers that did not come, a few times.  After a
    write to the key-value store the servers that did not confirm it are told to erase the keys.
    What happens while the client waits, the callbacks that other threads run, is an argument:
    a list of events for every wait. *)

From S2P Require Import Prelude Bitbase BasefuncStd Compression DateTime Session DiskHelper WType MapTime CManager Crc32 JdbInterface JManager DiskServer DiskServerFacts TcpHandler Settings PoolClient CdbClient.
From Stdlib Require Import ZArith Lia Strings.Byte.
From stdpp Require Import base gmap strings numbers sorting list.
Open Scope Z_scope.

(** ** The servers of a client *)

Inductive rw_preference := any | specified_group.
#[export] Instance rw_preference_eq_dec : EqDecision rw_preference.
Proof. solve_decision. Defined.

(** A server of the client: what its settings say about it. *)
Record connection := Connection { cn_ip : bytes; cn_uip : Z; cn_group : Z; cn_any_rp : bool }.
#[export] Instance connection_eq_dec : EqDecision connection.
Proof. solve_decision. Defined.

(** What the client sees of the sockets and the timeouts at a moment. *)
Record view := View { v_socket : Z -> socket_status; v_timeout : Z -> timeout_detector; v_now : Z }.

Definition usable (v : view) (i : Z) : bool :=
  bool_decide (v_socket v i = connected) && negb (is_timeout_detected (v_now v) (v_timeout v i)).

Definition preferred (rw_pref : rw_preference) (groups : list Z) (c : connection) : bool :=
  (bool_decide (rw_pref = any) && cn_any_rp c) || bool_decide (cn_group c ∈ groups).

Definition allowed (only_ips : gset Z) (c : connection) : bool :=
  bool_decide (only_ips = ∅) || bool_decide (cn_uip c ∈ only_ips).

(** The vector [clients] with its indices. *)
Definition indexed {A} (l : list A) : list (Z * A) := imap (fun n c => (Z.of_nat n, c)) l.

(** ** Options and results *)

Inductive wait_answer := wait_default | wait_always | no_wait.

Record write_options := WriteOptions {
  wo_ttl : Z; count_server_to_write : Z; count_parts : Z; preffered_netwok_groups : list Z;
  rw_pref : rw_preference; w_answer : wait_answer; only_ips : gset Z }.

Record write_info := WriteInfo { wi_tms : Z; wi_crc32 : Z; writed_count : Z; count_attempts : Z; writed_ips : gset Z }.

Definition not_written (code : Z) : write_info := WriteInfo 0 0 code 0 ∅.

(** [get_count_servers] and [get_count_servers_connected]. *)
Definition get_count_servers (clients : list connection) (opt : write_options) : Z :=
  zlen (filter (fun c => preferred (rw_pref opt) (preffered_netwok_groups opt) c) clients).
Definition get_count_servers_connected (v : view) (clients : list connection) (opt : write_options) : Z :=
  zlen (filter (fun x => usable v x.1 && preferred (rw_pref opt) (preffered_netwok_groups opt) x.2) (indexed clients)).

(** Whether the client waits for answers or takes the sending as success. *)
Definition waits (w : w_type) (a : wait_answer) : bool :=
  match a with
  | no_wait => false
  | wait_always => true
  | wait_default => negb (bool_decide (w ∈ [WType.edb; WType.cdb; cdbm]))
  end.

(** ** The choice of servers *)

Definition subfolder_of (filename : bytes) : bytes :=
  match str_find (lit "/") filename with Some f => take f filename | None => [] end.

(** Until when a server is not used for a subfolder. *)
Abbreviation disabled_map := (gmap Z (gmap bytes date_time)).

Definition is_disabled (dis : disabled_map) (sub : bytes) (today : date__) (i : Z) : bool :=
  match dis !! i ≫= (.!! sub) with Some d => date_gt (date_ d) today | None => false end.

(** The connection belongs to the write. *)
Definition serves (v : view) (opt : write_options) (x : Z * connection) : bool :=
  usable v x.1 && preferred (rw_pref opt) (preffered_netwok_groups opt) x.2 && allowed (only_ips opt) x.2.

Definition may_write (v : view) (w : w_type) (opt : write_options) (sub : bytes) (today : date__) (dis : disabled_map) (x : Z * connection) : bool :=
  (bool_decide (w ∈ [WType.cdb; cdbm]) || negb (is_disabled dis sub today x.1)) && serves v opt x.

Definition add_to_pool (p : pool) (x : Z * connection) : pool :=
  <[cn_group x.2 := default [] (p !! cn_group x.2) ++ [x.1]]> p.

(** [servers_pool_indexex]. *)
Definition pool_of (l : list (Z * connection)) : pool := foldl add_to_pool ∅ l.

(** The servers in a pool. *)
Definition members (p : pool) : list Z := mjoin (map_to_list p).*2.

(** ** Sending *)

(** A message that was handed to [send_async] of a server. *)
Record request := MkRequest { rq_index : Z; rq_identy : Z; rq_message : bytes }.

Record wstate := WState {
  ws_pool : pool; ws_used : gset Z; ws_taken : list Z; ws_asked : list request; ws_awaiting : Z;
  ws_ok : Z; ws_groups : gset Z; ws_ips : gset Z; ws_disabled : disabled_map; ws_identy : Z }.

(** The world at a choice of a server: the random numbers, which sockets are connected, [time(0)]. *)
Record turn := Turn { t_group : nat -> nat; t_server : nat -> nat; t_connected : Z -> bool; t_time : Z }.

(** A callback: an answer of a server at a date, or the end of sending to it. *)
Inductive write_event :=
  | Answered (ind : Z) (message : bytes) (now : date_time)
  | Delivered (ind : Z) (sent_ok : bool).

Section write.
Context (compress : bytes -> bytes) (clients : list connection) (w : w_type) (filename content : bytes).
Context (opt : write_options) (wait : bool) (tms crc : Z).

Definition take_server (ind : Z) (p : pool) (used : gset Z) (s : wstate) : wstate :=
  WState p used (ws_taken s ++ [ind]) (ws_asked s) (ws_awaiting s) (ws_ok s) (ws_groups s) (ws_ips s) (ws_disabled s) (ws_identy s).

Definition ask (ind time : Z) (s : wstate) : wstate :=
  let identy := next_identy (ws_identy s) in
  let to_write := write_message compress time w wait identy filename content (wo_ttl opt) tms crc in
  WState (ws_pool s) (ws_used s) (ws_taken s) (ws_asked s ++ [MkRequest ind identy to_write]) (ws_awaiting s + 1)
    (ws_ok s) (ws_groups s) (ws_ips s) (ws_disabled s) identy.

(** The lambda [f_send]; [turns] is indexed by the number of servers taken before. *)
Fixpoint f_send (turns : nat -> turn) (fuel : nat) (need_to_send : Z) (groups : list Z) (s : wstate) : option wstate :=
  match fuel with
  | O => None
  | S fuel' =>
      if 0 <? need_to_send then
        let '(preffered_network, groups) := match groups with [] => (-1, []) | g :: l => (g, l) end in
        let t := turns (length (ws_taken s)) in
        match pop_index_rand (t_group t) (t_server t) (ws_pool s) (ws_used s) preffered_network with
        | None => Some s
        | Some (ind, p, used) =>
            let s := take_server ind p used s in
            if t_connected t ind then f_send turns fuel' (need_to_send - 1) groups (ask ind (t_time t) s)
            else f_send turns fuel' need_to_send groups s
        end
      else Some s
  end.

(** ** Answers *)

Definition answered (s : wstate) : wstate :=
  WState (ws_pool s) (ws_used s) (ws_taken s) (ws_asked s) (ws_awaiting s - 1) (ws_ok s) (ws_groups s) (ws_ips s) (ws_disabled s) (ws_identy s).

Definition confirm (c : connection) (s : wstate) : wstate :=
  WState (ws_pool s) (ws_used s) (ws_taken s) (ws_asked s) (ws_awaiting s) (ws_ok s + 1) ({[cn_group c]} ∪ ws_groups s) ({[cn_uip c]} ∪ ws_ips s)
    (ws_disabled s) (ws_identy s).

Definition disable (ind : Z) (until : date_time) (s : wstate) : wstate :=
  WState (ws_pool s) (ws_used s) (ws_taken s) (ws_asked s) (ws_awaiting s) (ws_ok s) (ws_groups s) (ws_ips s)
    (<[ind := <[subfolder_of filename := until]> (default ∅ (ws_disabled s !! ind))]> (ws_disabled s)) (ws_identy s).

(** The callbacks of a request; a server that was not asked has none. *)
Definition on_write_event (s : wstate) (e : write_event) : wstate :=
  let asked ind := list_find (fun r => rq_index r = ind) (ws_asked s) in
  match e with
  | Answered ind message now =>
      if negb wait then s
      else match asked ind, clients !! Z.to_nat ind with
           | Some (_, r), Some c =>
               match write_reply (rq_identy r) message with
               | Written => answered (confirm c s)
               | NoRoom => answered (disable ind (add_days 1 now) s)
               | LongName | Failed => answered s
               | NotMine | TooShort => s
               end
           | _, _ => s
           end
  | Delivered ind sent_ok =>
      if wait then s
      else match asked ind, clients !! Z.to_nat ind with
           | Some _, Some c => if sent_ok then answered (confirm c s) else s
           | _, _ => s
           end
  end.

Definition start_wait (s : wstate) : wstate :=
  WState (ws_pool s) (ws_used s) (ws_taken s) (ws_asked s) 0 (ws_ok s) (ws_groups s) (ws_ips s) (ws_disabled s) (ws_identy s).

(** The loop over the parts; [events i] run before the wait of part [i] ends. *)
Fixpoint write_parts (turns : nat -> turn) (events : nat -> list write_event) (n i : nat) (loop_send : Z) (s : wstate) : option wstate :=
  match n with
  | O => Some s
  | S n' =>
      if bool_decide (ws_pool s = ∅) then Some s
      else
        let groups := match i with
                      | O => preffered_netwok_groups opt
                      | _ => filter (fun g => g ∉ ws_groups s) (preffered_netwok_groups opt)
                      end in
        s ← f_send turns (S (length (members (ws_pool s)))) loop_send groups (start_wait s);
        let s := foldl on_write_event s (events i) in
        if count_server_to_write opt <=? ws_ok s then Some s
        else write_parts turns events n' (S i) (count_server_to_write opt - ws_ok s) s
  end.

(** ** Telling the other servers to forget the keys *)

Definition remover (time identy : Z) : option bytes :=
  match w with
  | WType.cdb => Some (lit "33" ++ to_string identy ++ prepare_cdb compress time filename [] 1)
  | cdbm => cutted ← cut_records (S (length content)) content 0 []; Some (lit "33" ++ to_string identy ++ cutted)
  | _ => None
  end.

Fixpoint send_removers (v : view) (time : Z) (ips_ok : gset Z) (identy : Z) (l : list (Z * connection)) : option (list request) :=
  match l with
  | [] => Some []
  | (i, c) :: l' =>
      if bool_decide (cn_uip c ∈ ips_ok) then send_removers v time ips_ok identy l'
      else if serves v opt (i, c) then
        let identy := next_identy identy in
        m ← remover time identy;
        rest ← send_removers v time ips_ok identy l';
        Some (MkRequest i identy m :: rest)
      else send_removers v time ips_ok identy l'
  end.
End write.

(** ** [write_file] *)

(** The result, the requests for the write, the requests that erase, and the servers disabled. *)
Record written_file := WrittenFile { wf_info : write_info; wf_asked : list request; wf_removers : list request; wf_disabled : disabled_map }.

(** The servers that a write may go to. *)
Definition write_servers (clients : list connection) (v : view) (w : w_type) (opt : write_options) (filename : bytes) (today : date__)
    (dis : disabled_map) : list (Z * connection) :=
  filter (fun x => may_write v w opt (subfolder_of filename) today dis x) (indexed clients).

(** [v0] and [v1]: the client's view at the beginning and at the end; [today] the date, [time0]
    and [time1] the values of [time(0)], [identy0] the last identity given out. *)
Definition write_file (compress : bytes -> bytes) (clients : list connection) (w : w_type) (filename content_ : bytes) (opt : write_options)
    (v0 v1 : view) (today : date__) (time0 time1 identy0 : Z) (turns : nat -> turn) (events : nat -> list write_event) (dis : disabled_map) :
    option written_file :=
  let l := write_servers clients v0 w opt filename today dis in
  if zlen l <? count_server_to_write opt then Some (WrittenFile (not_written (-1)) [] [] dis)
  else match write_content compress w content_ with
       | None => Some (WrittenFile (not_written (-2)) [] [] dis)
       | Some content =>
           let crc := get_hash content_ in
           let wait := waits w (w_answer opt) in
           s ← write_parts compress clients w filename content opt wait time0 crc turns events (Z.to_nat (count_parts opt)) 0
                 (count_server_to_write opt) (WState (pool_of l) ∅ [] [] 0 0 ∅ ∅ dis identy0);
           removers ← (if bool_decide (w ∈ [WType.cdb; cdbm])
                       then send_removers compress w filename content opt v1 time1 (ws_ips s) (ws_identy s) (indexed clients) else Some []);
           Some (WrittenFile (WriteInfo time0 crc (ws_ok s) (zlen (ws_asked s)) (ws_ips s)) (ws_asked s) removers (ws_disabled s))
       end.

(** ** The pool of servers *)

Definition pool_wf (p : pool) : Prop := map_Forall (fun _ v => v <> []) p.

(** The random numbers of a turn are in range. *)
Definition turn_ok (t : turn) : Prop := forall n, (0 < n)%nat -> (t_group t n < n)%nat /\ (t_server t n < n)%nat.

Lemma members_delete (p : pool) g v : p !! g = Some v -> members p ≡ₚ v ++ members (delete g p).
Proof. intros H. unfold members. rewrite <- (map_to_list_delete p g v H) at 1. done. Qed.

Lemma members_insert (p : pool) g v : p !! g = None -> members (<[g := v]> p) ≡ₚ v ++ members p.
Proof. intros H. unfold members. by rewrite map_to_list_insert. Qed.

Lemma members_empty (p : pool) : pool_wf p -> members p = [] -> p = ∅.
Proof.
  intros Hw Hm. apply map_eq. intros g. rewrite lookup_empty. destruct (p !! g) as [v|] eqn:E; [|done].
  pose proof (members_delete _ _ _ E) as H. rewrite Hm in H. apply Permutation_nil in H. apply app_nil in H as [-> _]. by destruct (Hw g [] E).
Qed.

Lemma pop_from_spec rs g (p p' : pool) i : pool_wf p -> pop_from rs g p = Some (i, p') ->
  members p ≡ₚ i :: members p' /\ pool_wf p' /\ exists v, p !! g = Some v /\ i ∈ v.
Proof.
  unfold pop_from. intros Hw H. destruct (p !! g) as [[|x l]|] eqn:E; [done| |done]. set (v := x :: l) in *.
  apply bind_Some in H as (ret & Hr & H). set (v' := take (rs (length v)) v ++ drop (S (rs (length v))) v) in H.
  assert (Hv : v ≡ₚ ret :: v').
  { unfold v'. rewrite <- (take_drop_middle v _ _ Hr) at 1. by rewrite Permutation_middle. }
  assert (Hi : ret ∈ v) by (rewrite Hv; left). pose proof (members_delete _ _ _ E) as Hd.
  clearbody v'. destruct v' as [|y u]; injection H as <- <-.
  - split; [by rewrite Hd, Hv|]. split; [by apply map_Forall_delete|]. by exists v.
  - split; [|split; [by apply map_Forall_insert_2|by exists v]].
    rewrite Hd, Hv. rewrite <- (insert_delete_eq p g (y :: u)), members_insert by apply lookup_delete_eq. done.
Qed.

Lemma pop_from_total rs g (p : pool) v : pool_wf p -> (forall n, (0 < n)%nat -> (rs n < n)%nat) -> p !! g = Some v -> is_Some (pop_from rs g p).
Proof.
  intros Hw Hr E. unfold pop_from. rewrite E. pose proof (Hw _ _ E) as Hv. destruct v as [|x l]; [done|]. set (v := x :: l).
  destruct (lookup_lt_is_Some_2 v (rs (length v))) as [y Hy]; [apply Hr; cbn; lia|]. rewrite Hy. by eexists.
Qed.

Lemma pop_spec rg rs (p p' : pool) used used' pref i : pool_wf p -> pop_index_rand rg rs p used pref = Some (i, p', used') ->
  members p ≡ₚ i :: members p' /\ pool_wf p'.
Proof.
  intros Hw. unfold pop_index_rand. case_bool_decide; [done|]. case_bool_decide.
  - intros H'. apply bind_Some in H' as ([r q] & Hp & H'). injection H' as <- <- <-. by apply pop_from_spec in Hp as (? & ? & _).
  - intros H'. apply bind_Some in H' as (g & _ & H'). apply bind_Some in H' as ([r q] & Hp & H'). injection H' as <- <- <-.
    by apply pop_from_spec in Hp as (? & ? & _).
Qed.

(** The groups that [pop_index_rand] chooses from. *)
Definition choices (p : pool) (used : gset Z) : list Z :=
  let groups := merge_sort (fun a b : Z => a <= b) (map_to_list p).*1 in
  match filter (fun g => g ∉ used) groups with [] => groups | l => l end.

Lemma elem_of_groups (p : pool) g : g ∈ merge_sort (fun a b : Z => a <= b) (map_to_list p).*1 <-> is_Some (p !! g).
Proof.
  rewrite merge_sort_Permutation. rewrite list_elem_of_fmap. split.
  - intros ([g' v] & -> & H%elem_of_map_to_list). by exists v.
  - intros [v H]. exists (g, v). split; [done|]. by apply elem_of_map_to_list.
Qed.

Lemma elem_of_choices (p : pool) used g : g ∈ choices p used -> is_Some (p !! g) /\ (g ∈ used -> forall g', is_Some (p !! g') -> g' ∈ used).
Proof.
  unfold choices. set (groups := merge_sort _ _). assert (Hg : forall g, g ∈ groups <-> is_Some (p !! g)) by apply elem_of_groups.
  destruct (filter _ groups) as [|x l] eqn:E.
  - intros H. split; [by apply Hg|]. intros _ g' Hg'%Hg. destruct (decide (g' ∈ used)) as [|Hn]; [done|].
    assert (Hin : g' ∈ filter (fun g => g ∉ used) groups) by by apply list_elem_of_filter. rewrite E in Hin. set_solver.
  - rewrite <- E. intros [Hn Hi]%list_elem_of_filter. split; [by apply Hg|done].
Qed.

Lemma choices_nonempty (p : pool) used : p <> ∅ -> choices p used <> [].
Proof.
  intros Hp. apply map_choose in Hp as (g & v & E). unfold choices.
  assert (Hg : g ∈ merge_sort (fun a b : Z => a <= b) (map_to_list p).*1) by (apply elem_of_groups; by exists v).
  destruct (filter _ _); [|done]. intros Hn. rewrite Hn in Hg. set_solver.
Qed.

Lemma pop_none t (p : pool) used pref : turn_ok t -> pool_wf p -> pop_index_rand (t_group t) (t_server t) p used pref = None -> p = ∅.
Proof.
  intros Ht Hw. unfold pop_index_rand. case_bool_decide as Hp; [done|]. case_bool_decide as Hpref.
  - destruct Hpref as [v Hv]. destruct (pop_from_total (t_server t) pref p v Hw) as [[i q] ->]; [intros n Hn; by apply Ht|done|done].
  - fold (choices p used). pose proof (choices_nonempty p used Hp) as Hc.
    destruct (lookup_lt_is_Some_2 (choices p used) (t_group t (length (choices p used)))) as [g Hg].
    { apply Ht. destruct (choices p used); [done|cbn; lia]. }
    rewrite Hg. cbn [mbind option_bind]. apply list_elem_of_lookup_2, elem_of_choices in Hg as [[v Hv] _].
    destruct (pop_from_total (t_server t) g p v Hw) as [[i q] ->]; [intros n Hn; by apply Ht|done|done].
Qed.

(** Without a preferred group a server comes from a group that was not used before, if there is one. *)
Lemma pop_spreads t (p p' : pool) used used' pref i : pool_wf p -> p !! pref = None ->
  pop_index_rand (t_group t) (t_server t) p used pref = Some (i, p', used') ->
  exists g v, p !! g = Some v /\ i ∈ v /\ used' = used ∪ {[g]} /\ (g ∈ used -> forall g', is_Some (p !! g') -> g' ∈ used) /\
    (forall g', g' <> g -> p' !! g' = p !! g') /\ (forall v', p' !! g = Some v' -> v' ⊆ v).
Proof.
  intros Hw Hpref. unfold pop_index_rand. case_bool_decide; [done|]. rewrite Hpref, bool_decide_false by (by intros []).
  fold (choices p used). intros H'. apply bind_Some in H' as (g & Hg & H'). apply bind_Some in H' as ([r q] & Hp & H'). injection H' as <- <- <-.
  apply list_elem_of_lookup_2, elem_of_choices in Hg as [[v Hv] Hu]. pose proof (pop_from_spec _ _ _ _ _ Hw Hp) as (_ & _ & v' & Hv' & Hi).
  exists g, v. rewrite Hv in Hv'. injection Hv' as <-. do 4 (split; [done|]). unfold pop_from in Hp. rewrite Hv in Hp.
  destruct v as [|x l]; [done|]. apply bind_Some in Hp as (ret & _ & Hp). injection Hp as <- <-. split.
  - intros g' Hne. case_match; [by rewrite lookup_delete_ne|by rewrite lookup_insert_ne].
  - intros v'. case_match eqn:Ev; [by rewrite lookup_delete_eq|]. rewrite lookup_insert_eq, <- Ev. intros [= <-] y.
    rewrite elem_of_app. intros [Hy%subseteq_take|Hy%subseteq_drop]; [done|by right].
Qed.

Lemma pool_of_spec l : members (pool_of l) ≡ₚ l.*1 /\ pool_wf (pool_of l).
Proof.
  unfold pool_of. assert (H : forall l (p : pool), pool_wf p -> members (foldl add_to_pool p l) ≡ₚ members p ++ l.*1 /\ pool_wf (foldl add_to_pool p l)).
  { clear l. induction l as [|[i c] l IH]; intros p Hw; cbn [foldl fmap list_fmap fst]; [by rewrite app_nil_r|].
    assert (Hw' : pool_wf (add_to_pool p (i, c))) by (apply map_Forall_insert_2; [by destruct (default [] _)|done]).
    destruct (IH _ Hw') as [IH1 IH2]. split; [|done]. rewrite IH1. change (i :: l.*1) with ([i] ++ l.*1). rewrite (assoc (++)). apply Permutation_app; [|done].
    unfold add_to_pool. cbn [fst snd]. destruct (p !! cn_group c) as [v|] eqn:E; cbn [default from_option]; unfold id.
    - rewrite <- insert_delete_eq, members_insert by apply lookup_delete_eq. rewrite (members_delete p _ _ E). solve_Permutation.
    - rewrite members_insert by done. solve_Permutation. }
  destruct (H l ∅) as [H1 H2]; [by apply map_Forall_empty|]. split; [|done]. by rewrite H1.
Qed.

(** ** The run of a write *)

Section run.
Context (compress : bytes -> bytes) (clients : list connection) (w : w_type) (filename content : bytes).
Context (opt : write_options) (wait : bool) (tms crc : Z).
Context (turns : nat -> turn) (events : nat -> list write_event) (L : list Z).
Hypothesis turns_ok : forall n, turn_ok (turns n).

Abbreviation send := (f_send compress w filename content opt wait tms crc turns).
Abbreviation on_ev := (on_write_event clients filename wait).
Abbreviation parts := (write_parts compress clients w filename content opt wait tms crc turns events).

(** [L] are the servers of the write: each is in the pool or was taken from it; those taken were
    asked or not connected any more; what counts as written was asked for. *)
Record winv (s : wstate) : Prop := {
  wv_split : members (ws_pool s) ++ ws_taken s ≡ₚ L;
  wv_wf : pool_wf (ws_pool s);
  wv_asked : (rq_index <$> ws_asked s) `sublist_of` ws_taken s;
  wv_skipped : forall i, i ∈ ws_taken s -> i ∈ rq_index <$> ws_asked s \/ exists n, t_connected (turns n) i = false;
  wv_ips : forall ip, ip ∈ ws_ips s -> exists r c, r ∈ ws_asked s /\ clients !! Z.to_nat (rq_index r) = Some c /\ cn_uip c = ip;
  wv_count : Z.of_nat (size (ws_ips s)) <= ws_ok s;
  wv_identy : five_digits (ws_identy s) }.

(** The requests of a run of [f_send], in the terms of the code. *)
Definition made (r : request) : Prop := five_digits (rq_identy r) /\
  exists time, rq_message r = write_message compress time w wait (rq_identy r) filename content (wo_ttl opt) tms crc.

(** From [s] to [s'] the requests [new] were sent and nothing was answered. *)
Record sends (s s' : wstate) (new : list request) : Prop := {
  sd_asked : ws_asked s' = ws_asked s ++ new;
  sd_made : Forall made new;
  sd_ok : ws_ok s' = ws_ok s;
  sd_ips : ws_ips s' = ws_ips s;
  sd_disabled : ws_disabled s' = ws_disabled s;
  sd_taken : ws_taken s `prefix_of` ws_taken s' }.

Lemma take_server_winv s ind p used n : winv s -> members (ws_pool s) ≡ₚ ind :: members p -> pool_wf p -> t_connected (turns n) ind = false ->
  winv (take_server ind p used s).
Proof.
  intros [H1 H2 H3 H3' H4 H5 H6] Hm Hp Hn. split; cbn; try done.
  - rewrite <- H1, Hm. solve_Permutation.
  - by apply sublist_inserts_r.
  - intros i [Hi| ->%list_elem_of_singleton]%elem_of_app; [auto|right; by exists n].
Qed.

Lemma ask_winv s ind p used time : winv s -> members (ws_pool s) ≡ₚ ind :: members p -> pool_wf p ->
  winv (ask compress w filename content opt wait tms crc ind time (take_server ind p used s)).
Proof.
  intros [H1 H2 H3 H3' H4 H5 H6] Hm Hp. split; cbn; try done.
  - rewrite <- H1, Hm. solve_Permutation.
  - rewrite fmap_app. by apply sublist_app.
  - intros i. rewrite fmap_app, !elem_of_app. intros [Hi|Hi]; [destruct (H3' i Hi); auto|]. cbn. auto.
  - intros ip Hip. destruct (H4 ip Hip) as (r & c & Hr & Hc). exists r, c. split; [set_solver|done].
  - by apply next_identy_digits.
Qed.

(** [f_send] ends: it sends as many requests as are needed, or all servers were taken. *)
Lemma f_send_spec fuel : forall need groups s, winv s -> (length (members (ws_pool s)) < fuel)%nat ->
  exists s' new, send fuel need groups s = Some s' /\ winv s' /\ sends s s' new /\ zlen new <= Z.max 0 need /\
    (zlen new = Z.max 0 need \/ ws_pool s' = ∅) /\ (0 < need -> ws_pool s <> ∅ -> (length (ws_taken s) < length (ws_taken s'))%nat).
Proof using turns_ok.
  induction fuel as [|fuel IH]; intros need groups s Hs Hf; [lia|]. cbn [f_send].
  destruct (Z.ltb_spec 0 need) as [Hn|Hn]; [|exists s, []; split_and!; try done; [split; by rewrite ?app_nil_r|cbn; lia|left; cbn; lia|lia]].
  set (g := match groups with [] => (-1, []) | g :: l => (g, l) end). destruct g as [pref groups']. set (t := turns _).
  destruct (pop_index_rand (t_group t) (t_server t) (ws_pool s) (ws_used s) pref) as [[[ind p] used]|] eqn:E.
  - destruct (pop_spec _ _ _ _ _ _ _ _ (wv_wf _ Hs) E) as [Hm Hw]. pose proof (Permutation_length Hm) as Hl. cbn [length] in Hl.
    destruct (t_connected t ind) eqn:Et.
    + destruct (IH (need - 1) groups' _ (ask_winv s ind p used (t_time t) Hs Hm Hw)) as (s' & new & -> & Hs' & [D1 D2 D3 D4 D5 D6] & Hle & Hex & _); [cbn; lia|].
      cbn [ask take_server ws_asked ws_ok ws_ips ws_disabled ws_taken] in *. eexists s', (_ :: new). split; [done|]. split; [done|]. split; [split|split; [|split]].
      * rewrite D1, <- app_assoc. done.
      * constructor; [|done]. split; [apply next_identy_digits, Hs|by exists (t_time t)].
      * done.
      * done.
      * done.
      * by eapply prefix_app_l.
      * cbn [length]. lia.
      * destruct Hex as [Hex|Hex]; [left; cbn [length]; lia|by right].
      * intros _ _. apply prefix_length in D6. rewrite length_app in D6. cbn in D6. lia.
    + destruct (IH need groups' _ (take_server_winv s ind p used _ Hs Hm Hw Et)) as (s' & new & -> & Hs' & [D1 D2 D3 D4 D5 D6] & Hle & Hex & _); [cbn; lia|].
      cbn [take_server ws_asked ws_ok ws_ips ws_disabled ws_taken] in *. exists s', new. split_and!; try done; [split; try done; by eapply prefix_app_l|].
      intros _ _. apply prefix_length in D6. rewrite length_app in D6. cbn in D6. lia.
  - apply pop_none in E; [|apply turns_ok|apply Hs]. exists s, []. split_and!; try done; [split; by rewrite ?app_nil_r|cbn; lia|by right].
Qed.

(** Servers of different groups are asked as long as there are unused groups. *)
Lemma f_send_spreads (group_of : Z -> Z) fuel : forall need s,
  (forall n i, t_connected (turns n) i = true) -> pool_wf (ws_pool s) -> ws_pool s !! (-1) = None ->
  (forall g v, ws_pool s !! g = Some v -> Forall (fun i => group_of i = g) v) ->
  need <= Z.of_nat (size (dom (ws_pool s) ∖ ws_used s)) -> (length (members (ws_pool s)) < fuel)%nat ->
  exists s' new, send fuel need [] s = Some s' /\ ws_asked s' = ws_asked s ++ new /\ zlen new = Z.max 0 need /\
    NoDup (group_of ∘ rq_index <$> new) /\ Forall (fun r => group_of (rq_index r) ∉ ws_used s) new.
Proof using turns_ok.
  clear events.
  induction fuel as [|fuel IH]; intros need s Hcon Hw H1 Hg Hn Hf; [lia|]. cbn [f_send].
  destruct (Z.ltb_spec 0 need) as [Hpos|Hpos]; [|exists s, []; rewrite app_nil_r; split_and!; try done; [cbn; lia|constructor]].
  set (t := turns _). assert (Hne : ws_pool s <> ∅) by (intros E; rewrite E, dom_empty_L in Hn; replace (∅ ∖ ws_used s) with (∅ : gset Z) in Hn by set_solver; rewrite size_empty in Hn; lia).
  destruct (pop_index_rand (t_group t) (t_server t) (ws_pool s) (ws_used s) (-1)) as [[[ind p] used]|] eqn:E.
  2: { apply pop_none in E; [done|apply turns_ok|done]. }
  destruct (pop_spec _ _ _ _ _ _ _ _ Hw E) as [Hm Hw']. pose proof (Permutation_length Hm) as Hl. cbn [length] in Hl.
  destruct (pop_spreads _ _ _ _ _ _ _ Hw H1 E) as (g & v & Hv & Hi & -> & Hu & Hsame & Hsub).
  assert (Hfresh : g ∉ ws_used s).
  { intros Hin. specialize (Hu Hin). replace (dom (ws_pool s) ∖ ws_used s) with (∅ : gset Z) in Hn; [rewrite size_empty in Hn; lia|].
    apply set_eq. intros g'. rewrite elem_of_difference, elem_of_dom. set_solver. }
  pose proof (Hg _ _ Hv) as Hgv. rewrite Forall_forall in Hgv. pose proof (Hgv _ Hi) as Eg.
  replace (t_connected t ind) with true by (symmetry; apply Hcon).
  edestruct (IH (need - 1) (ask compress w filename content opt wait tms crc ind (t_time t) (take_server ind p (ws_used s ∪ {[g]}) s))) as (s' & new & E' & Ha & Hl' & Hd & Hfr);
    cbn [ask take_server ws_pool ws_used ws_asked] in *; try done.
  - rewrite Hsame; [done|]. intros <-. congruence.
  - intros g' v' Hv'. destruct (decide (g' = g)) as [->|Hne']; [|apply (Hg g'); by rewrite <- Hsame].
    apply Forall_forall. intros i Hin. apply Hgv. by apply (Hsub v').
  - assert (Hd : dom (ws_pool s) ∖ ws_used s = {[g]} ∪ (dom (ws_pool s) ∖ (ws_used s ∪ {[g]}))).
    { apply set_eq. intros g'. destruct (decide (g' = g)) as [->|]; [|set_solver]. rewrite elem_of_difference, elem_of_dom, Hv. set_solver. }
    rewrite Hd, size_union, size_singleton in Hn by set_solver.
    assert (Hdom : dom p ∖ (ws_used s ∪ {[g]}) = dom (ws_pool s) ∖ (ws_used s ∪ {[g]})).
    { apply set_eq. intros g'. rewrite !elem_of_difference, !elem_of_dom. destruct (decide (g' = g)) as [->|Hne']; [set_solver|]. by rewrite Hsame. }
    rewrite Hdom. lia.
  - lia.
  - rewrite E'. eexists s', (_ :: new). split; [done|]. split; [by rewrite Ha, <- app_assoc|]. cbn [length]. split; [lia|]. cbn [fmap list_fmap compose rq_index]. split.
    + constructor; [|done]. rewrite Eg. intros (r & Er & Hr)%list_elem_of_fmap. rewrite Forall_forall in Hfr. specialize (Hfr r Hr). cbn in Er. rewrite <- Er in Hfr. set_solver.
    + constructor; [cbn; congruence|]. eapply Forall_impl; [exact Hfr|]. intros r Hr. set_solver.
Qed.

(** Callbacks leave the choice of servers alone. *)
Lemma on_event_keeps s e : let s' := on_ev s e in
  ws_pool s' = ws_pool s /\ ws_taken s' = ws_taken s /\ ws_asked s' = ws_asked s /\ ws_ok s <= ws_ok s' /\ (winv s -> winv s').
Proof using.
  clear events turns_ok.
  cbv zeta. destruct e as [ind message now|ind sent_ok]; unfold on_write_event.
  - destruct (negb wait); [done|]. destruct (list_find _ (ws_asked s)) as [[n r]|] eqn:E; [|done]. destruct (clients !! Z.to_nat ind) as [c|] eqn:Ec; [|done].
    apply list_find_Some in E as (Hr & <- & _). destruct (write_reply _ _); cbn; split_and!; try done; try lia; intros [H1 H2 H3 H3' H4 H5 H6]; split; cbn; try done.
    + intros ip [->%elem_of_singleton|Hip]%elem_of_union; [|by apply H4]. exists r, c. split; [by eapply list_elem_of_lookup_2|done].
    + rewrite size_union_alt. pose proof (subseteq_size (ws_ips s ∖ {[cn_uip c]}) (ws_ips s) ltac:(set_solver)). rewrite size_singleton. lia.
  - destruct wait; [done|]. destruct (list_find _ (ws_asked s)) as [[n r]|] eqn:E; [|done]. destruct (clients !! Z.to_nat ind) as [c|] eqn:Ec; [|done].
    apply list_find_Some in E as (Hr & <- & _). destruct sent_ok; [|done]. cbn; split_and!; try done; try lia. intros [H1 H2 H3 H3' H4 H5 H6]; split; cbn; try done.
    + intros ip [->%elem_of_singleton|Hip]%elem_of_union; [|by apply H4]. exists r, c. split; [by eapply list_elem_of_lookup_2|done].
    + rewrite size_union_alt. pose proof (subseteq_size (ws_ips s ∖ {[cn_uip c]}) (ws_ips s) ltac:(set_solver)). rewrite size_singleton. lia.
Qed.

Lemma on_events_keep es s : let s' := foldl on_ev s es in
  ws_pool s' = ws_pool s /\ ws_taken s' = ws_taken s /\ ws_asked s' = ws_asked s /\ ws_ok s <= ws_ok s' /\ (winv s -> winv s').
Proof using.
  clear events turns_ok.
  revert s. induction es as [|e es IH]; intros s; cbn [foldl]; [done|].
  destruct (on_event_keeps s e) as (A1 & A2 & A3 & A4 & A5), (IH (on_ev s e)) as (B1 & B2 & B3 & B4 & B5). split_and!; try congruence; [lia|auto].
Qed.

(** The parts end with enough confirmations, or after taking every server, or after all parts,
    each of which took a server. *)
Lemma write_parts_spec n : forall i loop_send s, winv s -> loop_send = count_server_to_write opt - ws_ok s ->
  exists s' new, parts n i loop_send s = Some s' /\ winv s' /\ ws_asked s' = ws_asked s ++ new /\ Forall made new /\ ws_ok s <= ws_ok s' /\
    (count_server_to_write opt <= ws_ok s' \/ ws_pool s' = ∅ \/ (length (ws_taken s) + n <= length (ws_taken s'))%nat).
Proof.
  induction n as [|n IH]; intros i loop_send s Hs Hl; cbn [write_parts].
  - exists s, []. rewrite app_nil_r. split_and!; try done. right. right. lia.
  - case_bool_decide as Hp; [exists s, []; rewrite app_nil_r; split_and!; try done; by right; left|].
    set (groups := match i with O => _ | _ => _ end).
    destruct (f_send_spec (S (length (members (ws_pool s)))) loop_send groups (start_wait s)) as (s1 & new & E1 & Hs1 & [D1 D2 D3 D4 D5 D6] & Hle & _ & Htk).
    { destruct Hs. by split. }
    { cbn. lia. }
    rewrite E1. cbn [mbind option_bind]. destruct (on_events_keep (events i) s1) as (K1 & K2 & K3 & K4 & K5). cbv zeta in *.
    set (s2 := foldl on_ev s1 (events i)) in *. cbn [start_wait ws_asked ws_ok ws_taken ws_pool] in *.
    destruct (Z.leb_spec (count_server_to_write opt) (ws_ok s2)) as [Hc|Hc].
    + exists s2, new. split_and!; try done; [auto|congruence|lia|by left].
    + destruct (IH (S i) (count_server_to_write opt - ws_ok s2) s2) as (s' & new' & -> & Hs' & Ha & Hm & Ho & Hex); [auto|done|].
      exists s', (new ++ new'). split_and!; try done; [by rewrite Ha, K3, D1, app_assoc|by apply Forall_app|lia|].
      destruct Hex as [Hex|[Hex|Hex]]; [by left|by right; left|]. right. right. rewrite K2 in Hex. specialize (Htk ltac:(lia) Hp). lia.
Qed.

(** *** The count is the number of servers, when each answers once *)

Definition event_index (e : write_event) : Z := match e with Answered ind _ _ | Delivered ind _ => ind end.

Definition counted (seen : list Z) (s : wstate) : Prop :=
  ws_ok s = Z.of_nat (size (ws_ips s)) /\
  forall ip, ip ∈ ws_ips s -> exists i c, i ∈ seen /\ 0 <= i /\ clients !! Z.to_nat i = Some c /\ cn_uip c = ip.

Lemma confirm_counted seen s ind c : NoDup (cn_uip <$> clients) -> 0 <= ind -> ind ∉ seen -> clients !! Z.to_nat ind = Some c ->
  counted seen s -> counted (ind :: seen) (answered (confirm c s)).
Proof.
  intros Hu Hi Hn Hc [H1 H2]. assert (Hnew : cn_uip c ∉ ws_ips s).
  { intros Hin. destruct (H2 _ Hin) as (j & c' & Hj & Hj0 & Hc' & Eu). apply Hn. enough (Z.to_nat ind = Z.to_nat j) as E by (by replace ind with j by lia).
    apply (NoDup_lookup (cn_uip <$> clients) _ _ (cn_uip c)); [done| |]; rewrite list_lookup_fmap; [by rewrite Hc|by rewrite Hc', <- Eu]. }
  split; cbn.
  - rewrite size_union by set_solver. rewrite size_singleton. lia.
  - intros ip [->%elem_of_singleton|Hip]%elem_of_union; [exists ind, c; split_and!; try done; by left|].
    destruct (H2 _ Hip) as (j & c' & Hj & R). exists j, c'. split; [by right|done].
Qed.

Lemma counted_weaken seen seen' s : seen ⊆ seen' -> counted seen s -> counted seen' s.
Proof. intros Hs [H1 H2]. split; [done|]. intros ip Hip. destruct (H2 ip Hip) as (i & c & Hi & R). exists i, c. split; [by apply Hs|done]. Qed.

Lemma on_event_counted seen s e : NoDup (cn_uip <$> clients) -> Forall (fun i => 0 <= i) L -> winv s -> event_index e ∉ seen ->
  counted seen s -> counted (event_index e :: seen) (on_ev s e).
Proof.
  intros Hu HL Hs Hn Hc. assert (Hw : counted (event_index e :: seen) s) by (eapply counted_weaken; [|done]; set_solver).
  assert (Hpos : forall k r, ws_asked s !! k = Some r -> 0 <= rq_index r).
  { intros k r Hr. rewrite Forall_forall in HL. apply HL. rewrite <- (wv_split _ Hs). apply elem_of_app. right.
    eapply sublist_subseteq; [apply (wv_asked _ Hs)|]. apply list_elem_of_fmap. exists r. split; [done|]. by eapply list_elem_of_lookup_2. }
  destruct e as [ind message now|ind sent_ok]; unfold on_write_event; cbn [event_index] in *.
  - destruct (negb wait); [done|]. destruct (list_find _ (ws_asked s)) as [[k r]|] eqn:E; [|done]. destruct (clients !! Z.to_nat ind) as [c|] eqn:Ec; [|done].
    apply list_find_Some in E as (Hr & <- & _). pose proof (Hpos _ _ Hr). destruct (write_reply _ _); try done. by apply confirm_counted.
  - destruct wait; [done|]. destruct (list_find _ (ws_asked s)) as [[k r]|] eqn:E; [|done]. destruct (clients !! Z.to_nat ind) as [c|] eqn:Ec; [|done].
    apply list_find_Some in E as (Hr & <- & _). pose proof (Hpos _ _ Hr). destruct sent_ok; [by apply confirm_counted|done].
Qed.

Lemma on_events_counted es : forall seen s, NoDup (cn_uip <$> clients) -> Forall (fun i => 0 <= i) L -> winv s ->
  NoDup (event_index <$> es) -> (forall e, e ∈ es -> event_index e ∉ seen) -> counted seen s ->
  counted ((event_index <$> es) ++ seen) (foldl on_ev s es).
Proof.
  induction es as [|e es IH]; intros seen s Hu HL Hs Hd Hn Hc; [done|]. cbn [fmap list_fmap] in Hd. apply NoDup_cons in Hd as [Hd1 Hd2]. cbn [foldl].
  apply (counted_weaken ((event_index <$> es) ++ event_index e :: seen)); [set_solver|]. apply IH; try done.
  - by apply on_event_keeps.
  - intros e' He' [E|Hin]%elem_of_cons; [apply Hd1; rewrite <- E; by apply list_elem_of_fmap_2|]. apply (Hn e'); [by right|done].
  - apply on_event_counted; try done. apply Hn. by left.
Qed.

Lemma write_parts_counted n : forall i loop_send s s', NoDup (cn_uip <$> clients) -> Forall (fun i => 0 <= i) L -> winv s ->
  (forall k, NoDup (event_index <$> mjoin (events <$> seq 0 k))) -> counted (event_index <$> mjoin (events <$> seq 0 i)) s ->
  parts n i loop_send s = Some s' -> ws_ok s' = Z.of_nat (size (ws_ips s')).
Proof.
  induction n as [|n IH]; intros i loop_send s s' Hu HL Hs Hd Hc; cbn [write_parts]; [intros [= <-]; apply Hc|].
  case_bool_decide as Hp; [intros [= <-]; apply Hc|]. set (groups := match i with O => _ | _ => _ end).
  destruct (f_send_spec (S (length (members (ws_pool s)))) loop_send groups (start_wait s)) as (s1 & new & E1 & Hs1 & [D1 D2 D3 D4 D5 D6] & _).
  { destruct Hs. by split. }
  { cbn. lia. }
  rewrite E1. cbn [mbind option_bind].
  assert (H2 : counted (event_index <$> mjoin (events <$> seq 0 (S i))) (foldl on_ev s1 (events i))).
  { pose proof (Hd (S i)) as Hdi. rewrite seq_S, fmap_app, join_app, fmap_app in Hdi |- *. cbn [fmap list_fmap mjoin list_join] in Hdi |- *.
    rewrite app_nil_r in Hdi |- *. apply NoDup_app in Hdi as (_ & Hx & Hn).
    eapply counted_weaken; [|apply (on_events_counted (events i) (event_index <$> mjoin (events <$> seq 0 i)))]; try done; [set_solver| |].
    - intros e He Hin. apply (Hx _ Hin). by apply list_elem_of_fmap_2.
    - destruct Hc as [C1 C2]. split; rewrite ?D3, ?D4; done. }
  destruct (_ <=? _); [intros [= <-]; apply H2|]. apply IH; try done. by apply on_events_keep.
Qed.
End run.

(** ** Records that erase *)

Definition erasing (r : write) : write := Write (w_tms r) (w_crc r) (w_ttl r) (w_key r) [].

Lemma cut_record pre r rest fuel cutted :
  write_ok r -> zlen (pre ++ enc_write r ++ rest) + 28 <= max_val I32 ->
  cut_records (S fuel) (pre ++ enc_write r ++ rest) (zlen pre) cutted =
    cut_records fuel (pre ++ enc_write r ++ rest) (zlen (pre ++ enc_write r)) (cutted ++ enc_write (erasing r)).
Proof.
  intros [Htms Hcrc Httl Hkey] Hl. change (max_val I32) with 2147483647 in Hl. rewrite !length_app, length_enc_write in Hl.
  assert (0 < zlen (w_key r)) by (destruct (w_key r); [done|simpl; lia]).
  cbn [cut_records]. rewrite (wrap_id I32 (zlen pre + 28)) by range_lia.
  rewrite !length_app, length_enc_write. rewrite (wrap_id U64 (zlen pre + 28)) by range_lia.
  rewrite (proj2 (Z.ltb_lt (zlen pre + 28) _)) by lia. rewrite (proj2 (Z.ltb_ge (zlen pre) 0)) by lia. set (d := pre ++ enc_write r ++ rest).
  set (h := numeric_to_chars I64 (w_tms r) ++ numeric_to_chars I64 (w_crc r) ++ numeric_to_chars I32 (w_ttl r) ++ numeric_to_chars I32 (zlen (w_key r))).
  assert (Hh : length h = 24%nat) by (unfold h; len).
  assert (Ed : d = pre ++ numeric_to_chars I64 (w_tms r) ++ numeric_to_chars I64 (w_crc r) ++
    numeric_to_chars I32 (w_ttl r) ++ numeric_to_chars I32 (zlen (w_key r)) ++
    numeric_to_chars I32 (zlen (w_content r)) ++ w_key r ++ w_content r ++ rest)
    by (unfold d, enc_write; by rewrite <- !app_assoc).
  assert (Eh : d = pre ++ h ++ numeric_to_chars I32 (zlen (w_content r)) ++ w_key r ++ w_content r ++ rest)
    by (rewrite Ed; unfold h; by rewrite <- !app_assoc).
  assert (F4 : zsub d (zlen pre + 20) 4 = numeric_to_chars I32 (zlen (w_key r))) by (rewrite Ed; zfield).
  assert (F5 : zsub d (zlen pre + 24) 4 = numeric_to_chars I32 (zlen (w_content r))) by (rewrite Ed; zfield).
  assert (F6 : zsub d (zlen pre + 28) (zlen (w_key r)) = w_key r) by (rewrite Ed; zfield).
  assert (F7 : zsub d (zlen pre) 24 = h) by (rewrite Eh; zfield).
  rewrite F4, F5, !chars_to_numeric_to_chars by (done || range_lia).
  rewrite (wrap_id I32 (zlen pre + 28 + zlen (w_key r))) by range_lia.
  rewrite (wrap_id I32 (zlen pre + 28 + zlen (w_key r) + zlen (w_content r))) by range_lia.
  rewrite !(wrap_id U64) by range_lia. rewrite F6, F7. rewrite !(proj2 (Z.leb_le _ _)) by lia.
  replace (Z.of_nat (length pre + (28 + length (w_key r) + length (w_content r))))
    with (zlen pre + 28 + zlen (w_key r) + zlen (w_content r)) by lia.
  f_equal. f_equal. unfold h, enc_write, erasing. cbn [w_tms w_crc w_ttl w_key w_content]. rewrite app_nil_r, <- !app_assoc. done.
Qed.

Lemma cut_records_spec ws pre fuel cutted :
  Forall write_ok ws -> zlen (pre ++ mjoin (enc_write <$> ws)) + 28 <= max_val I32 -> (length ws < fuel)%nat ->
  cut_records fuel (pre ++ mjoin (enc_write <$> ws)) (zlen pre) cutted = Some (cutted ++ mjoin (enc_write <$> (erasing <$> ws))).
Proof.
  revert pre fuel cutted; induction ws as [|r ws IH]; intros pre fuel cutted Hw Hl Hf; (destruct fuel as [|fuel]; [simpl in Hf; lia|]).
  - change (max_val I32) with 2147483647 in Hl. cbn [fmap list_fmap mjoin list_join] in Hl |- *. rewrite app_nil_r in Hl |- *. rewrite app_nil_r.
    cbn [cut_records]. rewrite (wrap_id I32), (wrap_id U64) by range_lia. destruct (Z.ltb_spec (zlen pre + 28) (zlen pre)); [lia|done].
  - apply Forall_cons in Hw as [Hw1 Hw]. cbn [fmap list_fmap]. change (list_fmap write bytes enc_write ws) with (enc_write <$> ws).
    change (enc_write r :: (enc_write <$> ws)) with (enc_write <$> (r :: ws)) in Hl |- *.
    rewrite (join_fmap_cons enc_write) in Hl |- *. rewrite cut_record by done. rewrite app_assoc in Hl |- *.
    rewrite IH; [|done|done|simpl in Hf; lia]. f_equal.
    change (enc_write (erasing r) :: _) with (enc_write <$> (erasing r :: (erasing <$> ws))). by rewrite (join_fmap_cons enc_write), app_assoc.
Qed.

Lemma erasing_ok ws : Forall write_ok ws -> Forall write_ok (erasing <$> ws).
Proof. intros H. apply Forall_fmap. eapply Forall_impl; [exact H|]. intros r [H1 H2 H3 H4]. by split. Qed.

Lemma erased now ws : forall m k, mp (foldl (do_write now) m (erasing <$> ws)) !! k = if bool_decide (k ∈ w_key <$> ws) then None else mp m !! k.
Proof.
  induction ws as [|r ws IH]; intros m k; [done|]. cbn [fmap list_fmap foldl]. rewrite IH. clear IH.
  destruct (decide (k ∈ w_key <$> ws)) as [Hk|Hk]; [rewrite !bool_decide_true by (done || by right); done|].
  rewrite bool_decide_false by done. destruct (decide (k = w_key r)) as [->|Hne].
  - rewrite bool_decide_true by left. cbn. by rewrite lookup_delete_eq.
  - rewrite bool_decide_false by (rewrite elem_of_cons; tauto). by apply do_write_other.
Qed.

(** ** What [write_file] promises *)

Lemma elem_of_indexed {A} (l : list A) i (x : A) : (i, x) ∈ indexed l <-> 0 <= i /\ l !! Z.to_nat i = Some x.
Proof.
  unfold indexed. rewrite elem_of_lookup_imap. split.
  - intros (k & y & [= -> ->] & E). split; [lia|]. by rewrite Nat2Z.id.
  - intros [Hi E]. exists (Z.to_nat i), x. split; [f_equal; lia|done].
Qed.

Lemma NoDup_indexed {A} (l : list A) : NoDup (indexed l).*1.
Proof.
  unfold indexed. rewrite fmap_imap. apply NoDup_alt. intros a b z Ha Hb. rewrite list_lookup_imap in Ha, Hb.
  apply fmap_Some in Ha as (x & _ & ->), Hb as (y & _ & E). cbn in E. lia.
Qed.

Lemma NoDup_filter_fst {A} (P : Z * A -> Prop) `{!forall x, Decision (P x)} (l : list (Z * A)) : NoDup l.*1 -> NoDup (filter P l).*1.
Proof. intros Hl. eapply sublist_NoDup; [exact Hl|]. apply fmap_sublist, sublist_filter. Qed.

Section promises.
Context (compress : bytes -> bytes) (clients : list connection) (w : w_type) (filename content_ : bytes) (opt : write_options).
Context (v0 v1 : view) (today : date__) (time0 time1 identy0 : Z) (turns : nat -> turn) (events : nat -> list write_event) (dis : disabled_map).

Abbreviation servers := (write_servers clients v0 w opt filename today dis).
Abbreviation wrote := (write_file compress clients w filename content_ opt v0 v1 today time0 time1 identy0 turns events dis).
Abbreviation start := (WState (pool_of servers) ∅ [] [] 0 0 ∅ ∅ dis identy0).

Lemma NoDup_servers : NoDup servers.*1.
Proof. apply NoDup_filter_fst, NoDup_indexed. Qed.

Lemma servers_nonneg : Forall (fun i => 0 <= i) servers.*1.
Proof.
  apply Forall_forall. intros i ([j c] & -> & [_ H]%list_elem_of_filter)%list_elem_of_fmap. by apply elem_of_indexed in H as [? _].
Qed.

Lemma start_winv : five_digits identy0 -> winv clients turns servers.*1 start.
Proof.
  destruct (pool_of_spec servers) as [H1 H2]. intros Hi. split; cbn; rewrite ?app_nil_r; try done; set_solver.
Qed.

(** The outcome of a write that gets as far as sending. *)
Lemma write_file_inv content f : (forall n, turn_ok (turns n)) -> five_digits identy0 ->
  write_content compress w content_ = Some content -> count_server_to_write opt <= zlen servers -> wrote = Some f ->
  exists s removers, winv clients turns servers.*1 s /\ Forall (made compress w filename content opt (waits w (w_answer opt)) time0 (get_hash content_)) (ws_asked s) /\
    (count_server_to_write opt <= ws_ok s \/ ws_pool s = ∅ \/ count_parts opt <= zlen (ws_taken s)) /\
    (NoDup (cn_uip <$> clients) -> (forall k, NoDup (event_index <$> mjoin (events <$> seq 0 k))) -> ws_ok s = Z.of_nat (size (ws_ips s))) /\
    (if bool_decide (w ∈ [WType.cdb; cdbm])
     then send_removers compress w filename content opt v1 time1 (ws_ips s) (ws_identy s) (indexed clients) else Some []) = Some removers /\
    f = WrittenFile (WriteInfo time0 (get_hash content_) (ws_ok s) (zlen (ws_asked s)) (ws_ips s)) (ws_asked s) removers (ws_disabled s).
Proof.
  intros Ht Hi Hc Hn. unfold write_file. rewrite (proj2 (Z.ltb_ge _ _)) by done. rewrite Hc.
  destruct (write_parts_spec compress clients w filename content opt (waits w (w_answer opt)) time0 (get_hash content_) turns events servers.*1 Ht
    (Z.to_nat (count_parts opt)) 0 (count_server_to_write opt) start) as (s & new & E & Hs & Ha & Hm & Ho & Hex); [by apply start_winv|cbn; lia|].
  rewrite E. cbn [mbind option_bind]. intros H. apply bind_Some in H as (removers & Hr & H). injection H as <-.
  exists s, removers. split; [done|]. split; [by rewrite Ha|]. split; [destruct Hex as [Hex|[Hex|Hex]]; cbn in Hex; [by left|by right; left|right; right; lia]|].
  split; [|done]. intros Hu Hd. eapply write_parts_counted; [exact Ht|exact Hu|apply servers_nonneg|by apply start_winv|exact Hd| |exact E].
  split; [done|]. set_solver.
Qed.
End promises.

Lemma send_removers_spec compress w filename content opt v time ips l : forall identy rs, five_digits identy ->
  send_removers compress w filename content opt v time ips identy l = Some rs ->
  forall i c, (i, c) ∈ l -> cn_uip c ∉ ips -> serves v opt (i, c) = true ->
  exists r, r ∈ rs /\ rq_index r = i /\ five_digits (rq_identy r) /\ remover compress w filename content time (rq_identy r) = Some (rq_message r).
Proof.
  induction l as [|[j d] l IH]; intros identy rs Hi; cbn [send_removers]; [set_solver|]. case_bool_decide as Hd.
  - intros E i c [[= -> ->]|Hin]%elem_of_cons Hc Hs; [done|]. by eapply IH.
  - destruct (serves v opt (j, d)) eqn:Ed.
    + intros H. apply bind_Some in H as (m & Hm & H). apply bind_Some in H as (rest & Hr & H). injection H as <-.
      pose proof (next_identy_digits _ Hi) as Hi'. intros i c [[= -> ->]|Hin]%elem_of_cons Hc Hs.
      * eexists. split; [by left|]. done.
      * destruct (IH _ _ Hi' Hr i c Hin Hc Hs) as (r & Hin' & R). exists r. split; [by right|done].
    + intros E i c [[= -> ->]|Hin]%elem_of_cons Hc Hs; [congruence|]. by eapply IH.
Qed.

Lemma send_removers_total compress w filename content opt v time ips l :
  (forall identy, is_Some (remover compress w filename content time identy)) ->
  forall identy, is_Some (send_removers compress w filename content opt v time ips identy l).
Proof.
  intros Hm. induction l as [|[j d] l IH]; intros identy; cbn [send_removers]; [by eexists|]. case_bool_decide; [apply IH|].
  destruct (serves v opt (j, d)); [|apply IH]. destruct (Hm (next_identy identy)) as [m ->], (IH (next_identy identy)) as [rs Hr].
  cbn [mbind option_bind]. rewrite Hr. by eexists.
Qed.

(** C4: What a write asks for and counts.  The message goes to servers of the write only, to each
    at most once; the number of attempts is the number of messages; every address reported as
    written is one of a server that was asked; and the reported count is the number of these
    addresses, provided that the servers have different addresses and each answers once. *)
Theorem copies_accounted (compress : bytes -> bytes) (clients : list connection) (w : w_type) (filename content_ : bytes) (opt : write_options)
    (v0 v1 : view) (today : date__) (time0 time1 identy0 : Z) (turns : nat -> turn) (events : nat -> list write_event) (dis : disabled_map)
    (f : written_file) :
  (forall n, turn_ok (turns n)) -> five_digits identy0 ->
  write_file compress clients w filename content_ opt v0 v1 today time0 time1 identy0 turns events dis = Some f -> 0 <= writed_count (wf_info f) ->
  NoDup (rq_index <$> wf_asked f) /\ (rq_index <$> wf_asked f) ⊆ (write_servers clients v0 w opt filename today dis).*1 /\
  count_attempts (wf_info f) = zlen (wf_asked f) /\
  (exists content, write_content compress w content_ = Some content /\ forall r, r ∈ wf_asked f -> exists time,
     rq_message r = write_message compress time w (waits w (w_answer opt)) (rq_identy r) filename content (wo_ttl opt) time0 (get_hash content_)) /\
  (forall ip, ip ∈ writed_ips (wf_info f) -> exists r c, r ∈ wf_asked f /\ clients !! Z.to_nat (rq_index r) = Some c /\ cn_uip c = ip) /\
  Z.of_nat (size (writed_ips (wf_info f))) <= writed_count (wf_info f) /\
  (NoDup (cn_uip <$> clients) -> (forall k, NoDup (event_index <$> mjoin (events <$> seq 0 k))) ->
   writed_count (wf_info f) = Z.of_nat (size (writed_ips (wf_info f)))).
Proof.
  intros Ht Hi E Hpos. destruct (Z.ltb_spec (zlen (write_servers clients v0 w opt filename today dis)) (count_server_to_write opt)) as [Hn|Hn].
  { unfold write_file in E. rewrite (proj2 (Z.ltb_lt _ _)) in E by done. by injection E as <-. }
  destruct (write_content compress w content_) as [content|] eqn:Ec.
  2: { unfold write_file in E. rewrite (proj2 (Z.ltb_ge _ _)) in E by done. rewrite Ec in E. by injection E as <-. }
  destruct (write_file_inv _ _ _ _ _ _ _ _ _ _ _ _ _ _ _ _ _ Ht Hi Ec Hn E) as (s & removers & [H1 H2 H3 H4 H5 H6 H7] & Hm & _ & Hcnt & _ & ->).
  cbn [wf_info wf_asked writed_ips writed_count count_attempts]. split_and!; try done.
  - eapply sublist_NoDup; [|exact H3]. pose proof (NoDup_servers clients w filename opt v0 today dis) as Hd. rewrite <- H1 in Hd. by apply NoDup_app in Hd as (_ & _ & ?).
  - intros i Hin%(sublist_subseteq _ _ H3). rewrite <- H1. set_solver.
  - exists content. split; [done|]. intros r Hr. rewrite Forall_forall in Hm. by apply Hm.
Qed.

(** C3: A write comes to an end, and does what it can.  When there are not enough servers nothing is
    sent.  Otherwise, given at least as many parts as there are servers, either as many servers
    as asked for confirmed the write, or every server of the write was asked, except for those
    that had lost their connection when it was their turn. *)
Theorem copies_attempted (compress : bytes -> bytes) (clients : list connection) (w : w_type) (filename content_ content : bytes) (opt : write_options)
    (v0 v1 : view) (today : date__) (time0 time1 identy0 : Z) (turns : nat -> turn) (events : nat -> list write_event) (dis : disabled_map) :
  (forall n, turn_ok (turns n)) -> five_digits identy0 -> write_content compress w content_ = Some content ->
  (w = cdbm -> exists ws, content = mjoin (enc_write <$> ws) /\ Forall write_ok ws /\ zlen content + 28 <= max_val I32) ->
  let servers := write_servers clients v0 w opt filename today dis in
  exists f, write_file compress clients w filename content_ opt v0 v1 today time0 time1 identy0 turns events dis = Some f /\
    (zlen servers < count_server_to_write opt -> writed_count (wf_info f) = -1 /\ wf_asked f = [] /\ wf_removers f = []) /\
    (count_server_to_write opt <= zlen servers -> zlen servers <= count_parts opt ->
     count_server_to_write opt <= writed_count (wf_info f) \/
     forall i, i ∈ servers.*1 -> i ∈ rq_index <$> wf_asked f \/ exists n, t_connected (turns n) i = false).
Proof.
  intros Ht Hi Hc Hrec servers. destruct (Z.ltb_spec (zlen servers) (count_server_to_write opt)) as [Hn|Hn].
  { eexists. split; [unfold write_file; fold servers; by rewrite (proj2 (Z.ltb_lt _ _))|]. split; [done|lia]. }
  assert (Hsome : is_Some (write_file compress clients w filename content_ opt v0 v1 today time0 time1 identy0 turns events dis)).
  { unfold write_file. fold servers. rewrite (proj2 (Z.ltb_ge _ _)) by done. rewrite Hc.
    destruct (write_parts_spec compress clients w filename content opt (waits w (w_answer opt)) time0 (get_hash content_) turns events servers.*1 Ht
      (Z.to_nat (count_parts opt)) 0 (count_server_to_write opt) (WState (pool_of servers) ∅ [] [] 0 0 ∅ ∅ dis identy0)) as (s & new & -> & _);
      [by apply start_winv|cbn; lia|]. cbn [mbind option_bind]. case_bool_decide as Hw; [|by eexists].
    destruct (send_removers_total compress w filename content opt v1 time1 (ws_ips s) (indexed clients)) with (ws_identy s) as [rs ->]; [|by eexists].
    intros identy. unfold remover. apply elem_of_cons in Hw as [->|Hw]; [by eexists|]. apply list_elem_of_singleton in Hw as ->.
    destruct (Hrec eq_refl) as (ws & -> & Hws & Hl). pose proof (length_enc_writes _ Hws).
    pose proof (cut_records_spec ws [] (S (length (mjoin (enc_write <$> ws)))) [] Hws Hl ltac:(lia)) as E. cbn [app] in E. change (zlen (@nil byte)) with 0 in E.
    rewrite E. by eexists. }
  destruct Hsome as [f E]. exists f. split; [done|]. split; [lia|]. intros _ Hparts.
  destruct (write_file_inv _ _ _ _ _ _ _ _ _ _ _ _ _ _ _ _ _ Ht Hi Hc Hn E) as (s & removers & [H1 H2 H3 H4 H5 H6 H7] & _ & Hex & _ & _ & ->).
  fold servers in H1. cbn [wf_info wf_asked writed_count]. assert (Hall : ws_pool s = ∅ -> forall i, i ∈ servers.*1 -> i ∈ rq_index <$> ws_asked s \/ exists n, t_connected (turns n) i = false).
  { intros Hp i Hin. apply H4. rewrite <- H1, Hp in Hin. done. }
  destruct Hex as [Hex|[Hex|Hex]]; [by left|by right; apply Hall|]. right. apply Hall. apply members_empty; [done|].
  apply length_zero_iff_nil. pose proof (Permutation_length H1) as Hlen. rewrite length_app, length_fmap in Hlen. lia.
Qed.

(** The groups of a pool. *)
Lemma pool_of_groups l : dom (pool_of l) = list_to_set (cn_group ∘ snd <$> l) /\
  forall g v, pool_of l !! g = Some v -> Forall (fun i => exists c, (i, c) ∈ l /\ cn_group c = g) v.
Proof.
  unfold pool_of. rewrite <- (rev_involutive l). induction (rev l) as [|[i c] k [IH1 IH2]]; [split; [cbn; by rewrite dom_empty_L|done]|].
  cbn [rev]. rewrite foldl_app, fmap_app, list_to_set_app_L. cbn [foldl]. unfold add_to_pool at 1 3. cbn [fst snd]. split.
  - rewrite dom_insert_L, IH1. cbn. set_solver.
  - intros g v. rewrite lookup_insert_Some. intros [[<- <-]|[Hne Hv]].
    + apply Forall_app. split; [|constructor; [|constructor]; exists c; split; [set_solver|done]].
      destruct (foldl add_to_pool ∅ (rev k) !! cn_group c) as [v|] eqn:E; [|constructor]. eapply Forall_impl; [by apply IH2|].
      intros j (d & Hd & Eg). exists d. split; [set_solver|done].
    + eapply Forall_impl; [by apply IH2|]. intros j (d & Hd & Eg). exists d. split; [set_solver|done].
Qed.

(** The network group of a server. *)
Definition group_of (clients : list connection) (i : Z) : Z := default (-1) (cn_group <$> clients !! Z.to_nat i).

(** C9: Copies go to different networks.  Without preferred groups, when the servers of the write
    are in at least as many network groups as copies are wanted, the servers that are asked first,
    one for each copy, are in different groups. *)
Theorem copies_spread (compress : bytes -> bytes) (clients : list connection) (w : w_type) (filename content_ content : bytes) (opt : write_options)
    (v0 v1 : view) (today : date__) (time0 time1 identy0 : Z) (turns : nat -> turn) (events : nat -> list write_event) (dis : disabled_map)
    (f : written_file) :
  let servers := write_servers clients v0 w opt filename today dis in
  let groups : gset Z := list_to_set (cn_group ∘ snd <$> servers) in
  (forall n, turn_ok (turns n)) -> (forall n i, t_connected (turns n) i = true) -> five_digits identy0 -> write_content compress w content_ = Some content ->
  preffered_netwok_groups opt = [] -> -1 ∉ groups -> 1 <= count_server_to_write opt <= Z.of_nat (size groups) -> 1 <= count_parts opt ->
  write_file compress clients w filename content_ opt v0 v1 today time0 time1 identy0 turns events dis = Some f ->
  exists first rest, wf_asked f = first ++ rest /\ zlen first = count_server_to_write opt /\ NoDup (group_of clients ∘ rq_index <$> first).
Proof.
  intros servers groups Ht Hcon Hi Hc Hpref Hm1 Hcount Hparts. destruct (pool_of_groups servers) as [Hdom Hgrp]. destruct (pool_of_spec servers) as [Hmem Hwf].
  fold groups in Hdom. assert (Hsize : (size groups <= length servers)%nat).
  { unfold groups. rewrite <- (length_fmap (cn_group ∘ snd) servers). clear. induction (cn_group ∘ snd <$> servers) as [|g l IH]; [done|].
    cbn [list_to_set length]. pose proof (size_union_alt ({[g]} : gset Z) (list_to_set l)) as E. rewrite E, size_singleton.
    pose proof (subseteq_size (list_to_set l ∖ {[g]}) (list_to_set l : gset Z) ltac:(set_solver)). lia. }
  unfold write_file. fold servers. rewrite (proj2 (Z.ltb_ge _ _)) by lia. rewrite Hc. destruct (Z.to_nat (count_parts opt)) as [|n] eqn:En; [lia|].
  cbn [write_parts]. rewrite Hpref. cbn [ws_pool]. rewrite (bool_decide_false (pool_of servers = ∅)).
  2: { intros E. rewrite E, dom_empty_L in Hdom. rewrite <- Hdom, size_empty in Hcount. lia. }
  set (start := WState (pool_of servers) ∅ [] [] 0 0 ∅ ∅ dis identy0).
  destruct (f_send_spreads compress w filename content opt (waits w (w_answer opt)) time0 (get_hash content_) turns Ht (group_of clients)
    (S (length (members (pool_of servers)))) (count_server_to_write opt) (start_wait start)) as (s1 & new & E1 & Ha & Hl & Hd & _); try done; cbn [start_wait start ws_pool ws_used].
  - apply not_elem_of_dom. by rewrite Hdom.
  - intros g v Hv. eapply Forall_impl; [by apply (Hgrp g)|]. intros i (c & [_ Hx]%list_elem_of_filter & <-). apply elem_of_indexed in Hx as [_ Hx].
    unfold group_of. by rewrite Hx.
  - rewrite Hdom. replace (groups ∖ ∅) with groups by set_solver. lia.
  - lia.
  - assert (Hs1 : winv clients turns servers.*1 s1).
    { destruct (f_send_spec compress clients w filename content opt (waits w (w_answer opt)) time0 (get_hash content_) turns servers.*1 Ht
        (S (length (members (pool_of servers)))) (count_server_to_write opt) [] (start_wait start)) as (s1' & new' & E1' & Hs1 & _); [by apply start_winv|cbn; lia|].
      rewrite E1 in E1'. by injection E1' as <-. }
    rewrite E1. cbn [mbind option_bind]. intros H. apply bind_Some in H as (s & Hs & H). apply bind_Some in H as (removers & _ & H). injection H as <-.
    cbn [wf_asked]. cbn in Ha. destruct (on_events_keep clients filename (waits w (w_answer opt)) turns servers.*1 (events 0%nat) s1) as (_ & _ & K3 & _ & K5). cbv zeta in *.
    set (s2 := foldl _ s1 (events 0%nat)) in *. exists new. destruct (_ <=? ws_ok s2).
    + injection Hs as <-. exists []. rewrite app_nil_r. split; [congruence|]. split; [lia|done].
    + destruct (write_parts_spec compress clients w filename content opt (waits w (w_answer opt)) time0 (get_hash content_) turns events servers.*1 Ht
        n 1 (count_server_to_write opt - ws_ok s2) s2) as (s' & new' & E' & _ & Ha' & _); [auto|done|].
      rewrite Hs in E'. injection E' as <-. exists new'. split; [congruence|]. split; [lia|done].
Qed.

(** A message of the client that carries records. *)
Section records.
Context `{JEnv} `{JdbEngine} (inflate : bytes -> option bytes) (shash : bytes -> Z) (decrypt : bytes -> bytes -> bytes -> bytes).
Context (get_hash_of_file : fs -> bytes -> Z) (opens : bytes -> bool) (file_names : fs -> bytes -> list bytes).

Abbreviation handle := (on_message inflate shash decrypt get_hash_of_file opens file_names).

Lemma records_served m identy (wait : bool) ws n : five_digits identy -> Forall write_ok ws -> zlen (mjoin (enc_write <$> ws)) + 28 <= max_val I32 ->
  (length ws < m_fuel m)%nat ->
  exists outs, handle m true ((if wait then lit "32" else lit "33") ++ to_string identy ++ mjoin (enc_write <$> ws)) n =
    Some (true, outs, set_cdb (foldl (do_write (steady (m_clock m))) (cdb n) ws) n).
Proof.
  intros Hi Hw Hl Hf. pose proof (insert_loop_records (steady (m_clock m)) ws [] (m_fuel m) false (cdb n) Hw Hl Hf) as E.
  cbn [app] in E. change (zlen (@nil byte)) with 0 in E.
  destruct wait; [change (lit "32") with [x33; x32]|change (lit "33") with [x33; x33]]; cbn [app]; rewrite on_request by done;
    [change (default 0 (stoi I32 [x33; x32])) with 32|change (default 0 (stoi I32 [x33; x33])) with 33];
    cbn [dispatch]; unfold do_cdb_insert, CManager.insert; rewrite E; cbn [mbind option_bind]; by eexists.
Qed.
End records.

(** C2: A delayed write of records to the key-value store leaves no old values behind.  When
    [write_file] has sent the records, every server that the client can use for them at the end
    either confirmed the write, and the message it was sent makes it apply the records, or is sent
    a message that erases the keys of the records and nothing else. *)
Theorem delayed_write_consistent `{JEnv} `{JdbEngine} (inflate : bytes -> option bytes) (shash : bytes -> Z)
    (decrypt : bytes -> bytes -> bytes -> bytes) (get_hash_of_file : fs -> bytes -> Z) (opens : bytes -> bool) (file_names : fs -> bytes -> list bytes)
    (compress : bytes -> bytes) (clients : list connection) (ws : list write) (opt : write_options)
    (v0 v1 : view) (today : date__) (time0 time1 identy0 : Z) (turns : nat -> turn) (events : nat -> list write_event) (dis : disabled_map)
    (f : written_file) (m : moment) (n : node) :
  (forall n, turn_ok (turns n)) -> five_digits identy0 -> Forall write_ok ws -> ws <> [] -> zlen (mjoin (enc_write <$> ws)) + 28 <= max_val I32 ->
  (length ws < m_fuel m)%nat ->
  write_file compress clients cdbm [] (mjoin (enc_write <$> ws)) opt v0 v1 today time0 time1 identy0 turns events dis = Some f ->
  0 <= writed_count (wf_info f) ->
  forall i c, (i, c) ∈ indexed clients -> serves v1 opt (i, c) = true ->
    (cn_uip c ∈ writed_ips (wf_info f) /\ exists r c' outs, r ∈ wf_asked f /\ clients !! Z.to_nat (rq_index r) = Some c' /\ cn_uip c' = cn_uip c /\
       on_message inflate shash decrypt get_hash_of_file opens file_names m true (rq_message r) n =
         Some (true, outs, set_cdb (foldl (do_write (steady (m_clock m))) (cdb n) ws) n)) \/
    (exists r outs n', r ∈ wf_removers f /\ rq_index r = i /\
       on_message inflate shash decrypt get_hash_of_file opens file_names m true (rq_message r) n = Some (true, outs, n') /\
       disk n' = disk n /\ edb n' = edb n /\
       forall k, mp (cdb n') !! k = if bool_decide (k ∈ w_key <$> ws) then None else mp (cdb n) !! k).
Proof.
  intros Ht Hi Hws Hne Hl Hf E Hpos i c Hin Hs. set (content := mjoin (enc_write <$> ws)) in *.
  pose proof (length_enc_writes _ Hws) as Hlen. fold content in Hlen.
  assert (Hc : write_content compress cdbm content = Some content).
  { unfold write_content. rewrite bool_decide_true by (by apply (bool_decide_unpack _)). destruct content eqn:Ec; [|done]. destruct ws; [done|]. cbn in Hlen. lia. }
  destruct (Z.ltb_spec (zlen (write_servers clients v0 cdbm opt [] today dis)) (count_server_to_write opt)) as [Hn|Hn].
  { unfold write_file in E. rewrite (proj2 (Z.ltb_lt _ _)) in E by done. by injection E as <-. }
  destruct (write_file_inv _ _ _ _ _ _ _ _ _ _ _ _ _ _ _ _ _ Ht Hi Hc Hn E) as (s & removers & [H1 H2 H3 H4 H5 H6 H7] & Hm & _ & _ & Hr & ->).
  cbn [wf_info wf_asked wf_removers writed_ips]. rewrite bool_decide_true in Hr by (by apply (bool_decide_unpack _)).
  destruct (decide (cn_uip c ∈ ws_ips s)) as [Hip|Hip]; [left|right].
  - split; [done|]. destruct (H5 _ Hip) as (r & c' & Hr' & Hc' & Eu). rewrite Forall_forall in Hm. destruct (Hm r Hr') as (Hd & time & Em).
    destruct (records_served inflate shash decrypt get_hash_of_file opens file_names m (rq_identy r) (waits cdbm (w_answer opt)) ws n Hd Hws Hl Hf) as (outs & Eo).
    exists r, c', outs. split_and!; try done. by rewrite Em.
  - destruct (send_removers_spec _ _ _ _ _ _ _ _ _ _ _ H7 Hr i c Hin Hip Hs) as (r & Hr' & Ei & Hd & Em). unfold remover in Em.
    pose proof (cut_records_spec ws [] (S (length content)) [] Hws Hl ltac:(lia)) as Ecut. cbn [app] in Ecut. change (zlen (@nil byte)) with 0 in Ecut.
    fold content in Ecut. rewrite Ecut in Em. cbn [mbind option_bind] in Em. injection Em as Em.
    assert (Hle : zlen (mjoin (enc_write <$> (erasing <$> ws))) + 28 <= max_val I32).
    { assert (length (mjoin (enc_write <$> (erasing <$> ws))) <= length content)%nat; [|lia]. unfold content. clear.
      induction ws as [|x ws IH]; [done|]. change (erasing <$> x :: ws) with (erasing x :: (erasing <$> ws)). rewrite !(join_fmap_cons enc_write), !length_app, !length_enc_write.
      cbn [erasing w_key w_content length]. lia. }
    destruct (records_served inflate shash decrypt get_hash_of_file opens file_names m (rq_identy r) false (erasing <$> ws) n Hd (erasing_ok _ Hws) Hle) as (outs & Eo);
      [by rewrite length_fmap|].
    eexists r, outs, _. split; [done|]. split; [done|]. split; [by rewrite <- Em|]. split; [done|]. split; [done|]. intros k. cbn [cdb set_cdb]. apply erased.
Qed.

(** ** Examples *)

(** Four servers in three groups; the third is not connected, and at the end the second neither. *)
Definition ex_connections : list connection :=
  [Connection (lit "10.0.0.1") 167772161 1 true; Connection (lit "10.0.0.2") 167772162 1 true;
   Connection (lit "10.0.0.3") 167772163 2 true; Connection (lit "10.0.0.4") 167772164 3 true].
Definition ex_view (down : list Z) : view :=
  View (fun i => if bool_decide (i ∈ down) then not_connected else connected) (fun _ => TimeoutDetector 0 0 10 60) 1.
Definition ex_turns : nat -> turn := fun _ => Turn (fun _ => 0%nat) (fun _ => 0%nat) (fun _ => true) 5.
Definition ex_options (count : Z) : write_options := WriteOptions 60 count 3 [] any wait_default ∅.
Definition ex_today : date__ := date_ example_dt.

Lemma ex_turns_ok n : turn_ok (ex_turns n).
Proof. intros k Hk. done. Qed.

(** The server of group 1 has no room, that of group 3 confirms; in the second part the other
    server of group 1 confirms. *)
Definition ex_events (part : nat) : list write_event :=
  match part with
  | O => [Answered 0 (lit "040310001") example_dt; Answered 3 (lit "040110002") example_dt]
  | S O => [Answered 1 (lit "040110003") example_dt]
  | _ => []
  end.

Definition ex_run : option written_file :=
  write_file (fun s => s) ex_connections updatable (lit "sub/a") (lit "text") (ex_options 2) (ex_view [2]) (ex_view [2]) ex_today 77 78 10000 ex_turns ex_events ∅.

Example ex_run_result :
  (fun f => (writed_count (wf_info f), count_attempts (wf_info f), rq_index <$> wf_asked f, rq_identy <$> wf_asked f, elements (writed_ips (wf_info f)))) <$> ex_run =
  Some (2, 3, [0; 3; 1], [10001; 10002; 10003], [167772162; 167772164]).
Proof. vm_compute. reflexivity. Qed.

Definition ex_write : written_file := default (WrittenFile (not_written (-1)) [] [] ∅) ex_run.

Lemma copies_accounted_witness :
  NoDup (rq_index <$> wf_asked ex_write) /\ (rq_index <$> wf_asked ex_write) ⊆ (write_servers ex_connections (ex_view [2]) updatable (ex_options 2) (lit "sub/a") ex_today ∅).*1 /\
  count_attempts (wf_info ex_write) = zlen (wf_asked ex_write) /\
  (exists content, write_content (fun s => s) updatable (lit "text") = Some content /\ forall r, r ∈ wf_asked ex_write -> exists time,
     rq_message r = write_message (fun s => s) time updatable true (rq_identy r) (lit "sub/a") content 60 77 (get_hash (lit "text"))) /\
  (forall ip, ip ∈ writed_ips (wf_info ex_write) -> exists r c, r ∈ wf_asked ex_write /\ ex_connections !! Z.to_nat (rq_index r) = Some c /\ cn_uip c = ip) /\
  Z.of_nat (size (writed_ips (wf_info ex_write))) <= writed_count (wf_info ex_write) /\
  (NoDup (cn_uip <$> ex_connections) -> (forall k, NoDup (event_index <$> mjoin (ex_events <$> seq 0 k))) ->
   writed_count (wf_info ex_write) = Z.of_nat (size (writed_ips (wf_info ex_write)))).
Proof.
  apply (copies_accounted (fun s => s) ex_connections updatable (lit "sub/a") (lit "text") (ex_options 2) (ex_view [2]) (ex_view [2]) ex_today 77 78 10000
    ex_turns ex_events ∅ ex_write).
  - exact ex_turns_ok.
  - unfold five_digits. lia.
  - by vm_compute.
  - by vm_compute.
Defined.

Lemma copies_spread_witness :
  exists first rest, wf_asked ex_write = first ++ rest /\ zlen first = 2 /\ NoDup (group_of ex_connections ∘ rq_index <$> first).
Proof.
  apply (copies_spread (fun s => s) ex_connections updatable (lit "sub/a") (lit "text") (lit "text") (ex_options 2) (ex_view [2]) (ex_view [2]) ex_today 77 78 10000
    ex_turns ex_events ∅ ex_write).
  - exact ex_turns_ok.
  - done.
  - unfold five_digits. lia.
  - reflexivity.
  - reflexivity.
  - by apply (bool_decide_unpack _).
  - vm_compute. split; discriminate.
  - by vm_compute.
  - by vm_compute.
Defined.

Lemma copies_attempted_witness :
  let servers := write_servers ex_connections (ex_view [2]) updatable (ex_options 2) (lit "sub/a") ex_today ∅ in
  exists f, ex_run = Some f /\
    (zlen servers < 2 -> writed_count (wf_info f) = -1 /\ wf_asked f = [] /\ wf_removers f = []) /\
    (2 <= zlen servers -> zlen servers <= 3 ->
     2 <= writed_count (wf_info f) \/ forall i, i ∈ servers.*1 -> i ∈ rq_index <$> wf_asked f \/ exists n, t_connected (ex_turns n) i = false).
Proof.
  apply (copies_attempted (fun s => s) ex_connections updatable (lit "sub/a") (lit "text") (lit "text") (ex_options 2) (ex_view [2]) (ex_view [2]) ex_today 77 78 10000
    ex_turns ex_events ∅).
  - exact ex_turns_ok.
  - unfold five_digits. lia.
  - reflexivity.
  - discriminate.
Defined.

(** Records for two servers; the first is reached, the other two get the message that erases. *)
Definition ex_delayed : option written_file :=
  write_file (fun s => s) ex_connections cdbm [] (mjoin (enc_write <$> example_writes)) (ex_options 2) (ex_view [2]) (ex_view [1]) ex_today 77 78 10000 ex_turns
    (fun part => match part with O => [Delivered 0 true; Delivered 3 false] | _ => [] end) ∅.
Definition ex_consistent : written_file := default (WrittenFile (not_written (-1)) [] [] ∅) ex_delayed.

Example ex_delayed_result :
  (fun f => (writed_count (wf_info f), rq_index <$> wf_asked f, rq_index <$> wf_removers f, elements (writed_ips (wf_info f)))) <$> ex_delayed =
  Some (1, [0; 3; 1], [2; 3], [167772161]).
Proof. vm_compute. reflexivity. Qed.

#[local] Instance writes_env : JEnv :=
  {| hash := fun _ => 7; mktime := fun _ _ _ _ _ _ => 0; compress_string := fun s => s; decompress_string := fun s => s;
     visit := fun A m => map_to_list m; visit_offsets := map_to_list |}.
#[local] Existing Instance no_jdb.

(** What becomes of a server: it has the records or is told to erase them. *)
Definition ex_outcome (i : Z) (c : connection) : Prop :=
    (cn_uip c ∈ writed_ips (wf_info ex_consistent) /\ exists r c' outs, r ∈ wf_asked ex_consistent /\ ex_connections !! Z.to_nat (rq_index r) = Some c' /\ cn_uip c' = cn_uip c /\
       on_message ex_inflate (fun _ => 7) (fun c _ _ => c) (fun _ _ => 1) (fun _ => true) (fun _ _ => []) ex_moment true (rq_message r) ex_disks =
         Some (true, outs, set_cdb (foldl (do_write (steady (m_clock ex_moment))) (cdb ex_disks) example_writes) ex_disks)) \/
    (exists r outs n', r ∈ wf_removers ex_consistent /\ rq_index r = i /\
       on_message ex_inflate (fun _ => 7) (fun c _ _ => c) (fun _ _ => 1) (fun _ => true) (fun _ _ => []) ex_moment true (rq_message r) ex_disks = Some (true, outs, n') /\
       disk n' = disk ex_disks /\ edb n' = edb ex_disks /\
       forall k, mp (cdb n') !! k = if bool_decide (k ∈ w_key <$> example_writes) then None else mp (cdb ex_disks) !! k).

Lemma delayed_write_consistent_witness :
  ex_outcome 0 (Connection (lit "10.0.0.1") 167772161 1 true) /\ ex_outcome 3 (Connection (lit "10.0.0.4") 167772164 3 true).
Proof.
  assert (H : forall i c, (i, c) ∈ indexed ex_connections -> serves (ex_view [1]) (ex_options 2) (i, c) = true -> ex_outcome i c).
  { unfold ex_outcome. apply (delayed_write_consistent ex_inflate (fun _ => 7) (fun c _ _ => c) (fun _ _ => 1) (fun _ => true) (fun _ _ => []) (fun s => s) ex_connections example_writes
    (ex_options 2) (ex_view [2]) (ex_view [1]) ex_today 77 78 10000 ex_turns
    (fun part => match part with O => [Delivered 0 true; Delivered 3 false] | _ => [] end) ∅ ex_consistent ex_moment ex_disks).
  - exact ex_turns_ok.
  - unfold five_digits. lia.
  - exact example_writes_ok.
  - discriminate.
  - by vm_compute.
  - vm_compute. lia.
  - by vm_compute.
  - by vm_compute. }
  split; apply H; [apply (bool_decide_unpack _); vm_compute; exact I|reflexivity|apply (bool_decide_unpack _); vm_compute; exact I|reflexivity].
Defined.
