(* ===== verification/ClientRequests.v ===== *)
(** * Questions to all servers ([rssdisk/client/rssdisk_pool.cpp])

    [get_servers_statuses], [get_servers_ping], [get_free_size_servers], [get_all_files] and
    [get_tcp_statuses]: the client sends a message to every server
    that fits, and callbacks in other threads collect the answers until enough have come or the
    time is over.  Callbacks may run as soon as a message has been sent: [callbacks n] are those
    between the visits of the servers [n] and [n + 1], the last ones during the wait. *)

From S2P Require Import Prelude Bitbase BasefuncStd Compression Session DiskHelper WType JdbInterface JManager MapTime CManager DiskServer DiskServerFacts TcpHandler Settings PoolClient ClientWrites.
From Stdlib Require Import ZArith Lia Strings.Byte.
From stdpp Require Import base gmap strings numbers sorting list.
Open Scope Z_scope.

Inductive read_res :=
  | read_ok | fail | file_not_found | error_to_connect_to_server | error_read_responce_from_server | error_send_request_from_server
  | timeout | servers_not_found | error_specify_the_group | count_tms_files_less_than_requeired.

(** A callback of the server [i]: a message has come, after some milliseconds, or sending failed. *)
Inductive callback := Replied (i : Z) (message : bytes) (elapsed : Z) | NotSent (i : Z).
Definition cb_index (cb : callback) : Z := match cb with Replied i _ _ | NotSent i => i end.

(** An answer to a question: success, the identity of the question, and the rest. *)
Definition good_reply (identy : Z) (message : bytes) : option bytes :=
  if (9 <=? zlen message) && bool_decide (take 2 (drop 2 message) = lit "01") && bool_decide (take 5 (drop 4 message) = to_string identy)
  then Some (drop 9 message) else None.

(** ** [get_servers_statuses] and [get_servers_ping] *)

Inductive question := ask_status | ask_ping.
Definition question_code (q : question) : bytes := match q with ask_status => lit "05" | ask_ping => lit "26" end.

Record read_responce := ReadResponce { rr_status : read_res; rr_ip : Z; rr_data : bytes; rr_group : Z }.

Record sstate := SState { st_set : gset bytes; st_items : list read_responce; st_sent : list request; st_awaiting : Z; st_identy : Z }.

Section statuses.
Context (clients : list connection) (q : question) (v : view).

(** The lambda [f_set_status]: the first status of an address counts. *)
Definition f_set_status (c : connection) (r : read_res * bytes) (s : sstate) : sstate :=
  if bool_decide (cn_ip c ∈ st_set s) then s
  else SState ({[cn_ip c]} ∪ st_set s) (st_items s ++ [ReadResponce r.1 (cn_uip c) r.2 (cn_group c)]) (st_sent s) (st_awaiting s) (st_identy s).

(** What a callback says about its server. *)
Definition judge (identy : Z) (cb : callback) : read_res * bytes :=
  match cb with
  | Replied _ message elapsed =>
      match good_reply identy message with
      | Some data => (read_ok, match q with ask_status => data | ask_ping => to_string elapsed end)
      | None => (error_read_responce_from_server, [])
      end
  | NotSent _ => (error_send_request_from_server, [])
  end.

Definition one_less (s : sstate) : sstate := SState (st_set s) (st_items s) (st_sent s) (st_awaiting s - 1) (st_identy s).

Definition on_status (s : sstate) (cb : callback) : sstate :=
  match list_find (fun r => rq_index r = cb_index cb) (st_sent s), clients !! Z.to_nat (cb_index cb) with
  | Some (_, r), Some c => one_less (f_set_status c (judge (rq_identy r) cb) s)
  | _, _ => s
  end.

Definition visit_status (x : Z * connection) (s : sstate) : sstate :=
  if usable v x.1 then
    let identy := next_identy (st_identy s) in
    SState (st_set s) (st_items s) (st_sent s ++ [MkRequest x.1 identy (question_code q ++ to_string identy)]) (st_awaiting s + 1) identy
  else f_set_status x.2 (error_to_connect_to_server, []) s.

Fixpoint visit_all (callbacks : nat -> list callback) (l : list (Z * connection)) (n : nat) (s : sstate) : sstate :=
  match l with
  | [] => s
  | x :: l' => visit_all callbacks l' (S n) (foldl on_status (visit_status x s) (callbacks n))
  end.

(** The servers that have no status at the end have not answered in time. *)
Definition get_servers_statuses (callbacks : nat -> list callback) (identy0 : Z) : list read_responce :=
  let s := visit_all callbacks (indexed clients) 0 (SState ∅ [] [] 0 identy0) in
  st_items (foldl (fun s c => f_set_status c (timeout, []) s) s clients).
End statuses.

(** ** [get_free_size_servers], [get_all_files] and [get_tcp_statuses] *)

Section free.
Context (v : view).

Record fstate := FState { fr_indexes : list Z; fr_sent : list request; fr_awaiting : Z; fr_identy : Z }.

Definition on_free (s : fstate) (cb : callback) : fstate :=
  match list_find (fun r => rq_index r = cb_index cb) (fr_sent s) with
  | Some (_, r) =>
      let found := match cb with
                   | Replied i message _ => match good_reply (rq_identy r) message with Some _ => [i] | None => [] end
                   | NotSent _ => []
                   end in
      FState (fr_indexes s ++ found) (fr_sent s) (fr_awaiting s - 1) (fr_identy s)
  | None => s
  end.

Fixpoint visit_free (callbacks : nat -> list callback) (l : list (Z * connection)) (n : nat) (s : fstate) : fstate :=
  match l with
  | [] => s
  | x :: l' =>
      let s := if usable v x.1 then
                 let identy := next_identy (fr_identy s) in
                 FState (fr_indexes s) (fr_sent s ++ [MkRequest x.1 identy (lit "03" ++ to_string identy)]) (fr_awaiting s + 1) identy
               else s in
      visit_free callbacks l' (S n) (foldl on_free s (callbacks n))
  end.

Definition get_free_size_servers (callbacks : nat -> list callback) (clients : list connection) (identy0 : Z) : list Z :=
  fr_indexes (visit_free callbacks (indexed clients) 0 (FState [] [] 0 identy0)).
End free.

(** [get_all_files]: the server, the message to it, and the content after the messages that came
    while the client waited.  Sockets are looked at, timeouts are not. *)
Definition get_all_files (inflate : bytes -> option bytes) (clients : list connection) (v : view) (ip identy0 : Z) (contain content : bytes)
    (messages : list bytes) : read_res * Z * bytes * option request :=
  match list_find (fun x => v_socket v x.1 = connected /\ cn_uip x.2 = ip) (indexed clients) with
  | None => (servers_not_found, 0, content, None)
  | Some (_, (i, c)) =>
      let identy := next_identy identy0 in
      let r := MkRequest i identy (lit "06" ++ to_string identy ++ contain) in
      let replies := omap (good_reply identy) messages in
      match last replies with
      | Some content => (read_ok, cn_uip c, decompress inflate content, Some r)
      | None => (fail, 0, content, Some r)
      end
  end.

Definition get_tcp_statuses (clients : list connection) (v : view) : list (socket_status * Z) :=
  (fun x => (v_socket v x.1, cn_uip x.2)) <$> indexed clients.

(** ** Every server has one status *)

Lemma omap_same {A B} (f g : A -> option B) (l : list A) : (forall z, z ∈ l -> g z = f z) -> omap g l = omap f l.
Proof.
  induction l as [|u l IH]; intros Hs; [done|]. cbn. rewrite (Hs u) by left. rewrite IH; [done|]. intros w Hw. apply Hs. by right.
Qed.

(** One more element has a value. *)
Lemma omap_one {A B} (f g : A -> option B) (l : list A) x y : NoDup l -> x ∈ l -> f x = None -> g x = Some y -> (forall z, z ∈ l -> z <> x -> g z = f z) ->
  omap g l ≡ₚ y :: omap f l.
Proof.
  intros Hd Hx Hf Hg Hs. induction Hd as [|z l Hz Hd IH]; [set_solver|]. apply elem_of_cons in Hx as [<-|Hx].
  - cbn. rewrite Hf, Hg. constructor. erewrite omap_same; [done|]. intros w Hw. apply Hs; [by right|]. intros ->. done.
  - cbn. rewrite (Hs z) by (by left || by intros ->).
    destruct (f z); rewrite IH by (done || (intros w Hw; apply Hs; by right)); [apply Permutation_swap|done].
Qed.

Lemma list_find_snoc {A} (P : A -> Prop) `{!forall x, Decision (P x)} (l : list A) x :
  snd <$> list_find P (l ++ [x]) = match snd <$> list_find P l with Some y => Some y | None => if decide (P x) then Some x else None end.
Proof.
  induction l as [|y l IH]; cbn; [by destruct (decide (P x))|]. destruct (decide (P y)); [done|].
  transitivity (snd <$> list_find P (l ++ [x])); [by destruct (list_find P (l ++ [x])) as [[]|]|]. rewrite IH. by destruct (list_find P l) as [[]|].
Qed.

Section complete.
Context (clients : list connection) (q : question) (v : view) (callbacks : nat -> list callback) (identy0 : Z).

Definition count_identy (identy : Z) (i : Z) : Z := if usable v i then next_identy identy else identy.
(** The last identity given out when the servers below [n] were visited. *)
Definition identy_before (n : nat) : Z := foldl count_identy identy0 (seqZ 0 (Z.of_nat n)).
(** The identity of the question to a server. *)
Definition identy_of (i : Z) : Z := identy_before (S (Z.to_nat i)).

(** What is known about a server after the callbacks [seen i] since it was visited: the first of
    its own callbacks counts. *)
Definition decided (seen : Z -> list callback) (i : Z) : option (read_res * bytes) :=
  if usable v i then judge q (identy_of i) <$> (snd <$> list_find (fun cb => cb_index cb = i) (seen i))
  else Some (error_to_connect_to_server, []).

Definition status_item (c : connection) (r : read_res * bytes) : read_responce := ReadResponce r.1 (cn_uip c) r.2 (cn_group c).
Definition item_for (seen : Z -> list callback) (x : Z * connection) : option read_responce := status_item x.2 <$> decided seen x.1.

Record sinv (n : nat) (seen : Z -> list callback) (s : sstate) : Prop := {
  si_sent : forall r, r ∈ st_sent s -> 0 <= rq_index r < Z.of_nat n /\ usable v (rq_index r) = true /\ rq_identy r = identy_of (rq_index r);
  si_asked : forall i, 0 <= i < Z.of_nat n -> usable v i = true -> exists r, r ∈ st_sent s /\ rq_index r = i;
  si_identy : st_identy s = identy_before n;
  si_set : forall i c, (i, c) ∈ indexed clients -> cn_ip c ∈ st_set s <-> i < Z.of_nat n /\ is_Some (decided seen i);
  si_items : st_items s ≡ₚ omap (item_for seen) (take n (indexed clients)) }.

Hypothesis distinct : NoDup (cn_ip <$> clients).

Lemma same_ip i j c d : (i, c) ∈ indexed clients -> (j, d) ∈ indexed clients -> cn_ip c = cn_ip d -> i = j.
Proof.
  intros [Hi Hc]%elem_of_indexed [Hj Hd]%elem_of_indexed E. enough (Z.to_nat i = Z.to_nat j) by lia.
  apply (NoDup_lookup (cn_ip <$> clients) _ _ (cn_ip c)); [done| |]; rewrite list_lookup_fmap; [by rewrite Hc|by rewrite Hd, E].
Qed.

Lemma lookup_indexed {A} (l : list A) n x : l !! n = Some x -> indexed l !! n = Some (Z.of_nat n, x).
Proof. intros E. unfold indexed. by rewrite list_lookup_imap, E. Qed.

Lemma NoDup_take_indexed n : NoDup (take n (indexed clients)).
Proof. eapply sublist_NoDup; [|apply sublist_take]. apply (NoDup_fmap_1 fst), NoDup_indexed. Qed.

Lemma elem_of_take_indexed n i c : (i, c) ∈ take n (indexed clients) <-> (i, c) ∈ indexed clients /\ i < Z.of_nat n.
Proof.
  rewrite list_elem_of_lookup. split.
  - intros (k & [Hk Hl]%lookup_take_Some). unfold indexed in Hk. rewrite list_lookup_imap in Hk. apply fmap_Some in Hk as (d & Hd & [= -> ->]).
    split; [|lia]. apply elem_of_indexed. split; [lia|]. by rewrite Nat2Z.id.
  - intros [[Hi Hc]%elem_of_indexed Hn]. exists (Z.to_nat i). rewrite lookup_take_lt by lia. rewrite (lookup_indexed _ _ _ Hc). do 2 f_equal. lia.
Qed.

Lemma sinv_ext n seen seen' s : (forall i, 0 <= i -> seen i = seen' i) -> sinv n seen s -> sinv n seen' s.
Proof.
  intros He [H1 H2 H3 H4 H5]. assert (Hd : forall i, 0 <= i -> decided seen' i = decided seen i) by (intros i Hi; unfold decided; by rewrite He).
  split; try done.
  - intros i c Hx. pose proof (proj1 (elem_of_indexed _ _ _) Hx) as [Hi _]. rewrite (H4 i c Hx), (Hd i Hi). done.
  - rewrite H5. rewrite (omap_same (item_for seen) (item_for seen')); [done|]. intros [i c] [Hx _]%elem_of_take_indexed. apply elem_of_indexed in Hx as [Hi _].
    unfold item_for. cbn. by rewrite Hd.
Qed.

(** A status for a visited server. *)
Lemma f_set_status_inv n seen seen' s i c r : sinv n seen s -> (i, c) ∈ indexed clients -> i < Z.of_nat n ->
  (forall j, 0 <= j -> j <> i -> decided seen' j = decided seen j) -> decided seen' i = Some (default r (decided seen i)) ->
  sinv n seen' (f_set_status c r s).
Proof.
  intros [H1 H2 H3 H4 H5] Hx Hn Hs Hi. pose proof (proj1 (elem_of_indexed _ _ _) Hx) as [Hi0 _]. unfold f_set_status.
  assert (Hmem : cn_ip c ∈ st_set s <-> is_Some (decided seen i)) by (rewrite (H4 i c Hx); tauto). case_bool_decide as Hin.
  - apply Hmem in Hin as [r0 Hr0]. rewrite Hr0 in Hi. cbn in Hi. unfold id in Hi.
    assert (Hsame : forall j, 0 <= j -> decided seen' j = decided seen j) by (intros j Hj; destruct (decide (j = i)) as [->|Hne]; [congruence|by apply Hs]).
    split; try done.
    + intros j d Hj. pose proof (proj1 (elem_of_indexed _ _ _) Hj) as [Hj0 _]. rewrite (H4 j d Hj), Hsame by done. done.
    + rewrite H5. rewrite (omap_same (item_for seen) (item_for seen')); [done|]. intros [j d] [Hj _]%elem_of_take_indexed. apply elem_of_indexed in Hj as [Hj _].
      unfold item_for. cbn. by rewrite Hsame.
  - destruct (decided seen i) as [r0|] eqn:E; [by destruct Hin; apply Hmem|]. cbn in Hi. unfold id in Hi. split; cbn; try done.
    + intros j d Hj. pose proof (proj1 (elem_of_indexed _ _ _) Hj) as [Hj0 _]. rewrite elem_of_union, elem_of_singleton, (H4 j d Hj).
      destruct (decide (j = i)) as [->|Hne]; [|rewrite Hs by done; split; [|tauto]; intros [Eip|]; [|done]; by destruct Hne; eapply same_ip].
      rewrite Hi. split; [done|]. intros _. left. apply elem_of_indexed in Hj as [_ Hj], Hx as [_ Hx]. congruence.
    + rewrite H5. rewrite (omap_one (item_for seen) (item_for seen') _ (i, c) (status_item c r)); [by rewrite Permutation_app_comm|apply NoDup_take_indexed| | | |].
      * by apply elem_of_take_indexed.
      * unfold item_for. cbn. by rewrite E.
      * unfold item_for. cbn. by rewrite Hi.
      * intros [j d] [Hj _]%elem_of_take_indexed Hne. unfold item_for. cbn. pose proof (proj1 (elem_of_indexed _ _ _) Hj) as [Hj0 _]. rewrite Hs; [done|done|].
        intros ->. apply Hne. f_equal. apply elem_of_indexed in Hj as [_ Hj], Hx as [_ Hx]. congruence.
Qed.

Lemma identy_before_S n : identy_before (S n) = count_identy (identy_before n) (Z.of_nat n).
Proof. unfold identy_before. replace (Z.of_nat (S n)) with (Z.of_nat n + 1) by lia. rewrite seqZ_app, foldl_app by lia. done. Qed.

Lemma take_S_indexed n c : clients !! n = Some c -> take (S n) (indexed clients) = take n (indexed clients) ++ [(Z.of_nat n, c)].
Proof. intros E. apply take_S_r. by apply lookup_indexed. Qed.

Lemma visit_status_inv n seen s c : clients !! n = Some c -> (forall i, Z.of_nat n <= i -> seen i = []) -> sinv n seen s ->
  sinv (S n) seen (visit_status q v (Z.of_nat n, c) s).
Proof.
  intros Hc Hnew [H1 H2 H3 H4 H5]. unfold visit_status. cbn [fst snd].
  assert (Hx : (Z.of_nat n, c) ∈ indexed clients) by (apply elem_of_indexed; split; [lia|by rewrite Nat2Z.id]).
  assert (Hid : identy_of (Z.of_nat n) = count_identy (identy_before n) (Z.of_nat n)) by (unfold identy_of; rewrite Nat2Z.id; apply identy_before_S).
  assert (Hsn : forall i, 0 <= i < Z.of_nat (S n) -> i = Z.of_nat n \/ 0 <= i < Z.of_nat n) by lia.
  destruct (usable v (Z.of_nat n)) eqn:Eu.
  - assert (Hd : decided seen (Z.of_nat n) = None) by (unfold decided; by rewrite Eu, Hnew by lia). split; cbn.
    + intros r [Hr| ->%list_elem_of_singleton]%elem_of_app; [destruct (H1 r Hr) as (? & ? & ?); split_and!; [lia|lia|done|done]|].
      cbn. rewrite Hid. unfold count_identy. rewrite Eu, H3. split_and!; [lia|lia|done|done].
    + intros i [->|Hi]%Hsn Hu; [eexists; split; [apply elem_of_app; right; by left|done]|].
      destruct (H2 i Hi Hu) as (r & Hr & Er). exists r. split; [set_solver|done].
    + rewrite identy_before_S. unfold count_identy. by rewrite Eu, H3.
    + intros i d Hi. rewrite (H4 i d Hi). split; [intros [? ?]; split; [lia|done]|]. intros [Hl Hs]. split; [|done].
      destruct (decide (i = Z.of_nat n)) as [->|]; [|lia]. rewrite Hd in Hs. by destruct Hs.
    + rewrite (take_S_indexed n c Hc), omap_app, H5. cbn. unfold item_for at 3. cbn. rewrite Hd. cbn. by rewrite app_nil_r.
  - assert (Hd : decided seen (Z.of_nat n) = Some (error_to_connect_to_server, [])) by (unfold decided; by rewrite Eu).
    assert (Hout : cn_ip c ∉ st_set s) by (rewrite (H4 _ c Hx); lia). unfold f_set_status. rewrite bool_decide_false by done. split; cbn.
    + intros r Hr. destruct (H1 r Hr) as (? & ? & ?). split_and!; [lia|lia|done|done].
    + intros i [->|Hi]%Hsn Hu; [congruence|auto].
    + rewrite identy_before_S. unfold count_identy. by rewrite Eu, H3.
    + intros i d Hi. rewrite elem_of_union, elem_of_singleton, (H4 i d Hi). destruct (decide (i = Z.of_nat n)) as [->|Hne].
      * rewrite Hd. split; [intros _; split; [lia|by eexists]|]. intros _. left. apply elem_of_indexed in Hi as [_ Hi], Hx as [_ Hx]. congruence.
      * split; [intros [Eip|[? ?]]; [by destruct Hne; eapply same_ip|split; [lia|done]]|]. intros [? ?]. right. split; [lia|done].
    + rewrite (take_S_indexed n c Hc), omap_app, H5. cbn. unfold item_for at 3. cbn. by rewrite Hd.
Qed.

Lemma on_status_inv n seen s cb : sinv n seen s -> (n <= length clients)%nat ->
  sinv n (fun i => if i <? Z.of_nat n then seen i ++ [cb] else seen i) (on_status clients q s cb).
Proof.
  intros Hs Hn. set (seen' := fun i => _). set (i := cb_index cb).
  assert (Hd : forall j, j <> i \/ Z.of_nat n <= j \/ usable v j = false -> decided seen' j = decided seen j).
  { intros j Hj. unfold decided, seen'. destruct (usable v j); [|done]. destruct (Z.ltb_spec j (Z.of_nat n)); [|done]. rewrite list_find_snoc.
    destruct (snd <$> list_find _ (seen j)) as [x|]; [done|]. rewrite decide_False; [done|]. fold i. intros <-. destruct Hj as [?|[?|?]]; [done|lia|done]. }
  assert (Hkeep : (Z.of_nat n <= i \/ i < 0 \/ usable v i = false) -> sinv n seen' s).
  { intros Hi. destruct Hs as [H1 H2 H3 H4 H5]. assert (He : forall j, 0 <= j -> decided seen' j = decided seen j).
    { intros j Hj. destruct (decide (j = i)) as [->|]; [|by apply Hd; left]. apply Hd. right. destruct Hi as [?|[?|?]]; [by left|lia|by right]. }
    split; try done.
    - intros j d Hj. pose proof (proj1 (elem_of_indexed _ _ _) Hj) as [Hj0 _]. rewrite (H4 j d Hj), He by done. done.
    - rewrite H5. rewrite (omap_same (item_for seen) (item_for seen')); [done|]. intros [j d] [Hj _]%elem_of_take_indexed. apply elem_of_indexed in Hj as [Hj _].
      unfold item_for. cbn. by rewrite He. }
  unfold on_status. fold i. destruct (list_find _ (st_sent s)) as [[k r]|] eqn:E.
  - apply list_find_Some in E as (Hr%list_elem_of_lookup_2 & Ei & _). destruct (si_sent _ _ _ Hs r Hr) as (Hi & Hu & Hid). rewrite Ei in *.
    destruct (lookup_lt_is_Some_2 clients (Z.to_nat i)) as [c Hc]; [lia|]. rewrite Hc.
    assert (Hx : (i, c) ∈ indexed clients) by (apply elem_of_indexed; split; [lia|done]).
    enough (Hf : sinv n seen' (f_set_status c (judge q (rq_identy r) cb) s)) by (destruct Hf; by split).
    apply (f_set_status_inv n seen seen' s i); try done; [lia|by intros j _ Hj; apply Hd; left|].
    unfold decided. rewrite Hu. unfold seen'. rewrite (proj2 (Z.ltb_lt _ _)) by lia. rewrite list_find_snoc.
    destruct (snd <$> list_find _ (seen i)) as [x|]; [done|]. rewrite decide_True by done. cbn. by rewrite Hid.
  - apply Hkeep. destruct (decide (0 <= i < Z.of_nat n)); [|lia]. right. right. destruct (usable v i) eqn:Eu; [|done].
    destruct (si_asked _ _ _ Hs i ltac:(lia) Eu) as (r & Hr & Ei). apply list_find_None in E. rewrite Forall_forall in E. by destruct (E r Hr).
Qed.

(** The callbacks since the visit of a server, after the visits of [n] servers. *)
Definition since (n : nat) (i : Z) : list callback :=
  if i <? Z.of_nat n then mjoin (callbacks <$> seq (Z.to_nat i) (n - Z.to_nat i)) else [].

Lemma since_S n i : 0 <= i -> since (S n) i = if i <? Z.of_nat (S n) then since n i ++ callbacks n else since n i.
Proof using.
  intros Hj. unfold since. destruct (Z.ltb_spec i (Z.of_nat n)) as [Hlj|Hlj]; (destruct (Z.ltb_spec i (Z.of_nat (S n))); [|try lia]).
  - replace (S n - Z.to_nat i)%nat with (S (n - Z.to_nat i)) by lia. rewrite seq_S, fmap_app, join_app. cbn. rewrite app_nil_r. do 2 f_equal. f_equal. lia.
  - replace (S n - Z.to_nat i)%nat with 1%nat by lia. cbn. rewrite app_nil_r. f_equal. lia.
  - done.
Qed.

Lemma on_statuses_inv es n seen s : sinv n seen s -> (n <= length clients)%nat ->
  sinv n (fun i => if i <? Z.of_nat n then seen i ++ es else seen i) (foldl (on_status clients q) s es).
Proof.
  revert seen s. induction es as [|cb es IH]; intros seen s Hs Hn; cbn [foldl].
  - eapply sinv_ext; [|exact Hs]. intros i _. cbn. destruct (_ <? _); by rewrite ?app_nil_r.
  - eapply sinv_ext; [|apply IH; [by apply on_status_inv|done]]. intros i _. cbn. destruct (_ <? _); [by rewrite <- app_assoc|done].
Qed.

Lemma visit_all_inv l : forall n s, drop n (indexed clients) = l -> (n <= length clients)%nat -> sinv n (since n) s ->
  sinv (length clients) (since (length clients)) (visit_all clients q v callbacks l n s).
Proof.
  assert (Hli : length (indexed clients) = length clients) by apply length_imap.
  induction l as [|[i c] l IH]; intros n s Hl Hn Hs; cbn [visit_all].
  - apply (f_equal length) in Hl. rewrite length_drop, Hli in Hl. cbn in Hl. by replace (length clients) with n by lia.
  - assert (Hx : indexed clients !! n = Some (i, c)) by (rewrite <- (Nat.add_0_r n), <- lookup_drop, Hl; done).
    pose proof (lookup_lt_Some _ _ _ Hx) as Hlt. rewrite Hli in Hlt. unfold indexed in Hx. rewrite list_lookup_imap in Hx. apply fmap_Some in Hx as (c' & Hc & [= -> <-]).
    apply IH; [|lia|].
    + replace (S n) with (n + 1)%nat by lia. rewrite <- drop_drop, Hl. done.
    + eapply sinv_ext; [|apply on_statuses_inv; [apply visit_status_inv; [exact Hc| |exact Hs]|lia]].
      * intros j Hj. cbn. by rewrite since_S.
      * intros j Hj. unfold since. by rewrite (proj2 (Z.ltb_ge _ _)).
Qed.

(** The verdict on a server: its first callback counts, of those since it was visited. *)
Definition verdict (i : Z) : read_res * bytes :=
  if usable v i then
    match list_find (fun cb => cb_index cb = i) (mjoin (callbacks <$> seq (Z.to_nat i) (length clients - Z.to_nat i))) with
    | Some (_, cb) => judge q (identy_of i) cb
    | None => (timeout, [])
    end
  else (error_to_connect_to_server, []).

Lemma decided_verdict i c : (i, c) ∈ indexed clients -> verdict i = default (timeout, []) (decided (since (length clients)) i).
Proof.
  intros [Hi Hc]%elem_of_indexed. apply lookup_lt_Some in Hc. unfold verdict, decided, since. destruct (usable v i); [|done].
  rewrite (proj2 (Z.ltb_lt _ _)) by lia. by destruct (list_find _ _) as [[]|].
Qed.

(** The rest of the servers: a status for those not decided. *)
Lemma finish_inv l : forall (known : Z -> option (read_res * bytes)) s,
  NoDup l -> (forall x, x ∈ l -> x ∈ indexed clients) ->
  (forall i c, (i, c) ∈ indexed clients -> cn_ip c ∈ st_set s <-> is_Some (known i)) ->
  st_items s ≡ₚ omap (fun x => status_item x.2 <$> known x.1) (indexed clients) ->
  st_items (foldl (fun s x => f_set_status x.2 (timeout, []) s) s l) ≡ₚ
    omap (fun x => status_item x.2 <$> (if bool_decide (x ∈ l) then Some (default (timeout, []) (known x.1)) else known x.1)) (indexed clients).
Proof.
  induction l as [|[i c] l IH]; intros known s Hd Hl Hset Hit; cbn [foldl].
  - rewrite Hit. erewrite omap_same; [done|]. intros x Hx. cbn. by rewrite bool_decide_false by set_solver.
  - apply NoDup_cons in Hd as [Hn Hd]. cbn [snd]. assert (Hx : (i, c) ∈ indexed clients) by (apply Hl; by left).
    set (known' := fun j => if decide (j = i) then Some (default (timeout, []) (known i)) else known j).
    assert (Huniq : forall d, (i, d) ∈ indexed clients -> d = c) by (intros d [_ E1]%elem_of_indexed; apply elem_of_indexed in Hx as [_ E2]; congruence).
    rewrite (IH known'); [| done | intros x Hx'; apply Hl; by right | |].
    + erewrite omap_same; [done|]. intros [j d] Hj. cbn. f_equal. unfold known'. destruct (decide (j = i)) as [->|Hne].
      * rewrite (Huniq d Hj), (bool_decide_false ((i, c) ∈ l)), (bool_decide_true ((i, c) ∈ (i, c) :: l)) by (done || by left). done.
      * destruct (decide ((j, d) ∈ l)); [rewrite !bool_decide_true by (done || by right); done|]. rewrite !bool_decide_false; [done| |done].
        rewrite elem_of_cons. intros [[= ]|]; done.
    + intros j d Hj. unfold f_set_status. case_bool_decide as Hin.
      * unfold known'. rewrite (Hset j d Hj). destruct (decide (j = i)) as [->|]; [|done]. apply (Hset i c Hx) in Hin. split; [by eexists|done].
      * cbn. rewrite elem_of_union, elem_of_singleton, (Hset j d Hj). unfold known'. destruct (decide (j = i)) as [->|Hne].
        -- rewrite (Huniq d Hj). split; [by eexists|by left].
        -- split; [intros [E|]; [by destruct Hne; eapply same_ip|done]|by right].
    + unfold f_set_status. case_bool_decide as Hin.
      * apply (Hset i c Hx) in Hin as [r Hr]. rewrite Hit. erewrite omap_same; [done|]. intros [j d] Hj. cbn. unfold known'. destruct (decide (j = i)) as [->|]; [by rewrite Hr|done].
      * assert (Hk : known i = None) by (destruct (known i) eqn:E; [destruct Hin; apply (Hset i c Hx); by rewrite E|done]). cbn. rewrite Hit.
        rewrite (omap_one (fun x => status_item x.2 <$> known x.1) (fun x => status_item x.2 <$> known' x.1) _ (i, c) (status_item c (timeout, [])));
          [by rewrite Permutation_app_comm|apply (NoDup_fmap_1 fst), NoDup_indexed|done| | |].
        -- cbn. by rewrite Hk.
        -- cbn. unfold known'. rewrite decide_True by done. by rewrite Hk.
        -- intros [j d] Hj Hne. cbn. unfold known'. rewrite decide_False; [done|]. intros ->. apply Hne. f_equal. by apply Huniq.
Qed.

Lemma statuses_all : get_servers_statuses clients q v callbacks identy0 ≡ₚ (fun x => status_item x.2 (verdict x.1)) <$> indexed clients.
Proof.
  unfold get_servers_statuses.
  assert (Hinv : sinv (length clients) (since (length clients)) (visit_all clients q v callbacks (indexed clients) 0 (SState ∅ [] [] 0 identy0))).
  { apply visit_all_inv; [done|lia|]. split; cbn; try done; [set_solver|lia|]. intros i c [Hi _]%elem_of_indexed. split; [set_solver|lia]. }
  destruct Hinv as [_ _ _ H4 H5]. set (s := visit_all _ _ _ _ _ _ _) in *.
  assert (Hfst : forall (l : list connection) k s, foldl (fun s c => f_set_status c (timeout, []) s) s l = foldl (fun s x => f_set_status x.2 (timeout, []) s) s (imap (fun n c => (Z.of_nat (k + n), c)) l)).
  { clear. induction l as [|c l IH]; intros k s; [done|]. cbn [foldl imap]. rewrite (IH (S k)). cbn. f_equal. apply imap_ext. intros n x _. cbn. f_equal. lia. }
  rewrite (Hfst clients 0%nat). change (imap _ clients) with (indexed clients).
  rewrite (finish_inv (indexed clients) (decided (since (length clients)))).
  - assert (E : forall l : list (Z * connection), (forall x, x ∈ l -> x ∈ indexed clients) ->
      omap (fun x => status_item x.2 <$> (if bool_decide (x ∈ indexed clients) then Some (default (timeout, []) (decided (since (length clients)) x.1)) else decided (since (length clients)) x.1)) l =
      (fun x => status_item x.2 (verdict x.1)) <$> l); [|by rewrite E].
    induction l as [|[i c] l IH]; intros Hl; [done|]. cbn. rewrite bool_decide_true by (apply Hl; by left). cbn. rewrite (decided_verdict i c) by (apply Hl; by left).
    f_equal. apply IH. intros x Hx. apply Hl. by right.
  - apply (NoDup_fmap_1 fst), NoDup_indexed.
  - done.
  - intros i c Hx. rewrite (H4 i c Hx). apply elem_of_indexed in Hx as [Hi Hc%lookup_lt_Some]. split; [tauto|]. intros ?. split; [lia|done].
  - rewrite H5. rewrite take_ge; [done|]. unfold indexed. rewrite length_imap. lia.
Qed.
End complete.

(** C12: [get_servers_statuses] and [get_servers_ping] report every server exactly once, whenever
    callbacks run: one that cannot be used as not connected, and another one as its first callback
    since the question says, or as timed out when there was none.  If the first callback of a server
    is its answer to the question, the report is the success and the text of the server. *)
Theorem statuses_complete `{JEnv} `{JdbEngine} (inflate : bytes -> option bytes) (shash : bytes -> Z)
    (decrypt : bytes -> bytes -> bytes -> bytes) (get_hash_of_file : fs -> bytes -> Z) (opens : bytes -> bool) (file_names : fs -> bytes -> list bytes)
    (clients : list connection) (q : question) (v : view) (callbacks : nat -> list callback) (identy0 : Z) :
  NoDup (cn_ip <$> clients) -> five_digits identy0 ->
  get_servers_statuses clients q v callbacks identy0 ≡ₚ
    (fun x => status_item x.2 (verdict clients q v callbacks identy0 x.1)) <$> indexed clients /\
  forall i c m n k reply elapsed, (i, c) ∈ indexed clients -> usable v i = true ->
    on_message inflate shash decrypt get_hash_of_file opens file_names m true (question_code q ++ to_string (identy_of v identy0 i)) n =
      Some (true, [Reply reply], n) ->
    list_find (fun cb => cb_index cb = i) (mjoin (callbacks <$> seq (Z.to_nat i) (length clients - Z.to_nat i))) = Some (k, Replied i reply elapsed) ->
    verdict clients q v callbacks identy0 i =
      (read_ok, match q with ask_status => drop 9 (do_stat (to_string (identy_of v identy0 i)) n) | ask_ping => to_string elapsed end).
Proof.
  intros Hd Hi. split; [by apply statuses_all|]. intros i c m n k reply elapsed _ Hu Hm Hf. unfold verdict. rewrite Hu, Hf. unfold judge.
  assert (Hid : five_digits (identy_of v identy0 i)).
  { unfold identy_of, identy_before. generalize (seqZ 0 (Z.of_nat (S (Z.to_nat i)))) as l. intros l. revert identy0 Hi Hm Hf. clear. intros identy0 Hi _ _.
    revert identy0 Hi. induction l as [|j l IH]; intros identy0 Hi; [done|]. cbn [foldl]. apply IH. unfold count_identy. destruct (usable v j); [by apply next_identy_digits|done]. }
  set (id := identy_of v identy0 i) in *. pose proof (length_identy id Hid) as Hl.
  assert (Hgood : forall (a b : byte) rest, good_reply id (a :: b :: lit "01" ++ to_string id ++ rest) = Some rest).
  { intros a b rest. unfold good_reply. rewrite (proj2 (Z.leb_le _ _)) by (cbn [length]; rewrite !length_app, Hl; cbn; lia).
    change (lit "01") with [x30; x31]. cbn [app drop take]. rewrite drop_0, firstn_O.
    assert (E : take 5 (to_string id ++ rest) = to_string id /\ drop 5 (to_string id ++ rest) = rest) by (rewrite <- Hl; split; [apply take_app_length|apply drop_app_length]).
    destruct E as [-> ->]. by rewrite !bool_decide_true. }
  destruct q; cbn [question_code] in Hm; rewrite <- (app_nil_r (to_string id)) in Hm.
  - change (lit "05") with [x30; x35] in Hm. cbn [app] in Hm. rewrite on_request in Hm by done. change (default 0 (stoi I32 [x30; x35])) with 5 in Hm.
    cbn [dispatch mbind option_bind] in Hm. injection Hm as <-. unfold do_stat. change (lit "0501") with (x30 :: x35 :: lit "01"). cbn [app]. rewrite Hgood.
    do 2 f_equal. change (lit "01") with [x30; x31]. cbn [app drop]. rewrite <- Hl. by rewrite drop_app_length.
  - change (lit "26") with [x32; x36] in Hm. cbn [app] in Hm. rewrite on_request in Hm by done. change (default 0 (stoi I32 [x32; x36])) with 26 in Hm.
    cbn [dispatch mbind option_bind] in Hm. injection Hm as <-.
    specialize (Hgood x32 x36 []). rewrite app_nil_r in Hgood. change (lit "01") with [x30; x31] in Hgood. cbn [app] in Hgood. by rewrite Hgood.
Qed.

(** Three servers: one answers, one is not connected, one is silent. *)
Definition ex_callbacks (n : nat) : list callback :=
  match n with 2%nat => [Replied 0 (lit "260110001") 7] | _ => [] end.

Example ex_ping :
  (fun r => (rr_status r, rr_ip r, rr_data r)) <$> get_servers_statuses (take 3 ex_connections) ask_ping (ex_view [1]) ex_callbacks 10000 =
  [(error_to_connect_to_server, 167772162, []); (read_ok, 167772161, lit "7"); (timeout, 167772163, [])].
Proof. vm_compute. reflexivity. Qed.

(** Another message that comes before the answer, such as an event, makes the server be reported as failed. *)
Lemma status_other_message :
  get_servers_statuses (take 1 ex_connections) ask_ping (ex_view []) (fun _ => [Replied 0 (lit "11|event") 1; Replied 0 (lit "260110001") 7]) 10000 =
  [ReadResponce error_read_responce_from_server 167772161 [] 1].
Proof. vm_compute. reflexivity. Qed.

#[local] Instance requests_env : JEnv :=
  {| hash := fun _ => 7; mktime := fun _ _ _ _ _ _ => 0; compress_string := fun s => s; decompress_string := fun s => s;
     visit := fun A m => map_to_list m; visit_offsets := map_to_list |}.
#[local] Existing Instance no_jdb.

Lemma statuses_complete_witness :
  get_servers_statuses (take 3 ex_connections) ask_ping (ex_view [1]) ex_callbacks 10000 ≡ₚ
    (fun x => status_item x.2 (verdict (take 3 ex_connections) ask_ping (ex_view [1]) ex_callbacks 10000 x.1)) <$> indexed (take 3 ex_connections) /\
  forall i c m n k reply elapsed, (i, c) ∈ indexed (take 3 ex_connections) -> usable (ex_view [1]) i = true ->
    on_message ex_inflate (fun _ => 7) (fun c _ _ => c) (fun _ _ => 1) (fun _ => true) (fun _ _ => []) m true
      (question_code ask_ping ++ to_string (identy_of (ex_view [1]) 10000 i)) n = Some (true, [Reply reply], n) ->
    list_find (fun cb => cb_index cb = i) (mjoin (ex_callbacks <$> seq (Z.to_nat i) (length (take 3 ex_connections) - Z.to_nat i))) = Some (k, Replied i reply elapsed) ->
    verdict (take 3 ex_connections) ask_ping (ex_view [1]) ex_callbacks 10000 i = (read_ok, to_string elapsed).
Proof.
  apply (statuses_complete ex_inflate (fun _ => 7) (fun c _ _ => c) (fun _ _ => 1) (fun _ => true) (fun _ _ => [])
    (take 3 ex_connections) ask_ping (ex_view [1]) ex_callbacks 10000).
  - by apply (bool_decide_unpack _).
  - unfold five_digits. lia.
Defined.
