(* ===== verification/ClientCommand.v ===== *)
(** * Commands to several servers ([client::command] and [client::command_seq])

    A command goes to every server that can be used and belongs to it; callbacks collect the
    answers; the client waits, in rounds of ten milliseconds, until all have answered, enough
    have, or the time is over.  A server that lets the time pass is counted in its
    [timeout_detector], and one that answers is forgiven; so a server that does not answer for a
    while is left out of commands, writes and questions. *)

From S2P Require Import Prelude Bitbase BasefuncStd Compression Session WType Settings PoolClient ClientWrites ClientRequests.
From Stdlib Require Import ZArith Lia Strings.Byte.
From stdpp Require Import base gmap strings numbers sorting list.
Open Scope Z_scope.

#[export] Instance read_info_type_eq_dec : EqDecision read_info_type.
Proof. solve_decision. Defined.

Record cstate := CState { cm_infos : list (Z * read_info); cm_sent : list request; cm_awaiting : Z; cm_timeouts : gset Z; cm_identy : Z }.

(** What a command is asked for. *)
Record command_call := CommandCall {
  cc_type : read_info_type; cc_filename : bytes; cc_parts : Z; cc_timeout : Z; cc_groups : list Z; cc_pref : rw_preference; cc_only : gset Z }.

Section command.
Context (inflate : bytes -> option bytes) (call : command_call) (clients : list connection) (v : view).

Definition need_send (c : connection) : bool :=
  if bool_decide (cc_only call = ∅) then preferred (cc_pref call) (cc_groups call) c else bool_decide (cn_uip c ∈ cc_only call).

Definition asks (x : Z * connection) : bool := usable v x.1 && need_send x.2.

Definition visit_command (x : Z * connection) (s : cstate) : cstate :=
  if asks x then
    let identy := next_identy (cm_identy s) in
    CState (cm_infos s) (cm_sent s ++ [MkRequest x.1 identy (command_message (cc_type call) identy (cc_filename call))]) (cm_awaiting s + 1)
      ({[x.1]} ∪ cm_timeouts s) identy
  else s.

Definition is_mine (identy : Z) (message : bytes) : bool := (9 <=? zlen message) && bool_decide (take 5 (drop 4 message) = to_string identy).

Definition heard (i : Z) (s : cstate) : cstate := CState (cm_infos s) (cm_sent s) (cm_awaiting s) (cm_timeouts s ∖ {[i]}) (cm_identy s).
Definition one_done (news : list (Z * read_info)) (s : cstate) : cstate :=
  CState (cm_infos s ++ news) (cm_sent s) (cm_awaiting s - 1) (cm_timeouts s) (cm_identy s).

(** A callback; an exception leaves it before the answer is counted. *)
Definition on_command (s : cstate) (cb : callback) : cstate :=
  let i := cb_index cb in
  match list_find (fun r => rq_index r = i) (cm_sent s) with
  | None => s
  | Some (_, r) =>
      match cb with
      | NotSent _ => one_done [] (heard i s)
      | Replied _ message _ =>
          if is_mine (rq_identy r) message then
            match command_reply inflate (cc_type call) (rq_identy r) message with
            | Some (Some ri) => one_done [(i, ri)] (heard i s)
            | Some None => heard i s
            | None => one_done [] (heard i s)
            end
          else heard i s
      end
  end.

Fixpoint visit_commands (callbacks : nat -> list callback) (l : list (Z * connection)) (n : nat) (s : cstate) : cstate :=
  match l with
  | [] => s
  | x :: l' => visit_commands callbacks l' (S n) (foldl on_command (visit_command x s) (callbacks n))
  end.

(** ** Waiting *)

Definition count_parts_awaiting : Z :=
  if bool_decide (cc_type call ∈ [read_file_tms_newest; read_cdb_tms_newest; read_edb_events]) ||
     (bool_decide (cc_only call = ∅) && bool_decide (cc_type call = read_files_many))
  then max_val I32 else cc_parts call.

Definition loop_timeout_ms : Z := 10.

(** The [do] loop: whether the condition was met, and the state. *)
Fixpoint wait_loop (rounds : nat -> list callback) (fuel k : nat) (timeout_mili_sec : Z) (s : cstate) : option (bool * cstate) :=
  match fuel with
  | O => None
  | S fuel' =>
      let s := foldl on_command s (rounds k) in
      let is_cond := (cm_awaiting s =? 0) || (count_parts_awaiting <=? zlen (cm_infos s)) in
      let timeout_mili_sec := timeout_mili_sec - loop_timeout_ms in
      if negb is_cond && (0 <? timeout_mili_sec) then wait_loop rounds fuel' (S k) timeout_mili_sec s else Some (is_cond, s)
  end.

(** The detectors after the command: servers that answered are forgiven, servers that did not are
    counted when the time was over. *)
Definition after_wait (is_cond : bool) (s : cstate) (now : Z) (i : Z) : timeout_detector :=
  let d := v_timeout v i in
  if bool_decide (i ∈ rq_index <$> cm_sent s) then
    if bool_decide (i ∈ cm_timeouts s) then (if is_cond then d else (timeout_detected now d).1) else reset_timeout d
  else d.
End command.

Record command_result := CommandResult {
  cr_res : read_res; cr_infos : list (Z * read_info); cr_sent : list request; cr_in_time : bool; cr_timeouts : Z -> timeout_detector; cr_identy : Z }.

(** The end of [command]: for the newest write only one answer is kept. *)
Definition finish_command (call : command_call) (infos : list (Z * read_info)) : read_res * list (Z * read_info) :=
  if bool_decide (cc_type call ∈ [read_file_tms_newest; read_cdb_tms_newest]) then
    match newest (cc_parts call) infos.*2 ≫= (infos !!.) with
    | Some x => (read_ok, [x])
    | None => (count_tms_files_less_than_requeired, infos)
    end
  else (read_ok, infos).

(** [indexex] are the answers that the vector of the caller holds before; [now] is the time when
    the wait is over. *)
Definition command (inflate : bytes -> option bytes) (call : command_call) (clients : list connection) (v : view) (callbacks rounds : nat -> list callback)
    (now identy0 : Z) (indexex : list (Z * read_info)) : option command_result :=
  if bool_decide (cc_type call = file_info) && bool_decide (cc_pref call = any)
  then Some (CommandResult error_specify_the_group indexex [] true (v_timeout v) identy0)
  else
    let s := visit_commands inflate call v callbacks (indexed clients) 0 (CState indexex [] 0 ∅ identy0) in
    match cm_sent s with
    | [] => Some (CommandResult servers_not_found (cm_infos s) [] true (v_timeout v) (cm_identy s))
    | _ =>
        '(is_cond, s) ← wait_loop inflate call rounds (S (Z.to_nat (cc_timeout call))) 0 (cc_timeout call) s;
        let '(res, infos) := finish_command call (cm_infos s) in
        Some (CommandResult res infos (cm_sent s) is_cond (after_wait v is_cond s now) (cm_identy s))
    end.

(** ** [command_seq] *)

(** The world of one round: the time since the start, the choice of a server, and what the command sees. *)
Record world := World {
  w_elapsed : Z; w_turn : turn; w_view : view; w_callbacks : nat -> list callback; w_rounds : nat -> list callback; w_now : Z }.

Section sequence.
Context (inflate : bytes -> option bytes) (call : command_call) (clients : list connection) (timeout_general : Z) (to_all : bool) (worlds : nat -> world).

(** The command to one server. *)
Definition one_call (c : connection) : command_call :=
  CommandCall (cc_type call) (cc_filename call) 1 (Z.max 300 (cc_timeout call)) (cc_groups call) (cc_pref call) {[cn_uip c]}.

Fixpoint seq_loop (fuel k : nat) (p : pool) (used : gset Z) (identy : Z) (indexex : list (Z * read_info)) : option (read_res * list (Z * read_info)) :=
  match fuel with
  | O => None
  | S fuel' =>
      let wd := worlds k in
      if w_elapsed wd <? timeout_general then
        match pop_index_rand (t_group (w_turn wd)) (t_server (w_turn wd)) p used (-1) with
        | None => Some (if to_all && negb (bool_decide (length indexex = 0%nat)) then read_ok else file_not_found, indexex)
        | Some (ind, p, used) =>
            match clients !! Z.to_nat ind with
            | Some c =>
                if t_connected (w_turn wd) ind then
                  r ← command inflate (one_call c) clients (w_view wd) (w_callbacks wd) (w_rounds wd) (w_now wd) identy indexex;
                  if negb to_all && negb (bool_decide (length (cr_infos r) = 0%nat)) then Some (read_ok, cr_infos r)
                  else seq_loop fuel' (S k) p used (cr_identy r) (cr_infos r)
                else seq_loop fuel' (S k) p used identy indexex
            | None => None
            end
        end
      else Some (timeout, indexex)
  end.

Definition command_seq (v : view) (identy0 : Z) (indexex : list (Z * read_info)) : option (read_res * list (Z * read_info)) :=
  let l := filter (fun x => usable v x.1 && preferred (cc_pref call) (cc_groups call) x.2 && allowed (cc_only call) x.2) (indexed clients) in
  seq_loop (S (length l)) 0 (pool_of l) ∅ identy0 indexex.
End sequence.

(** ** What a command does *)

Section facts.
Context (inflate : bytes -> option bytes) (call : command_call) (clients : list connection) (v : view).

Abbreviation on := (on_command inflate call).

Lemma wait_loop_total rounds fuel : forall k t s, (Z.to_nat t < fuel)%nat -> is_Some (wait_loop inflate call rounds fuel k t s).
Proof.
  induction fuel as [|fuel IH]; intros k t s Hf; [lia|]. cbn [wait_loop]. destruct (negb _ && (0 <? t - loop_timeout_ms)) eqn:E; [|by eexists].
  apply andb_true_iff in E as [_ E%Z.ltb_lt]. apply IH. unfold loop_timeout_ms in *. lia.
Qed.

(** An answer that one of the messages seen from a server gives. *)
Definition answers (sent : list request) (seen : Z -> list callback) (x : Z * read_info) : Prop := exists r message elapsed,
  r ∈ sent /\ rq_index r = x.1 /\ Replied x.1 message elapsed ∈ seen x.1 /\ command_reply inflate (cc_type call) (rq_identy r) message = Some (Some x.2).

(** The state after the callbacks [seen i] of the servers since they were asked. *)
Record cinv (indexex : list (Z * read_info)) (seen : Z -> list callback) (s : cstate) : Prop := {
  ci_once : NoDup (rq_index <$> cm_sent s);
  ci_timeouts : forall i, i ∈ cm_timeouts s <-> i ∈ rq_index <$> cm_sent s /\ i ∉ cb_index <$> seen i;
  ci_infos : exists news, cm_infos s = indexex ++ news /\ forall x, x ∈ news <-> answers (cm_sent s) seen x }.

Lemma command_reply_mine identy message x : command_reply inflate (cc_type call) identy message = Some x -> is_mine identy message = true.
Proof. unfold command_reply, is_mine. by destruct (_ && _). Qed.

Lemma same_request (l : list request) r r' : NoDup (rq_index <$> l) -> r ∈ l -> r' ∈ l -> rq_index r = rq_index r' -> r = r'.
Proof.
  intros Hd [k Hk]%list_elem_of_lookup [k' Hk']%list_elem_of_lookup E.
  assert (k = k') as <-; [|congruence]. apply (NoDup_lookup (rq_index <$> l) _ _ (rq_index r)); [done| |]; rewrite list_lookup_fmap; [by rewrite Hk|by rewrite Hk', E].
Qed.

(** What a callback adds: the answer of its message, if it has one. *)
Definition news_of (s : cstate) (cb : callback) : list (Z * read_info) :=
  match list_find (fun r => rq_index r = cb_index cb) (cm_sent s), cb with
  | Some (_, r), Replied i message _ => match command_reply inflate (cc_type call) (rq_identy r) message with Some (Some ri) => [(i, ri)] | _ => [] end
  | _, _ => []
  end.

(** One callback: the requests stay, a server that calls is no longer waited for. *)
Lemma on_command_spec s cb : let s' := on s cb in
  cm_sent s' = cm_sent s /\ cm_infos s' = cm_infos s ++ news_of s cb /\
  cm_timeouts s' = (if bool_decide (cb_index cb ∈ rq_index <$> cm_sent s) then cm_timeouts s ∖ {[cb_index cb]} else cm_timeouts s).
Proof.
  cbv zeta. unfold on_command, news_of. destruct (list_find _ (cm_sent s)) as [[k r]|] eqn:E.
  - apply list_find_Some in E as (Hr%list_elem_of_lookup_2 & Ei & _). rewrite bool_decide_true by (apply list_elem_of_fmap; by exists r).
    destruct cb as [i message elapsed|i]; [|done]. cbn [cb_index] in *. destruct (is_mine _ _) eqn:Em.
    + by destruct (command_reply _ _ _ message) as [[ri|]|] eqn:Er; cbn; rewrite ?app_nil_r.
    + destruct (command_reply _ _ _ message) as [x|] eqn:Er; [apply command_reply_mine in Er; congruence|]. cbn. by rewrite app_nil_r.
  - rewrite app_nil_r, bool_decide_false; [done|]. intros (r & Ei & Hr)%list_elem_of_fmap. apply list_find_None in E. rewrite Forall_forall in E. by destruct (E r Hr).
Qed.

Lemma elem_of_news s cb x : NoDup (rq_index <$> cm_sent s) -> x ∈ news_of s cb <-> answers (cm_sent s) (fun _ => [cb]) x.
Proof.
  intros Hd. unfold news_of, answers. destruct x as [i ri]. cbn [fst snd]. split.
  - destruct (list_find _ _) as [[k r]|] eqn:E; [|set_solver]. apply list_find_Some in E as (Hr%list_elem_of_lookup_2 & Ei & _).
    destruct cb as [j message elapsed|j]; [|set_solver]. destruct (command_reply _ _ _ message) as [[rj|]|] eqn:Er; [|set_solver|set_solver].
    intros [= -> ->]%list_elem_of_singleton. exists r, message, elapsed. split_and!; try done. by left.
  - intros (r & message & elapsed & Hr & Ei & Hcb%list_elem_of_singleton & Er). subst cb. cbn [cb_index].
    destruct (list_find _ _) as [[k r']|] eqn:E.
    + apply list_find_Some in E as (Hr'%list_elem_of_lookup_2 & Ei' & _). rewrite (same_request _ r' r) by (done || congruence). rewrite Er. by left.
    + apply list_find_None in E. rewrite Forall_forall in E. by destruct (E r Hr).
Qed.

Lemma on_command_inv indexex seen s cb : cinv indexex seen s -> cinv indexex (fun i => seen i ++ [cb]) (on s cb).
Proof.
  intros [H1 H2 (news & H3 & H4)]. destruct (on_command_spec s cb) as (A1 & A2 & A3). cbv zeta in *. split; rewrite ?A1; [done| |].
  - intros i. rewrite A3, fmap_app. cbn [fmap list_fmap]. case_bool_decide; [rewrite elem_of_difference, elem_of_singleton|]; rewrite H2; [set_solver|].
    rewrite elem_of_app, list_elem_of_singleton. split; [|tauto]. intros [Hs Hn]. split; [done|]. intros [Hi|Hi]; [done|]. subst i. done.
  - exists (news ++ news_of s cb). split; [by rewrite A2, H3, app_assoc|]. intros x. rewrite elem_of_app, H4, elem_of_news by done. unfold answers. split.
    + intros [(r & m & el & Hr & Ei & Hin & E)|(r & m & el & Hr & Ei & Hin & E)]; exists r, m, el; rewrite elem_of_app; tauto.
    + intros (r & m & el & Hr & Ei & [Hin|Hin]%elem_of_app & E); [left|right]; by exists r, m, el.
Qed.

Lemma on_command_sent es : forall s, cm_sent (foldl on s es) = cm_sent s.
Proof. induction es as [|cb es IH]; intros s; cbn [foldl]; [done|]. rewrite IH. apply on_command_spec. Qed.

Lemma cinv_ext indexex seen seen' s : (forall i, i ∈ rq_index <$> cm_sent s -> seen i = seen' i) -> cinv indexex seen s -> cinv indexex seen' s.
Proof.
  intros He [H1 H2 (news & H3 & H4)]. split; [done| |].
  - intros i. rewrite H2. split; intros [Hs Hn]; (split; [done|]); [by rewrite <- He|by rewrite He].
  - exists news. split; [done|]. intros x. rewrite H4. unfold answers.
    split; intros (r & m & el & Hr & Ei & Hin & E); exists r, m, el; (split; [done|]); (split; [done|]); (split; [|done]);
      assert (Hx : x.1 ∈ rq_index <$> cm_sent s) by (apply list_elem_of_fmap; by exists r); [by rewrite <- He|by rewrite He].
Qed.

Lemma on_commands_inv indexex es : forall seen s, cinv indexex seen s -> cinv indexex (fun i => seen i ++ es) (foldl on s es).
Proof.
  induction es as [|cb es IH]; intros seen s Hs; cbn [foldl].
  - eapply cinv_ext; [|exact Hs]. intros i _. by rewrite app_nil_r.
  - eapply cinv_ext; [|apply IH, on_command_inv, Hs]. intros i _. cbn. by rewrite <- app_assoc.
Qed.

Lemma visit_command_inv indexex seen s x : cinv indexex seen s -> x.1 ∉ rq_index <$> cm_sent s -> seen x.1 = [] -> cinv indexex seen (visit_command call v x s).
Proof.
  intros [H1 H2 (news & H3 & H4)] Hx Hn. unfold visit_command. destruct (asks _ _ _); [|by split; [..|exists news]]. split; cbn; rewrite ?fmap_app; cbn.
  - apply NoDup_app. split; [done|]. split; [|apply NoDup_singleton]. intros y Hy ->%list_elem_of_singleton. done.
  - intros i. rewrite elem_of_union, elem_of_singleton, elem_of_app, list_elem_of_singleton, H2. split; [|tauto].
    intros [->|[Hi Hi']]; [|tauto]. split; [by right|]. rewrite Hn. set_solver.
  - exists news. split; [done|]. intros y. rewrite H4. unfold answers. split; intros (r & m & el & Hr & Ei & Hin & E).
    + exists r, m, el. rewrite elem_of_app. tauto.
    + apply elem_of_app in Hr as [Hr|Hr%list_elem_of_singleton]; [by exists r, m, el|]. subst r. cbn in Ei. rewrite <- Ei, Hn in Hin. set_solver.
Qed.

Lemma asked_before n : forall i, i ∈ (filter (asks call v) (take n (indexed clients))).*1 -> 0 <= i < Z.of_nat n.
Proof. intros i ([j c] & -> & [_ Hi]%list_elem_of_filter)%list_elem_of_fmap. apply elem_of_take_indexed in Hi as [[Hi _]%elem_of_indexed Hn]. cbn in *. lia. Qed.

Lemma visit_commands_inv indexex callbacks l : forall n s, drop n (indexed clients) = l -> (n <= length clients)%nat -> cinv indexex (since callbacks n) s ->
  rq_index <$> cm_sent s = (filter (asks call v) (take n (indexed clients))).*1 ->
  let s' := visit_commands inflate call v callbacks l n s in
  cinv indexex (since callbacks (length clients)) s' /\ rq_index <$> cm_sent s' = (filter (asks call v) (indexed clients)).*1.
Proof.
  assert (Hli : length (indexed clients) = length clients) by apply length_imap.
  induction l as [|[i c] l IH]; intros n s Hl Hn Hs Hsent; cbn [visit_commands]; cbv zeta.
  - apply (f_equal length) in Hl. rewrite length_drop, Hli in Hl. cbn in Hl. assert (n = length clients) as -> by lia.
    rewrite firstn_all2 in Hsent by lia. done.
  - assert (Hx : indexed clients !! n = Some (i, c)) by (rewrite <- (Nat.add_0_r n), <- lookup_drop, Hl; done).
    pose proof (lookup_lt_Some _ _ _ Hx) as Hlt. rewrite Hli in Hlt. pose proof Hx as Hx'. unfold indexed in Hx. rewrite list_lookup_imap in Hx. apply fmap_Some in Hx as (c' & Hc & [= -> <-]).
    assert (Hsent' : rq_index <$> cm_sent (visit_command call v (Z.of_nat n, c) s) = (filter (asks call v) (take (S n) (indexed clients))).*1).
    { rewrite (take_S_r _ _ _ Hx'), filter_app, fmap_app, <- Hsent. unfold visit_command. rewrite filter_cons, filter_nil.
      destruct (decide (asks call v (Z.of_nat n, c))) as [Ea|Ea]; [apply Is_true_true in Ea|apply Is_true_false in Ea]; rewrite Ea; cbn; [by rewrite fmap_app|by rewrite app_nil_r]. }
    apply IH; [| lia | |by rewrite on_command_sent].
    + replace (S n) with (n + 1)%nat by lia. rewrite <- drop_drop, Hl. done.
    + eapply cinv_ext; [|apply on_commands_inv, visit_command_inv; [exact Hs| |]].
      * intros j Hj. rewrite on_command_sent, Hsent' in Hj. apply asked_before in Hj. rewrite since_S by lia. by rewrite (proj2 (Z.ltb_lt _ _)) by lia.
      * cbn. rewrite Hsent. intros Hj%asked_before. lia.
      * cbn. unfold since. by rewrite (proj2 (Z.ltb_ge _ _)).
Qed.

(** The rounds of the wait: the callbacks that were heard, and why it ended. *)
Lemma wait_loop_spec rounds fuel : forall k t s is_cond s', wait_loop inflate call rounds fuel k t s = Some (is_cond, s') ->
  exists more, s' = foldl on s (mjoin (rounds <$> seq k (S more))) /\
    (is_cond = false -> t <= loop_timeout_ms * Z.of_nat (S more)) /\
    (is_cond = true -> cm_awaiting s' = 0 \/ count_parts_awaiting call <= zlen (cm_infos s')).
Proof.
  induction fuel as [|fuel IH]; intros k t s is_cond s'; cbn [wait_loop]; [done|].
  destruct (negb _ && (0 <? t - loop_timeout_ms)) eqn:E; intros Hw.
  - apply IH in Hw as (more & -> & Hf & Ht). exists (S more). split_and!.
    + rewrite <- foldl_app. done.
    + intros Hc. specialize (Hf Hc). unfold loop_timeout_ms in *. lia.
    + done.
  - injection Hw as <- <-. exists 0%nat. split_and!.
    + cbn. by rewrite app_nil_r.
    + intros Hc. rewrite Hc in E. cbn [negb andb] in E. apply Z.ltb_ge in E. unfold loop_timeout_ms in *. lia.
    + intros [->%Z.eqb_eq|Hp%Z.leb_le]%orb_true_iff; [by left|by right].
Qed.

Context (callbacks rounds : nat -> list callback) (now identy0 : Z) (indexex : list (Z * read_info)).

(** The servers that the command is for. *)
Definition asked : list Z := (filter (asks call v) (indexed clients)).*1.

(** The callbacks of a server from when it was asked to the end of the round [k] of the wait. *)
Definition heard_since (k : nat) (i : Z) : list callback := since callbacks (length clients) i ++ mjoin (rounds <$> seq 0 (S k)).

Definition is_refused : bool := bool_decide (cc_type call = file_info) && bool_decide (cc_pref call = any).

(** The detector of a server after a command. *)
Definition counted_timeout (k : nat) (in_time : bool) (i : Z) : timeout_detector :=
  let d := v_timeout v i in
  if bool_decide (i ∈ asked) then
    if bool_decide (i ∈ cb_index <$> heard_since k i) then reset_timeout d
    else if in_time then d else (timeout_detected now d).1
  else d.

Lemma command_spec : is_refused = false -> asked <> [] ->
  exists r k infos, command inflate call clients v callbacks rounds now identy0 indexex = Some r /\
    rq_index <$> cr_sent r = asked /\ finish_command call (indexex ++ infos) = (cr_res r, cr_infos r) /\
    (forall x, x ∈ infos <-> answers (cr_sent r) (heard_since k) x) /\
    (cr_in_time r = false -> cc_timeout call <= loop_timeout_ms * Z.of_nat (S k)) /\
    forall i, cr_timeouts r i = counted_timeout k (cr_in_time r) i.
Proof.
  intros Hr Ha. unfold command. fold is_refused. rewrite Hr.
  destruct (visit_commands_inv indexex callbacks (indexed clients) 0 (CState indexex [] 0 ∅ identy0)) as [Hinv Hsent]; cbv zeta; [done|lia| |done|].
  { split; cbn; [constructor|set_solver|]. exists []. rewrite app_nil_r. split; [done|]. intros x. unfold answers. cbn. set_solver. }
  cbv zeta in *. fold asked in Hsent. set (s := visit_commands _ _ _ _ _ _ _) in *.
  destruct (cm_sent s) as [|q l] eqn:El; [by destruct Ha|]. rewrite <- El in *. clear q l El.
  destruct (wait_loop_total rounds (S (Z.to_nat (cc_timeout call))) 0 (cc_timeout call) s) as [[is_cond s'] Hw]; [lia|]. rewrite Hw. cbn [mbind option_bind].
  apply wait_loop_spec in Hw as (k & -> & Hf & _). destruct (finish_command call _) as [res infos] eqn:Ef.
  destruct (on_commands_inv indexex (mjoin (rounds <$> seq 0 (S k))) _ _ Hinv) as [_ Ht (news & Hn & Hnews)].
  rewrite on_command_sent in Ht, Hnews. eexists _, k, news. split; [done|]. cbn [cr_sent cr_res cr_infos cr_in_time cr_timeouts].
  rewrite on_command_sent, <- Hn. split_and!; try done. intros i. unfold after_wait, counted_timeout. rewrite on_command_sent, Hsent.
  rewrite Hsent in Ht. case_bool_decide as Hi; [|done]. change (since callbacks _ i ++ _) with (heard_since k i) in Ht.
  destruct (decide (i ∈ cb_index <$> heard_since k i)) as [Hh|Hh].
  - rewrite bool_decide_false by (rewrite Ht; tauto). by rewrite bool_decide_true.
  - rewrite bool_decide_true by (by rewrite Ht). by rewrite bool_decide_false.
Qed.
End facts.

Lemma command_not_asked inflate call clients v callbacks rounds now identy0 indexex : is_refused call = false -> asked call clients v = [] ->
  exists identy, command inflate call clients v callbacks rounds now identy0 indexex =
    Some (CommandResult servers_not_found indexex [] true (v_timeout v) identy).
Proof.
  intros Hr Ha. unfold command. fold (is_refused call). rewrite Hr.
  destruct (visit_commands_inv inflate call clients v indexex callbacks (indexed clients) 0 (CState indexex [] 0 ∅ identy0)) as [[_ _ (news & Hn & Hnews)] Hsent];
    cbv zeta; [done|lia| |done|].
  { split; cbn; [constructor|set_solver|]. exists []. rewrite app_nil_r. split; [done|]. intros x. unfold answers. cbn. set_solver. }
  cbv zeta in *. unfold asked in Ha. rewrite Ha in Hsent. apply fmap_nil_inv in Hsent. rewrite Hsent in Hnews |- *. eexists. rewrite Hn.
  destruct news as [|x news]; [by rewrite app_nil_r|]. destruct (proj1 (Hnews x)) as (r & _ & _ & Hin & _); [by left|]. set_solver.
Qed.

(** C10: [command] always ends.  It asks the servers it is for, each once; the answers it returns
    are those the vector had and exactly those that the messages of the servers give, of the
    messages that came between the question and the end of the wait (for the newest write one of
    them is kept); the wait ends early only when the condition holds.  A server that sent
    anything, or to which nothing could be sent, is forgiven; one that kept silent is counted as
    a timeout when the time is over and left as it is when enough others answered; the rest are
    not touched. *)
Theorem command_accounts (inflate : bytes -> option bytes) (call : command_call) (clients : list connection) (v : view)
    (callbacks rounds : nat -> list callback) (now identy0 : Z) (indexex : list (Z * read_info)) :
  exists r, command inflate call clients v callbacks rounds now identy0 indexex = Some r /\
    if is_refused call then r = CommandResult error_specify_the_group indexex [] true (v_timeout v) identy0
    else match asked call clients v with
         | [] => cr_res r = servers_not_found /\ cr_infos r = indexex /\ cr_sent r = [] /\ cr_timeouts r = v_timeout v
         | servers => exists k infos,
             rq_index <$> cr_sent r = servers /\ finish_command call (indexex ++ infos) = (cr_res r, cr_infos r) /\
             (forall x, x ∈ infos <-> answers inflate call (cr_sent r) (heard_since clients callbacks rounds k) x) /\
             (cr_in_time r = false -> cc_timeout call <= loop_timeout_ms * Z.of_nat (S k)) /\
             forall i, cr_timeouts r i = counted_timeout call clients v callbacks rounds now k (cr_in_time r) i
         end.
Proof.
  destruct (is_refused call) eqn:Er; [unfold command; fold (is_refused call); rewrite Er; by eexists|].
  destruct (asked call clients v) as [|i l] eqn:Ea.
  - destruct (command_not_asked inflate call clients v callbacks rounds now identy0 indexex Er Ea) as [identy ->]. by eexists.
  - destruct (command_spec inflate call clients v callbacks rounds now identy0 indexex Er) as (r & k & infos & Hc & H); [by rewrite Ea|].
    exists r. split; [done|]. exists k, infos. by rewrite <- Ea.
Qed.

(** ** A server that does not answer *)

Section silence.
Context (inflate : bytes -> option bytes) (clients : list connection) (i : Z).

(** Commands that ask the server [i] one after another, and it keeps silent until the time is
    over: the times when the waits end, and the detectors before and after. *)
Inductive ignoring : (Z -> timeout_detector) -> list Z -> (Z -> timeout_detector) -> Prop :=
  | ignoring_nil ds : ignoring ds [] ds
  | ignoring_command ds call v callbacks rounds now identy0 indexex r times ds' :
      v_timeout v = ds -> command inflate call clients v callbacks rounds now identy0 indexex = Some r ->
      i ∈ rq_index <$> cr_sent r -> cr_in_time r = false -> (forall n, i ∉ cb_index <$> callbacks n ++ rounds n) ->
      ignoring (cr_timeouts r) times ds' -> ignoring ds (now :: times) ds'.

Lemma silent_since callbacks rounds k : (forall n, i ∉ cb_index <$> callbacks n ++ rounds n) -> i ∉ cb_index <$> heard_since clients callbacks rounds k i.
Proof.
  intros Hs (cb & Ei & Hin)%list_elem_of_fmap. assert (H : exists n, cb ∈ callbacks n ++ rounds n).
  { unfold heard_since, since in Hin. apply elem_of_app in Hin as [Hin|Hin]; [destruct (_ <? _); [|set_solver]|];
      apply list_elem_of_join in Hin as (l & Hin & (n & -> & _)%list_elem_of_fmap); exists n; rewrite elem_of_app; tauto. }
  destruct H as [n Hn]. apply (Hs n), list_elem_of_fmap. by exists cb.
Qed.

Lemma ignoring_spec ds times ds' : ignoring ds times ds' -> ds' i = foldl (fun d now => (timeout_detected now d).1) (ds i) times.
Proof.
  induction 1 as [ds|ds call v callbacks rounds now identy0 indexex r times ds' Hv Hc Hi Hf Hs _ IH]; [done|]. cbn [foldl]. rewrite IH. f_equal.
  destruct (is_refused call) eqn:Er.
  { unfold command in Hc. fold (is_refused call) in Hc. rewrite Er in Hc. injection Hc as <-. cbn in Hi. set_solver. }
  destruct (decide (asked call clients v = [])) as [Ea|Ea].
  { destruct (command_not_asked inflate call clients v callbacks rounds now identy0 indexex Er Ea) as [? E]. rewrite E in Hc. injection Hc as <-. cbn in Hi. set_solver. }
  destruct (command_spec inflate call clients v callbacks rounds now identy0 indexex Er Ea) as (r' & k & infos & Hc' & Hsent & _ & _ & _ & Ht).
  rewrite Hc in Hc'. injection Hc' as <-. rewrite Ht. unfold counted_timeout. rewrite Hf, Hv. rewrite Hsent in Hi.
  rewrite bool_decide_true by done. rewrite bool_decide_false by (by apply silent_since). done.
Qed.
End silence.

(** C11: a server that keeps silent in one more command than the settings allow is left out: from
    the end of the last of these commands, and for the configured minutes, no command, question or
    write uses it, whatever its socket says; a server that has kept silent less often is still used. *)
Theorem silent_server_left_out (inflate : bytes -> option bytes) (clients : list connection) (i : Z) (ds ds' : Z -> timeout_detector) (times : list Z) (now : Z) :
  ignoring inflate clients i ds (times ++ [now]) ds' -> detector (ds i) = 0 -> 0 <= count_timeouts (ds i) < 2 ^ 31 - 1 ->
  zlen times = count_timeouts (ds i) ->
  forall v call, v_timeout v = ds' -> v_now v < now + minutes_timeout (ds i) * minute -> usable v i = false /\ i ∉ asked call clients v.
Proof.
  intros Hi H0 Hc Hl v call Hv Hn. apply ignoring_spec in Hi. rewrite foldl_app in Hi. cbn [foldl] in Hi.
  destruct (timeouts_block (ds i) times now (v_now v) H0 Hc Hl) as (_ & _ & Hb). cbv zeta in Hb. rewrite <- Hi in Hb.
  assert (Hu : usable v i = false) by (unfold usable; rewrite Hv, Hb, (proj2 (Z.ltb_lt _ _)) by done; apply andb_false_r).
  split; [done|]. intros ([j c] & -> & [Ha _]%list_elem_of_filter)%list_elem_of_fmap. unfold asks in Ha. cbn in *. by rewrite Hu in Ha.
Qed.

(** ** One server after another *)

Lemma command_total inflate call clients v callbacks rounds now identy0 indexex : is_Some (command inflate call clients v callbacks rounds now identy0 indexex).
Proof.
  destruct (is_refused call) eqn:Er; [unfold command; fold (is_refused call); rewrite Er; by eexists|].
  destruct (decide (asked call clients v = [])) as [Ea|Ea].
  - destruct (command_not_asked inflate call clients v callbacks rounds now identy0 indexex Er Ea) as [? ->]. by eexists.
  - destruct (command_spec inflate call clients v callbacks rounds now identy0 indexex Er Ea) as (r & _ & _ & -> & _). by eexists.
Qed.

Section sequence_facts.
Context (inflate : bytes -> option bytes) (call : command_call) (clients : list connection) (timeout_general : Z) (to_all : bool) (worlds : nat -> world).

(** What the result says about the answers. *)
Definition seq_ok (indexex : list (Z * read_info)) (res : read_res) (infos : list (Z * read_info)) : Prop :=
  match res with
  | read_ok => infos <> []
  | file_not_found => to_all = true \/ indexex = [] -> infos = []
  | timeout => True
  | _ => False
  end.

Lemma seq_loop_spec fuel : forall k p used identy indexex,
  (forall k, turn_ok (w_turn (worlds k))) -> pool_wf p -> (forall j, j ∈ members p -> is_Some (clients !! Z.to_nat j)) -> (length (members p) < fuel)%nat ->
  exists res infos, seq_loop inflate call clients timeout_general to_all worlds fuel k p used identy indexex = Some (res, infos) /\ seq_ok indexex res infos.
Proof.
  induction fuel as [|fuel IH]; intros k p used identy indexex Ht Hw Hm Hf; [lia|]. cbn [seq_loop].
  destruct (w_elapsed (worlds k) <? timeout_general); [|by exists timeout, indexex].
  destruct (pop_index_rand _ _ p used (-1)) as [[[ind p'] used']|] eqn:Ep.
  - apply pop_spec in Ep as [Hp Hw']; [|done]. destruct (Hm ind) as [c Hc]; [rewrite Hp; left|]. rewrite Hc.
    assert (Hm' : forall j, j ∈ members p' -> is_Some (clients !! Z.to_nat j)) by (intros j Hj; apply Hm; rewrite Hp; by right).
    assert (Hf' : (length (members p') < fuel)%nat) by (apply Permutation_length in Hp; cbn in Hp; lia).
    destruct (t_connected _ ind); [|by apply IH].
    destruct (command_total inflate (one_call call c) clients (w_view (worlds k)) (w_callbacks (worlds k)) (w_rounds (worlds k)) (w_now (worlds k)) identy indexex) as [r ->].
    cbn [mbind option_bind]. destruct (negb to_all && negb (bool_decide (length (cr_infos r) = 0%nat))) eqn:E.
    + apply andb_true_iff in E as [_ E%negb_true_iff%bool_decide_eq_false]. exists read_ok, (cr_infos r). split; [done|]. cbn. intros E'. by rewrite E' in E.
    + destruct (IH (S k) p' used' (cr_identy r) (cr_infos r) Ht Hw' Hm' Hf') as (res & infos & Hl & Hok). exists res, infos. split; [done|].
      destruct res; try done. cbn in *. intros Ha. apply Hok. destruct to_all; [by left|]. right. cbn in E.
      apply negb_false_iff, bool_decide_eq_true, nil_length_inv in E. done.
  - eexists _, indexex. split; [done|]. destruct to_all eqn:Ea; cbn [andb].
    + case_bool_decide as E; cbn; [intros _; by apply nil_length_inv|]. intros ->. done.
    + cbn. rewrite Ea. by intros [|].
Qed.
End sequence_facts.

(** C28: [command_seq] ends whatever the servers do, after at most one command per server: with
    success only when it has an answer, with [file_not_found] only when there is none (the
    vector of the caller may have held one before, unless all servers are wanted), or with
    [timeout]. *)
Theorem command_seq_ends (inflate : bytes -> option bytes) (call : command_call) (clients : list connection) (timeout_general : Z) (to_all : bool)
    (worlds : nat -> world) (v : view) (identy0 : Z) (indexex : list (Z * read_info)) : (forall k, turn_ok (w_turn (worlds k))) ->
  exists res infos, command_seq inflate call clients timeout_general to_all worlds v identy0 indexex = Some (res, infos) /\
    match res with
    | read_ok => infos <> []
    | file_not_found => to_all = true \/ indexex = [] -> infos = []
    | timeout => True
    | _ => False
    end.
Proof.
  intros Ht. unfold command_seq. set (l := filter _ (indexed clients)). destruct (pool_of_spec l) as [Hp Hw].
  apply (seq_loop_spec inflate call clients timeout_general to_all worlds (S (length l)) 0 (pool_of l) ∅ identy0 indexex Ht Hw).
  - intros j. rewrite Hp. intros ([i c] & -> & [_ [_ Hc]%elem_of_indexed]%list_elem_of_filter)%list_elem_of_fmap. by exists c.
  - apply Permutation_length in Hp. rewrite length_fmap in Hp. lia.
Qed.

(** ** Examples *)

Definition ex_call (t : read_info_type) (parts : Z) : command_call := CommandCall t (lit "sub/a") parts 20 [] any ∅.

(** Two servers are asked for the same file; the second answers while the client waits. *)
Example ex_command :
  let r := command ex_inflate (ex_call file_exists 2) (take 2 ex_connections) (ex_view []) (fun _ => []) (fun n => if n is 1%nat then [Replied 1 (lit "010110002") 3] else []) 9 10000 [] in
  (fun r => (cr_res r, (cr_infos r).*1, rq_message <$> cr_sent r, cr_in_time r, detector (cr_timeouts r 0), detector (cr_timeouts r 1))) <$> r =
  Some (read_ok, [1], [lit "0110001sub/a"; lit "0110002sub/a"], false, 1, 0).
Proof. vm_compute. reflexivity. Qed.

(** A server that never answers, with one timeout allowed. *)
Definition ex_detector : timeout_detector := TimeoutDetector 0 0 1 60.
Definition ex_silent (ds : Z -> timeout_detector) (now : Z) : command_result :=
  default (CommandResult fail [] [] true ds 0)
    (command ex_inflate (ex_call file_exists 1) (take 1 ex_connections) (View (fun _ => connected) ds 1) (fun _ => []) (fun _ => []) now 10000 []).

Lemma ex_silent_result ds now :
  command ex_inflate (ex_call file_exists 1) (take 1 ex_connections) (View (fun _ => connected) ds 1) (fun _ => []) (fun _ => []) now 10000 [] = Some (ex_silent ds now).
Proof.
  unfold ex_silent. by destruct (command_total ex_inflate (ex_call file_exists 1) (take 1 ex_connections) (View (fun _ => connected) ds 1) (fun _ => []) (fun _ => []) now 10000 []) as [r ->].
Qed.

Lemma silent_server_left_out_witness :
  let ds' := cr_timeouts (ex_silent (cr_timeouts (ex_silent (fun _ => ex_detector) 5)) 6) in
  ignoring ex_inflate (take 1 ex_connections) 0 (fun _ => ex_detector) ([5] ++ [6]) ds' /\
  forall v call, v_timeout v = ds' -> v_now v < 6 + 60 * minute -> usable v 0 = false /\ 0 ∉ asked call (take 1 ex_connections) v.
Proof.
  intros ds'. assert (Hi : ignoring ex_inflate (take 1 ex_connections) 0 (fun _ => ex_detector) ([5] ++ [6]) ds').
  { apply (ignoring_command _ _ _ _ (ex_call file_exists 1) (View (fun _ => connected) (fun _ => ex_detector) 1) (fun _ => []) (fun _ => []) 5 10000 [] (ex_silent (fun _ => ex_detector) 5));
      [reflexivity|apply ex_silent_result|apply (bool_decide_unpack _); vm_compute; exact I|vm_compute; reflexivity|intros n; apply not_elem_of_nil|].
    apply (ignoring_command _ _ _ _ (ex_call file_exists 1) (View (fun _ => connected) (cr_timeouts (ex_silent (fun _ => ex_detector) 5)) 1) (fun _ => []) (fun _ => []) 6 10000 []
      (ex_silent (cr_timeouts (ex_silent (fun _ => ex_detector) 5)) 6));
      [reflexivity|apply ex_silent_result|apply (bool_decide_unpack _); vm_compute; exact I|vm_compute; reflexivity|intros n; apply not_elem_of_nil|constructor]. }
  split; [exact Hi|].
  apply (silent_server_left_out ex_inflate (take 1 ex_connections) 0 (fun _ => ex_detector) ds' [5] 6 Hi); [reflexivity|split; [discriminate|reflexivity]|reflexivity].
Defined.

(** The first server gives nothing, the second answers. *)
Definition ex_worlds (k : nat) : world :=
  World (Z.of_nat k * 400) (ex_turns k) (ex_view []) (fun n => if n is 1%nat then [Replied 1 (lit "010110002") 3] else []) (fun _ => []) 9.

Lemma command_seq_ends_witness :
  exists res infos, command_seq ex_inflate (ex_call file_exists 1) (take 2 ex_connections) 1000 false ex_worlds (ex_view []) 10000 [] = Some (res, infos) /\
    match res with
    | read_ok => infos <> []
    | file_not_found => false = true \/ ([] : list (Z * read_info)) = [] -> infos = []
    | timeout => True
    | _ => False
    end.
Proof.
  apply (command_seq_ends ex_inflate (ex_call file_exists 1) (take 2 ex_connections) 1000 false ex_worlds (ex_view []) 10000 []).
  intros k. apply ex_turns_ok.
Defined.

Example ex_command_seq :
  (fun r => (r.1, r.2.*1)) <$> command_seq ex_inflate (ex_call file_exists 1) (take 2 ex_connections) 1000 false ex_worlds (ex_view []) 10000 [] = Some (read_ok, [1]).
Proof. vm_compute. reflexivity. Qed.
