(* ===== verification/ClientReads.v ===== *)
(** * Reading a file from one of several servers ([client::read_file])

    The client looks for the servers that have the file with [command], unless the caller names
    the servers, and asks them one after another until one gives the content.  [attempts n] are
    the callbacks that run while the client waits for the server [n]. *)

From S2P Require Import Prelude Bitbase BasefuncStd Compression Session WType Settings PoolClient ClientWrites ClientRequests ClientCommand.
From Stdlib Require Import ZArith Lia Strings.Byte.
From stdpp Require Import base gmap strings numbers sorting list.
Open Scope Z_scope.

#[export] Instance read_res_eq_dec : EqDecision read_res.
Proof. solve_decision. Defined.

(** ** The servers to read from *)

(** What the caller asks for. *)
Record read_call := ReadCall {
  rc_filename : bytes; rc_find_timeout : Z; rc_parts : Z; rc_groups : list Z; rc_pref : rw_preference; rc_only : gset Z; rc_many : bool; rc_sdb : bool }.

(** The servers in the order of their answers, the last identity and the detectors. *)
Record found := Found { fd_res : read_res; fd_servers : list Z; fd_identy : Z; fd_timeouts : Z -> timeout_detector }.

Definition find_call (rc : read_call) : command_call :=
  CommandCall file_exists (rc_filename rc) (rc_parts rc) (rc_find_timeout rc) (rc_groups rc) (rc_pref rc) ∅.

Definition find_servers (inflate : bytes -> option bytes) (rc : read_call) (clients : list connection) (v : view) (callbacks rounds : nat -> list callback)
    (now identy0 : Z) : option found :=
  if bool_decide (rc_only rc = ∅) then
    r ← command inflate (find_call rc) clients v callbacks rounds now identy0 [];
    Some (Found (if bool_decide (cr_res r = read_ok) then match cr_infos r with [] => file_not_found | _ => read_ok end else cr_res r)
            (cr_infos r).*1 (cr_identy r) (cr_timeouts r))
  else
    let servers := (filter (fun x => usable v x.1 && bool_decide (cn_uip x.2 ∈ rc_only rc)) (indexed clients)).*1 in
    Some (Found (match servers with [] => servers_not_found | _ => read_ok end) servers identy0 (v_timeout v)).

(** ** Asking one server *)

Record rstate := RState { rd_content : bytes; rd_ri : read_info; rd_ok : bool; rd_awaiting : Z }.

Definition clear_content (ri : read_info) : read_info :=
  ReadInfo (file_type ri) (file_tms ri) (file_crc32 ri) (file_created ri) (ttl_days ri) (header ri) [].

Definition read_done (s : rstate) : rstate := RState (rd_content s) (rd_ri s) (rd_ok s) (rd_awaiting s - 1).

(** A callback of the server that is asked; [None] when [fetch_content] leaves the message. *)
Definition on_read (read_many : bool) (cl_index identy : Z) (s : rstate) (cb : callback) : option rstate :=
  if cb_index cb =? cl_index then
    match cb with
    | NotSent _ => Some (read_done s)
    | Replied _ message _ =>
        if (32 <? zlen message) && bool_decide (take 2 (drop 2 message) = lit "01") then
          if bool_decide (take 5 (drop 4 message) = to_string identy) then
            if read_many then Some (read_done (RState (drop 9 message) (rd_ri s) true (rd_awaiting s)))
            else
              ri ← fetch_content message 9 (rd_ri s);
              Some (read_done (match ri_content ri with
                               | [] => RState (rd_content s) ri (rd_ok s) (rd_awaiting s)
                               | c => RState c (clear_content ri) true (rd_awaiting s)
                               end))
          else Some s
        else Some (read_done s)
    end
  else Some s.

Fixpoint on_reads (read_many : bool) (cl_index identy : Z) (es : list callback) (s : rstate) : option rstate :=
  match es with
  | [] => Some s
  | cb :: es' => s ← on_read read_many cl_index identy s cb; on_reads read_many cl_index identy es' s
  end.

(** The loop over the servers with the lambda [f_read]. *)
Fixpoint read_parts (rc : read_call) (attempts : nat -> list callback) (servers : list Z) (n : nat) (identy : Z) (content : bytes) (ri : read_info) :
    option (option Z * bytes * read_info * list request) :=
  match servers with
  | [] => Some (None, content, ri, [])
  | i :: servers' =>
      let identy := next_identy identy in
      let r := MkRequest i identy (read_message (rc_many rc) (rc_sdb rc) identy (rc_filename rc)) in
      s ← on_reads (rc_many rc) i identy (attempts n) (RState content ri false 1);
      if rd_ok s then Some (Some i, rd_content s, rd_ri s, [r])
      else '(ok_t_index, content, ri, sent) ← read_parts rc attempts servers' (S n) identy (rd_content s) (rd_ri s); Some (ok_t_index, content, ri, r :: sent)
  end.

(** ** [read_file] *)

Record file_read := FileRead { rf_res : read_res; rf_ip : Z; rf_ri : read_info; rf_content : bytes; rf_sent : list request; rf_timeouts : Z -> timeout_detector }.

(** The size of a vector is compared as unsigned with the number of parts. *)
Definition read_count (rc : read_call) (servers : list Z) : Z := if zlen servers <? wrap U64 (rc_parts rc) then zlen servers else rc_parts rc.

(** [content] is what the string of the caller holds before. *)
Definition read_file (inflate : bytes -> option bytes) (rc : read_call) (clients : list connection) (v : view) (callbacks rounds : nat -> list callback)
    (now identy0 : Z) (attempts : nat -> list callback) (content : bytes) : option file_read :=
  fd ← find_servers inflate rc clients v callbacks rounds now identy0;
  if bool_decide (fd_res fd = read_ok) then
    '(ok_t_index, content, ri, sent) ←
      read_parts rc attempts (take (Z.to_nat (read_count rc (fd_servers fd))) (fd_servers fd)) 0 (fd_identy fd) content read_info_init;
    let content := if bool_decide (is_Some ok_t_index) then finish_read inflate (rc_many rc) ri content else content in
    match ok_t_index ≫= (fun i => clients !! Z.to_nat i), content with
    | Some c, _ :: _ => Some (FileRead read_ok (cn_uip c) ri content sent (fd_timeouts fd))
    | _, _ => Some (FileRead fail 0 read_info_init content sent (fd_timeouts fd))
    end
  else Some (FileRead (fd_res fd) 0 read_info_init content [] (fd_timeouts fd)).

(** ** What a read gives *)

(** The server gave a content: one of the messages that came while it was asked. *)
Definition gives (read_many : bool) (i identy : Z) (es : list callback) (ri : read_info) (p : bytes * read_info) : Prop :=
  exists message elapsed, Replied i message elapsed ∈ es /\ read_reply read_many identy message ri = Some (Some p).

(** No message of the attempt makes [fetch_content] leave it. *)
Definition clean (es : list callback) : Prop := forall i message elapsed,
  Replied i message elapsed ∈ es -> 32 < zlen message -> is_Some (fetch_content message 9 read_info_init).

(** The content that [fetch_content] finds depends on what the structure held only through its content. *)
Lemma fetch_content_same m k ri1 ri2 : ri_content ri1 = ri_content ri2 -> ri_content <$> fetch_content m k ri1 = ri_content <$> fetch_content m k ri2.
Proof.
  intros E. unfold fetch_content. destruct (substr m k 2); [|done]. cbn [mbind option_bind]. case_bool_decide.
  { destruct (substr m 16 8), (substr m 24 8), (substr_from m 32); done. }
  case_bool_decide; [|case_bool_decide]; cbn [mbind option_bind].
  - destruct (substr m (k + 2) 8); cbn [mbind option_bind]; [|done]. destruct (substr m (k + 2 + 8) 8); cbn [mbind option_bind]; [|done].
    destruct (substr m (k + 2 + 16) 19); cbn [mbind option_bind]; [|done]. destruct (ttl_loop _ _ (k + 2 + 16 + 19) _) as [[p t]|]; cbn [mbind option_bind]; [|done].
    destruct (p <? length m)%nat; cbn; by rewrite ?E.
  - destruct (substr m (k + 2) 8); cbn [mbind option_bind]; [|done].
    destruct (substr m (k + 2 + 8) 19); cbn [mbind option_bind]; [|done]. destruct (ttl_loop _ _ (k + 2 + 8 + 19) _) as [[p t]|]; cbn [mbind option_bind]; [|done].
    destruct (p <? length m)%nat; cbn; by rewrite ?E.
  - destruct (substr m (k + 2) 19); cbn [mbind option_bind]; [|done]. destruct (ttl_loop _ _ (k + 2 + 19) _) as [[p t]|]; cbn [mbind option_bind]; [|done].
    destruct (p <? length m)%nat; cbn; by rewrite ?E.
Qed.

(** A message of the server that carries content. *)
Definition carries (read_many : bool) (i identy : Z) (cb : callback) : Prop :=
  exists message elapsed p, cb = Replied i message elapsed /\ read_reply read_many identy message read_info_init = Some (Some p).

Lemma read_reply_carries read_many identy message ri c ri' : ri_content ri = [] -> read_reply read_many identy message ri = Some (Some (c, ri')) ->
  exists p, read_reply read_many identy message read_info_init = Some (Some p).
Proof.
  intros Hr. unfold read_reply. destruct (32 <? zlen message); [|done]. case_bool_decide; [|done]. case_bool_decide; [|done]. destruct read_many; [by eexists|].
  pose proof (fetch_content_same message 9 ri read_info_init Hr) as E.
  destruct (fetch_content message 9 ri) as [r1|], (fetch_content message 9 read_info_init) as [r2|]; cbn in E; try done. injection E as E. rewrite E.
  destruct (ri_content r2); [done|]. by eexists.
Qed.

Lemma on_read_spec read_many i identy s cb : clean [cb] -> ri_content (rd_ri s) = [] ->
  exists s', on_read read_many i identy s cb = Some s' /\ ri_content (rd_ri s') = [] /\
    ((exists c ri, gives read_many i identy [cb] (rd_ri s) (c, ri) /\ c <> [] /\ rd_content s' = c /\ rd_ri s' = clear_content ri /\ rd_ok s' = true) \/
     (~ carries read_many i identy cb /\ rd_content s' = rd_content s /\ rd_ok s' = rd_ok s)).
Proof.
  intros Hc Hr. unfold on_read. destruct (Z.eqb_spec (cb_index cb) i) as [Hi|Hi].
  2: { exists s. split; [done|]. split; [done|]. right. split; [|done]. intros (m & el & p & -> & _). done. }
  destruct cb as [j message elapsed|j]; cbn in Hi; subst j.
  2: { eexists. split; [done|]. split; [done|]. right. split; [|done]. intros (m & el & p & [=] & _). }
  destruct ((32 <? zlen message) && bool_decide (take 2 (drop 2 message) = lit "01")) eqn:E.
  - apply andb_true_iff in E as [E1 E2]. destruct (bool_decide_reflect (take 5 (drop 4 message) = to_string identy)) as [E3|E3].
    + assert (Hrep : forall p, read_reply read_many identy message (rd_ri s) = Some (Some p) -> gives read_many i identy [Replied i message elapsed] (rd_ri s) p)
        by (intros p Hp; exists message, elapsed; split; [by left|done]).
      unfold read_reply in Hrep. rewrite E1, E2, bool_decide_true in Hrep by done. destruct read_many.
      * eexists. split; [done|]. split; [done|]. left. exists (drop 9 message), (rd_ri s). split_and!; try done; [by apply Hrep| |cbn; destruct (rd_ri s); cbn in *; by subst].
        intros E'%(f_equal length). rewrite length_drop in E'. cbn in E'. apply Z.ltb_lt in E1. lia.
      * assert (Hri : is_Some (fetch_content message 9 (rd_ri s))).
        { apply (fmap_is_Some ri_content). rewrite (fetch_content_same _ _ _ read_info_init Hr). apply fmap_is_Some. apply (Hc i message elapsed); [by left|by apply Z.ltb_lt]. }
        destruct Hri as [ri Hri]. rewrite Hri in *. cbn [mbind option_bind].
        eexists. split; [done|]. destruct (ri_content ri) as [|b c] eqn:Ec; (split; [done|]).
        -- right. split; [|done]. intros (m & el & p & [= <- <-] & Hp). unfold read_reply in Hp. rewrite E1, E2, bool_decide_true in Hp by done.
           pose proof (fetch_content_same message 9 (rd_ri s) read_info_init Hr) as Es. rewrite Hri in Es. destruct (fetch_content message 9 read_info_init); [|done].
           injection Es as Es. rewrite Ec in Es. by rewrite <- Es in Hp.
        -- left. exists (b :: c), ri. split_and!; try done. by apply Hrep.
    + exists s. split; [done|]. split; [done|]. right. split; [|done]. intros (m & el & p & [= <- <-] & Hp). unfold read_reply in Hp.
      rewrite (bool_decide_false (take 5 _ = _)) in Hp by done. by repeat case_match.
  - eexists. split; [done|]. split; [done|]. right. split; [|done]. intros (m & el & p & [= <- <-] & Hp). unfold read_reply in Hp.
    apply andb_false_iff in E as [E|E]; rewrite E in Hp; [done|by destruct (_ <? _)].
Qed.

(** Callbacks of other servers do nothing. *)
Lemma on_reads_others read_many i identy es : forall s, filter (fun cb => cb_index cb = i) es = [] -> on_reads read_many i identy es s = Some s.
Proof.
  induction es as [|cb es IH]; intros s; cbn [on_reads]; [done|]. rewrite filter_cons. case_decide as Hi; [done|]. intros He. unfold on_read.
  rewrite (proj2 (Z.eqb_neq _ _)) by done. by apply IH.
Qed.

(** The server sent only this message. *)
Definition alone (i : Z) (es : list callback) : Prop := (length (filter (fun cb => cb_index cb = i) es) <= 1)%nat.

Lemma gives_elem read_many i identy es ri p : gives read_many i identy es ri p -> filter (fun cb => cb_index cb = i) es <> [].
Proof. intros (m & el & Hin & _) E. assert (H : Replied i m el ∈ filter (fun cb => cb_index cb = i) es) by (by apply list_elem_of_filter). rewrite E in H. set_solver. Qed.

Lemma on_reads_spec read_many i identy es : forall s, clean es -> ri_content (rd_ri s) = [] ->
  exists s', on_reads read_many i identy es s = Some s' /\ ri_content (rd_ri s') = [] /\
    ((exists ri c ri', gives read_many i identy es ri (c, ri') /\ c <> [] /\ rd_content s' = c /\ rd_ok s' = true /\
        (alone i es -> ri = rd_ri s /\ rd_ri s' = clear_content ri')) \/
     ((forall cb, cb ∈ es -> ~ carries read_many i identy cb) /\ rd_content s' = rd_content s /\ rd_ok s' = rd_ok s)).
Proof.
  induction es as [|cb es IH]; intros s Hc Hr; cbn [on_reads].
  { exists s. split; [done|]. split; [done|]. right. split; [set_solver|done]. }
  destruct (on_read_spec read_many i identy s cb) as (s1 & E1 & Hr1 & H1); [intros j m el Hin; apply (Hc j m el); apply list_elem_of_singleton in Hin; rewrite Hin; by left|done|].
  rewrite E1. cbn [mbind option_bind].
  destruct (IH s1) as (s2 & E2 & Hr2 & H2); [intros j m el Hin; apply (Hc j m el); by right|done|]. rewrite E2. exists s2. split; [done|]. split; [done|].
  destruct H2 as [(ri & c & ri' & Hg & Hne & Hcon & Hok & Hal)|(Hno & Hcon & Hok)].
  - left. exists ri, c, ri'. pose proof (gives_elem _ _ _ _ _ _ Hg) as Hnil. destruct Hg as (m & el & Hin & Hm). split; [exists m, el; split; [by right|done]|]. split_and!; try done.
    unfold alone. rewrite filter_cons. case_decide as Hi; [cbn; destruct (filter _ es); [done|cbn; lia]|]. intros Ha. destruct (Hal Ha) as [-> ?]. split; [|done].
    unfold on_read in E1. rewrite (proj2 (Z.eqb_neq _ _)) in E1 by done. by injection E1 as <-.
  - rewrite Hcon, Hok. destruct H1 as [(c & ri & (m & el & Hin & Hm) & Hne & Hcon1 & Hri1 & Hok1)|(Hno1 & Hcon1 & Hok1)].
    + left. exists (rd_ri s), c, ri. apply list_elem_of_singleton in Hin. split; [exists m, el; split; [rewrite Hin; by left|done]|]. split_and!; try done.
      unfold alone. rewrite filter_cons, <- Hin, decide_True by done. cbn. intros Ha. split; [done|].
      rewrite on_reads_others in E2; [by injection E2 as <-|]. by destruct (filter _ es); [|cbn in Ha; lia].
    + right. split; [|done]. intros cb' [->|Hin]%elem_of_cons; [done|by apply Hno].
Qed.

Section reads.
Context (rc : read_call) (attempts : nat -> list callback).

(** None of the servers asked, the first of them at the attempt [n], gave a content. *)
Definition unanswered (n : nat) (sent : list request) : Prop := forall j r cb,
  sent !! j = Some r -> cb ∈ attempts (n + j)%nat -> ~ carries (rc_many rc) (rq_index r) (rq_identy r) cb.

(** The message that [read_file] sends. *)
Definition reads (r : request) : Prop := rq_message r = read_message (rc_many rc) (rc_sdb rc) (rq_identy r) (rc_filename rc).

Lemma unanswered_cons n r sent : (forall cb, cb ∈ attempts n -> ~ carries (rc_many rc) (rq_index r) (rq_identy r) cb) -> unanswered (S n) sent -> unanswered n (r :: sent).
Proof.
  intros Hr Hs [|j] r' cb; cbn.
  - intros [= <-]. rewrite Nat.add_0_r. apply Hr.
  - intros Hj. replace (n + S j)%nat with (S n + j)%nat by lia. by apply Hs.
Qed.

Lemma read_parts_spec servers : forall n identy content ri, (forall k, clean (attempts k)) -> ri_content ri = [] ->
  exists ok_t_index content' ri' sent, read_parts rc attempts servers n identy content ri = Some (ok_t_index, content', ri', sent) /\
    Forall reads sent /\ rq_index <$> sent = take (length sent) servers /\
    match ok_t_index with
    | Some i => exists before r ri0 ri1, sent = before ++ [r] /\ rq_index r = i /\ unanswered n before /\ content' <> [] /\
        gives (rc_many rc) i (rq_identy r) (attempts (n + length before)%nat) ri0 (content', ri1) /\
        (alone i (attempts (n + length before)%nat) -> ri' = clear_content ri1)
    | None => length sent = length servers /\ content' = content /\ unanswered n sent
    end.
Proof.
  induction servers as [|i servers IH]; intros n identy content ri Hc Hr; cbn [read_parts].
  { exists None, content, ri, []. by split_and!. }
  set (id := next_identy identy). set (r := MkRequest i id _).
  destruct (on_reads_spec (rc_many rc) i id (attempts n) (RState content ri false 1) (Hc n) Hr) as (s & -> & Hrs & H). cbn [mbind option_bind].
  destruct H as [(ri0 & c & ri' & Hg & Hne & Hcon & Hok & Hal)|(Hno & Hcon & Hok)]; rewrite Hok; cbn [rd_ok].
  - exists (Some i), (rd_content s), (rd_ri s), [r]. split; [done|]. split; [by repeat constructor|]. split; [done|]. exists [], r, ri0, ri'. rewrite Hcon.
    split_and!; try done; cbn; rewrite Nat.add_0_r; [done|]. intros Ha. by destruct (Hal Ha).
  - destruct (IH (S n) id (rd_content s) (rd_ri s) Hc Hrs) as (ok & content' & ri' & sent & -> & Hf & Hsent & Hm). cbn [mbind option_bind].
    exists ok, content', ri', (r :: sent). split; [done|]. split; [by constructor|]. split; [cbn; by rewrite Hsent|]. destruct ok as [k|].
    + destruct Hm as (before & r' & ri0 & ri1 & -> & Hi & Hu & Hne & Hg & Hal). exists (r :: before), r', ri0, ri1. split_and!; try done.
      * by apply unanswered_cons.
      * cbn. by replace (n + S (length before))%nat with (S n + length before)%nat by lia.
      * cbn. by replace (n + S (length before))%nat with (S n + length before)%nat by lia.
    + destruct Hm as (Hl & -> & Hu). split_and!; [cbn; lia|done|]. by apply unanswered_cons.
Qed.
End reads.

(** ** The servers that are found *)

(** The server has the file: it is one the command may go to and answered the question for the file. *)
Definition has_file (inflate : bytes -> option bytes) (rc : read_call) (clients : list connection) (v : view) (sent : list request) (heard : Z -> list callback) (i : Z) : Prop :=
  i ∈ asked (find_call rc) clients v /\ exists ri, answers inflate (find_call rc) sent heard (i, ri).

(** A server that the caller may read from: it can be used, and it said that it has the file or the caller named it. *)
Definition fits (inflate : bytes -> option bytes) (rc : read_call) (clients : list connection) (v : view) (callbacks rounds : nat -> list callback) (i : Z) : Prop :=
  exists c, (i, c) ∈ indexed clients /\ usable v i = true /\
    if bool_decide (rc_only rc = ∅)
    then preferred (rc_pref rc) (rc_groups rc) c = true /\ exists k sent, has_file inflate rc clients v sent (heard_since clients callbacks rounds k) i
    else cn_uip c ∈ rc_only rc.

Lemma find_servers_spec inflate rc clients v callbacks rounds now identy0 :
  exists fd, find_servers inflate rc clients v callbacks rounds now identy0 = Some fd /\
    (fd_res fd = read_ok -> forall i, i ∈ fd_servers fd -> fits inflate rc clients v callbacks rounds i).
Proof.
  unfold find_servers, fits. case_bool_decide as Ho.
  - destruct (decide (asked (find_call rc) clients v = [])) as [Ea|Ea].
    { destruct (command_not_asked inflate (find_call rc) clients v callbacks rounds now identy0 [] eq_refl Ea) as [identy ->]. by eexists. }
    destruct (command_spec inflate (find_call rc) clients v callbacks rounds now identy0 [] eq_refl Ea) as (r & k & infos & -> & Hs & Hf & Hi & _).
    eexists. split; [done|]. cbn [fd_servers fd_res]. injection Hf as _ <-. intros _ i ([j ri] & -> & Hin)%list_elem_of_fmap. cbn [fst]. pose proof (proj1 (Hi _) Hin) as Ha.
    assert (Hj : j ∈ asked (find_call rc) clients v).
    { destruct Ha as (rq & m & el & Hrq & Ei & _). rewrite <- Hs. apply list_elem_of_fmap. by exists rq. }
    pose proof Hj as ([j' c] & E & [Hask Hc]%list_elem_of_filter)%list_elem_of_fmap. cbn in E. subst j'. exists c. split; [done|].
    unfold asks, need_send in Hask. cbn in Hask. rewrite bool_decide_true in Hask by done. apply Is_true_true, andb_true_iff in Hask as [Hu Hp]. cbn in Hu.
    split; [done|]. split; [done|]. exists k, (cr_sent r). split; [done|]. by exists ri.
  - eexists. split; [done|]. cbn [fd_servers]. intros _ i ([j c] & -> & [Hf Hc]%list_elem_of_filter)%list_elem_of_fmap.
    apply Is_true_true, andb_true_iff in Hf as [Hu Hb%bool_decide_eq_true]. by exists c.
Qed.

(** C5: [read_file] ends and returns what a server gave it.  It asks servers that can be used and
    that said they have the file (or that the caller named), in their order, one at a time, and no
    more than asked for; none before the last one gave a content.  Either the last server gave
    one, and the caller gets it decompressed as its kind requires, with the address of the server
    and, when the server sent only that message, the timestamp, checksum, dates and time to live
    of it; or no server gave one, all were asked, the call fails and the string of the caller is
    not touched. *)
Theorem read_file_exact (inflate : bytes -> option bytes) (rc : read_call) (clients : list connection) (v : view) (callbacks rounds : nat -> list callback)
    (now identy0 : Z) (attempts : nat -> list callback) (content : bytes) :
  (forall k, clean (attempts k)) ->
  exists f fd, read_file inflate rc clients v callbacks rounds now identy0 attempts content = Some f /\
    find_servers inflate rc clients v callbacks rounds now identy0 = Some fd /\ rf_timeouts f = fd_timeouts fd /\
    let servers := take (Z.to_nat (read_count rc (fd_servers fd))) (fd_servers fd) in
    if bool_decide (fd_res fd = read_ok) then
      (forall r, r ∈ rf_sent f -> reads rc r /\ fits inflate rc clients v callbacks rounds (rq_index r)) /\
      rq_index <$> rf_sent f = take (length (rf_sent f)) servers /\
      ((exists before r c packed ri ri0 ri1, rf_sent f = before ++ [r] /\ unanswered rc attempts 0 before /\
          gives (rc_many rc) (rq_index r) (rq_identy r) (attempts (length before)) ri0 (packed, ri1) /\
          (alone (rq_index r) (attempts (length before)) -> ri = clear_content ri1) /\
          clients !! Z.to_nat (rq_index r) = Some c /\ rf_content f = finish_read inflate (rc_many rc) ri packed /\
          (rf_content f = [] -> rf_res f = fail) /\ (rf_content f <> [] -> rf_res f = read_ok /\ rf_ip f = cn_uip c /\ rf_ri f = ri)) \/
       (rf_res f = fail /\ length (rf_sent f) = length servers /\ unanswered rc attempts 0 (rf_sent f) /\ rf_content f = content))
    else rf_res f = fd_res fd /\ rf_sent f = [] /\ rf_content f = content.
Proof.
  intros Hc. destruct (find_servers_spec inflate rc clients v callbacks rounds now identy0) as (fd & Hfd & Hservers). unfold read_file. rewrite Hfd. cbn [mbind option_bind].
  destruct (bool_decide_reflect (fd_res fd = read_ok)) as [Hok|Hok].
  2: { eexists _, fd. do 3 (split; [done|]). cbv zeta. by rewrite bool_decide_false. }
  specialize (Hservers Hok).
  set (servers := take _ (fd_servers fd)). assert (Hsub : servers ⊆ fd_servers fd) by apply subseteq_take.
  destruct (read_parts_spec rc attempts servers 0 (fd_identy fd) content read_info_init Hc eq_refl) as (ok & packed & ri & sent & -> & Hf & Hsent & Hm). cbn [mbind option_bind].
  assert (Hall : forall r, r ∈ sent -> rq_index r ∈ fd_servers fd).
  { intros r Hr. apply Hsub. apply (subseteq_take (length sent)). rewrite <- Hsent. apply list_elem_of_fmap. by exists r. }
  assert (Hclaim : forall r, r ∈ sent -> reads rc r /\ fits inflate rc clients v callbacks rounds (rq_index r)).
  { intros r Hr. rewrite Forall_forall in Hf. split; [by apply Hf|]. apply Hservers, Hall, Hr. }
  destruct ok as [i|].
  - destruct Hm as (before & r & ri0 & ri1 & -> & <- & Hu & Hne & Hg & Hal). rewrite bool_decide_true by by eexists. cbn [mbind option_bind].
    destruct (Hservers (rq_index r)) as (c & [_ Hci]%elem_of_indexed & _); [apply Hall, elem_of_app; right; by left|]. rewrite Hci.
    destruct (finish_read inflate (rc_many rc) ri packed) as [|b l] eqn:Ef; eexists _, fd; (split; [done|]); (split; [done|]); (split; [done|]); cbv zeta; rewrite bool_decide_true by done; cbn [rf_sent];
      (split; [exact Hclaim|]); (split; [done|]); left; exists before, r, c, packed, ri, ri0, ri1; by split_and!.
  - destruct Hm as (Hl & -> & Hu). rewrite bool_decide_false by (by intros []). cbn [mbind option_bind].
    eexists _, fd. do 3 (split; [done|]). cbv zeta. rewrite bool_decide_true by done. cbn [rf_sent]. split; [exact Hclaim|]. split; [done|]. right. by split_and!.
Qed.

(** ** Behaviours worth knowing *)

Definition ex_read : read_call := ReadCall (lit "sub/a") 20 2 [] any ∅ false false.
(** The first two servers say that they have the file. *)
Definition ex_found : nat -> list callback := fun n => if n is 3%nat then [Replied 0 (lit "010110001") 3; Replied 1 (lit "010110002") 3] else [].
Definition ex_file (identy : bytes) (date ttl text : bytes) : bytes := lit "0201" ++ identy ++ lit "02" ++ date ++ ttl ++ [x20] ++ text.
(** The first server does not answer, the second one does. *)
Definition ex_attempts : nat -> list callback :=
  fun n => if n is 1%nat then [Replied 1 (ex_file (lit "10006") (lit "2020-01-02 03:04:05") (lit "0") (lit "hello")) 5] else [].

Example ex_read_file :
  (fun f => (rf_res f, rf_ip f, rf_content f, rq_index <$> rf_sent f)) <$>
    read_file ex_inflate ex_read ex_connections (ex_view []) ex_found (fun _ => []) 9 10000 ex_attempts [] =
  Some (read_ok, 167772162, lit "hello", [0; 1]).
Proof. vm_compute. reflexivity. Qed.

Lemma ex_attempts_clean k : clean (ex_attempts k).
Proof.
  intros i m el Hin _. destruct k as [|[|k]]; cbn [ex_attempts] in Hin; [set_solver| |set_solver]. apply list_elem_of_singleton in Hin. injection Hin as _ -> _.
  vm_compute. by eexists.
Qed.

Lemma read_file_exact_witness :
  exists f fd, read_file ex_inflate ex_read ex_connections (ex_view []) ex_found (fun _ => []) 9 10000 ex_attempts [] = Some f /\
    find_servers ex_inflate ex_read ex_connections (ex_view []) ex_found (fun _ => []) 9 10000 = Some fd /\ rf_timeouts f = fd_timeouts fd.
Proof.
  destruct (read_file_exact ex_inflate ex_read ex_connections (ex_view []) ex_found (fun _ => []) 9 10000 ex_attempts [] ex_attempts_clean) as (f & fd & H1 & H2 & H3 & _).
  exists f, fd. split; [exact H1|]. split; [exact H2|exact H3].
Defined.

(** Any other message, such as an event, is counted as the answer, and the client no longer waits. *)
Lemma read_other_message : on_read false 1 10006 (RState [] read_info_init false 1) (Replied 1 (lit "11|event") 2) = Some (RState [] read_info_init false 0).
Proof. vm_compute. reflexivity. Qed.
