(* ===== verification/Main.v ===== *)
(** * The server as a whole ([rssdisk/rssdisk/main.cpp])

    [main] loads the key-value store that the last run saved, starts the replication log and the
    handler of requests, and runs a thread, [checker], that once a second counts up to an hour
    (expired files, the size of the log) and to five seconds (expired items of the stores).  On a
    signal it saves the key-value store.

    The state is that of the handlers ([node]), the log and the two counters.  The reading of
    arguments and settings, the process table and the signals are not modelled. *)

From S2P Require Import Prelude Bitbase BasefuncStd DateTime MapTime CManager EManager DiskHelper Hstf WType JdbInterface JManager DiskServer TtlRemover TcpHandler.
From Stdlib Require Import ZArith Lia Strings.Byte.
From stdpp Require Import base gmap strings numbers list.
Open Scope Z_scope.

(** ** State *)

Record program := Program { prog_node : node; prog_log : hstf; c3600 : Z; c5 : Z }.

(** ** Start and stop *)

Definition cdb_data : bytes := lit "_cdb_data".

(** [fuel] bounds the loop of [deserializeData]. *)
Definition load_cdb (c : clock) (fuel : nat) (hdd_path : bytes) (f : fs) : option CManager.store :=
  match hdd_path with
  | [] => Some MapTime.empty
  | _ => deserializeData c (default [] (DiskHelper.read_file f hdd_path cdb_data 0)) fuel MapTime.empty
  end.

(** [log_size] and [log_file]: the size of the log in the settings and the file it was kept in. *)
Definition start (c : clock) (fuel : nat) (hdd_path : bytes) (log_size : Z) (log_file : option bytes) (s : server) : option program :=
  m ← load_cdb c fuel hdd_path (files s);
  Some (Program (Node s m (EDb ∅ ∅)) (init log_size log_file) 3800 0).

(** [items] lists the store in the order of the [unordered_map]. *)
Definition save_cdb (opens : bytes -> bool) (c : clock) (hdd_path : bytes) (items : list (bytes * timed_val Item)) (f : fs) : fs :=
  match hdd_path with
  | [] => f
  | _ => (DiskHelper.write opens (hdd_path ++ cdb_data) (serializeData c items) f).2
  end.

(** ** The checker *)

Section checker.
Context `{Filesystem}.

(** Once an hour: the files that have expired, then the log. *)
Definition hour (now : date_time) (pr : program) : option program :=
  s ← run_ttl_remover now (disk (prog_node pr));
  Some (Program (set_disk s (prog_node pr)) (Hstf.clear (prog_log pr)) 0 (c5 pr)).

(** Every five seconds: the items and the events that have expired. *)
Definition five_seconds (now : date_time) (steady_now : Z) (pr : program) : program :=
  let n := prog_node pr in
  Program (Node (disk n) (clearAll steady_now (cdb n)) (reset now (edb n))) (prog_log pr) (c3600 pr) 0.

(** One turn of the loop, after the sleep, at the local time [now] and [steady_now]. *)
Definition checker_tick (now : date_time) (steady_now : Z) (pr : program) : option program :=
  let pr := Program (prog_node pr) (prog_log pr) (c3600 pr + 1) (c5 pr) in
  pr ← (if 3600 <? c3600 pr then hour now pr else Some pr);
  let pr := Program (prog_node pr) (prog_log pr) (c3600 pr) (c5 pr + 1) in
  Some (if 5 <=? c5 pr then five_seconds now steady_now pr else pr).

Fixpoint checker_run (ts : list (date_time * Z)) (pr : program) : option program :=
  match ts with
  | [] => Some pr
  | (now, st) :: ts' => pr ← checker_tick now st pr; checker_run ts' pr
  end.
End checker.

(** ** Requests *)

(** [rd.on_write_]. *)
Definition on_write_ (w : option (bytes * Z * Z)) (h : hstf) : hstf :=
  match w with Some (filename, tms, crc32) => Hstf.add filename tms crc32 h | None => h end.

Section requests.
Context `{JEnv} `{JdbEngine} `{Filesystem}.
Context (inflate : bytes -> option bytes) (shash : bytes -> Z) (decrypt : bytes -> bytes -> bytes -> bytes).
Context (get_hash_of_file : fs -> bytes -> Z) (opens : bytes -> bool) (file_names : fs -> bytes -> list bytes).

(** What a message of a client tells [on_write_]: it is called in [accept_file], request 4. *)
Definition written (m : moment) (is_authorized : bool) (message : bytes) (n : node) : option (bytes * Z * Z) :=
  if is_authorized && (7 <=? zlen message) && (default 0 (stoi I32 (take 2 message)) =? 4) then
    let query := drop 7 message in
    '(_, _, w) ← accept_file shash decrypt opens (m_lock m query) (m_now m) query false false (disk n); w
  else None.

(** A message of a client, or a turn of the checker. *)
Inductive prog_step : program -> program -> Prop :=
  | step_message m a message pr a' outs n' :
      on_message inflate shash decrypt get_hash_of_file opens file_names m a message (prog_node pr) = Some (a', outs, n') ->
      prog_step pr (Program n' (on_write_ (written m a message (prog_node pr)) (prog_log pr)) (c3600 pr) (c5 pr))
  | step_tick now st pr pr' : checker_tick now st pr = Some pr' -> prog_step pr pr'.

(** The counters, and the invariant of the key-value store. *)
Record prog_inv (pr : program) : Prop := {
  inv_hour : 0 <= c3600 pr <= 3600 \/ c3600 pr = 3800;
  inv_five : 0 <= c5 pr < 5;
  inv_cdb : MapTime.inv (cdb (prog_node pr)) }.

(** A request changes the key-value store by writes only. *)
Lemma dispatch_cdb m ty ident query n outs n' :
  dispatch inflate shash decrypt get_hash_of_file opens file_names m ty ident query n = Some (outs, n') ->
  MapTime.inv (cdb n) -> MapTime.inv (cdb n').
Proof.
  intros E Hi. unfold dispatch, do_cdb_insert in E.
  repeat (case_match; simplify_option_eq; try done);
    match goal with E : CManager.insert _ _ _ _ = Some (_, ?s) |- _ => apply (insert_loop_inv _ _ _ _ _ _ _ Hi E) end.
Qed.

Lemma on_message_cdb m a message n a' outs n' :
  on_message inflate shash decrypt get_hash_of_file opens file_names m a message n = Some (a', outs, n') ->
  MapTime.inv (cdb n) -> MapTime.inv (cdb n').
Proof.
  intros E Hi. unfold on_message in E. repeat (case_match; simplify_option_eq; try done). by eapply dispatch_cdb.
Qed.

(** One turn of the checker: what it does is decided by the counters. *)
Lemma tick_cases now st pr pr' : checker_tick now st pr = Some pr' ->
  cdb (prog_node pr') = (if 5 <=? c5 pr + 1 then clearAll st (cdb (prog_node pr)) else cdb (prog_node pr)) /\
  c5 pr' = (if 5 <=? c5 pr + 1 then 0 else c5 pr + 1) /\
  c3600 pr' = (if 3600 <? c3600 pr + 1 then 0 else c3600 pr + 1).
Proof.
  unfold checker_tick, hour. cbn [c3600 c5 prog_node prog_log]. destruct (3600 <? c3600 pr + 1).
  - destruct (run_ttl_remover now (disk (prog_node pr))); [|done]. cbn [mbind option_bind c3600 c5 prog_node prog_log].
    destruct (5 <=? c5 pr + 1); intros [= <-]; done.
  - cbn [mbind option_bind c3600 c5 prog_node prog_log]. destruct (5 <=? c5 pr + 1); intros [= <-]; done.
Qed.

Lemma step_keeps_inv pr pr' : prog_step pr pr' -> prog_inv pr -> prog_inv pr'.
Proof.
  destruct 1 as [m a message pr a' outs n' E|now st pr pr' E]; intros [Hh H5 Hi].
  - split; cbn [c3600 c5 prog_node]; [done|done|]. by eapply on_message_cdb.
  - apply tick_cases in E as (E1 & E2 & E3). split.
    + rewrite E3. destruct (Z.ltb_spec 3600 (c3600 pr + 1)); lia.
    + rewrite E2. destruct (Z.leb_spec 5 (c5 pr + 1)); lia.
    + rewrite E1. destruct (5 <=? c5 pr + 1); [by apply inv_clear_ttl|done].
Qed.

Lemma start_inv c fuel hdd_path log_size log_file s pr : start c fuel hdd_path log_size log_file s = Some pr -> prog_inv pr.
Proof.
  unfold start, load_cdb. intros E. assert (Hi : forall d m, deserializeData c d fuel MapTime.empty = Some m -> MapTime.inv m).
  { intros d m Hm. apply (step_inv MapTime.empty); [by eapply step_deserialize|apply inv_empty]. }
  destruct hdd_path as [|b hdd_path]; simplify_option_eq; (split; cbn [c3600 c5 prog_node cdb]; [by right|lia|]); [apply inv_empty|by eapply Hi].
Qed.

Lemma reachable_prog_inv c fuel hdd_path log_size log_file s pr pr' :
  start c fuel hdd_path log_size log_file s = Some pr -> rtc prog_step pr pr' -> prog_inv pr'.
Proof. intros Hi%start_inv Hr. induction Hr as [|pr pr1 pr2 Hs Hr IH]; [done|]. apply IH. by eapply step_keeps_inv. Qed.

(** C22: however requests and turns of the checker alternate after a start, every fifth turn leaves
    exactly the items of the key-value store whose time has not passed, and the others leave the
    store alone; a turn in between is at most four away from such a one. *)
Theorem checker_keeps_store_clean c fuel hdd_path log_size log_file s pr0 pr now st pr' :
  start c fuel hdd_path log_size log_file s = Some pr0 -> rtc prog_step pr0 pr -> checker_tick now st pr = Some pr' ->
  0 <= c5 pr < 5 /\ c5 pr' = (c5 pr + 1) mod 5 /\
  forall k f, mp (cdb (prog_node pr')) !! k = Some f <->
    mp (cdb (prog_node pr)) !! k = Some f /\ (c5 pr' = 0 -> st <= valid_until f).
Proof.
  intros Hs Hr E. destruct (reachable_prog_inv _ _ _ _ _ _ _ _ Hs Hr) as [_ H5 Hi]. apply tick_cases in E as (E1 & E2 & _).
  rewrite E1, E2. split; [done|]. destruct (Z.leb_spec 5 (c5 pr + 1)).
  - split; [by replace (c5 pr) with 4 by lia|]. intros k f. unfold clearAll. rewrite clear_ttl_lookup by done. naive_solver.
  - split; [rewrite Z.mod_small by lia; done|]. intros k f. split; [|naive_solver]. intros Hk. split; [done|lia].
Qed.
End requests.

(** ** The schedule of the checker *)

Section schedule.
Context `{Filesystem}.

(** The [n]-th turn after the start does its hourly work when [n] is [1], [3602], [7203]... *)
Definition scheduled_tick (n : Z) (now : date_time) (st : Z) (pr : program) : option program :=
  pr ← (if n mod 3601 =? 1 then hour now pr else Some pr);
  Some (if n mod 5 =? 0 then five_seconds now st pr else pr).

Fixpoint scheduled_run (n : Z) (ts : list (date_time * Z)) (pr : program) : option program :=
  match ts with
  | [] => Some pr
  | (now, st) :: ts' => pr ← scheduled_tick n now st pr; scheduled_run (n + 1) ts' pr
  end.

(** Two programs that differ in the counters only. *)
Definition same_state (a b : program) : Prop := prog_node a = prog_node b /\ prog_log a = prog_log b.

Definition counters_at (n : Z) (pr : program) : Prop :=
  c3600 pr = (if n =? 0 then 3800 else (n - 1) mod 3601) /\ c5 pr = n mod 5.

Lemma tick_scheduled n now st pr pr2 : 0 <= n -> counters_at n pr -> same_state pr pr2 ->
  match checker_tick now st pr, scheduled_tick (n + 1) now st pr2 with
  | Some a, Some b => counters_at (n + 1) a /\ same_state a b
  | None, None => True
  | _, _ => False
  end.
Proof.
  intros Hn [C1 C2] [E1 E2].
  assert (B1 : (3600 <? c3600 pr + 1) = ((n + 1) mod 3601 =? 1)).
  { rewrite C1. destruct (Z.eqb_spec n 0) as [->|]; [done|]. apply Bool.eq_iff_eq_true. rewrite Z.ltb_lt, Z.eqb_eq. dlia. }
  assert (B2 : (5 <=? c5 pr + 1) = ((n + 1) mod 5 =? 0)).
  { rewrite C2. apply Bool.eq_iff_eq_true. rewrite Z.leb_le, Z.eqb_eq. dlia. }
  assert (N1 : (if (n + 1) mod 3601 =? 1 then 0 else c3600 pr + 1) = (if n + 1 =? 0 then 3800 else (n + 1 - 1) mod 3601)).
  { rewrite <- B1. destruct (Z.eqb_spec (n + 1) 0); [lia|]. rewrite C1. destruct (Z.eqb_spec n 0) as [->|]; [done|].
    destruct (Z.ltb_spec 3600 ((n - 1) mod 3601 + 1)); dlia. }
  assert (N2 : (if (n + 1) mod 5 =? 0 then 0 else c5 pr + 1) = (n + 1) mod 5).
  { rewrite <- B2, C2. destruct (Z.leb_spec 5 (n mod 5 + 1)); dlia. }
  unfold checker_tick, scheduled_tick, hour. cbn [c3600 c5 prog_node prog_log]. rewrite B1, <- E1, <- E2.
  unfold counters_at, same_state. destruct ((n + 1) mod 3601 =? 1).
  - destruct (run_ttl_remover now _); [|done]. cbn [mbind option_bind c3600 c5 prog_node prog_log]. rewrite B2.
    destruct ((n + 1) mod 5 =? 0); cbn [five_seconds c3600 c5 prog_node prog_log]; done.
  - cbn [mbind option_bind c3600 c5 prog_node prog_log]. rewrite B2.
    destruct ((n + 1) mod 5 =? 0); cbn [five_seconds c3600 c5 prog_node prog_log]; rewrite ?E1, ?E2; done.
Qed.

Lemma run_scheduled ts : forall n pr pr2, 0 <= n -> counters_at n pr -> same_state pr pr2 ->
  match checker_run ts pr, scheduled_run (n + 1) ts pr2 with
  | Some a, Some b => counters_at (n + zlen ts) a /\ same_state a b
  | None, None => True
  | _, _ => False
  end.
Proof.
  induction ts as [|[now st] ts IH]; intros n pr pr2 Hn Hc Hs; cbn [checker_run scheduled_run].
  - by rewrite Z.add_0_r.
  - pose proof (tick_scheduled n now st pr pr2 Hn Hc Hs) as Ht.
    destruct (checker_tick now st pr) as [a|], (scheduled_tick (n + 1) now st pr2) as [b|]; cbn [mbind option_bind]; try done.
    destruct Ht as [Hc' Hs']. pose proof (IH (n + 1) a b ltac:(lia) Hc' Hs') as Hr.
    replace (n + zlen ((now, st) :: ts)) with (n + 1 + zlen ts) by (simpl; lia). done.
Qed.

(** The turns of the checker from the start on: the expired files and the log are dealt with at
    the first turn and then every 3601 turns, the stores every five. *)
Theorem checker_schedule c fuel hdd_path log_size log_file s pr ts :
  start c fuel hdd_path log_size log_file s = Some pr ->
  match checker_run ts pr, scheduled_run 1 ts pr with
  | Some a, Some b => same_state a b
  | None, None => True
  | _, _ => False
  end.
Proof.
  intros E. assert (Hr : counters_at 0 pr) by (unfold start in E; by simplify_option_eq).
  pose proof (run_scheduled ts 0 pr pr ltac:(lia) Hr (conj eq_refl eq_refl)) as H1.
  change (0 + 1) with 1 in H1. destruct (checker_run ts pr), (scheduled_run 1 ts pr); try done. by destruct H1.
Qed.
End schedule.

(** ** Restarting *)

(** The answer of [retrieve] for an item. *)
Definition entry (f : timed_val Item) : bytes :=
  numeric_to_chars I64 (timestamp (val f)) ++ numeric_to_chars I64 (checksum (val f)) ++ CManager.content (val f).

(** The second of the system clock in which an item expires, as it is saved. *)
Definition expiry_second (c : clock) (f : timed_val Item) : Z := steady_clock_to_time_t c (valid_until f).

Lemma retrieve_reloaded c c' now k (m m' : CManager.store) :
  (forall k, mp m' !! k = mp m !! k ≫= reload c c') -> steady c' <= now ->
  forall v, CManager.retrieve now k m' = Some v <->
    exists f, mp m !! k = Some f /\ v = entry f /\ system c' < expiry_second c f * nano /\ wall c' now <= expiry_second c f * nano.
Proof.
  intros Hm Hnow v. unfold CManager.retrieve, MapTime.get. rewrite Hm. destruct (mp m !! k) as [f|] eqn:E.
  - cbn [mbind option_bind]. unfold reload, reload_until, time_t_to_steady_clock, wall. fold (expiry_second c f).
    set (t := expiry_second c f * nano). destruct (Z.ltb_spec (steady c') (steady c' + (t - system c'))) as [H1|H1].
    + cbn [mbind option_bind valid_until val]. destruct (Z.leb_spec now (steady c' + (t - system c'))) as [H2|H2]; cbn [mbind option_bind].
      * unfold t in *. split; [intros [= <-]; exists f; repeat split; lia|]. by intros (g & [= <-] & -> & _).
      * unfold t in *. split; [done|]. intros (g & [= <-] & _ & _ & H3). lia.
    + cbn [mbind option_bind]. split; [done|]. intros (g & [= <-] & _ & H2 & _). unfold t in H1. lia.
  - cbn [mbind option_bind]. split; [done|]. by intros (f & [=] & _).
Qed.

(** C21: a server that is stopped and started again, later and after a reboot even, has its
    key-value store back: from then on a key is answered as before, with its timestamp, checksum
    and content, until the second in which it would have expired, and that second is the one on
    the system clock before the stop, rounded down. *)
Theorem restart_keeps_store opens c c' fuel hdd_path log_size log_file items n s' :
  hdd_path <> [] -> opens (hdd_path ++ cdb_data) = true ->
  items ≡ₚ map_to_list (mp (cdb n)) -> Forall (item_ok c) items -> zlen (serializeData c items) < 2 ^ 63 -> (length items < fuel)%nat ->
  files s' !! (hdd_path ++ cdb_data) = save_cdb opens c hdd_path items (files (disk n)) !! (hdd_path ++ cdb_data) ->
  exists pr, start c' fuel hdd_path log_size log_file s' = Some pr /\
    (forall now k v, steady c' <= now ->
       CManager.retrieve now k (cdb (prog_node pr)) = Some v <->
       exists f, mp (cdb n) !! k = Some f /\ v = entry f /\
         system c' < expiry_second c f * nano /\ wall c' now <= expiry_second c f * nano) /\
    (forall f, 0 <= wall c (valid_until f) -> wall c (valid_until f) - nano < expiry_second c f * nano <= wall c (valid_until f)).
Proof.
  intros Hp Ho Hi Hok Hl Hf Hs. assert (Hn : NoDup items.*1) by (rewrite Hi; apply NoDup_fst_map_to_list).
  destruct (c_deserialize_serialize c c' items fuel Hok Hn Hl Hf) as (m & Em & Hm).
  assert (Hm' : forall k, mp m !! k = mp (cdb n) !! k ≫= reload c c').
  { intros k. rewrite Hm. f_equal. rewrite <- (list_to_map_to_list (mp (cdb n))). by rewrite (list_to_map_proper _ _ Hn Hi). }
  assert (El : load_cdb c' fuel hdd_path (files s') = Some m).
  { unfold load_cdb, save_cdb, DiskHelper.write in *. destruct hdd_path; [done|]. unfold DiskHelper.read_file. rewrite Hs, Ho.
    cbn [snd]. rewrite lookup_insert_eq. cbn [mbind option_bind]. exact Em. }
  exists (Program (Node s' m (EDb ∅ ∅)) (init log_size log_file) 3800 0). split; [unfold start; by rewrite El|]. split.
  - intros now k v Hnow. cbn [prog_node cdb]. by apply (retrieve_reloaded c).
  - intros f Hw. pose proof (reload_until_near c c' (valid_until f) Hw) as H. unfold expiry_second, reload_until, time_t_to_steady_clock, wall in *. lia.
Qed.

(** ** An example *)

Definition ex_saved : node :=
  Node (Server (Conf true true (lit "key") [] [] (lit "/ttl/") 2 ∅) ∅) (MapTime (list_to_map example_items) []) (EDb ∅ ∅).
Definition ex_booted : clock := Clock 7 (1700000001 * nano).
Definition ex_reopened : server :=
  Server (conf (disk ex_saved)) (save_cdb (fun _ => true) example_clock (lit "/s/") example_items ∅).

Lemma restart_keeps_store_witness :
  exists pr, start ex_booted 3 (lit "/s/") 100 None ex_reopened = Some pr /\
    (forall now k v, 7 <= now ->
       CManager.retrieve now k (cdb (prog_node pr)) = Some v <->
       exists f, mp (cdb ex_saved) !! k = Some f /\ v = entry f /\
         system ex_booted < expiry_second example_clock f * nano /\ wall ex_booted now <= expiry_second example_clock f * nano) /\
    (forall f, 0 <= wall example_clock (valid_until f) ->
       wall example_clock (valid_until f) - nano < expiry_second example_clock f * nano <= wall example_clock (valid_until f)).
Proof.
  apply (restart_keeps_store (fun _ => true) example_clock ex_booted 3 (lit "/s/") 100 None example_items ex_saved ex_reopened).
  - discriminate.
  - reflexivity.
  - symmetry. apply map_to_list_to_map. apply (bool_decide_unpack _). by vm_compute.
  - repeat constructor; simpl; try done; unfold in_range; vm_compute; done.
  - by vm_compute.
  - simpl; lia.
  - reflexivity.
Defined.

#[local] Existing Instance tcp_env.
#[local] Existing Instance plain_filesystem.

(** The server of the example after [n] turns of the checker. *)
Definition ex_run (n : nat) : option program :=
  pr ← start ex_booted 3 (lit "/s/") 100 None ex_reopened; checker_run (replicate n (example_dt, 3 * nano)) pr.
Definition ex_prog (n : nat) : program := default (Program ex_saved (init 0 None) 0 0) (ex_run n).

Lemma ex_prog_tick n : (n < 5)%nat -> checker_tick example_dt (3 * nano) (ex_prog n) = Some (ex_prog (S n)).
Proof. intros Hn. do 5 (destruct n as [|n]; [vm_compute; reflexivity|]). lia. Qed.

Lemma checker_keeps_store_clean_witness :
  0 <= c5 (ex_prog 4) < 5 /\ c5 (ex_prog 5) = (c5 (ex_prog 4) + 1) mod 5 /\
  forall k f, mp (cdb (prog_node (ex_prog 5))) !! k = Some f <->
    mp (cdb (prog_node (ex_prog 4))) !! k = Some f /\ (c5 (ex_prog 5) = 0 -> 3 * nano <= valid_until f).
Proof.
  apply (checker_keeps_store_clean (fun _ => None) (fun _ => 7) (fun c _ _ => c) (fun _ _ => 1) (fun _ => true) (fun _ _ => [])
    ex_booted 3 (lit "/s/") 100 None ex_reopened (ex_prog 0) (ex_prog 4) example_dt (3 * nano) (ex_prog 5)).
  - vm_compute. reflexivity.
  - do 4 (eapply rtc_l; [eapply step_tick; apply ex_prog_tick; lia|]). apply rtc_refl.
  - apply ex_prog_tick. lia.
Defined.

Example ex_item_expires :
  fst <$> map_to_list (mp (cdb (prog_node (ex_prog 4)))) = [[x61]] /\ map_to_list (mp (cdb (prog_node (ex_prog 5)))) = [].
Proof. by vm_compute. Qed.
