(* ===== verification/ClientEvents.v ===== *)
(** * Events in the client library ([listen_events] and [dispatch_events], client/rssdisk_pool.cpp)

    A client listens to several servers.  The same event comes from each of them; [event_items], a
    [time_cache], collects the servers that reported it, and when nothing more has come for a
    while [dispatch_events] calls the program back, once, with the set of the servers.  The first
    report of an event with a name makes the client ask for its value.

    The composition with the server shows what an event that is written becomes for the
    programs that listen. *)

From S2P Require Import Prelude Bitbase BasefuncStd DateTime MapTime Caches EManager TcpHandler JdbInterface JManager DiskHelper DiskServer PoolClient.
From Stdlib Require Import ZArith Lia Strings.Byte.
From stdpp Require Import base gmap strings numbers list.
Open Scope Z_scope.

(** ** The code *)

(** [evetne_item]: the servers that have reported the event. *)
Definition evetne_item := gset Z.

Abbreviation event_items := (gmap bytes (time_cache_item evetne_item)).

Definition bar : bytes := lit "|".

(** The type of the message, the type of the event and the place of the second bar. *)
Definition event_fields (str : bytes) : Z * Z * option nat :=
  match str_find bar str with
  | None => (0, 0, None)
  | Some f =>
      match str_find_at bar str (f + 1) with
      | None => (0, 0, None)
      | Some f2 =>
          let type := default 0 (stoi I32 (take f str)) in
          let ev_type := if type =? 12 then default 0 (stoi I32 (take (f2 - f) (drop (f + 1) str))) else 0 in
          (type, ev_type, Some f2)
      end
  end.

(** [str.substr(f2 + 1)]; for [npos] it is the whole string. *)
Definition after_bar (str : bytes) (f2 : option nat) : bytes := match f2 with Some i => drop (i + 1) str | None => str end.

Definition event_key (str : bytes) : bytes :=
  let '(_, ev_type, f2) := event_fields str in
  if ev_type <? 0 then lit "000000000" ++ numeric_to_chars I32 ev_type ++ after_bar str f2 else str.

(** The callback for the messages of the server [ip], at [t]: the request that it sends, with the
    identifier [identy], and the collected events. *)
Definition on_event (ip identy t : Z) (str : bytes) (items : event_items) : option bytes * event_items :=
  let '(type, ev_type, f2) := event_fields str in
  let key := event_key str in
  let is_first := match items !! key with Some it => bool_decide (value_ it = ∅) | None => true end in
  (if is_first && (type =? 12) && (0 <? ev_type)
   then Some (lit "11" ++ to_string identy ++ to_string ev_type ++ bar ++ after_bar str f2) else None,
   update_or_add (∅ : evetne_item) t key (fun ips => {[ip]} ∪ ips) 600 items).

(** [duration_cast<milliseconds>] of the time since the last report. *)
Definition quiet_ms (t last : Z) : Z := Z.quot (t - last) 1000000.

(** The events that the program is called back with, and the rest. *)
Definition dispatch_events (t minimum_m_sec_to_dispatch : Z) (items : event_items) : list (bytes * evetne_item) * event_items :=
  get_old_events_and_clear (fun it => minimum_m_sec_to_dispatch <? quiet_ms t (last_set_cache it)) items.

(** The end of a turn of the dispatching thread ([events_wait] of rssdisk_pool.hpp): every 600
    seconds of [time(0)] what is older than it may be cached is dropped.  [t_c_cache] is when that
    was done last. *)
Definition clear_turn (t c_time t_c_cache : Z) (items : event_items) : Z * event_items :=
  if 600 <? c_time - t_c_cache then (c_time, clear_cache t items) else (t_c_cache, items).

(** ** Runs *)

(** A message of a server, or one of the two parts of a turn of the dispatching thread. *)
Inductive event_op :=
  | Received (ip t : Z) (str : bytes)
  | Dispatch (t : Z)
  | ClearTurn (t c_time : Z).

Fixpoint run_events (min : Z) (ops : list event_op) (t_c_cache : Z) (items : event_items) : list (bytes * evetne_item) * Z * event_items :=
  match ops with
  | [] => ([], t_c_cache, items)
  | Received ip t str :: ops' => run_events min ops' t_c_cache (on_event ip 0 t str items).2
  | Dispatch t :: ops' =>
      let '(out, items) := dispatch_events t min items in
      let '(outs, t_c_cache, items) := run_events min ops' t_c_cache items in
      (out ++ outs, t_c_cache, items)
  | ClearTurn t c_time :: ops' =>
      let '(t_c_cache, items) := clear_turn t c_time t_c_cache items in
      run_events min ops' t_c_cache items
  end.

(** The servers that reported [k], in the order of the messages. *)
Definition reports (k : bytes) (ops : list event_op) : list Z :=
  omap (fun o => match o with Received ip _ str => if bool_decide (event_key str = k) then Some ip else None | _ => None end) ops.

(** The calls of the program for [k]. *)
Definition calls (k : bytes) (outs : list (bytes * evetne_item)) : list evetne_item :=
  (filter (fun x => x.1 = k) outs).*2.

(** What waits for a dispatch. *)
Definition pending (k : bytes) (items : event_items) : option evetne_item := value_ <$> items !! k.
Definition pending_ips (k : bytes) (items : event_items) : evetne_item := default ∅ (pending k items).

Lemma on_event_lookup ip identy t str items k :
  (on_event ip identy t str items).2 !! k =
    if bool_decide (event_key str = k)
    then Some (CacheItem ({[ip]} ∪ pending_ips k items) t (match items !! k with Some it => sec_to_caching it | None => 600 end))
    else items !! k.
Proof.
  unfold on_event, pending_ips, pending. destruct (event_fields str) as [[ty ev] f2]. cbn [snd]. unfold update_or_add.
  destruct (bool_decide_reflect (event_key str = k)) as [<-|Hne].
  - destruct (items !! event_key str) as [it|]; by rewrite lookup_insert_eq.
  - destruct (items !! event_key str) as [it|]; by rewrite lookup_insert_ne.
Qed.

(** The items that a turn of the dispatching thread takes. *)
Definition due (t min : Z) (it : time_cache_item evetne_item) : bool := min <? quiet_ms t (last_set_cache it).

Lemma calls_list (t min : Z) (l : list (bytes * time_cache_item evetne_item)) k : NoDup l.*1 ->
  calls k ((fun x => (x.1, value_ x.2)) <$> filter (fun x => due t min x.2 = true) l) =
    match (list_to_map l : event_items) !! k with Some it => if due t min it then [value_ it] else [] | None => [] end.
Proof.
  induction l as [|[k' it] l IH]; intros Hn; [done|]. rewrite fmap_cons in Hn. apply NoDup_cons in Hn as [Hk Hn]. cbn [fst] in Hk.
  specialize (IH Hn). cbn [list_to_map foldr fst snd]. destruct (decide (k' = k)) as [->|Hne].
  - rewrite lookup_insert_eq. rewrite (not_elem_of_list_to_map_1 (M := gmap bytes) l k Hk) in IH.
    destruct (due t min it) eqn:E.
    + rewrite filter_cons_True by done. rewrite fmap_cons. unfold calls in *. rewrite filter_cons_True by done. rewrite fmap_cons. by rewrite IH.
    + rewrite filter_cons_False by (cbn; congruence). done.
  - rewrite lookup_insert_ne by done. rewrite <- IH. destruct (due t min it) eqn:E.
    + rewrite filter_cons_True by done. rewrite fmap_cons. unfold calls. by rewrite filter_cons_False.
    + rewrite filter_cons_False by (cbn; congruence). done.
Qed.

Lemma dispatch_calls (t min : Z) (items : event_items) k :
  calls k (dispatch_events t min items).1 = match items !! k with Some it => if due t min it then [value_ it] else [] | None => [] end.
Proof.
  unfold dispatch_events, get_old_events_and_clear. cbn [fst].
  rewrite <- (list_to_map_to_list items) at 2. apply (calls_list t min), NoDup_fst_map_to_list.
Qed.

Lemma dispatch_lookup (t min : Z) (items : event_items) k :
  (dispatch_events t min items).2 !! k = (it ← items !! k; if due t min it then None else Some it).
Proof.
  unfold dispatch_events, get_old_events_and_clear. cbn [snd]. rewrite map_lookup_filter.
  destruct (items !! k) as [it|]; [|done]. cbn [mbind option_bind snd]. unfold due. by destruct (min <? _).
Qed.

Lemma calls_app k a b : calls k (a ++ b) = calls k a ++ calls k b.
Proof. unfold calls. by rewrite filter_app, fmap_app. Qed.

(** How many dispatches [k] waits for: one or none. *)
Definition waiting (k : bytes) (items : event_items) : nat := match items !! k with Some _ => 1 | None => 0 end.

(** What a turn drops of an event. *)
Lemma clear_turn_lookup (t c_time tc : Z) (items : event_items) k : (clear_turn t c_time tc items).2 !! k = items !! k \/
  (clear_turn t c_time tc items).2 !! k = None /\ exists it, items !! k = Some it /\ sec_to_caching it < cached_sec t it.
Proof.
  unfold clear_turn. destruct (600 <? _); [|by left]. cbn [snd]. rewrite clear_cache_lookup. destruct (items !! k) as [it|]; [|by left]. cbn [mbind option_bind].
  destruct (Z.ltb_spec (sec_to_caching it) (cached_sec t it)); [right|by left]. split; [done|]. by exists it.
Qed.

Lemma run_events_sub (min : Z) k ops : forall tc items outs tc' items', run_events min ops tc items = (outs, tc', items') ->
  ⋃ calls k outs ∪ pending_ips k items' ⊆ list_to_set (reports k ops) ∪ pending_ips k items /\
  (length (calls k outs) + waiting k items' <= length (reports k ops) + waiting k items)%nat.
Proof.
  induction ops as [|o ops IH]; intros tc items outs tc' items' E; [injection E as <- <- <-; split; [set_solver|simpl; lia]|].
  destruct o as [ip t str|t|t c_time]; cbn [run_events] in E.
  - destruct (IH _ _ _ _ _ E) as [I1 I2]. unfold pending_ips, pending, waiting in *. rewrite on_event_lookup in I1, I2.
    unfold reports in *. cbn [omap list_omap]. destruct (bool_decide_reflect (event_key str = k)) as [Hk|Hk]; [|done].
    cbn [fmap option_fmap option_map value_ default list_to_set] in *. unfold pending_ips, pending in I1. split; [set_solver|]. simpl in *. lia.
  - pose proof (dispatch_calls t min items k) as Hc. pose proof (dispatch_lookup t min items k) as Hl.
    destruct (dispatch_events t min items) as [out items1]. cbn [fst snd] in *.
    destruct (run_events min ops tc items1) as [[outs1 tc1] items2] eqn:E1. injection E as <- <- <-.
    destruct (IH _ _ _ _ _ E1) as [I1 I2]. rewrite calls_app, union_list_app_L, length_app, Hc.
    change (reports k (Dispatch t :: ops)) with (reports k ops).
    unfold pending_ips, pending, waiting in *. rewrite Hl in I1, I2.
    destruct (items !! k) as [it|]; cbn [mbind option_bind] in *; [|split; [set_solver|simpl in *; lia]].
    destruct (due t min it); cbn [fmap option_fmap option_map default] in *; split; [set_solver|simpl in *; lia|set_solver|simpl in *; lia].
  - pose proof (clear_turn_lookup t c_time tc items k) as Hl. destruct (clear_turn t c_time tc items) as [tc1 items1]. cbn [snd] in Hl.
    destruct (IH _ _ _ _ _ E) as [I1 I2]. change (reports k (ClearTurn t c_time :: ops)) with (reports k ops).
    unfold pending_ips, pending, waiting in *. destruct Hl as [Hl|[Hl _]]; rewrite Hl in I1, I2; [done|]. cbn [fmap option_fmap option_map default] in I1. split; [set_solver|]. lia.
Qed.

(** The dispatching thread keeps up: when it drops old reports nothing that waits can be 601
    seconds old.  [oldest] is a bound for the reports that wait; a dispatch leaves only those of
    the last [min] milliseconds. *)
Fixpoint punctual (min : Z) (ops : list event_op) (oldest : option Z) : Prop :=
  match ops with
  | [] => True
  | Received _ t _ :: ops' => punctual min ops' (Some (match oldest with Some o => Z.min o t | None => t end))
  | Dispatch t :: ops' => punctual min ops' ((fun o => Z.max o (t - (min + 1) * 1000000)) <$> oldest)
  | ClearTurn t _ :: ops' => (forall o, oldest = Some o -> t - o < 601 * nano) /\ punctual min ops' oldest
  end.

(** What waits for [k] may be cached for 600 seconds and is not older than [oldest]. *)
Definition young (k : bytes) (oldest : option Z) (items : event_items) : Prop := forall it, items !! k = Some it ->
  sec_to_caching it = 600 /\ exists o, oldest = Some o /\ o <= last_set_cache it.

Lemma young_received k oldest items ip t str : young k oldest items ->
  young k (Some (match oldest with Some o => Z.min o t | None => t end)) (on_event ip 0 t str items).2.
Proof.
  intros Hy it. rewrite on_event_lookup. destruct (bool_decide _).
  - intros [= <-]. cbn. split; [destruct (items !! k) as [it|] eqn:E; [by apply Hy|done]|]. eexists. split; [done|]. destruct oldest; lia.
  - intros E. destruct (Hy it E) as [Hs (o & -> & Ho)]. split; [done|]. eexists. split; [done|]. lia.
Qed.

Lemma young_dispatched k oldest items t min : young k oldest items ->
  young k ((fun o => Z.max o (t - (min + 1) * 1000000)) <$> oldest) (dispatch_events t min items).2.
Proof.
  intros Hy it. rewrite dispatch_lookup. destruct (items !! k) as [it'|] eqn:E; [|done]. cbn [mbind option_bind]. unfold due.
  destruct (Z.ltb_spec min (quiet_ms t (last_set_cache it'))) as [|Hq]; [done|]. intros [= <-]. destruct (Hy it' E) as [Hs (o & -> & Ho)]. split; [done|].
  eexists. split; [done|]. unfold quiet_ms in Hq. assert (Hx : t - last_set_cache it' < (min + 1) * 1000000) by (Z.to_euclidean_division_equations; lia). lia.
Qed.

Lemma young_kept k oldest items t c_time tc : young k oldest items -> (forall o, oldest = Some o -> t - o < 601 * nano) ->
  (clear_turn t c_time tc items).2 !! k = items !! k.
Proof.
  intros Hy Ht. destruct (clear_turn_lookup t c_time tc items k) as [Hl|(_ & it & Hit & Hc)]; [done|]. destruct (Hy it Hit) as [Hs (o & Eo & Ho)].
  specialize (Ht o Eo). rewrite Hs in Hc. unfold cached_sec in Hc. exfalso. assert (Hx : t - last_set_cache it < 601 * nano) by lia. unfold nano in *.
  Z.to_euclidean_division_equations; lia.
Qed.

Lemma run_events_all (min : Z) k ops : forall oldest tc items outs tc' items', run_events min ops tc items = (outs, tc', items') ->
  punctual min ops oldest -> young k oldest items ->
  list_to_set (reports k ops) ∪ pending_ips k items ⊆ ⋃ calls k outs ∪ pending_ips k items'.
Proof.
  induction ops as [|o ops IH]; intros oldest tc items outs tc' items' E Hp Hy; [injection E as <- <- <-; set_solver|].
  destruct o as [ip t str|t|t c_time]; cbn [run_events punctual] in E, Hp.
  - pose proof (IH _ _ _ _ _ _ E Hp (young_received k oldest items ip t str Hy)) as I1. unfold pending_ips, pending in *. rewrite on_event_lookup in I1.
    unfold reports in *. cbn [omap list_omap]. destruct (bool_decide_reflect (event_key str = k)) as [Hk|Hk]; [|done].
    cbn [fmap option_fmap option_map value_ default list_to_set] in *. unfold pending_ips, pending in I1. set_solver.
  - pose proof (dispatch_calls t min items k) as Hc. pose proof (dispatch_lookup t min items k) as Hl. pose proof (young_dispatched k oldest items t min Hy) as Hy'.
    destruct (dispatch_events t min items) as [out items1]. cbn [fst snd] in *.
    destruct (run_events min ops tc items1) as [[outs1 tc1] items2] eqn:E1. injection E as <- <- <-.
    pose proof (IH _ _ _ _ _ _ E1 Hp Hy') as I1. rewrite calls_app, union_list_app_L, Hc. change (reports k (Dispatch t :: ops)) with (reports k ops).
    unfold pending_ips, pending in *. rewrite Hl in I1. destruct (items !! k) as [it|]; cbn [mbind option_bind] in *; [|set_solver].
    destruct (due t min it); cbn [fmap option_fmap option_map default] in *; set_solver.
  - destruct Hp as [Ht Hp]. pose proof (young_kept k oldest items t c_time tc Hy Ht) as Hl. destruct (clear_turn t c_time tc items) as [tc1 items1]. cbn [snd] in Hl.
    assert (Hy' : young k oldest items1) by (intros it; rewrite Hl; apply Hy). pose proof (IH _ _ _ _ _ _ E Hp Hy') as I1.
    change (reports k (ClearTurn t c_time :: ops)) with (reports k ops). unfold pending_ips, pending in *. by rewrite Hl in I1.
Qed.

Lemma events_account_from (min : Z) ops tc k outs tc' items : run_events min ops tc ∅ = (outs, tc', items) ->
  ⋃ calls k outs ∪ pending_ips k items ⊆ list_to_set (reports k ops) /\
  (length (calls k outs) + waiting k items <= length (reports k ops))%nat /\
  (punctual min ops None -> ⋃ calls k outs ∪ pending_ips k items = list_to_set (reports k ops)).
Proof.
  intros E. destruct (run_events_sub min k ops _ _ _ _ _ E) as [H1 H2]. unfold waiting in H2 at 2. rewrite lookup_empty in H2.
  unfold pending_ips at 2, pending in H1. rewrite lookup_empty in H1. cbn [fmap option_fmap option_map default] in H1. split; [set_solver|]. split; [lia|]. intros Hp.
  pose proof (run_events_all min k ops None _ _ _ _ _ E Hp ltac:(intros it; by rewrite lookup_empty)) as H3. set_solver.
Qed.

(** Every call names a server. *)
Lemma run_events_nonempty (min : Z) k ops : forall tc items outs tc' items', run_events min ops tc items = (outs, tc', items') ->
  (forall it, items !! k = Some it -> value_ it <> ∅) -> Forall (fun ips => ips <> ∅) (calls k outs).
Proof.
  induction ops as [|o ops IH]; intros tc items outs tc' items' E Hne; [by injection E as <- <- <-|].
  destruct o as [ip t str|t|t c_time]; cbn [run_events] in E.
  - eapply IH; [exact E|]. intros it. rewrite on_event_lookup. destruct (bool_decide _); [|apply Hne].
    intros [= <-]. cbn [value_]. set_solver.
  - pose proof (dispatch_calls t min items k) as Hc. pose proof (dispatch_lookup t min items k) as Hl.
    destruct (dispatch_events t min items) as [out items1]. cbn [fst snd] in *.
    destruct (run_events min ops tc items1) as [[outs1 tc1] items2] eqn:E1. injection E as <- <- <-. rewrite calls_app, Hc. apply Forall_app. split.
    + destruct (items !! k) as [it|]; [|done]. destruct (due t min it); [|done]. apply Forall_singleton. by apply Hne.
    + eapply IH; [exact E1|]. intros it. rewrite Hl. destruct (items !! k) as [it'|]; [|done]. cbn [mbind option_bind].
      destruct (due t min it'); [done|]. intros [= <-]. by apply Hne.
  - pose proof (clear_turn_lookup t c_time tc items k) as Hl. destruct (clear_turn t c_time tc items) as [tc1 items1]. cbn [snd] in Hl.
    eapply IH; [exact E|]. intros it. destruct Hl as [->|[-> _]]; [apply Hne|done].
Qed.

(** C32: whatever messages come and whenever the events are dispatched, nothing is invented or
    reported twice: for every event the servers in the calls and those that still wait are among
    the servers that reported it, there are not more calls than reports, and every call names a
    server.  And nothing is lost, they are exactly the servers that reported it, when the
    dispatching thread keeps up: whenever it drops what is older than 600 seconds, a dispatch has
    taken everything that waited for [min] milliseconds, and no report is 601 seconds old. *)
Theorem events_accounted (min : Z) ops tc k outs tc' items :
  run_events min ops tc ∅ = (outs, tc', items) ->
  ⋃ calls k outs ∪ pending_ips k items ⊆ list_to_set (reports k ops) /\
  (length (calls k outs) + waiting k items <= length (reports k ops))%nat /\
  Forall (fun ips => ips <> ∅) (calls k outs) /\
  (punctual min ops None -> ⋃ calls k outs ∪ pending_ips k items = list_to_set (reports k ops)).
Proof.
  intros E. destruct (events_account_from min ops tc k outs tc' items E) as (H1 & H2 & H3). split_and!; [done|done| |done].
  eapply run_events_nonempty; [exact E|]. intros it. by rewrite lookup_empty.
Qed.

(** ** One call for one event *)

(** No dispatch comes more than [min] milliseconds after the last report of [k]. *)
Fixpoint undisturbed (min : Z) (k : bytes) (ops : list event_op) (last : option Z) : Prop :=
  match ops with
  | [] => True
  | Received _ t str :: ops' => undisturbed min k ops' (if bool_decide (event_key str = k) then Some t else last)
  | Dispatch t :: ops' => (forall l, last = Some l -> quiet_ms t l <= min) /\ undisturbed min k ops' last
  | ClearTurn t _ :: ops' => (forall l, last = Some l -> t - l < 601 * nano) /\ undisturbed min k ops' last
  end.

(** The instant of the last report of [k]. *)
Fixpoint last_report (k : bytes) (ops : list event_op) (last : option Z) : option Z :=
  match ops with
  | [] => last
  | Received _ t str :: ops' => last_report k ops' (if bool_decide (event_key str = k) then Some t else last)
  | _ :: ops' => last_report k ops' last
  end.

(** The instant of the report that waits. *)
Definition dated (k : bytes) (last : option Z) (items : event_items) : Prop :=
  last_set_cache <$> items !! k = last /\ forall it, items !! k = Some it -> sec_to_caching it = 600.

Lemma dated_young k last items : dated k last items -> young k last items.
Proof. intros [Hl Hs] it E. split; [by apply Hs|]. exists (last_set_cache it). rewrite E in Hl. by split. Qed.

Lemma undisturbed_waits (min : Z) k ops : forall last tc items outs tc' items', run_events min ops tc items = (outs, tc', items') ->
  dated k last items -> undisturbed min k ops last ->
  calls k outs = [] /\ pending_ips k items' = list_to_set (reports k ops) ∪ pending_ips k items /\ dated k (last_report k ops last) items'.
Proof.
  induction ops as [|o ops IH]; intros last tc items outs tc' items' E Hd Hu; [injection E as <- <- <-; split_and!; [done|set_solver|done]|].
  destruct o as [ip t str|t|t c_time]; cbn [run_events undisturbed last_report] in *.
  - assert (Hd' : dated k (if bool_decide (event_key str = k) then Some t else last) (on_event ip 0 t str items).2).
    { destruct Hd as [Hl Hs]. split; [rewrite on_event_lookup; by destruct (bool_decide _)|]. intros it. rewrite on_event_lookup. destruct (bool_decide _); [|apply Hs].
      intros [= <-]. cbn. destruct (items !! k) as [it|] eqn:Ek; [by apply Hs|done]. }
    destruct (IH _ _ _ _ _ _ E Hd' Hu) as (I1 & I2 & I3). split_and!; [done| |done]. rewrite I2. unfold pending_ips, pending. rewrite on_event_lookup.
    unfold reports. cbn [omap list_omap]. destruct (bool_decide (event_key str = k)); [|done]. cbn [fmap option_fmap option_map value_ default list_to_set]. set_solver.
  - destruct Hu as [Hq Hu]. pose proof (dispatch_calls t min items k) as Hc. pose proof (dispatch_lookup t min items k) as Hl.
    destruct (dispatch_events t min items) as [out items1]. cbn [fst snd] in *.
    destruct (run_events min ops tc items1) as [[outs1 tc1] items2] eqn:E1. injection E as <- <- <-.
    assert (Hsame : items1 !! k = items !! k /\ calls k out = []).
    { rewrite Hl, Hc. destruct Hd as [Hd _]. destruct (items !! k) as [it|]; [|done]. cbn [mbind option_bind]. specialize (Hq _ (eq_sym Hd)).
      unfold due. by rewrite (proj2 (Z.ltb_ge _ _)). }
    destruct Hsame as [Hs1 Hs2]. rewrite calls_app, Hs2. cbn [app]. change (reports k (Dispatch t :: ops)) with (reports k ops).
    unfold dated, pending_ips, pending in *. rewrite <- Hs1 in *. by eapply (IH _ _ _ _ _ _ E1).
  - destruct Hu as [Hq Hu]. pose proof (young_kept k last items t c_time tc (dated_young _ _ _ Hd) Hq) as Hl. destruct (clear_turn t c_time tc items) as [tc1 items1]. cbn [snd] in Hl.
    change (reports k (ClearTurn t c_time :: ops)) with (reports k ops). unfold dated, pending_ips, pending in *. rewrite <- Hl in *. by eapply (IH _ _ _ _ _ _ E).
Qed.

Lemma run_events_app (min : Z) ops1 ops2 : forall tc items, run_events min (ops1 ++ ops2) tc items =
  let '(o1, tc1, items1) := run_events min ops1 tc items in let '(o2, tc2, items2) := run_events min ops2 tc1 items1 in (o1 ++ o2, tc2, items2).
Proof.
  induction ops1 as [|o ops1 IH]; intros tc items; [cbn; by destruct (run_events min ops2 tc items) as [[]]|].
  destruct o as [ip t str|t|t c_time]; cbn [run_events app]; [apply IH| |destruct (clear_turn t c_time tc items); apply IH]. destruct (dispatch_events t min items) as [out items1].
  rewrite IH. destruct (run_events min ops1 tc items1) as [[o1 tc1] items2]. destruct (run_events min ops2 tc1 items2) as [[o2 tc2] items3]. by rewrite app_assoc.
Qed.

(** An event that several servers report, with no more than the quiet time between a report
    and the dispatches before the next one, is given to the program exactly once, with all the
    servers that reported it, at the first dispatch after the quiet time; nothing of it is left. *)
Theorem event_called_once (min : Z) ops tc k last t outs tc' items :
  undisturbed min k ops None -> last_report k ops None = Some last -> min < quiet_ms t last ->
  run_events min (ops ++ [Dispatch t]) tc ∅ = (outs, tc', items) ->
  calls k outs = [list_to_set (reports k ops)] /\ items !! k = None.
Proof.
  intros Hu Hlast Hq E. rewrite run_events_app in E. destruct (run_events min ops tc ∅) as [[o1 tc1] items1] eqn:E1.
  assert (H0 : dated k None ∅) by (split; [by rewrite lookup_empty|intros it; by rewrite lookup_empty]).
  destruct (undisturbed_waits min k ops None _ _ _ _ _ E1 H0 Hu) as (Hc1 & Ha & Hl1 & _). rewrite Hlast in Hl1.
  cbn [run_events] in E. pose proof (dispatch_calls t min items1 k) as Hc. pose proof (dispatch_lookup t min items1 k) as Hd.
  destruct (dispatch_events t min items1) as [out items2]. cbn [fst snd] in *. injection E as <- <- <-. rewrite app_nil_r, calls_app, Hc1, Hc, Hd.
  unfold pending_ips, pending in Ha. rewrite lookup_empty in Ha. destruct (items1 !! k) as [it|]; [|done]. injection Hl1 as Hit.
  cbn [mbind option_bind fmap option_fmap option_map default] in *. unfold due. rewrite Hit, (proj2 (Z.ltb_lt _ _)) by done. split; [|done].
  cbn [app]. f_equal. set_solver.
Qed.

(** A program that dispatches less often than every ten minutes loses reports. *)
Lemma slow_dispatch_drops : run_events 900000 [Received 1 0 (lit "noise"); Dispatch (601 * nano); ClearTurn (601 * nano) 601] 0 ∅ = ([], 601, ∅).
Proof. vm_compute. reflexivity. Qed.

(** ** What a server sends *)

(** The message that tells of an event. *)
Definition event_text (ty : Z) (payload : bytes) : bytes := lit "12|" ++ to_string ty ++ lit "|" ++ payload.

Lemma event_text_fields ty payload : in_range I32 ty ->
  event_fields (event_text ty payload) = (12, ty, Some (3 + length (to_string ty))%nat) /\
  after_bar (event_text ty payload) (Some (3 + length (to_string ty))%nat) = payload.
Proof.
  intros Hr. unfold event_fields, event_text, bar. change (lit "|") with [x7c].
  change (lit "12|" ++ to_string ty ++ [x7c] ++ payload) with (lit "12" ++ x7c :: to_string ty ++ x7c :: payload).
  assert (Hn : x7c ∉ lit "12") by (by apply (bool_decide_unpack _)).
  rewrite (str_find_char_app x7c (lit "12")) by done. change (length (lit "12")) with 2%nat.
  unfold str_find_at. set (str := lit "12" ++ x7c :: to_string ty ++ x7c :: payload).
  assert (Hd : drop (2 + 1) str = to_string ty ++ x7c :: payload) by reflexivity.
  assert (Hlen : (length str <? 2 + 1)%nat = false) by (apply Nat.ltb_ge; unfold str; simpl; lia).
  rewrite Hlen, Hd, str_find_char_app by (by apply to_string_not_elem). cbn [fmap option_fmap option_map].
  change (default 0 (stoi I32 (take 2 str))) with 12. cbn [Z.eqb Pos.eqb].
  replace (2 + 1 + length (to_string ty) - 2)%nat with (length (to_string ty) + 1)%nat by lia.
  replace (to_string ty ++ x7c :: payload) with ((to_string ty ++ [x7c]) ++ payload) by (by rewrite <- app_assoc).
  replace (length (to_string ty) + 1)%nat with (length (to_string ty ++ [x7c])) by (rewrite length_app; simpl; lia).
  rewrite take_app_length, stoi_to_string_app by done. split; [done|].
  unfold after_bar, str. change (drop (3 + length (to_string ty) + 1) (lit "12" ++ x7c :: to_string ty ++ x7c :: payload))
    with (drop (length (to_string ty) + 1) (to_string ty ++ x7c :: payload)). apply drop_app_cons.
Qed.

Lemma event_text_key ty payload : in_range I32 ty ->
  event_key (event_text ty payload) = if ty <? 0 then lit "000000000" ++ numeric_to_chars I32 ty ++ payload else event_text ty payload.
Proof. intros Hr. unfold event_key. destruct (event_text_fields ty payload Hr) as [-> E]. by rewrite E. Qed.

(** Different events are collected apart. *)
Theorem event_keys_differ ty payload ty' payload' : in_range I32 ty -> in_range I32 ty' ->
  event_key (event_text ty payload) = event_key (event_text ty' payload') -> (ty, payload) = (ty', payload').
Proof.
  intros Hr Hr' E. assert (Ht : event_text ty payload = event_text ty' payload' -> (ty, payload) = (ty', payload')).
  { intros E'. destruct (event_text_fields ty payload Hr) as [F A], (event_text_fields ty' payload' Hr') as [F' A'].
    rewrite E' in F, A. rewrite F in F'. injection F' as <- _. congruence. }
  rewrite !event_text_key in E by done. destruct (Z.ltb_spec ty 0), (Z.ltb_spec ty' 0).
  - apply app_inj_1 in E as [_ E]; [|done]. apply app_inj_1 in E as [E ->]; [|by rewrite !length_numeric_to_chars].
    apply numeric_to_chars_inj in E; [by rewrite E|done|done].
  - done.
  - done.
  - by apply Ht.
Qed.

Section with_server.
Context `{JEnv} `{JdbEngine} (inflate : bytes -> option bytes) (shash : bytes -> Z) (decrypt : bytes -> bytes -> bytes -> bytes).
Context (get_hash_of_file : fs -> bytes -> Z) (opens : bytes -> bool) (file_names : fs -> bytes -> list bytes).

Abbreviation handle := (on_message inflate shash decrypt get_hash_of_file opens file_names).

(** C17: an event with a name, from the program that writes it to the program that listens.  The
    server answers the writer and tells its listeners of the event; a listener that has not heard
    of it asks for it with the message that its callback sends, and the server answers with the
    type and the value that were written. *)
Theorem named_event_delivered m1 m2 ty name value id1 id2 ip t items n :
  0 < ty -> in_range I32 ty -> 0 < zlen name + zlen value -> zlen name + 8 <= max_val I32 -> five_digits id1 -> five_digits id2 ->
  items !! event_text ty name = None ->
  exists n' request,
    handle m1 true (lit "12" ++ to_string id1 ++ enc_event ty name value) n =
      Some (true, [Reply (lit "1201" ++ to_string id1); NewEvent ty (event_text ty name)], n') /\
    (on_event ip id2 t (event_text ty name) items).1 = Some request /\
    handle m2 true request n' = Some (true, [Reply (lit "1101" ++ to_string id2 ++ numeric_to_chars I32 ty ++ value)], n').
Proof.
  intros Hty Hr Hv Hn H1 H2 Hi. set (db' := put_storage ty name (Event ty value (m_now m1) 0) (edb n)).
  exists (set_edb db' n), (x31 :: x31 :: to_string id2 ++ to_string ty ++ lit "|" ++ name). split; [|split].
  - change (lit "12" ++ to_string id1 ++ enc_event ty name value) with (x31 :: x32 :: to_string id1 ++ enc_event ty name value).
    rewrite on_request by done. change (default 0 (stoi I32 [x31; x32])) with 12. cbn [dispatch].
    rewrite insert_enc_event by done. done.
  - unfold on_event. destruct (event_text_fields ty name Hr) as [Ef Ea]. rewrite Ef, event_text_key by done.
    rewrite (proj2 (Z.ltb_ge ty 0)) by lia. rewrite Hi. cbn [fst andb Z.eqb Pos.eqb]. rewrite (proj2 (Z.ltb_lt 0 ty)), Ea by done. done.
  - rewrite on_request by done. change (default 0 (stoi I32 [x31; x31])) with 11. cbn [dispatch set_edb edb].
    unfold db'. rewrite !retrieve_put by done. done.
Qed.

(** [insert] of what [prepare_edb] makes, for a type that is not positive. *)
Lemma insert_prepare_edb now tm ty v ttl db : ty <= 0 -> in_range I32 ty -> in_range I32 ttl -> v <> [] -> zlen v + 20 <= max_val I32 ->
  let d := drop 4 (prepare_edb tm ty v ttl) in
  EManager.insert now (prepare_edb tm ty v ttl) db = (Event ty d date_time_init 0, put_queue ty (Event ty d now ttl) db).
Proof.
  change (max_val I32) with 2147483647. intros Hty Hr Ht Hv Hl.
  assert (Hv' : 0 < zlen v) by (destruct v; [done|simpl; lia]).
  set (body := numeric_to_chars I32 ttl ++ numeric_to_chars I64 tm ++ v). assert (Hb : zlen body = 12 + zlen v) by (unfold body; len).
  unfold prepare_edb. fold body. rewrite wrap_id by range_lia. set (d := numeric_to_chars I32 ty ++ numeric_to_chars I32 (zlen body) ++ body).
  assert (Hd : zlen d = 20 + zlen v) by (unfold d; len).
  assert (F1 : zsub d 0 4 = numeric_to_chars I32 ty) by (unfold d; zfield).
  assert (F2 : zsub d 4 4 = numeric_to_chars I32 (zlen body)) by (unfold d; zfield).
  assert (F3 : zsub d 8 4 = numeric_to_chars I32 ttl) by (unfold d, body; zfield).
  assert (F4 : zsub d 4 (zlen d) = drop 4 d) by (rewrite zsub_take_drop; change (Z.to_nat 4) with 4%nat; apply take_ge; rewrite length_drop; lia).
  cbv zeta. unfold EManager.insert. rewrite F1, F2, F3, F4, !chars_to_numeric_to_chars by (done || range_lia).
  rewrite (wrap_id I32), (wrap_id U64) by range_lia.
  rewrite (proj2 (Z.ltb_lt 8 _)), (proj2 (Z.leb_le _ _)), (proj2 (Z.ltb_ge 0 ty)), (proj2 (Z.ltb_lt 12 _)) by lia. done.
Qed.

(** The only frame of a text is taken out of it. *)
Lemma fetch_one_frame (data : bytes) (p tm : Z) (v : bytes) : 0 <= p -> zlen data = p + 16 + zlen v -> zlen data < 2 ^ 31 ->
  chars_to_numeric I32 (zsub data p 4) = 12 + zlen v -> chars_to_numeric I64 (zsub data (p + 8) 8) = tm -> zsub data (p + 16) (zlen v) = v ->
  fetch_edb_content 2 data p = Some [(tm, v)].
Proof.
  intros Hp Hl Hb F1 F2 F3.
  assert (E : fetch_edb_content 1 data (p + (12 + zlen v + 4)) = Some []).
  { cbn [fetch_edb_content]. by rewrite (proj2 (Z.ltb_ge _ _)) by lia. }
  change (fetch_edb_content 2 data p) with (
    if p + 4 <? zlen data then
      let data_size := chars_to_numeric I32 (zsub data p 4) in
      if wrap U64 (p + data_size + 4) <=? zlen data then
        if 12 <=? data_size then
          let t := chars_to_numeric I64 (zsub data (p + 8) 8) in
          rest ← fetch_edb_content 1 data (wrap U64 (p + (data_size + 4)));
          Some ((t, zsub data (p + 16) (data_size - 12)) :: rest)
        else Some []
      else Some []
    else Some []).
  rewrite F1, F2. cbv zeta. rewrite (proj2 (Z.ltb_lt _ _)) by lia. rewrite !wrap_id by range_lia.
  rewrite (proj2 (Z.leb_le _ _)), (proj2 (Z.leb_le 12 _)), E by lia. replace (12 + zlen v - 12) with (zlen v) by lia. by rewrite F3.
Qed.

(** An event of a negative type, which is queued.  The server answers the writer and tells its
    listeners; the listener's callback collects the event under a key from which
    [fetch_edb_content] takes the time of the write and the value. *)
Theorem queued_event_delivered m ty tm v ttl id n :
  ty < 0 -> in_range I32 ty -> in_range I32 ttl -> in_range I64 tm -> v <> [] -> zlen v + 40 <= max_val I32 -> five_digits id ->
  exists n' text,
    handle m true (lit "12" ++ to_string id ++ prepare_edb tm ty v ttl) n =
      Some (true, [Reply (lit "1201" ++ to_string id); NewEvent ty text], n') /\
    fetch_edb_content 2 (event_key text) 13 = Some [(tm, v)].
Proof.
  intros Hty Hr Ht Htm Hv Hl Hid. change (max_val I32) with 2147483647 in Hl.
  set (d := drop 4 (prepare_edb tm ty v ttl)).
  exists (set_edb (put_queue ty (Event ty d (m_now m) ttl) (edb n)) n), (event_text ty d). split.
  - change (lit "12" ++ to_string id ++ prepare_edb tm ty v ttl) with (x31 :: x32 :: to_string id ++ prepare_edb tm ty v ttl).
    rewrite on_request by done. change (default 0 (stoi I32 [x31; x32])) with 12. cbn [dispatch].
    rewrite insert_prepare_edb by (done || (change (max_val I32) with 2147483647; lia)). done.
  - rewrite event_text_key, (proj2 (Z.ltb_lt ty 0)) by done.
    set (body := numeric_to_chars I32 ttl ++ numeric_to_chars I64 tm ++ v). assert (Hb : zlen body = 12 + zlen v) by (unfold body; len).
    assert (Ed : d = numeric_to_chars I32 (zlen body) ++ body).
    { unfold d, prepare_edb. fold body. rewrite wrap_id by range_lia. rewrite <- (length_numeric_to_chars I32 ty) at 1. apply drop_app_length. }
    rewrite Ed. set (k := lit "000000000" ++ numeric_to_chars I32 ty ++ numeric_to_chars I32 (zlen body) ++ body).
    assert (Hk : zlen k = 29 + zlen v) by (unfold k; rewrite length_app; change (length (lit "000000000")) with 9%nat; len).
    assert (F1 : zsub k 13 4 = numeric_to_chars I32 (zlen body)) by (unfold k; zfield).
    assert (F2 : zsub k (13 + 8) 8 = numeric_to_chars I64 tm) by (unfold k, body; zfield).
    assert (F3 : zsub k (13 + 16) (zlen v) = v) by (unfold k, body; zfield).
    apply fetch_one_frame; [lia|lia|lia| | |done].
    + by rewrite F1, chars_to_numeric_to_chars, Hb by range_lia.
    + by rewrite F2, chars_to_numeric_to_chars.
Qed.
End with_server.

(** ** Examples *)

#[local] Existing Instance client_env.

(** Three servers report an event, one of them late, with dispatches in between. *)
Definition ex_text : bytes := event_text 7 (lit "door").
Definition ex_ops : list event_op :=
  [Received 1 0 ex_text; Dispatch 50000000; ClearTurn 50000001 700; Received 2 60000000 ex_text; Received 3 61000000 (lit "noise"); Dispatch 160000000].

Lemma events_accounted_witness :
  let r := run_events 100 ex_ops 0 ∅ in
  ⋃ calls ex_text r.1.1 ∪ pending_ips ex_text r.2 ⊆ list_to_set (reports ex_text ex_ops) /\
  (length (calls ex_text r.1.1) + waiting ex_text r.2 <= length (reports ex_text ex_ops))%nat /\
  Forall (fun ips => ips <> ∅) (calls ex_text r.1.1) /\ punctual 100 ex_ops None /\
  ⋃ calls ex_text r.1.1 ∪ pending_ips ex_text r.2 = list_to_set (reports ex_text ex_ops).
Proof.
  intros r. destruct (events_accounted 100 ex_ops 0 ex_text r.1.1 r.1.2 r.2 eq_refl) as (H1 & H2 & H3 & H4).
  assert (Hp : punctual 100 ex_ops None) by (cbn; split; [|exact I]; intros o [= <-]; reflexivity).
  split; [exact H1|]. split; [exact H2|]. split; [exact H3|]. split; [exact Hp|exact (H4 Hp)].
Defined.

Lemma event_called_once_witness :
  let r := run_events 100 (ex_ops ++ [Dispatch 161000001]) 0 ∅ in
  calls ex_text r.1.1 = [list_to_set (reports ex_text ex_ops)] /\ r.2 !! ex_text = None.
Proof.
  intros r. apply (event_called_once 100 ex_ops 0 ex_text 60000000 161000001 r.1.1 r.1.2 r.2).
  - cbn. split; [|split; [|split; [|exact I]]]; intros l [= <-]; vm_compute; (reflexivity || discriminate).
  - reflexivity.
  - reflexivity.
  - reflexivity.
Defined.

Definition ex_server : node := ex_disks.

Lemma named_event_delivered_witness :
  exists n' request,
    on_message ex_inflate (fun _ => 7) (fun c _ _ => c) (fun _ _ => 1) (fun _ => true) (fun _ _ => []) ex_moment true
        (lit "12" ++ to_string 10001 ++ enc_event 7 (lit "door") (lit "open")) ex_server =
      Some (true, [Reply (lit "1201" ++ to_string 10001); NewEvent 7 ex_text], n') /\
    (on_event 1 10002 0 ex_text ∅).1 = Some request /\
    on_message ex_inflate (fun _ => 7) (fun c _ _ => c) (fun _ _ => 1) (fun _ => true) (fun _ _ => []) ex_moment true request n' =
      Some (true, [Reply (lit "1101" ++ to_string 10002 ++ numeric_to_chars I32 7 ++ lit "open")], n').
Proof.
  apply (named_event_delivered ex_inflate (fun _ => 7) (fun c _ _ => c) (fun _ _ => 1) (fun _ => true) (fun _ _ => [])
    ex_moment ex_moment 7 (lit "door") (lit "open") 10001 10002 1 0 ∅ ex_server); try (split; [|]); try reflexivity; vm_compute; discriminate.
Defined.

Lemma queued_event_delivered_witness :
  exists n' text,
    on_message ex_inflate (fun _ => 7) (fun c _ _ => c) (fun _ _ => 1) (fun _ => true) (fun _ _ => []) ex_moment true
        (lit "12" ++ to_string 10001 ++ prepare_edb 1700000000 (-5) (lit "val") 60) ex_server =
      Some (true, [Reply (lit "1201" ++ to_string 10001); NewEvent (-5) text], n') /\
    fetch_edb_content 2 (event_key text) 13 = Some [(1700000000, lit "val")].
Proof.
  apply (queued_event_delivered ex_inflate (fun _ => 7) (fun c _ _ => c) (fun _ _ => 1) (fun _ => true) (fun _ _ => [])
    ex_moment (-5) 1700000000 (lit "val") 60 10001 ex_server); try (split; [|]); try reflexivity; vm_compute; discriminate.
Defined.
